(** * Weapon control core: control state machine, engagement managers,
      mine drop-plan store and launch-tube coordinator.

    A shallow embedding of the C++ sources (namespace [WeaponControl]) and
    the properties of the specification that were checked against it.

    Conventions of the embedding
    - [float]/[double] values (delays, step durations, latitudes, ...) are
      rationals [Q]. The number of 50 ms slices of a wait is computed as
      the code computes it, in single precision ([Float32]); elsewhere
      the arithmetic is exact. Infinities and NaN are not modelled.
    - unsigned integers are [nat]; no claim below depends on wrap-around.
    - a [CancellationToken] is a handle on a shared [atomic<bool>] cell: the
      handle is the cell's number, and the set of cells that have been set
      lives in the [World]; copying a token copies the number, so copies
      alias the same cell, as the [shared_ptr] does.
    - other threads are an environment [env]: [env t] is the set of cells
      that get cancelled by somebody else while the calling thread is in
      its [t]-th 50 ms [sleep_for].
    - [std::cout] output is dropped; what observers are told, which cells
      are cancelled and which values are written to [m_currentState] is
      recorded, in order, in the [World]'s log. *)

From Stdlib Require Import QArith Lqa Qround.
From stdpp Require Import base gmap list strings pretty.

Open Scope nat_scope.

(* ===================================================================== *)
(** ** CommonTypes.h *)
(* ===================================================================== *)

(** The two enumerations are declared in the DDS message header; only the
    enumerators the sources name are listed. *)
Inductive EN_WPN_CTRL_STATE : Set :=
| WPN_CTRL_STATE_OFF
| WPN_CTRL_STATE_POC
| WPN_CTRL_STATE_ON
| WPN_CTRL_STATE_RTL
| WPN_CTRL_STATE_LAUNCH
| WPN_CTRL_STATE_POST_LAUNCH
| WPN_CTRL_STATE_ABORT.

Inductive EN_WPN_KIND : Set :=
| WPN_KIND_NA
| WPN_KIND_ALM
| WPN_KIND_ASM
| WPN_KIND_AAM
| WPN_KIND_WGT
| WPN_KIND_M_MINE.

#[global] Instance EN_WPN_CTRL_STATE_eq_dec : EqDecision EN_WPN_CTRL_STATE.
Proof. solve_decision. Defined.

#[global] Instance EN_WPN_KIND_eq_dec : EqDecision EN_WPN_KIND.
Proof. solve_decision. Defined.

(** [Result<void>]: success, or an [ErrorInfo] whose code is always the
    default [-1] in these sources, so only the message is kept. *)
Inductive Result : Type :=
| success
| failure (message : string).

Definition isSuccess (r : Result) : bool :=
  match r with success => true | failure _ => false end.

Definition isFailure (r : Result) : bool := negb (isSuccess r).

#[global] Instance Result_eq_dec : EqDecision Result.
Proof. solve_decision. Defined.

Definition StateToString (state : EN_WPN_CTRL_STATE) : string :=
  match state with
  | WPN_CTRL_STATE_OFF => "OFF"
  | WPN_CTRL_STATE_POC => "POC"
  | WPN_CTRL_STATE_ON => "ON"
  | WPN_CTRL_STATE_RTL => "RTL"
  | WPN_CTRL_STATE_LAUNCH => "LAUNCH"
  | WPN_CTRL_STATE_POST_LAUNCH => "POST_LAUNCH"
  | WPN_CTRL_STATE_ABORT => "ABORT"
  end.

(** A token handle: the number of the shared cell it points to. *)
Definition CancellationToken : Set := nat.

(** What the outside can observe of a run, oldest entry first. *)
Inductive Event : Type :=
| EvCancel (cell : CancellationToken)
    (* CancellationToken::cancel stored true in the cell *)
| EvState (old new : EN_WPN_CTRL_STATE)
    (* a value was written to m_currentState (exchange or store) *)
| EvStateChanged (observer tube : nat) (old new : EN_WPN_CTRL_STATE)
    (* IStateObserver::onStateChanged was called on an observer *)
| EvLaunchStatusChanged (observer tube : nat) (launched : bool)
    (* IStateObserver::onLaunchStatusChanged was called on an observer *)
| EvRequest (tube : nat) (target : EN_WPN_CTRL_STATE)
            (token : CancellationToken) (tokenCancelled : bool)
    (* LaunchTube::requestWeaponStateChange was called; the flag is the
       token's value at the call *)
| EvEngagementPlan (tube : nat) (valid : bool).
    (* the tube's engagement-plan callback was called *)

#[global] Instance Event_eq_dec : EqDecision Event.
Proof. solve_decision. Defined.

(** The part of the process state shared between objects and threads. *)
Record World : Type := mkWorld {
  cancelled : gset nat;   (* cells whose atomic<bool> is true *)
  next_cell : nat;        (* next cell make_shared will hand out *)
  now : nat;              (* 50 ms slices the thread has slept so far *)
  log : list Event
}.

Definition emit (e : Event) (w : World) : World :=
  mkWorld (cancelled w) (next_cell w) (now w) (log w ++ [e]).

(** [CancellationToken()] : a fresh cell holding false. *)
Definition newToken (w : World) : CancellationToken * World :=
  (next_cell w,
   mkWorld (cancelled w ∖ {[next_cell w]}) (S (next_cell w)) (now w) (log w)).

(** [token.cancel()] *)
Definition cancel (token : CancellationToken) (w : World) : World :=
  emit (EvCancel token)
       (mkWorld ({[token]} ∪ cancelled w) (next_cell w) (now w) (log w)).

(** [token.isCancelled()] *)
Definition isCancelled (token : CancellationToken) (w : World) : bool :=
  bool_decide (token ∈ cancelled w).

(** [std::this_thread::sleep_for(50 ms)]: the other threads run. *)
Definition sleep_for_interval (env : nat → gset nat) (w : World) : World :=
  mkWorld (env (now w) ∪ cancelled w) (next_cell w) (S (now w)) (log w).

(** A small state monad, used for the member functions that mutate an
    object and the world. *)
Definition St (S A : Type) : Type := S → A * S.

Definition ret {S A : Type} (a : A) : St S A := λ s, (a, s).

Definition bind {S A B : Type} (c : St S A) (k : A → St S B) : St S B :=
  λ s, let '(a, s') := c s in k a s'.

Declare Scope st_scope.
Delimit Scope st_scope with st.
Notation "'do' x <- c ; k" := (bind c (λ x, k))
  (at level 10, x name, c at level 100, k at level 200) : st_scope.
Notation "'run' c ; k" := (bind c (λ _, k))
  (at level 10, c at level 100, k at level 200) : st_scope.

(** [when b c]: [if (b) c;] *)
Definition when {S : Type} (b : bool) (c : St S unit) : St S unit :=
  if b then c else ret tt.

(** [for (x : xs) body(x);] *)
Fixpoint for_each {S A : Type} (xs : list A) (body : A → St S unit)
  : St S unit :=
  match xs with
  | [] => ret tt
  | x :: xs' => bind (body x) (λ _, for_each xs' body)
  end.

(* ===================================================================== *)
(** ** Single-precision arithmetic *)
(* ===================================================================== *)

(** The arithmetic of a C++ [float] (IEEE 754 binary32: a significand of
    24 bits, exponents from -126 to 127, subnormal numbers), each operation
    rounded to the nearest [float], ties to the even significand. A
    [float] is the rational it denotes. There are no infinities here: a
    result of magnitude [2^128] or more stands for one, and is out of the
    range of every [int]. *)
Module Float32.

(** The fraction [n / d] divided by [2^e], as a numerator and a
    denominator. *)
Definition scale (e : Z) (n d : positive) : Z * Z :=
  if (0 <=? e)%Z then (Z.pos n, Z.pos d * 2 ^ e)%Z
  else (Z.pos n * 2 ^ (- e), Z.pos d)%Z.

(** The exponent [e] with [2^e <= n / d < 2^(e+1)]. *)
Definition ilog2 (n d : positive) : Z :=
  let e := (Z.log2 (Z.pos n) - Z.log2 (Z.pos d))%Z in
  let '(a, b) := scale e n d in
  if (a <? b)%Z then (e - 1)%Z else e.

(** The number [k * 2^s], in lowest terms. *)
Definition of_scaled (k s : Z) : Q :=
  if (0 <=? s)%Z then inject_Z (k * 2 ^ s)
  else Qred (k # Z.to_pos (2 ^ (- s))).

(** The [float] nearest to [n / d]: a multiple [k * 2^s] of the unit in
    the last place [2^s], which is [2^(e-23)] for a number of exponent [e]
    and [2^-149] for the subnormal ones. *)
Definition round_pos (n d : positive) : Q :=
  let e := ilog2 n d in
  let s := Z.max (e - 23) (-149) in
  let '(a, b) := scale s n d in
  let k := (a / b)%Z in
  let r := (a mod b)%Z in
  let k' := match (2 * r ?= b)%Z with
            | Lt => k
            | Gt => (k + 1)%Z
            | Eq => if Z.even k then k else (k + 1)%Z
            end in
  of_scaled k' s.

(** The conversion to [float]. *)
Definition round (x : Q) : Q :=
  match Qnum x with
  | Z0 => 0
  | Z.pos n => round_pos n (Qden x)
  | Z.neg n => - round_pos n (Qden x)
  end.

(** [x * y] and [x / y] on [float]s; the divisor is not zero where [div]
    is used. *)
Definition mul (x y : Q) : Q := round (x * y).
Definition div (x y : Q) : Q := round (x / y).

(** [static_cast<int>(x)], for an [x] whose integer part is an [int]: the
    fraction is dropped. *)
Definition truncate (x : Q) : Z := Qnum x `quot` Z.pos (Qden x).

End Float32.

(* ===================================================================== *)
(** ** IWeapon.h, WeaponBase.cpp *)
(* ===================================================================== *)

Module Weapon.

Record LaunchStep : Type := mkLaunchStep {
  description : string;
  duration : Q
}.

Record WeaponBase : Type := mkWeaponBase {
  m_weaponKind : EN_WPN_KIND;
  m_tubeNumber : nat;
  m_currentState : EN_WPN_CTRL_STATE;
  m_launched : bool;
  m_fireSolutionReady : bool;
  m_launchSteps : list LaunchStep;
  m_onDelay : Q;
  m_observers : list nat;        (* the observers that are still alive *)
  m_stateStartTime : nat;
  m_currentCancellationToken : CancellationToken
}.

Definition set_currentState (v : EN_WPN_CTRL_STATE) (w : WeaponBase) :=
  mkWeaponBase (m_weaponKind w) (m_tubeNumber w) v (m_launched w)
    (m_fireSolutionReady w) (m_launchSteps w) (m_onDelay w) (m_observers w)
    (m_stateStartTime w) (m_currentCancellationToken w).

Definition set_launched (v : bool) (w : WeaponBase) :=
  mkWeaponBase (m_weaponKind w) (m_tubeNumber w) (m_currentState w) v
    (m_fireSolutionReady w) (m_launchSteps w) (m_onDelay w) (m_observers w)
    (m_stateStartTime w) (m_currentCancellationToken w).

Definition set_fireSolutionReady (v : bool) (w : WeaponBase) :=
  mkWeaponBase (m_weaponKind w) (m_tubeNumber w) (m_currentState w)
    (m_launched w) v (m_launchSteps w) (m_onDelay w) (m_observers w)
    (m_stateStartTime w) (m_currentCancellationToken w).

Definition set_tubeNumber (v : nat) (w : WeaponBase) :=
  mkWeaponBase (m_weaponKind w) v (m_currentState w) (m_launched w)
    (m_fireSolutionReady w) (m_launchSteps w) (m_onDelay w) (m_observers w)
    (m_stateStartTime w) (m_currentCancellationToken w).

Definition set_observers (v : list nat) (w : WeaponBase) :=
  mkWeaponBase (m_weaponKind w) (m_tubeNumber w) (m_currentState w)
    (m_launched w) (m_fireSolutionReady w) (m_launchSteps w) (m_onDelay w) v
    (m_stateStartTime w) (m_currentCancellationToken w).

Definition set_stateStartTime (v : nat) (w : WeaponBase) :=
  mkWeaponBase (m_weaponKind w) (m_tubeNumber w) (m_currentState w)
    (m_launched w) (m_fireSolutionReady w) (m_launchSteps w) (m_onDelay w)
    (m_observers w) v (m_currentCancellationToken w).

Definition set_currentCancellationToken (v : CancellationToken)
    (w : WeaponBase) :=
  mkWeaponBase (m_weaponKind w) (m_tubeNumber w) (m_currentState w)
    (m_launched w) (m_fireSolutionReady w) (m_launchSteps w) (m_onDelay w)
    (m_observers w) (m_stateStartTime w) v.

(** The object a member function runs on, with the shared world. *)
Definition Sys : Type := WeaponBase * World.
Definition M (A : Type) : Type := St Sys A.

Definition self {A : Type} (f : WeaponBase → A) : M A := λ s, (f s.1, s).
Definition modify (f : WeaponBase → WeaponBase) : M unit :=
  λ s, (tt, (f s.1, s.2)).
Definition world {A : Type} (f : World → A) : M A := λ s, (f s.2, s).
Definition effect (f : World → World) : M unit := λ s, (tt, (s.1, f s.2)).

(** [WeaponBase::s_defaultTransitionMap]: a [std::map] from a state to the
    [std::set] of its successors, in the order it is initialised. *)
Definition s_defaultTransitionMap
  : list (EN_WPN_CTRL_STATE * list EN_WPN_CTRL_STATE) :=
  [ (WPN_CTRL_STATE_OFF, [WPN_CTRL_STATE_ON]);
    (WPN_CTRL_STATE_ON, [WPN_CTRL_STATE_OFF]);
    (WPN_CTRL_STATE_RTL, [WPN_CTRL_STATE_LAUNCH; WPN_CTRL_STATE_OFF]);
    (WPN_CTRL_STATE_LAUNCH, [WPN_CTRL_STATE_ABORT]);
    (WPN_CTRL_STATE_ABORT, [WPN_CTRL_STATE_OFF]);
    (WPN_CTRL_STATE_POST_LAUNCH, [WPN_CTRL_STATE_OFF]) ].

(** No weapon kind overrides [getValidTransitionMap]. *)
Definition getValidTransitionMap : list (EN_WPN_CTRL_STATE * list EN_WPN_CTRL_STATE) :=
  s_defaultTransitionMap.

(** [map::find] *)
Fixpoint find (m : list (EN_WPN_CTRL_STATE * list EN_WPN_CTRL_STATE))
    (key : EN_WPN_CTRL_STATE) : option (list EN_WPN_CTRL_STATE) :=
  match m with
  | [] => None
  | (k, v) :: m' => if decide (k = key) then Some v else find m' key
  end.

Definition isValidTransition (from to : EN_WPN_CTRL_STATE) : bool :=
  match find getValidTransitionMap from with
  | Some successors => bool_decide (to ∈ successors)
  | None => false
  end.

Section WithEnvironment.

Variable env : nat → gset nat.

Local Open Scope st_scope.

Definition notifyStateChanged (oldState newState : EN_WPN_CTRL_STATE)
  : M unit :=
  do observers <- self m_observers;
  do tube <- self m_tubeNumber;
  for_each observers (λ observer,
    effect (emit (EvStateChanged observer tube oldState newState))).

Definition notifyLaunchStatusChanged (launched : bool) : M unit :=
  do observers <- self m_observers;
  do tube <- self m_tubeNumber;
  for_each observers (λ observer,
    effect (emit (EvLaunchStatusChanged observer tube launched))).

Definition setState (newState : EN_WPN_CTRL_STATE) : M unit :=
  do oldState <- self m_currentState;
  run modify (set_currentState newState);
  run effect (emit (EvState oldState newState));
  do t <- world now;
  run modify (set_stateStartTime t);
  when (bool_decide (oldState ≠ newState))
       (notifyStateChanged oldState newState).

Definition setLaunched (launched : bool) : M unit :=
  do oldValue <- self m_launched;
  run modify (set_launched launched);
  when (bool_decide (oldValue ≠ launched))
    (run notifyLaunchStatusChanged launched;
     when launched (setState WPN_CTRL_STATE_POST_LAUNCH)).

Definition checkInterlockConditions : M bool := self m_fireSolutionReady.

Definition setFireSolutionReady (ready : bool) : M unit :=
  modify (set_fireSolutionReady ready).

(** [static_cast<int>(duration * 1000 / interval_ms)] with
    [interval_ms = 50]. The parameter is a [float], so [m_onDelay], which
    is initialised from the configured [double], is converted first; the
    product and the quotient are [float]s as well. For 3.0 this is 60, for
    0.35 it is 7, and for 8.15 it is 162, the nearest [float] being just
    below 8.15. *)
Definition total_intervals (duration : Q) : Z :=
  let interval_ms := 50%Q in
  Float32.truncate
    (Float32.div (Float32.mul (Float32.round duration) 1000) interval_ms).


(** The body of the polling loop, for the [n] iterations that remain. *)
Fixpoint sleep_loop (n : nat) (token : CancellationToken) : M bool :=
  match n with
  | O => ret true
  | S n' =>
      do c1 <- world (isCancelled token);
      do mine <- self m_currentCancellationToken;
      do c2 <- world (isCancelled mine);
      if c1 || c2 then ret false
      else
        run effect (sleep_for_interval env);
        sleep_loop n' token
  end.

Definition sleepWithCancellationCheck (duration : Q)
    (token : CancellationToken) : M bool :=
  sleep_loop (Z.to_nat (total_intervals duration)) token.

(** [onStateEnter], [onStateExit] and [onStateUpdate] only print in every
    weapon kind and are left out. *)
Definition processTurnOn (token : CancellationToken) : M Result :=
  run setState WPN_CTRL_STATE_POC;
  do onDelay <- self m_onDelay;
  do completed <- sleepWithCancellationCheck onDelay token;
  if negb completed then
    run setState WPN_CTRL_STATE_OFF;
    ret (failure "Power-on check cancelled")
  else
    run setState WPN_CTRL_STATE_ON;
    ret success.

Definition processTurnOff : M Result :=
  do mine <- self m_currentCancellationToken;
  run effect (cancel mine);
  run setState WPN_CTRL_STATE_OFF;
  ret success.

(** The [for] over [m_launchSteps] of [processLaunch]; [true] when the
    loop ran to its end, [false] when it returned from inside. *)
Fixpoint launch_loop (steps : list LaunchStep) (token : CancellationToken)
  : M bool :=
  match steps with
  | [] => ret true
  | step :: steps' =>
      do c <- world (isCancelled token);
      if c then
        run setState WPN_CTRL_STATE_ABORT;
        ret false
      else
        do completed <- sleepWithCancellationCheck (duration step) token;
        if negb completed then
          run setState WPN_CTRL_STATE_ABORT;
          ret false
        else launch_loop steps' token
  end.

Definition processLaunch (token : CancellationToken) : M Result :=
  run setState WPN_CTRL_STATE_LAUNCH;
  do steps <- self m_launchSteps;
  do finished <- launch_loop steps token;
  if negb finished then ret (failure "Launch sequence aborted")
  else
    run setLaunched true;
    ret success.

Definition processAbort : M Result :=
  do mine <- self m_currentCancellationToken;
  run effect (cancel mine);
  run setState WPN_CTRL_STATE_ABORT;
  ret success.

(** Nothing called inside the [try] block throws
    [OperationCancelledException], so the handler is unreachable. *)
Definition requestStateChange (newState : EN_WPN_CTRL_STATE)
    (token : CancellationToken) : M Result :=
  do currentState <- self m_currentState;
  if bool_decide (newState = WPN_CTRL_STATE_ABORT) then
    do mine <- self m_currentCancellationToken;
    run effect (cancel mine);
    processAbort
  else if negb (isValidTransition currentState newState) then
    ret (failure ("Invalid transition from " +:+ StateToString currentState
                    +:+ " to " +:+ StateToString newState))
  else
    run modify (set_currentCancellationToken token);
    match newState with
    | WPN_CTRL_STATE_OFF => processTurnOff
    | WPN_CTRL_STATE_ON => processTurnOn token
    | WPN_CTRL_STATE_LAUNCH => processLaunch token
    | _ => run setState newState; ret success
    end.

Definition reset : M unit :=
  do oldState <- self m_currentState;
  run modify (set_currentState WPN_CTRL_STATE_OFF);
  run effect (emit (EvState oldState WPN_CTRL_STATE_OFF));
  run modify (set_launched false);
  run modify (set_fireSolutionReady false);
  do mine <- self m_currentCancellationToken;
  run effect (cancel mine);
  do t <- world now;
  modify (set_stateStartTime t).

Definition initialize (tubeNumber : nat) : M Result :=
  run modify (set_tubeNumber tubeNumber);
  run reset;
  ret success.

Definition update : M unit :=
  do currentState <- self m_currentState;
  if bool_decide (currentState = WPN_CTRL_STATE_ON) then
    do ok <- checkInterlockConditions;
    when ok (setState WPN_CTRL_STATE_RTL)
  else if bool_decide (currentState = WPN_CTRL_STATE_RTL) then
    do ok <- checkInterlockConditions;
    when (negb ok) (setState WPN_CTRL_STATE_ON)
  else ret tt.

Definition addStateObserver (observer : nat) : M unit :=
  do observers <- self m_observers;
  modify (set_observers (observers ++ [observer])).

Definition removeStateObserver (observer : nat) : M unit :=
  do observers <- self m_observers;
  modify (set_observers
            (filter (λ o, o ≠ observer) observers)).

End WithEnvironment.

(** [WeaponBase::WeaponBase(weaponKind)], with the configured
    [Weapon.DefaultLaunchDelay]; the member token and the start time are
    default-constructed. The four weapon kinds of the factory replace the
    step descriptions only: three steps of one second each. *)
Definition new_WeaponBase (weaponKind : EN_WPN_KIND) (defaultLaunchDelay : Q)
    (w : World) : WeaponBase * World :=
  let '(token, w') := newToken w in
  (mkWeaponBase weaponKind 0 WPN_CTRL_STATE_OFF false false
     [ mkLaunchStep "Power On Check" 1;
       mkLaunchStep "System Verification" 1;
       mkLaunchStep "Launch Sequence" 1 ]
     defaultLaunchDelay [] 0 token, w').

End Weapon.

(* ===================================================================== *)
(** ** Positions and messages of the DDS header *)
(* ===================================================================== *)

(** The message types come from [dds_message/AIEP_AIEP_.hpp], which is not
    among the sources; each is given the accessors the sources call on it.
    [ST_WEAPON_WAYPOINT] and [ST_3D_GEODETIC_POSITION] are read through the
    same three accessors and passed one for the other, so they share a
    record. *)
Record ST_3D_GEODETIC_POSITION : Type := mkGeo3D {
  dLatitude : Q;
  dLongitude : Q;
  fDepth : Q
}.

Abbreviation ST_WEAPON_WAYPOINT := ST_3D_GEODETIC_POSITION (only parsing).

(** A default-constructed position. *)
Definition zero_position : ST_3D_GEODETIC_POSITION := mkGeo3D 0 0 0.

Module SGeo.
Record SGEODETIC_POSITION : Type := mkSGeo {
  dLatitude : Q;
  dLongitude : Q;
  fAltitude : Q
}.
End SGeo.
Abbreviation SGEODETIC_POSITION := SGeo.SGEODETIC_POSITION.

Record TRKMGR_SYSTEMTARGET_INFO : Type := mkTrack {
  unTargetSystemID : nat;
  stGeodeticPosition : ST_3D_GEODETIC_POSITION
}.

Record ST_M_MINE_PLAN_INFO : Type := mkMinePlan {
  sListID : nat;
  usDroppingPlanNumber : nat;
  stLaunchPos : ST_3D_GEODETIC_POSITION;
  stDropPos : ST_3D_GEODETIC_POSITION;
  usWaypointCnt : nat;
  stWaypoint : list ST_WEAPON_WAYPOINT   (* the array of eight slots *)
}.

(** [stWaypoint()[i]]: slot [i] of the array. *)
Definition slot (a : list ST_WEAPON_WAYPOINT) (i : nat) : ST_WEAPON_WAYPOINT :=
  default zero_position (a !! i).

Definition new_ST_M_MINE_PLAN_INFO : ST_M_MINE_PLAN_INFO :=
  mkMinePlan 0 0 zero_position zero_position 0 (replicate 8 zero_position).

(** [x < y] and [x > y] on the rationals that stand for floats. *)
Definition Qltb (x y : Q) : bool := negb (Qle_bool y x).

(** [std::min(a, b)] *)
Definition std_min (a b : Q) : Q := if Qltb b a then b else a.

(* ===================================================================== *)
(** ** IEngagementManager.h and the concrete managers of the factory *)
(* ===================================================================== *)

Module Engagement.

Record EngagementPlanResult : Type := mkPlanResult {
  tubeNumber : nat;
  weaponKind : EN_WPN_KIND;
  isValid : bool;
  totalTime_sec : Q;
  timeToTarget_sec : Q;
  nextWaypointIndex : nat;
  timeToNextWaypoint_sec : Q;
  trajectory : list ST_3D_GEODETIC_POSITION;
  waypoints : list ST_WEAPON_WAYPOINT;
  currentPosition : ST_3D_GEODETIC_POSITION;
  launchPosition : ST_3D_GEODETIC_POSITION;
  targetPosition : ST_3D_GEODETIC_POSITION
}.

Definition new_EngagementPlanResult : EngagementPlanResult :=
  mkPlanResult 0 WPN_KIND_NA false 0 0 0 0 [] []
    zero_position zero_position zero_position.

Definition set_tubeNumber (v : nat) (r : EngagementPlanResult) :=
  mkPlanResult v (weaponKind r) (isValid r) (totalTime_sec r)
    (timeToTarget_sec r) (nextWaypointIndex r) (timeToNextWaypoint_sec r)
    (trajectory r) (waypoints r) (currentPosition r) (launchPosition r)
    (targetPosition r).

Definition set_weaponKind (v : EN_WPN_KIND) (r : EngagementPlanResult) :=
  mkPlanResult (tubeNumber r) v (isValid r) (totalTime_sec r)
    (timeToTarget_sec r) (nextWaypointIndex r) (timeToNextWaypoint_sec r)
    (trajectory r) (waypoints r) (currentPosition r) (launchPosition r)
    (targetPosition r).

Definition set_isValid (v : bool) (r : EngagementPlanResult) :=
  mkPlanResult (tubeNumber r) (weaponKind r) v (totalTime_sec r)
    (timeToTarget_sec r) (nextWaypointIndex r) (timeToNextWaypoint_sec r)
    (trajectory r) (waypoints r) (currentPosition r) (launchPosition r)
    (targetPosition r).

Definition set_totalTime_sec (v : Q) (r : EngagementPlanResult) :=
  mkPlanResult (tubeNumber r) (weaponKind r) (isValid r) v
    (timeToTarget_sec r) (nextWaypointIndex r) (timeToNextWaypoint_sec r)
    (trajectory r) (waypoints r) (currentPosition r) (launchPosition r)
    (targetPosition r).

Definition set_trajectory (v : list ST_3D_GEODETIC_POSITION)
    (r : EngagementPlanResult) :=
  mkPlanResult (tubeNumber r) (weaponKind r) (isValid r) (totalTime_sec r)
    (timeToTarget_sec r) (nextWaypointIndex r) (timeToNextWaypoint_sec r)
    v (waypoints r) (currentPosition r) (launchPosition r)
    (targetPosition r).

Definition set_currentPosition (v : ST_3D_GEODETIC_POSITION)
    (r : EngagementPlanResult) :=
  mkPlanResult (tubeNumber r) (weaponKind r) (isValid r) (totalTime_sec r)
    (timeToTarget_sec r) (nextWaypointIndex r) (timeToNextWaypoint_sec r)
    (trajectory r) (waypoints r) v (launchPosition r) (targetPosition r).

Definition set_targetPosition (v : ST_3D_GEODETIC_POSITION)
    (r : EngagementPlanResult) :=
  mkPlanResult (tubeNumber r) (weaponKind r) (isValid r) (totalTime_sec r)
    (timeToTarget_sec r) (nextWaypointIndex r) (timeToNextWaypoint_sec r)
    (trajectory r) (waypoints r) (currentPosition r) (launchPosition r) v.

(** The members of [EngagementManagerBase]. [m_ownShipInfo] is written by
    [updateOwnShipInfo] and read nowhere; it is left out. Clock readings
    are seconds. *)
Record EngagementManagerBase : Type := mkBase {
  m_tubeNumber : nat;
  m_weaponKind : EN_WPN_KIND;
  m_launched : bool;
  m_axisCenter : Q * Q;
  m_engagementResult : EngagementPlanResult;
  m_waypoints : list ST_WEAPON_WAYPOINT;
  m_launchPosition : ST_3D_GEODETIC_POSITION;
  m_launchTime : Q;
  m_launchStartTime : Q
}.

Definition new_EngagementManagerBase (kind : EN_WPN_KIND) (clock : Q)
  : EngagementManagerBase :=
  mkBase 0 kind false (0%Q, 0%Q) new_EngagementPlanResult [] zero_position 0 clock.

Definition with_result (f : EngagementPlanResult → EngagementPlanResult)
    (b : EngagementManagerBase) : EngagementManagerBase :=
  mkBase (m_tubeNumber b) (m_weaponKind b) (m_launched b) (m_axisCenter b)
    (f (m_engagementResult b)) (m_waypoints b) (m_launchPosition b)
    (m_launchTime b) (m_launchStartTime b).

Definition set_waypoints (v : list ST_WEAPON_WAYPOINT)
    (b : EngagementManagerBase) : EngagementManagerBase :=
  mkBase (m_tubeNumber b) (m_weaponKind b) (m_launched b) (m_axisCenter b)
    (m_engagementResult b) v (m_launchPosition b)
    (m_launchTime b) (m_launchStartTime b).

Definition base_setLaunched (launched : bool) (b : EngagementManagerBase)
  : EngagementManagerBase :=
  mkBase (m_tubeNumber b) (m_weaponKind b) launched (m_axisCenter b)
    (m_engagementResult b) (m_waypoints b) (m_launchPosition b)
    (m_launchTime b) (m_launchStartTime b).

Definition base_setAxisCenter (axisCenter : Q * Q)
    (b : EngagementManagerBase) : EngagementManagerBase :=
  mkBase (m_tubeNumber b) (m_weaponKind b) (m_launched b) axisCenter
    (m_engagementResult b) (m_waypoints b) (m_launchPosition b)
    (m_launchTime b) (m_launchStartTime b).

(** [EngagementManagerBase::initialize] *)
Definition base_initialize (tubeNumber : nat) (weaponKind : EN_WPN_KIND)
    (b : EngagementManagerBase) : Result * EngagementManagerBase :=
  (success,
   mkBase tubeNumber weaponKind false (m_axisCenter b)
     (set_isValid false
        (set_weaponKind weaponKind
           (set_tubeNumber tubeNumber (m_engagementResult b))))
     (m_waypoints b) (m_launchPosition b) (m_launchTime b)
     (m_launchStartTime b)).

(** [EngagementManagerBase::reset] *)
Definition base_reset (clock : Q) (b : EngagementManagerBase)
  : EngagementManagerBase :=
  mkBase (m_tubeNumber b) (m_weaponKind b) false (m_axisCenter b)
    (set_weaponKind (m_weaponKind b)
       (set_tubeNumber (m_tubeNumber b) new_EngagementPlanResult))
    [] (m_launchPosition b) 0 clock.

Definition isEngagementPlanValid (b : EngagementManagerBase) : bool :=
  isValid (m_engagementResult b).

(** [start + (end - start) * progress], field by field. *)
Definition lerp (from to : ST_3D_GEODETIC_POSITION) (progress : Q)
  : ST_3D_GEODETIC_POSITION :=
  mkGeo3D (dLatitude from + (dLatitude to - dLatitude from) * progress)
          (dLongitude from + (dLongitude to - dLongitude from) * progress)
          (fDepth from + (fDepth to - fDepth from) * progress).

(** [EngagementManagerBase::update], for a manager whose
    [interpolatePosition] is [interpolate]. *)
Definition base_update
    (interpolate : EngagementManagerBase → Q → ST_3D_GEODETIC_POSITION)
    (clock : Q) (b : EngagementManagerBase) : EngagementManagerBase :=
  if m_launched b then
    with_result
      (set_currentPosition (interpolate b (clock - m_launchStartTime b)%Q)) b
  else b.

(** *** Missiles *)

(** The dynamic class of a missile manager; the factory creates one per
    weapon kind. *)
Inductive MissileClass : Set :=
| ALMEngagementManager
| ASMEngagementManager
| AAMEngagementManager.

Record MissileEngagementManagerBase : Type := mkMissile {
  missile_class : MissileClass;
  missile_base : EngagementManagerBase;
  m_systemTargetId : nat;
  m_targetPosition : SGEODETIC_POSITION;
  m_targetInfo : TRKMGR_SYSTEMTARGET_INFO;
  m_hasValidTarget : bool
}.

Definition class_kind (c : MissileClass) : EN_WPN_KIND :=
  match c with
  | ALMEngagementManager => WPN_KIND_ALM
  | ASMEngagementManager => WPN_KIND_ASM
  | AAMEngagementManager => WPN_KIND_AAM
  end.

Definition new_MissileEngagementManager (c : MissileClass) (clock : Q)
  : MissileEngagementManagerBase :=
  mkMissile c (new_EngagementManagerBase (class_kind c) clock) 0
    (SGeo.mkSGeo 0 0 0) (mkTrack 0 zero_position) false.

Definition missile_with_base (f : EngagementManagerBase → EngagementManagerBase)
    (m : MissileEngagementManagerBase) : MissileEngagementManagerBase :=
  mkMissile (missile_class m) (f (missile_base m)) (m_systemTargetId m)
    (m_targetPosition m) (m_targetInfo m) (m_hasValidTarget m).

Definition hasValidTarget (m : MissileEngagementManagerBase) : bool :=
  m_hasValidTarget m.

(** The placeholder flight time each concrete class writes. *)
Definition class_totalTime (c : MissileClass) : Q :=
  match c with
  | ALMEngagementManager => 100
  | ASMEngagementManager => 80
  | AAMEngagementManager => 60
  end.

Section WithConversion.

(** How a [SGEODETIC_POSITION] is stored into a
    [ST_3D_GEODETIC_POSITION]: defined by the absent DDS header. *)
Variable to_3D : SGEODETIC_POSITION → ST_3D_GEODETIC_POSITION.

(** [calculateTrajectory] of the ALM, ASM and AAM managers: the same text
    but for the flight time. *)
Definition missile_calculateTrajectory (m : MissileEngagementManagerBase)
  : Result * MissileEngagementManagerBase :=
  let b := missile_base m in
  let stamp r :=
    set_weaponKind (m_weaponKind b)
      (set_tubeNumber (m_tubeNumber b)
         (set_totalTime_sec (class_totalTime (missile_class m))
            (set_isValid (hasValidTarget m) r))) in
  let fill r :=
    if hasValidTarget m then
      set_trajectory [m_launchPosition b; to_3D (m_targetPosition m)]
        (set_targetPosition (to_3D (m_targetPosition m)) r)
    else r in
  (success, missile_with_base (with_result (λ r, fill (stamp r))) m).

(** [MissileEngagementManagerBase::calculateEngagementPlan] *)
Definition missile_calculateEngagementPlan (m : MissileEngagementManagerBase)
  : Result * MissileEngagementManagerBase :=
  if negb (m_hasValidTarget m) then
    (failure "No valid target set",
     missile_with_base (with_result (set_isValid false)) m)
  else missile_calculateTrajectory m.

Definition setTargetPosition (targetPos : SGEODETIC_POSITION)
    (m : MissileEngagementManagerBase)
  : Result * MissileEngagementManagerBase :=
  missile_calculateEngagementPlan
    (mkMissile (missile_class m) (missile_base m) 0 targetPos
       (m_targetInfo m) true).

Definition setSystemTarget (systemTargetId : nat)
    (m : MissileEngagementManagerBase)
  : Result * MissileEngagementManagerBase :=
  (success,
   mkMissile (missile_class m) (missile_base m) systemTargetId
     (m_targetPosition m) (m_targetInfo m) false).

Definition updateTargetInfo (target : TRKMGR_SYSTEMTARGET_INFO)
    (m : MissileEngagementManagerBase) : MissileEngagementManagerBase :=
  if bool_decide (m_systemTargetId m ≠ 0)
     && bool_decide (unTargetSystemID target = m_systemTargetId m)
  then
    (missile_calculateEngagementPlan
       (mkMissile (missile_class m) (missile_base m) (m_systemTargetId m)
          (SGeo.mkSGeo (dLatitude (stGeodeticPosition target))
                       (dLongitude (stGeodeticPosition target))
                       (- fDepth (stGeodeticPosition target)))
          target true)).2
  else m.

Definition updateWaypoints (waypoints : list ST_WEAPON_WAYPOINT)
    (m : MissileEngagementManagerBase)
  : Result * MissileEngagementManagerBase :=
  if bool_decide (8 < length waypoints) then
    (failure "Too many waypoints for missile (max 8)", m)
  else
    missile_calculateEngagementPlan
      (missile_with_base (set_waypoints waypoints) m).

Definition getWaypoints (m : MissileEngagementManagerBase)
  : list ST_WEAPON_WAYPOINT :=
  m_waypoints (missile_base m).

(** [interpolatePosition] of the three missile managers. Division by a
    zero flight time is [Q]'s (the result is 0), not IEEE's. *)
Definition missile_interpolatePosition (b : EngagementManagerBase)
    (timeSinceLaunch : Q) : ST_3D_GEODETIC_POSITION :=
  let r := m_engagementResult b in
  if bool_decide (length (trajectory r) < 2) then zero_position
  else
    let progress := std_min (timeSinceLaunch / totalTime_sec r) 1 in
    lerp (default zero_position (head (trajectory r)))
         (default zero_position (last (trajectory r))) progress.

Definition missile_update (clock : Q) (m : MissileEngagementManagerBase)
  : MissileEngagementManagerBase :=
  missile_with_base (base_update missile_interpolatePosition clock) m.

End WithConversion.

(** *** Self-propelled mine *)

Record MineEngagementManagerBase : Type := mkMine {
  mine_base : EngagementManagerBase;
  m_dropPlanListNumber : nat;
  m_dropPlanNumber : nat;
  m_dropPlan : ST_M_MINE_PLAN_INFO
}.

Definition new_MineEngagementManager (clock : Q) : MineEngagementManagerBase :=
  mkMine (new_EngagementManagerBase WPN_KIND_M_MINE clock) 0 0
    new_ST_M_MINE_PLAN_INFO.

Definition mine_with_base (f : EngagementManagerBase → EngagementManagerBase)
    (m : MineEngagementManagerBase) : MineEngagementManagerBase :=
  mkMine (f (mine_base m)) (m_dropPlanListNumber m) (m_dropPlanNumber m)
    (m_dropPlan m).

(** [MineEngagementManager::calculateTrajectory] *)
Definition mine_calculateTrajectory (m : MineEngagementManagerBase)
  : Result * MineEngagementManagerBase :=
  let b := mine_base m in
  let stamp r :=
    set_weaponKind (m_weaponKind b)
      (set_tubeNumber (m_tubeNumber b)
         (set_totalTime_sec 300 (set_isValid true r))) in
  let route r :=
    set_trajectory
      ([m_launchPosition b]
         ++ ((λ waypoint, mkGeo3D (dLatitude waypoint) (dLongitude waypoint)
                            (fDepth waypoint)) <$> m_waypoints b)
         ++ [targetPosition r]) r in
  (success, mine_with_base (with_result (λ r, route (stamp r))) m).

Definition mine_calculateEngagementPlan (m : MineEngagementManagerBase)
  : Result * MineEngagementManagerBase :=
  mine_calculateTrajectory m.

Definition setDropPlan (listNum planNum : nat) (m : MineEngagementManagerBase)
  : Result * MineEngagementManagerBase :=
  let p := m_dropPlan m in
  (success,
   mkMine (mine_base m) listNum planNum
     (mkMinePlan planNum planNum (stLaunchPos p) (stDropPos p)
        (usWaypointCnt p) (stWaypoint p))).

(** [for (i = 0; i < waypoints.size() && i < 8; ++i) a[i] = waypoints[i];]
    with [i] the slot reached and [k] the slots that remain. *)
Fixpoint copy_waypoints (k i : nat) (waypoints a : list ST_WEAPON_WAYPOINT)
  : list ST_WEAPON_WAYPOINT :=
  match k with
  | O => a
  | S k' =>
      match waypoints !! i with
      | Some wp => copy_waypoints k' (S i) waypoints (<[i := wp]> a)
      | None => a
      end
  end.

Definition updateDropPlanWaypoints (waypoints : list ST_WEAPON_WAYPOINT)
    (m : MineEngagementManagerBase) : Result * MineEngagementManagerBase :=
  if bool_decide (8 < length waypoints) then
    (failure "Too many waypoints for mine (max 8)", m)
  else
    let p := m_dropPlan m in
    mine_calculateEngagementPlan
      (mkMine (set_waypoints waypoints (mine_base m))
         (m_dropPlanListNumber m) (m_dropPlanNumber m)
         (mkMinePlan (sListID p) (usDroppingPlanNumber p) (stLaunchPos p)
            (stDropPos p) (length waypoints)
            (copy_waypoints 8 0 waypoints (stWaypoint p)))).

(** [MineEngagementManager::interpolatePosition]; the casts to [size_t]
    and back truncate towards zero. *)
Definition mine_interpolatePosition (b : EngagementManagerBase)
    (timeSinceLaunch : Q) : ST_3D_GEODETIC_POSITION :=
  let r := m_engagementResult b in
  let size := length (trajectory r) in
  if bool_decide (size < 2) then zero_position
  else
    let progress := std_min (timeSinceLaunch / totalTime_sec r) 1 in
    let segmentProgress := (progress * inject_Z (Z.of_nat (size - 1)))%Q in
    let segmentIndex :=
      Z.to_nat (Qnum segmentProgress `quot` Z.pos (Qden segmentProgress)) in
    let localProgress :=
      (segmentProgress - inject_Z (Z.of_nat segmentIndex))%Q in
    if bool_decide (size - 1 ≤ segmentIndex) then
      default zero_position (last (trajectory r))
    else
      lerp (default zero_position (trajectory r !! segmentIndex))
           (default zero_position (trajectory r !! S segmentIndex))
           localProgress.

Definition mine_update (clock : Q) (m : MineEngagementManagerBase)
  : MineEngagementManagerBase :=
  mine_with_base (base_update mine_interpolatePosition clock) m.

(** *** Either kind, as a tube holds it *)

Inductive EngagementManager : Type :=
| Missile (m : MissileEngagementManagerBase)
| Mine (m : MineEngagementManagerBase).

Definition manager_base (e : EngagementManager) : EngagementManagerBase :=
  match e with
  | Missile m => missile_base m
  | Mine m => mine_base m
  end.

Definition getEngagementResult (e : EngagementManager) : EngagementPlanResult :=
  m_engagementResult (manager_base e).

Definition setLaunched (launched : bool) (e : EngagementManager)
  : EngagementManager :=
  match e with
  | Missile m => Missile (missile_with_base (base_setLaunched launched) m)
  | Mine m => Mine (mine_with_base (base_setLaunched launched) m)
  end.

Definition calculateEngagementPlan
    (to_3D : SGEODETIC_POSITION → ST_3D_GEODETIC_POSITION)
    (e : EngagementManager) : Result * EngagementManager :=
  match e with
  | Missile m => let '(r, m') := missile_calculateEngagementPlan to_3D m in
                 (r, Missile m')
  | Mine m => let '(r, m') := mine_calculateEngagementPlan m in (r, Mine m')
  end.

Definition update (clock : Q) (e : EngagementManager) : EngagementManager :=
  match e with
  | Missile m => Missile (missile_update clock m)
  | Mine m => Mine (mine_update clock m)
  end.

(** *** What every manager inherits from the base *)

(** [EngagementManagerBase::initialize], on either kind. *)
Definition initialize (tubeNumber : nat) (weaponKind : EN_WPN_KIND)
    (e : EngagementManager) : Result * EngagementManager :=
  match e with
  | Missile m =>
      let '(r, b) := base_initialize tubeNumber weaponKind (missile_base m) in
      (r, Missile (missile_with_base (λ _, b) m))
  | Mine m =>
      let '(r, b) := base_initialize tubeNumber weaponKind (mine_base m) in
      (r, Mine (mine_with_base (λ _, b) m))
  end.

(** [EngagementManagerBase::reset], at clock reading [clock]. *)
Definition reset (clock : Q) (e : EngagementManager) : EngagementManager :=
  match e with
  | Missile m => Missile (missile_with_base (base_reset clock) m)
  | Mine m => Mine (mine_with_base (base_reset clock) m)
  end.

Definition setAxisCenter (axisCenter : Q * Q) (e : EngagementManager)
  : EngagementManager :=
  match e with
  | Missile m => Missile (missile_with_base (base_setAxisCenter axisCenter) m)
  | Mine m => Mine (mine_with_base (base_setAxisCenter axisCenter) m)
  end.

Definition isLaunched (e : EngagementManager) : bool :=
  m_launched (manager_base e).

(** [getCurrentPosition] of the four concrete managers. *)
Definition getCurrentPosition (e : EngagementManager) (timeSinceLaunch : Q)
  : ST_3D_GEODETIC_POSITION :=
  match e with
  | Missile m => missile_interpolatePosition (missile_base m) timeSinceLaunch
  | Mine m => mine_interpolatePosition (mine_base m) timeSinceLaunch
  end.

(** [calculateTurningPoints] of the three missile managers: one turning
    point per waypoint. *)
Definition calculateTurningPoints (m : MissileEngagementManagerBase)
  : list ST_3D_GEODETIC_POSITION :=
  (λ waypoint, mkGeo3D (dLatitude waypoint) (dLongitude waypoint)
                 (fDepth waypoint)) <$> m_waypoints (missile_base m).

(** [MineEngagementManagerBase::getDropPlan]: the plan written to the
    out-parameter. *)
Definition getDropPlan (m : MineEngagementManagerBase)
  : Result * ST_M_MINE_PLAN_INFO :=
  (success, m_dropPlan m).

(** *** The result messages *)

(** [AIEP_ALM_ASM_EP_RESULT] and [AIEP_M_MINE_EP_RESULT] are declared in
    the DDS header; each is given the fields the sources write. An array
    has the slots the copying loop can reach: 128 trajectory points, 8
    waypoints, 16 turning points; a fresh message holds default positions. *)
Module MissileResult.
Record AIEP_ALM_ASM_EP_RESULT : Type := mkResult {
  enTubeNum : nat;
  bValidMslPos : bool;
  MslPos : ST_3D_GEODETIC_POSITION;
  numberOfNextWP : nat;
  timeToNextWP : Q;
  unCntTrajectory : nat;
  stTrajectories : list ST_3D_GEODETIC_POSITION;
  unCntWaypoint : nat;
  stWaypoints : list ST_3D_GEODETIC_POSITION;
  unCntTurningpoints : nat;
  stTurningpoints : list ST_3D_GEODETIC_POSITION
}.
End MissileResult.

Module MineResult.
Record AIEP_M_MINE_EP_RESULT : Type := mkResult {
  enTubeNum : nat;
  fEstimatedDrivingTime : Q;
  fRemainingTime : Q;
  bValidMslPos : bool;
  MslPos : ST_3D_GEODETIC_POSITION;
  numberOfNextWP : nat;
  timeToNextWP : Q;
  unCntTrajectory : nat;
  stTrajectories : list ST_3D_GEODETIC_POSITION;
  unCntWaypoint : nat;
  stWaypoints : list ST_3D_GEODETIC_POSITION;
  stLaunchPos : ST_3D_GEODETIC_POSITION;
  stDropPos : ST_3D_GEODETIC_POSITION
}.
End MineResult.

(** [for (i = 0; i < v.size() && i < bound; ++i) a[i] = v[i];] into a
    fresh array of [bound] slots. *)
Definition copy_into (bound : nat) (v : list ST_3D_GEODETIC_POSITION)
  : list ST_3D_GEODETIC_POSITION :=
  copy_waypoints bound 0 v (replicate bound zero_position).

(** [MissileEngagementManagerBase::getMissileEngagementResult]; the
    [Result] is always a success and only its value is kept. *)
Definition getMissileEngagementResult (m : MissileEngagementManagerBase)
  : MissileResult.AIEP_ALM_ASM_EP_RESULT :=
  let b := missile_base m in
  let r := m_engagementResult b in
  let turningPoints := calculateTurningPoints m in
  MissileResult.mkResult
    (m_tubeNumber b)
    (isValid r && m_launched b)
    (if m_launched b then currentPosition r else zero_position)
    (nextWaypointIndex r)
    (timeToNextWaypoint_sec r)
    (length (trajectory r))
    (copy_into 128 (trajectory r))
    (length (m_waypoints b))
    (copy_into 8
       ((λ waypoint, mkGeo3D (dLatitude waypoint) (dLongitude waypoint)
                       (fDepth waypoint)) <$> m_waypoints b))
    (length turningPoints)
    (copy_into 16 turningPoints).

(** [MineEngagementManagerBase::getMineEngagementResult] *)
Definition getMineEngagementResult (m : MineEngagementManagerBase)
  : MineResult.AIEP_M_MINE_EP_RESULT :=
  let b := mine_base m in
  let r := m_engagementResult b in
  MineResult.mkResult
    (m_tubeNumber b)
    (totalTime_sec r)
    (timeToTarget_sec r)
    (isValid r && m_launched b)
    (if m_launched b then currentPosition r else zero_position)
    (nextWaypointIndex r)
    (timeToNextWaypoint_sec r)
    (length (trajectory r))
    (copy_into 128 (trajectory r))
    (length (m_waypoints b))
    (copy_into 8 (m_waypoints b))
    (launchPosition r)
    (targetPosition r).

End Engagement.

(* ===================================================================== *)
(** ** ServiceInterfaces.h and its implementation: the mine drop-plan store *)
(* ===================================================================== *)

Module PlanStore.

(** The files under the plan directory: their text, and the paths that
    cannot be opened. *)
Record FileSystem : Type := mkFileSystem {
  files : gmap string string;
  locked : gset string
}.

Record MineDropPlanService : Type := mkService {
  m_cachedPlans : gmap nat (list ST_M_MINE_PLAN_INFO);
  m_planDataPath : string;
  m_maxPlanLists : nat;
  m_maxPlansPerList : nat;
  m_initialized : bool
}.

Definition set_cachedPlans (v : gmap nat (list ST_M_MINE_PLAN_INFO))
    (s : MineDropPlanService) : MineDropPlanService :=
  mkService v (m_planDataPath s) (m_maxPlanLists s) (m_maxPlansPerList s)
    (m_initialized s).

Definition Sys : Type := MineDropPlanService * FileSystem.
Definition M (A : Type) : Type := St Sys A.

Definition isValidPlanListNumber (s : MineDropPlanService)
    (planListNumber : nat) : bool :=
  bool_decide (1 ≤ planListNumber) && bool_decide (planListNumber ≤ m_maxPlanLists s).

Definition validatePosition (position : ST_WEAPON_WAYPOINT) : bool :=
  if Qltb (dLatitude position) (-90) || Qltb 90 (dLatitude position) then false
  else if Qltb (dLongitude position) (-180) || Qltb 180 (dLongitude position)
  then false
  else if Qltb (fDepth position) (-1000) || Qltb 10000 (fDepth position)
  then false
  else true.

(** [for (i = 0; i < plan.usWaypointCnt() && i < 8; ++i)] of
    [validatePlan], at slot [i] with [k] slots left below 8. *)
Fixpoint waypoints_loop (k i : nat) (plan : ST_M_MINE_PLAN_INFO) : bool :=
  match k with
  | O => true
  | S k' =>
      if bool_decide (i < usWaypointCnt plan) then
        if negb (validatePosition (slot (stWaypoint plan) i)) then false
        else waypoints_loop k' (S i) plan
      else true
  end.

Definition validatePlan (plan : ST_M_MINE_PLAN_INFO) : bool :=
  if bool_decide (usDroppingPlanNumber plan = 0) then false
  else if negb (validatePosition (stLaunchPos plan))
          || negb (validatePosition (stDropPos plan)) then false
  else waypoints_loop 8 0 plan.

Definition getPlanListFilePath (s : MineDropPlanService)
    (planListNumber : nat) : string :=
  m_planDataPath s +:+ "/plan_list_" +:+ pretty planListNumber +:+ ".json".

Definition getPlanList (s : MineDropPlanService) (planListNumber : nat)
  : list ST_M_MINE_PLAN_INFO :=
  if negb (isValidPlanListNumber s planListNumber) then []
  else default [] (m_cachedPlans s !! planListNumber).

(** [Result<ST_M_MINE_PLAN_INFO>] *)
Definition getPlan (s : MineDropPlanService) (planListNumber planNumber : nat)
  : string + ST_M_MINE_PLAN_INFO :=
  match List.find (λ plan, bool_decide (usDroppingPlanNumber plan = planNumber))
                  (getPlanList s planListNumber) with
  | Some plan => inr plan
  | None => inl "Plan not found"
  end.

Section WithPrinter.

(** [operator<<] on a [double]. *)
Variable show_double : Q → string.

Definition quote : string := String (Ascii.ascii_of_nat 34) EmptyString.
Definition nl : string := String (Ascii.ascii_of_nat 10) EmptyString.

(** The text [writeJsonToFile] sends to the stream for [plans[i]]. *)
Definition plan_text (size i : nat) (plan : ST_M_MINE_PLAN_INFO) : string :=
  "    {" +:+ nl
  +:+ "      " +:+ quote +:+ "planNumber" +:+ quote +:+ ": "
      +:+ pretty (usDroppingPlanNumber plan) +:+ "," +:+ nl
  +:+ "      " +:+ quote +:+ "planName" +:+ quote +:+ ": " +:+ quote
      +:+ "Plan_" +:+ pretty (usDroppingPlanNumber plan) +:+ quote
      +:+ "," +:+ nl
  +:+ "      " +:+ quote +:+ "launchLat" +:+ quote +:+ ": "
      +:+ show_double (dLatitude (stLaunchPos plan)) +:+ "," +:+ nl
  +:+ "      " +:+ quote +:+ "launchLon" +:+ quote +:+ ": "
      +:+ show_double (dLongitude (stLaunchPos plan)) +:+ "," +:+ nl
  +:+ "      " +:+ quote +:+ "dropLat" +:+ quote +:+ ": "
      +:+ show_double (dLatitude (stDropPos plan)) +:+ "," +:+ nl
  +:+ "      " +:+ quote +:+ "dropLon" +:+ quote +:+ ": "
      +:+ show_double (dLongitude (stDropPos plan)) +:+ "," +:+ nl
  +:+ "      " +:+ quote +:+ "waypointCount" +:+ quote +:+ ": "
      +:+ pretty (usWaypointCnt plan) +:+ nl
  +:+ "    }"
  +:+ (if bool_decide (i < size - 1) then "," else EmptyString)
  +:+ nl.

Fixpoint plans_text (size i : nat) (plans : list ST_M_MINE_PLAN_INFO)
  : string :=
  match plans with
  | [] => EmptyString
  | plan :: rest => plan_text size i plan +:+ plans_text size (S i) rest
  end.

Definition json_text (planListNumber : nat)
    (plans : list ST_M_MINE_PLAN_INFO) : string :=
  "{" +:+ nl
  +:+ "  " +:+ quote +:+ "planListNumber" +:+ quote +:+ ": "
      +:+ pretty planListNumber +:+ "," +:+ nl
  +:+ "  " +:+ quote +:+ "plans" +:+ quote +:+ ": [" +:+ nl
  +:+ plans_text (length plans) 0 plans
  +:+ "  ]" +:+ nl
  +:+ "}" +:+ nl.

Definition writeJsonToFile (filePath : string) (planListNumber : nat)
    (plans : list ST_M_MINE_PLAN_INFO) (fs : FileSystem)
  : Result * FileSystem :=
  if bool_decide (filePath ∈ locked fs) then
    (failure "Cannot open file for writing", fs)
  else
    (success,
     mkFileSystem (<[filePath := json_text planListNumber plans]> (files fs))
                  (locked fs)).

(** [Result<std::vector<ST_M_MINE_PLAN_INFO>>]. The text of the file is
    not parsed: the vector that is returned is the empty one the function
    starts from. *)
Definition readJsonFromFile (filePath : string) (fs : FileSystem)
  : string + list ST_M_MINE_PLAN_INFO :=
  match files fs !! filePath with
  | None => inl "File not found"
  | Some _ =>
      if bool_decide (filePath ∈ locked fs) then inl "Cannot open file"
      else inr []
  end.

Local Open Scope st_scope.

Definition savePlanListToFile (planListNumber : nat)
    (plans : list ST_M_MINE_PLAN_INFO) : M Result :=
  λ '(s, fs),
    let '(r, fs') :=
      writeJsonToFile (getPlanListFilePath s planListNumber) planListNumber
        plans fs in
    (r, (s, fs')).

Definition loadPlanListFromFile (planListNumber : nat)
  : M (string + list ST_M_MINE_PLAN_INFO) :=
  λ '(s, fs),
    (readJsonFromFile (getPlanListFilePath s planListNumber) fs, (s, fs)).

Definition service {A : Type} (f : MineDropPlanService → A) : M A :=
  λ s, (f s.1, s).

Definition modify (f : MineDropPlanService → MineDropPlanService) : M unit :=
  λ s, (tt, (f s.1, s.2)).

Definition loadPlanList (planListNumber : nat) : M Result :=
  do valid <- service (λ s, isValidPlanListNumber s planListNumber);
  if negb valid then ret (failure "Invalid plan list number")
  else
    do plans <- loadPlanListFromFile planListNumber;
    match plans with
    | inl message => ret (failure ("Failed to load plan list: " +:+ message))
    | inr value =>
        run modify (λ s, set_cachedPlans
                           (<[planListNumber := value]> (m_cachedPlans s)) s);
        ret success
    end.

Definition savePlanList (planListNumber : nat)
    (plans : list ST_M_MINE_PLAN_INFO) : M Result :=
  do valid <- service (λ s, isValidPlanListNumber s planListNumber);
  do maxPlansPerList <- service m_maxPlansPerList;
  if negb valid then ret (failure "Invalid plan list number")
  else if bool_decide (maxPlansPerList < length plans) then
    ret (failure "Too many plans in list")
  else if negb (forallb validatePlan plans) then
    ret (failure "Invalid plan in list")
  else
    do result <- savePlanListToFile planListNumber plans;
    if negb (isSuccess result) then ret result
    else
      run modify (λ s, set_cachedPlans
                         (<[planListNumber := plans]> (m_cachedPlans s)) s);
      ret success.

Definition createNewPlanList (planListNumber : nat) : M Result :=
  do valid <- service (λ s, isValidPlanListNumber s planListNumber);
  if negb valid then ret (failure "Invalid plan list number")
  else savePlanList planListNumber [].

Definition addPlan (planListNumber : nat) (plan : ST_M_MINE_PLAN_INFO)
  : M Result :=
  if negb (validatePlan plan) then ret (failure "Invalid plan")
  else
    do plans <- service (λ s, getPlanList s planListNumber);
    do maxPlansPerList <- service m_maxPlansPerList;
    if bool_decide (maxPlansPerList ≤ length plans) then
      ret (failure "Plan list is full")
    else if existsb (λ existingPlan,
                       bool_decide (usDroppingPlanNumber existingPlan
                                    = usDroppingPlanNumber plan)) plans
    then ret (failure "Plan number already exists")
    else savePlanList planListNumber (plans ++ [plan]).

(** [find_if] on the plan number: the position of the first plan of the
    list that carries [planNumber]. *)
Definition find_plan (planNumber : nat) (plans : list ST_M_MINE_PLAN_INFO)
  : option (nat * ST_M_MINE_PLAN_INFO) :=
  list_find (λ plan, usDroppingPlanNumber plan = planNumber) plans.

Definition updatePlan (planListNumber : nat) (plan : ST_M_MINE_PLAN_INFO)
  : M Result :=
  if negb (validatePlan plan) then ret (failure "Invalid plan")
  else
    do plans <- service (λ s, getPlanList s planListNumber);
    match find_plan (usDroppingPlanNumber plan) plans with
    | Some (i, _) => savePlanList planListNumber (<[i := plan]> plans)
    | None => savePlanList planListNumber (plans ++ [plan])
    end.

Definition removePlan (planListNumber planNumber : nat) : M Result :=
  do plans <- service (λ s, getPlanList s planListNumber);
  match find_plan planNumber plans with
  | None => ret (failure "Plan not found")
  | Some (i, _) => savePlanList planListNumber (delete i plans)
  end.

(** [std::filesystem::remove] is taken not to throw: the file is gone
    afterwards, whether it was there or not. *)
Definition deletePlanList (planListNumber : nat) : M Result :=
  do valid <- service (λ s, isValidPlanListNumber s planListNumber);
  if negb valid then ret (failure "Invalid plan list number")
  else
    do filePath <- service (λ s, getPlanListFilePath s planListNumber);
    run (λ '(s, fs),
           (tt, (s, mkFileSystem (delete filePath (files fs)) (locked fs))));
    run modify (λ s, set_cachedPlans
                       (delete planListNumber (m_cachedPlans s)) s);
    ret success.

(** The numbers from 1 to [m_maxPlanLists] whose file exists. *)
Definition getAvailablePlanListNumbers (s : MineDropPlanService)
    (fs : FileSystem) : list nat :=
  filter (λ i, is_Some (files fs !! getPlanListFilePath s i))
         (seq 1 (m_maxPlanLists s)).

Definition isValidPlanNumber (s : MineDropPlanService)
    (planListNumber planNumber : nat) : bool :=
  existsb (λ plan, bool_decide (usDroppingPlanNumber plan = planNumber))
          (getPlanList s planListNumber).

Definition getPlanCount (s : MineDropPlanService) (planListNumber : nat)
  : nat :=
  length (getPlanList s planListNumber).

Definition getTotalPlanListCount (s : MineDropPlanService) (fs : FileSystem)
  : nat :=
  length (getAvailablePlanListNumbers s fs).

Definition validateWaypoints (waypoints : list ST_WEAPON_WAYPOINT) : bool :=
  forallb validatePosition waypoints.

(** The edited list is not read from the message yet: list 1 is saved
    with no plan. *)
Definition updateFromEditedPlanList : M Result :=
  savePlanList 1 [].

(** The body of the loop of [initialize] for list [i]. *)
Definition initialize_body (i : nat) : M unit :=
  do result <- loadPlanList i;
  if negb (isSuccess result) then
    run createNewPlanList i;
    ret tt
  else ret tt.

(** [MineDropPlanService::initialize]. [create_directories path] is what
    [std::filesystem::create_directories(path)] does when it is called:
    [None] when it returns, [Some what] when it throws an exception whose
    [what()] is [what]. The [catch] then reports the failure; the path
    has been stored before the [try], and [m_initialized] is left as it
    was. Nothing else throws inside the [try]: [loadPlanList] and
    [createNewPlanList] catch what the file operations throw. *)
Definition initialize (create_directories : string → option string)
    (planDataPath : string) : M Result :=
  run modify (λ s,
        if bool_decide (planDataPath ≠ EmptyString)
        then mkService (m_cachedPlans s) planDataPath (m_maxPlanLists s)
               (m_maxPlansPerList s) (m_initialized s)
        else s);
  do path <- service m_planDataPath;
  match create_directories path with
  | Some what =>
      ret (failure ("Failed to initialize MineDropPlanService: " +:+ what))
  | None =>
      do maxPlanLists <- service m_maxPlanLists;
      run for_each (seq 1 maxPlanLists) initialize_body;
      run modify (λ s, mkService (m_cachedPlans s) (m_planDataPath s)
                         (m_maxPlanLists s) (m_maxPlansPerList s) true);
      ret success
  end.

(** [MineDropPlanService::MineDropPlanService(planDataPath)], with the
    configured [Paths.MineDataPath] and limits. *)
Definition new_MineDropPlanService (planDataPath mineDataPath : string)
    (maxPlanLists maxPlansPerList : nat) : MineDropPlanService :=
  mkService ∅
    (if bool_decide (planDataPath = EmptyString) then mineDataPath
     else planDataPath)
    maxPlanLists maxPlansPerList false.

End WithPrinter.

End PlanStore.

(* ===================================================================== *)
(** ** LaunchTube.h, LaunchTubeManager *)
(* ===================================================================== *)

Module Tubes.

Record AssignmentInfo : Type := mkAssignmentInfo {
  tubeNumber : nat;
  weaponKind : EN_WPN_KIND;
  systemTargetId : nat;
  targetPos : SGEODETIC_POSITION;
  dropPlanListNumber : nat;
  dropPlanNumber : nat
}.

(** A tube is the observer of its weapon; as an observer it is named by
    its tube number. The three callbacks are the ones the tube manager
    installs on every tube. *)
Record LaunchTube : Type := mkLaunchTube {
  m_tubeNumber : nat;
  m_weapon : option Weapon.WeaponBase;
  m_engagementMgr : option Engagement.EngagementManager;
  m_assignmentInfo : AssignmentInfo;
  m_lastEngagementResult : Engagement.EngagementPlanResult
}.

Definition set_weapon (v : option Weapon.WeaponBase) (t : LaunchTube) :=
  mkLaunchTube (m_tubeNumber t) v (m_engagementMgr t) (m_assignmentInfo t)
    (m_lastEngagementResult t).

Definition set_engagementMgr (v : option Engagement.EngagementManager)
    (t : LaunchTube) :=
  mkLaunchTube (m_tubeNumber t) (m_weapon t) v (m_assignmentInfo t)
    (m_lastEngagementResult t).

Definition set_lastEngagementResult (v : Engagement.EngagementPlanResult)
    (t : LaunchTube) :=
  mkLaunchTube (m_tubeNumber t) (m_weapon t) (m_engagementMgr t)
    (m_assignmentInfo t) v.

Definition hasWeapon (t : LaunchTube) : bool :=
  bool_decide (is_Some (m_weapon t)).

Definition getWeaponState (t : LaunchTube) : EN_WPN_CTRL_STATE :=
  match m_weapon t with
  | None => WPN_CTRL_STATE_OFF
  | Some weapon => Weapon.m_currentState weapon
  end.

Definition isLaunched (t : LaunchTube) : bool :=
  match m_weapon t with
  | None => false
  | Some weapon => Weapon.m_launched weapon
  end.

Definition no_weapon (t : LaunchTube) : Result :=
  failure ("No weapon assigned to tube " +:+ pretty (m_tubeNumber t)).

(** [LaunchTube::onLaunchStatusChanged]; the forwarding to the outer
    callback is what the log entry records. *)
Definition onLaunchStatusChanged (tubeNumber : nat) (launched : bool)
    (t : LaunchTube) : LaunchTube :=
  if bool_decide (tubeNumber ≠ m_tubeNumber t) then t
  else if launched then
    set_engagementMgr (Engagement.setLaunched true <$> m_engagementMgr t) t
  else t.

(** The weapon calls its observers while it runs; the calls that reached
    this tube are replayed from the entries the weapon added to the log. *)
Definition observe (e : Event) (t : LaunchTube) : LaunchTube :=
  match e with
  | EvLaunchStatusChanged observer tubeNumber launched =>
      if bool_decide (observer = m_tubeNumber t)
      then onLaunchStatusChanged tubeNumber launched t else t
  | _ => t
  end.

Definition Sys : Type := LaunchTube * World.
Definition M (A : Type) : Type := St Sys A.

(** [AssignmentInfo()] *)
Definition new_AssignmentInfo : AssignmentInfo :=
  mkAssignmentInfo 0 WPN_KIND_NA 0 (SGeo.mkSGeo 0 0 0) 0 0.

(** [LaunchTube::LaunchTube(tubeNumber)] *)
Definition new_LaunchTube (tubeNumber : nat) : LaunchTube :=
  mkLaunchTube tubeNumber None None new_AssignmentInfo
    Engagement.new_EngagementPlanResult.

Definition set_assignmentInfo (v : AssignmentInfo) (t : LaunchTube) :=
  mkLaunchTube (m_tubeNumber t) (m_weapon t) (m_engagementMgr t) v
    (m_lastEngagementResult t).

(** [LaunchTubeStatus], as [getStatus] fills it. *)
Module Status.
Record LaunchTubeStatus : Type := mkStatus {
  tubeNumber : nat;
  hasWeapon : bool;
  weaponKind : EN_WPN_KIND;
  weaponState : EN_WPN_CTRL_STATE;
  launched : bool;
  engagementPlanValid : bool
}.
End Status.

(** [LaunchTubeStatus()] with the tube number set. *)
Definition emptyStatus (tubeNumber : nat) : Status.LaunchTubeStatus :=
  Status.mkStatus tubeNumber false WPN_KIND_NA WPN_CTRL_STATE_OFF false false.

(** [LaunchTube::isEngagementPlanValid]. The C++ dereferences
    [m_engagementMgr] as soon as the tube has a weapon; a tube with a
    weapon always has a manager, and the model answers like an empty tube
    otherwise. *)
Definition isEngagementPlanValid (t : LaunchTube) : bool :=
  match m_weapon t, m_engagementMgr t with
  | Some _, Some mgr =>
      Engagement.isEngagementPlanValid (Engagement.manager_base mgr)
  | _, _ => false
  end.

Definition getEngagementResult (t : LaunchTube)
  : Engagement.EngagementPlanResult :=
  match m_weapon t, m_engagementMgr t with
  | Some _, Some mgr => Engagement.getEngagementResult mgr
  | _, _ =>
      Engagement.set_tubeNumber (m_tubeNumber t)
        Engagement.new_EngagementPlanResult
  end.

Definition getStatus (t : LaunchTube) : Status.LaunchTubeStatus :=
  match m_weapon t with
  | Some weapon =>
      Status.mkStatus (m_tubeNumber t) true (Weapon.m_weaponKind weapon)
        (Weapon.m_currentState weapon) (Weapon.m_launched weapon)
        (isEngagementPlanValid t)
  | None => emptyStatus (m_tubeNumber t)
  end.

(** [LaunchTube::setAxisCenter] *)
Definition setAxisCenter (axisCenter : Q * Q) (t : LaunchTube) : LaunchTube :=
  set_engagementMgr
    (Engagement.setAxisCenter axisCenter <$> m_engagementMgr t) t.

(** [LaunchTube::clearAssignment]. The weapon forgets the tube and is
    reset before it is released, which cancels the token of its last
    operation; the manager is reset and released, which leaves no trace.
    [m_lastEngagementResult] is not touched. *)
Definition clearAssignment : M unit :=
  λ '(t, w),
    let w :=
      match m_weapon t with
      | Some weapon =>
          (bind (Weapon.removeStateObserver (m_tubeNumber t))
                (λ _, Weapon.reset) (weapon, w)).2.2
      | None => w
      end in
    (tt, (mkLaunchTube (m_tubeNumber t) None None new_AssignmentInfo
            (m_lastEngagementResult t), w)).

(** [LaunchTube::setupMineSpecificAssignment]; the dynamic cast succeeds
    on a mine manager only. *)
Definition setupMineSpecificAssignment (t : LaunchTube)
  : Result * LaunchTube :=
  match m_engagementMgr t with
  | Some (Engagement.Mine mineManager) =>
      let info := m_assignmentInfo t in
      if bool_decide (0 < dropPlanListNumber info)
         && bool_decide (0 < dropPlanNumber info) then
        let '(result, mineManager) :=
          Engagement.setDropPlan (dropPlanListNumber info)
            (dropPlanNumber info) mineManager in
        let t := set_engagementMgr (Some (Engagement.Mine mineManager)) t in
        if negb (isSuccess result) then (result, t) else (success, t)
      else (success, t)
  | _ => (failure "Invalid mine engagement manager", t)
  end.

Section WithEnvironment.

Variable env : nat → gset nat.
Variable to_3D : SGEODETIC_POSITION → ST_3D_GEODETIC_POSITION.

(** Run a member function of the tube's weapon, then let the tube see the
    notifications it sent. *)
Definition on_weapon {A : Type} (weapon : Weapon.WeaponBase)
    (c : Weapon.M A) : M A :=
  λ '(t, w),
    let '(a, (weapon', w')) := c (weapon, w) in
    let sent := drop (length (log w)) (log w') in
    (a, (foldl (λ t e, observe e t) (set_weapon (Some weapon') t) sent, w')).

Definition requestWeaponStateChange (newState : EN_WPN_CTRL_STATE)
    (token : CancellationToken) : M Result :=
  λ '(t, w),
    let w := emit (EvRequest (m_tubeNumber t) newState token
                     (isCancelled token w)) w in
    match m_weapon t with
    | None => (no_weapon t, (t, w))
    | Some weapon =>
        on_weapon weapon (Weapon.requestStateChange env newState token) (t, w)
    end.

Definition updateWaypoints (waypoints : list ST_WEAPON_WAYPOINT)
    (t : LaunchTube) : Result * LaunchTube :=
  if negb (hasWeapon t) then (no_weapon t, t)
  else
    match m_engagementMgr t with
    | Some (Engagement.Mine m) =>
        if bool_decide (weaponKind (m_assignmentInfo t) = WPN_KIND_M_MINE)
        then
          let '(r, m') := Engagement.updateDropPlanWaypoints waypoints m in
          (r, set_engagementMgr (Some (Engagement.Mine m')) t)
        else (failure "Failed to update waypoints", t)
    | Some (Engagement.Missile m) =>
        if bool_decide (weaponKind (m_assignmentInfo t) = WPN_KIND_M_MINE)
        then (failure "Failed to update waypoints", t)
        else
          let '(r, m') := Engagement.updateWaypoints to_3D waypoints m in
          (r, set_engagementMgr (Some (Engagement.Missile m')) t)
    | None => (failure "Failed to update waypoints", t)
    end.

Definition notifyEngagementPlanChange : M unit :=
  λ '(t, w),
    match m_engagementMgr t with
    | None => (tt, (t, w))
    | Some mgr =>
        let currentResult := Engagement.getEngagementResult mgr in
        let last := m_lastEngagementResult t in
        let changed :=
          bool_decide (Engagement.isValid currentResult
                       ≠ Engagement.isValid last)
          || negb (Qeq_bool (Engagement.totalTime_sec currentResult)
                            (Engagement.totalTime_sec last))
          || bool_decide (length (Engagement.trajectory currentResult)
                          ≠ length (Engagement.trajectory last)) in
        if changed then
          (tt, (set_lastEngagementResult currentResult t,
                emit (EvEngagementPlan (m_tubeNumber t)
                        (Engagement.isValid currentResult)) w))
        else (tt, (t, w))
    end.

(** The C++ dereferences [m_engagementMgr] as soon as the tube has a
    weapon; a tube with a weapon always has a manager, and the model
    answers like an empty tube otherwise. *)
Definition calculateEngagementPlan : M Result :=
  λ '(t, w),
    match m_weapon t, m_engagementMgr t with
    | Some weapon, Some mgr =>
        let '(result, mgr') := Engagement.calculateEngagementPlan to_3D mgr in
        let t := set_engagementMgr (Some mgr') t in
        if isSuccess result then
          let weapon' :=
            Weapon.set_fireSolutionReady
              (Engagement.isEngagementPlanValid
                 (Engagement.manager_base mgr')) weapon in
          let '(_, s) :=
            notifyEngagementPlanChange (set_weapon (Some weapon') t, w) in
          (result, s)
        else (result, (t, w))
    | _, _ => (no_weapon t, (t, w))
    end.

(** [LaunchTube::update], at clock reading [clock] (seconds). *)
Definition update (clock : Q) : M unit :=
  λ '(t, w),
    match m_weapon t with
    | None => (tt, (t, w))
    | Some weapon =>
        let '(_, (t, w)) := on_weapon weapon Weapon.update (t, w) in
        let t :=
          set_engagementMgr (Engagement.update clock <$> m_engagementMgr t) t in
        if negb (isLaunched t) then
          let '(_, s) := calculateEngagementPlan (t, w) in (tt, s)
        else (tt, (t, w))
    end.

(** [LaunchTube::setupMissileSpecificAssignment]; the dynamic cast
    succeeds on a missile manager only. *)
Definition setupMissileSpecificAssignment (t : LaunchTube)
  : Result * LaunchTube :=
  match m_engagementMgr t with
  | Some (Engagement.Missile missileManager) =>
      let info := m_assignmentInfo t in
      let '(result, missileManager) :=
        if bool_decide (0 < systemTargetId info) then
          Engagement.setSystemTarget (systemTargetId info) missileManager
        else
          Engagement.setTargetPosition to_3D (targetPos info) missileManager in
      let t :=
        set_engagementMgr (Some (Engagement.Missile missileManager)) t in
      if negb (isSuccess result) then (result, t) else (success, t)
  | _ => (failure "Invalid missile engagement manager", t)
  end.

(** [LaunchTube::assignWeapon]; a null pointer is [None]. *)
Definition assignWeapon (weapon : option Weapon.WeaponBase)
    (engagementMgr : option Engagement.EngagementManager)
    (assignmentInfo : AssignmentInfo) : M Result :=
  λ '(t, w),
    match weapon, engagementMgr with
    | Some weapon, Some engagementMgr =>
        if hasWeapon t then
          (failure ("Tube " +:+ pretty (m_tubeNumber t)
                      +:+ " already has assigned weapon"), (t, w))
        else if bool_decide (tubeNumber assignmentInfo ≠ m_tubeNumber t) then
          (failure "Assignment info tube number mismatch", (t, w))
        else
          let t :=
            mkLaunchTube (m_tubeNumber t) (Some weapon) (Some engagementMgr)
              assignmentInfo (m_lastEngagementResult t) in
          let '(weaponResult, (t, w)) :=
            on_weapon weapon (Weapon.initialize (m_tubeNumber t)) (t, w) in
          match weaponResult with
          | failure message =>
              let '(_, s) := clearAssignment (t, w) in
              (failure ("Failed to initialize weapon: " +:+ message), s)
          | success =>
              let '(engagementResult, engagementMgr) :=
                Engagement.initialize (m_tubeNumber t)
                  (weaponKind assignmentInfo) engagementMgr in
              let t := set_engagementMgr (Some engagementMgr) t in
              match engagementResult with
              | failure message =>
                  let '(_, s) := clearAssignment (t, w) in
                  (failure ("Failed to initialize engagement manager: "
                              +:+ message), s)
              | success =>
                  let '(_, (t, w)) :=
                    match m_weapon t with
                    | Some weapon =>
                        on_weapon weapon
                          (Weapon.addStateObserver (m_tubeNumber t)) (t, w)
                    | None => (tt, (t, w))
                    end in
                  let '(setupResult, t) :=
                    if bool_decide (weaponKind assignmentInfo
                                    = WPN_KIND_M_MINE)
                    then setupMineSpecificAssignment t
                    else setupMissileSpecificAssignment t in
                  if negb (isSuccess setupResult) then
                    let '(_, s) := clearAssignment (t, w) in (setupResult, s)
                  else (success, (t, w))
              end
          end
    | _, _ => (failure "Invalid weapon or engagement manager", (t, w))
    end.

Definition updateAssignmentInfo (info : AssignmentInfo) (t : LaunchTube)
  : Result * LaunchTube :=
  if negb (hasWeapon t) then (no_weapon t, t)
  else
    let t := set_assignmentInfo info t in
    if bool_decide (weaponKind info = WPN_KIND_M_MINE)
    then setupMineSpecificAssignment t
    else setupMissileSpecificAssignment t.

(** [LaunchTube::updateTargetInfo]: only a missile manager takes tracks. *)
Definition updateTargetInfo (target : TRKMGR_SYSTEMTARGET_INFO)
    (t : LaunchTube) : LaunchTube :=
  match m_engagementMgr t with
  | Some (Engagement.Missile missileManager) =>
      set_engagementMgr
        (Some (Engagement.Missile
                 (Engagement.updateTargetInfo to_3D target missileManager))) t
  | _ => t
  end.

End WithEnvironment.

(** *** LaunchTubeManager *)

(** [m_launchTubes] is indexed by tube number; slot 0 stays null. A
    [shared_ptr<LaunchTube>] taken from it is the slot's index. Reading a
    slot beyond the vector (before [initialize]) is taken as null. *)
Record LaunchTubeManager : Type := mkManager {
  m_launchTubes : list (option LaunchTube);
  m_maxTubes : nat;
  m_minTubeNumber : nat;
  m_maxTubeNumber : nat;
  m_initialized : bool
}.

Definition set_launchTubes (v : list (option LaunchTube))
    (m : LaunchTubeManager) : LaunchTubeManager :=
  mkManager v (m_maxTubes m) (m_minTubeNumber m) (m_maxTubeNumber m)
    (m_initialized m).

Definition tube_at (m : LaunchTubeManager) (i : nat) : option LaunchTube :=
  mjoin (m_launchTubes m !! i).

(** [m_launchTubes[i] && m_launchTubes[i]->hasWeapon()] *)
Definition assigned_at (m : LaunchTubeManager) (i : nat) : bool :=
  match tube_at m i with
  | Some t => hasWeapon t
  | None => false
  end.

Definition getAssignedTubes (m : LaunchTubeManager) : list nat :=
  filter (λ i, assigned_at m i)
         (seq (m_minTubeNumber m) (S (m_maxTubeNumber m) - m_minTubeNumber m)).

Definition MgrSys : Type := LaunchTubeManager * World.

Section ManagerWithEnvironment.

Variable env : nat → gset nat.

(** The body of the loop of [emergencyStop] for the tube in slot [i]. *)
Definition emergencyStop_body (i : nat) (acc : bool * string)
    (s : MgrSys) : (bool * string) * MgrSys :=
  let '(m, w) := s in
  match tube_at m i with
  | None => (acc, s)
  | Some tube =>
      let currentState := getWeaponState tube in
      let targetState :=
        if bool_decide (currentState = WPN_CTRL_STATE_LAUNCH)
        then WPN_CTRL_STATE_ABORT else WPN_CTRL_STATE_OFF in
      let '(emergencyToken, w) := newToken w in
      let w :=
        if bool_decide (targetState = WPN_CTRL_STATE_ABORT)
        then cancel emergencyToken w else w in
      let '(result, (tube', w)) :=
        requestWeaponStateChange env targetState emergencyToken (tube, w) in
      let m := set_launchTubes (<[i := Some tube']> (m_launchTubes m)) m in
      match result with
      | success => (acc, (m, w))
      | failure message =>
          ((false,
            acc.2 +:+ "Tube " +:+ pretty (m_tubeNumber tube') +:+ ": "
                  +:+ message +:+ "; "), (m, w))
      end
  end.

Fixpoint emergencyStop_loop (assignedTubes : list nat) (acc : bool * string)
    (s : MgrSys) : (bool * string) * MgrSys :=
  match assignedTubes with
  | [] => (acc, s)
  | i :: rest =>
      let '(acc', s') := emergencyStop_body i acc s in
      emergencyStop_loop rest acc' s'
  end.

Definition emergencyStop (s : MgrSys) : Result * MgrSys :=
  let '((allSuccess, errors), s') :=
    emergencyStop_loop (getAssignedTubes s.1) (true, EmptyString) s in
  if allSuccess then (success, s')
  else (failure ("Emergency stop partially failed: " +:+ errors), s').

End ManagerWithEnvironment.

End Tubes.

(* ===================================================================== *)
(** ** WeaponFactory *)
(* ===================================================================== *)

Module Factory.

(** What the constructor of a weapon class does after [WeaponBase]'s: it
    sets [m_onDelay] and replaces the launch steps. *)
Definition derived (onDelay : Q) (launchSteps : list Weapon.LaunchStep)
    (base : Weapon.WeaponBase) : Weapon.WeaponBase :=
  Weapon.mkWeaponBase (Weapon.m_weaponKind base) (Weapon.m_tubeNumber base)
    (Weapon.m_currentState base) (Weapon.m_launched base)
    (Weapon.m_fireSolutionReady base) launchSteps onDelay
    (Weapon.m_observers base) (Weapon.m_stateStartTime base)
    (Weapon.m_currentCancellationToken base).

(** The constructors take the configured [Weapon.DefaultLaunchDelay]. *)
Definition ALMWeapon (defaultLaunchDelay : Q) (w : World)
  : Weapon.WeaponBase * World :=
  let '(base, w) := Weapon.new_WeaponBase WPN_KIND_ALM defaultLaunchDelay w in
  (derived defaultLaunchDelay
     [ Weapon.mkLaunchStep "ALM Power On Check" 1;
       Weapon.mkLaunchStep "ALM System Verification" 1;
       Weapon.mkLaunchStep "ALM Launch Sequence" 1 ] base, w).

Definition ASMWeapon (defaultLaunchDelay : Q) (w : World)
  : Weapon.WeaponBase * World :=
  let '(base, w) := Weapon.new_WeaponBase WPN_KIND_ASM defaultLaunchDelay w in
  (derived defaultLaunchDelay
     [ Weapon.mkLaunchStep "ASM Power On Check" 1;
       Weapon.mkLaunchStep "ASM System Verification" 1;
       Weapon.mkLaunchStep "ASM Launch Sequence" 1 ] base, w).

Definition AAMWeapon (defaultLaunchDelay : Q) (w : World)
  : Weapon.WeaponBase * World :=
  let '(base, w) := Weapon.new_WeaponBase WPN_KIND_AAM defaultLaunchDelay w in
  (derived defaultLaunchDelay
     [ Weapon.mkLaunchStep "AAM Power On Check" 1;
       Weapon.mkLaunchStep "AAM System Verification" 1;
       Weapon.mkLaunchStep "AAM Launch Sequence" 1 ] base, w).

Definition MineWeapon (defaultLaunchDelay : Q) (w : World)
  : Weapon.WeaponBase * World :=
  let '(base, w) :=
    Weapon.new_WeaponBase WPN_KIND_M_MINE defaultLaunchDelay w in
  (derived defaultLaunchDelay
     [ Weapon.mkLaunchStep "Mine Power On Check" 1;
       Weapon.mkLaunchStep "Mine System Verification" 1;
       Weapon.mkLaunchStep "Mine Launch Sequence" 1 ] base, w).

(** [std::map::find] on a map keyed by weapon kind. *)
Fixpoint find {A : Type} (m : list (EN_WPN_KIND * A)) (key : EN_WPN_KIND)
  : option A :=
  match m with
  | [] => None
  | (k, v) :: m' => if decide (k = key) then Some v else find m' key
  end.

(** The creators [registerDefaultCreators] registers. *)
Definition m_weaponCreators
  : list (EN_WPN_KIND * (Q → World → Weapon.WeaponBase * World)) :=
  [ (WPN_KIND_ALM, ALMWeapon);
    (WPN_KIND_ASM, ASMWeapon);
    (WPN_KIND_AAM, AAMWeapon);
    (WPN_KIND_M_MINE, MineWeapon) ].

(** A manager is created at clock reading [clock]. *)
Definition m_engagementManagerCreators
  : list (EN_WPN_KIND * (Q → Engagement.EngagementManager)) :=
  [ (WPN_KIND_ALM,
     λ clock, Engagement.Missile
                (Engagement.new_MissileEngagementManager
                   Engagement.ALMEngagementManager clock));
    (WPN_KIND_ASM,
     λ clock, Engagement.Missile
                (Engagement.new_MissileEngagementManager
                   Engagement.ASMEngagementManager clock));
    (WPN_KIND_AAM,
     λ clock, Engagement.Missile
                (Engagement.new_MissileEngagementManager
                   Engagement.AAMEngagementManager clock));
    (WPN_KIND_M_MINE,
     λ clock, Engagement.Mine (Engagement.new_MineEngagementManager clock)) ].

(** [WeaponFactory::createWeapon]; [None] is the null pointer. *)
Definition createWeapon (defaultLaunchDelay : Q) (weaponKind : EN_WPN_KIND)
    (w : World) : option Weapon.WeaponBase * World :=
  match find m_weaponCreators weaponKind with
  | Some creator =>
      let '(weapon, w) := creator defaultLaunchDelay w in (Some weapon, w)
  | None => (None, w)
  end.

Definition createEngagementManager (clock : Q) (weaponKind : EN_WPN_KIND)
  : option Engagement.EngagementManager :=
  match find m_engagementManagerCreators weaponKind with
  | Some creator => Some (creator clock)
  | None => None
  end.

Definition isWeaponSupported (weaponKind : EN_WPN_KIND) : bool :=
  bool_decide (is_Some (find m_weaponCreators weaponKind)).

End Factory.

(* ===================================================================== *)
(** ** LaunchTubeManager: the rest of the coordinator *)
(* ===================================================================== *)

(** The request structures of [CommonTypes.h]. *)
Module AssignmentRequest.
Record WeaponAssignmentRequest : Type := mkRequest {
  tubeNumber : nat;
  weaponKind : EN_WPN_KIND;
  assignmentInfo : Tubes.AssignmentInfo
}.
End AssignmentRequest.

Module ControlRequest.
Record WeaponControlRequest : Type := mkRequest {
  tubeNumber : nat;
  targetState : EN_WPN_CTRL_STATE;
  cancellationToken : CancellationToken
}.
End ControlRequest.

Module WaypointRequest.
Record WaypointUpdateRequest : Type := mkRequest {
  tubeNumber : nat;
  waypoints : list ST_WEAPON_WAYPOINT
}.
End WaypointRequest.

Module TubeManager.

(** The members [m_environmentMutex] guards; [m_ownShipInfo] is stored,
    handed to the managers and read nowhere, and is left out. *)
Record Environment : Type := mkEnvironment {
  m_axisCenter : Q * Q;
  m_targetInfoMap : gmap nat TRKMGR_SYSTEMTARGET_INFO
}.

Definition new_Environment : Environment := mkEnvironment (0%Q, 0%Q) ∅.

(** [LaunchTubeManager::LaunchTubeManager(maxTubes)], with the configured
    [System.MaxLaunchTubes]. *)
Definition new_LaunchTubeManager (maxTubes maxLaunchTubes : nat)
  : Tubes.LaunchTubeManager :=
  let m_maxTubes :=
    if bool_decide (maxTubes = 0) then maxLaunchTubes else maxTubes in
  Tubes.mkManager [] m_maxTubes 1 m_maxTubes false.

Definition isValidTubeNumber (m : Tubes.LaunchTubeManager) (tubeNumber : nat)
  : bool :=
  bool_decide (Tubes.m_minTubeNumber m ≤ tubeNumber)
  && bool_decide (tubeNumber ≤ Tubes.m_maxTubeNumber m).

(** [getValidatedTube]: the tube, or the null pointer. *)
Definition getValidatedTube (m : Tubes.LaunchTubeManager) (tubeNumber : nat)
  : option Tubes.LaunchTube :=
  if negb (isValidTubeNumber m tubeNumber) then None
  else Tubes.tube_at m tubeNumber.

(** The tube numbers the loops [for (i = m_minTubeNumber;
    i <= m_maxTubeNumber; ++i)] go through. *)
Definition tube_numbers (m : Tubes.LaunchTubeManager) : list nat :=
  seq (Tubes.m_minTubeNumber m)
      (S (Tubes.m_maxTubeNumber m) - Tubes.m_minTubeNumber m).

(** [std::vector::resize] with null pointers. *)
Definition resize (n : nat) (v : list (option Tubes.LaunchTube))
  : list (option Tubes.LaunchTube) :=
  take n v ++ replicate (n - length v) None.

(** [LaunchTubeManager::initialize]. The callbacks each tube is given
    are the ones the log records. *)
Definition initialize (m : Tubes.LaunchTubeManager)
  : Result * Tubes.LaunchTubeManager :=
  if Tubes.m_initialized m then (success, m)
  else
    (success,
     Tubes.mkManager
       (foldl (λ tubes i, <[i := Some (Tubes.new_LaunchTube i)]> tubes)
          (resize (Tubes.m_maxTubes m + 1) (Tubes.m_launchTubes m))
          (tube_numbers m))
       (Tubes.m_maxTubes m) (Tubes.m_minTubeNumber m)
       (Tubes.m_maxTubeNumber m) true).

(** Run a member function of the tube in slot [i]; the slot holds a
    pointer, so what the function does to the tube stays in the slot. *)
Definition on_tube {A : Type} (i : nat) (c : Tubes.M A) (s : Tubes.MgrSys)
  : option A * Tubes.MgrSys :=
  match Tubes.tube_at s.1 i with
  | Some tube =>
      let '(a, (tube, w)) := c (tube, s.2) in
      (Some a,
       (Tubes.set_launchTubes
          (<[i := Some tube]> (Tubes.m_launchTubes s.1)) s.1, w))
  | None => (None, s)
  end.

(** The same for a function that does not touch the world. *)
Definition modify_tube (i : nat) (f : Tubes.LaunchTube → Tubes.LaunchTube)
    (m : Tubes.LaunchTubeManager) : Tubes.LaunchTubeManager :=
  match Tubes.tube_at m i with
  | Some tube =>
      Tubes.set_launchTubes (<[i := Some (f tube)]> (Tubes.m_launchTubes m)) m
  | None => m
  end.

Definition shutdown (s : Tubes.MgrSys) : Tubes.MgrSys :=
  let '(m, w) :=
    foldl (λ s i,
             match Tubes.tube_at s.1 i with
             | Some tube =>
                 if Tubes.hasWeapon tube
                 then (on_tube i Tubes.clearAssignment s).2 else s
             | None => s
             end)
          s (tube_numbers s.1) in
  (Tubes.mkManager (Tubes.m_launchTubes m) (Tubes.m_maxTubes m)
     (Tubes.m_minTubeNumber m) (Tubes.m_maxTubeNumber m) false, w).

Definition isAssigned (m : Tubes.LaunchTubeManager) (tubeNumber : nat)
  : bool :=
  match getValidatedTube m tubeNumber with
  | Some tube => Tubes.hasWeapon tube
  | None => false
  end.

Definition canAssignWeapon (m : Tubes.LaunchTubeManager) (tubeNumber : nat)
    (weaponKind : EN_WPN_KIND) : bool :=
  match getValidatedTube m tubeNumber with
  | None => false
  | Some tube =>
      if Tubes.hasWeapon tube then false
      else Factory.isWeaponSupported weaponKind
  end.

Definition canChangeState (m : Tubes.LaunchTubeManager) (tubeNumber : nat)
    (newState : EN_WPN_CTRL_STATE) : bool :=
  match getValidatedTube m tubeNumber with
  | None => false
  | Some tube =>
      match Tubes.m_weapon tube with
      | None => false
      | Some weapon =>
          Weapon.isValidTransition (Weapon.m_currentState weapon) newState
      end
  end.

Definition getAssignedTubeCount (m : Tubes.LaunchTubeManager) : nat :=
  length (Tubes.getAssignedTubes m).

(** One status per tube of the range that exists. *)
Definition getAllTubeStatus (m : Tubes.LaunchTubeManager)
  : list Tubes.Status.LaunchTubeStatus :=
  omap (λ i, Tubes.getStatus <$> Tubes.tube_at m i) (tube_numbers m).

Definition getTubeStatus (m : Tubes.LaunchTubeManager) (tubeNumber : nat)
  : Tubes.Status.LaunchTubeStatus :=
  match getValidatedTube m tubeNumber with
  | Some tube => Tubes.getStatus tube
  | None => Tubes.emptyStatus tubeNumber
  end.

Definition getReadyTubeCount (m : Tubes.LaunchTubeManager) : nat :=
  length
    (filter (λ status,
               Tubes.Status.hasWeapon status = true
               ∧ Tubes.Status.weaponState status = WPN_CTRL_STATE_RTL)
            (getAllTubeStatus m)).

Definition getAllEngagementResults (m : Tubes.LaunchTubeManager)
  : list Engagement.EngagementPlanResult :=
  omap (λ i, Tubes.getEngagementResult <$> Tubes.tube_at m i)
       (Tubes.getAssignedTubes m).

Definition getEngagementResult (m : Tubes.LaunchTubeManager)
    (tubeNumber : nat) : Engagement.EngagementPlanResult :=
  match getValidatedTube m tubeNumber with
  | Some tube => Tubes.getEngagementResult tube
  | None =>
      Engagement.set_tubeNumber tubeNumber Engagement.new_EngagementPlanResult
  end.

Definition invalid_tube (tubeNumber : nat) : Result :=
  failure ("Invalid tube number: " +:+ pretty tubeNumber).

Section WithEnvironment.

Variable env : nat → gset nat.
Variable to_3D : SGEODETIC_POSITION → ST_3D_GEODETIC_POSITION.

(** [createWeaponAndManager], with the configured launch delay and the
    clock reading at which the manager is built. *)
Definition createWeaponAndManager (defaultLaunchDelay clock : Q)
    (weaponKind : EN_WPN_KIND) (w : World)
  : (string + Weapon.WeaponBase * Engagement.EngagementManager) * World :=
  let '(weapon, w) := Factory.createWeapon defaultLaunchDelay weaponKind w in
  match weapon with
  | None => (inl "Failed to create weapon", w)
  | Some weapon =>
      match Factory.createEngagementManager clock weaponKind with
      | None => (inl "Failed to create engagement manager", w)
      | Some engagementMgr => (inr (weapon, engagementMgr), w)
      end
  end.

(** [LaunchTubeManager::assignWeapon]; the assignment-change callback is
    not recorded. *)
Definition assignWeapon (defaultLaunchDelay clock : Q)
    (request : AssignmentRequest.WeaponAssignmentRequest)
    (e : Environment) (s : Tubes.MgrSys) : Result * Tubes.MgrSys :=
  let tubeNumber := AssignmentRequest.tubeNumber request in
  match getValidatedTube s.1 tubeNumber with
  | None => (invalid_tube tubeNumber, s)
  | Some tube =>
      if Tubes.hasWeapon tube then
        (failure ("Tube " +:+ pretty tubeNumber +:+ " already assigned"), s)
      else
        let '(weaponResult, w) :=
          createWeaponAndManager defaultLaunchDelay clock
            (AssignmentRequest.weaponKind request) s.2 in
        match weaponResult with
        | inl message =>
            (failure ("Failed to create weapon: " +:+ message), (s.1, w))
        | inr (weapon, engagementMgr) =>
            let '(assignResult, s) :=
              on_tube tubeNumber
                (Tubes.assignWeapon to_3D (Some weapon) (Some engagementMgr)
                   (AssignmentRequest.assignmentInfo request)) (s.1, w) in
            match assignResult with
            | Some success =>
                let targetId :=
                  Tubes.systemTargetId
                    (AssignmentRequest.assignmentInfo request) in
                let m :=
                  modify_tube tubeNumber
                    (Tubes.setAxisCenter (m_axisCenter e)) s.1 in
                let m :=
                  if bool_decide (0 < targetId) then
                    match m_targetInfoMap e !! targetId with
                    | Some target =>
                        modify_tube tubeNumber
                          (Tubes.updateTargetInfo to_3D target) m
                    | None => m
                    end
                  else m in
                (success, (m, s.2))
            | Some assignResult => (assignResult, s)
            | None => (invalid_tube tubeNumber, s)
            end
        end
  end.

(** [LaunchTubeManager::unassignWeapon] *)
Definition unassignWeapon (tubeNumber : nat) (s : Tubes.MgrSys)
  : Result * Tubes.MgrSys :=
  match getValidatedTube s.1 tubeNumber with
  | None => (invalid_tube tubeNumber, s)
  | Some tube =>
      if negb (Tubes.hasWeapon tube) then
        (failure ("Tube " +:+ pretty tubeNumber +:+ " is not assigned"), s)
      else (success, (on_tube tubeNumber Tubes.clearAssignment s).2)
  end.

Definition requestWeaponStateChange
    (request : ControlRequest.WeaponControlRequest) (s : Tubes.MgrSys)
  : Result * Tubes.MgrSys :=
  let tubeNumber := ControlRequest.tubeNumber request in
  match getValidatedTube s.1 tubeNumber with
  | None => (invalid_tube tubeNumber, s)
  | Some _ =>
      let '(result, s') :=
        on_tube tubeNumber
          (Tubes.requestWeaponStateChange env
             (ControlRequest.targetState request)
             (ControlRequest.cancellationToken request)) s in
      (default (invalid_tube tubeNumber) result, s')
  end.

(** The body of the loop of [requestAllWeaponStateChange] for the tube
    in slot [i]; the request goes out with a token of its own, the
    default argument. *)
Definition requestAll_body (newState : EN_WPN_CTRL_STATE) (i : nat)
    (acc : bool * string) (s : Tubes.MgrSys)
  : (bool * string) * Tubes.MgrSys :=
  let '(m, w) := s in
  match Tubes.tube_at m i with
  | None => (acc, s)
  | Some tube =>
      let '(token, w) := newToken w in
      let '(result, (tube', w)) :=
        Tubes.requestWeaponStateChange env newState token (tube, w) in
      let m :=
        Tubes.set_launchTubes (<[i := Some tube']> (Tubes.m_launchTubes m)) m in
      match result with
      | success => (acc, (m, w))
      | failure message =>
          ((false,
            acc.2 +:+ "Tube " +:+ pretty (Tubes.m_tubeNumber tube') +:+ ": "
                  +:+ message +:+ "; "), (m, w))
      end
  end.

Fixpoint requestAll_loop (newState : EN_WPN_CTRL_STATE)
    (assignedTubes : list nat) (acc : bool * string) (s : Tubes.MgrSys)
  : (bool * string) * Tubes.MgrSys :=
  match assignedTubes with
  | [] => (acc, s)
  | i :: rest =>
      let '(acc', s') := requestAll_body newState i acc s in
      requestAll_loop newState rest acc' s'
  end.

Definition requestAllWeaponStateChange (newState : EN_WPN_CTRL_STATE)
    (s : Tubes.MgrSys) : Result * Tubes.MgrSys :=
  let '((allSuccess, errors), s') :=
    requestAll_loop newState (Tubes.getAssignedTubes s.1)
      (true, EmptyString) s in
  if allSuccess then (success, s')
  else (failure ("Some state changes failed: " +:+ errors), s').

(** [LaunchTubeManager::updateTargetInfo] *)
Definition updateTargetInfo (target : TRKMGR_SYSTEMTARGET_INFO)
    (e : Environment) (m : Tubes.LaunchTubeManager)
  : Environment * Tubes.LaunchTubeManager :=
  (mkEnvironment (m_axisCenter e)
     (<[unTargetSystemID target := target]> (m_targetInfoMap e)),
   foldl (λ m i, modify_tube i (Tubes.updateTargetInfo to_3D target) m)
         m (Tubes.getAssignedTubes m)).

Definition setAxisCenter (axisCenter : Q * Q)
    (e : Environment) (m : Tubes.LaunchTubeManager)
  : Environment * Tubes.LaunchTubeManager :=
  (mkEnvironment axisCenter (m_targetInfoMap e),
   foldl (λ m i, modify_tube i (Tubes.setAxisCenter axisCenter) m)
         m (Tubes.getAssignedTubes m)).

Definition updateWaypoints (request : WaypointRequest.WaypointUpdateRequest)
    (m : Tubes.LaunchTubeManager) : Result * Tubes.LaunchTubeManager :=
  let tubeNumber := WaypointRequest.tubeNumber request in
  match getValidatedTube m tubeNumber with
  | None => (invalid_tube tubeNumber, m)
  | Some tube =>
      let '(result, tube) :=
        Tubes.updateWaypoints to_3D (WaypointRequest.waypoints request) tube in
      (result,
       Tubes.set_launchTubes
         (<[tubeNumber := Some tube]> (Tubes.m_launchTubes m)) m)
  end.

Definition calculateEngagementPlan (tubeNumber : nat) (s : Tubes.MgrSys)
  : Result * Tubes.MgrSys :=
  match getValidatedTube s.1 tubeNumber with
  | None => (invalid_tube tubeNumber, s)
  | Some _ =>
      let '(result, s') :=
        on_tube tubeNumber (Tubes.calculateEngagementPlan to_3D) s in
      (default (invalid_tube tubeNumber) result, s')
  end.

Definition calculateAllEngagementPlans (s : Tubes.MgrSys) : Tubes.MgrSys :=
  foldl (λ s i, (on_tube i (Tubes.calculateEngagementPlan to_3D) s).2)
        s (Tubes.getAssignedTubes s.1).

(** [LaunchTubeManager::update]; [clock i] is the reading the manager of
    tube [i] makes. *)
Definition update (clock : nat → Q) (s : Tubes.MgrSys) : Tubes.MgrSys :=
  foldl (λ s i, (on_tube i (Tubes.update to_3D (clock i)) s).2)
        s (Tubes.getAssignedTubes s.1).

End WithEnvironment.

End TubeManager.

(* ===================================================================== *)
(** ** TargetTrackingService *)
(* ===================================================================== *)

Module Tracking.

(** Readings of the steady clock are seconds. *)
Record TargetData : Type := mkTargetData {
  info : TRKMGR_SYSTEMTARGET_INFO;
  lastUpdateTime : Q
}.

(** [m_targetsMutex] is held or free; the calls below are made by one
    thread, so a lock that is held is held by the caller. *)
Record TargetTrackingService : Type := mkService {
  m_targets : gmap nat TargetData;
  m_targetsMutex : bool
}.

Definition new_TargetTrackingService : TargetTrackingService :=
  mkService ∅ false.

(** How a call ends: it returns, or it locks [m_targetsMutex] while the
    calling thread already holds it, after which nothing is defined. *)
Inductive Outcome (A : Type) : Type :=
| Returned (a : A)
| LocksAgain.
Arguments Returned {A} a.
Arguments LocksAgain {A}.

(** [std::lock_guard<std::shared_mutex> lock(m_targetsMutex)] around
    [body]; [std::shared_lock] behaves the same for one thread. *)
Definition locked {A S : Type} (mutex : S → bool) (set_mutex : bool → S → S)
    (body : S → Outcome (A * S)) (s : S) : Outcome (A * S) :=
  if mutex s then LocksAgain
  else
    match body (set_mutex true s) with
    | Returned (a, s') => Returned (a, set_mutex false s')
    | LocksAgain => LocksAgain
    end.

Definition set_mutex (v : bool) (s : TargetTrackingService)
  : TargetTrackingService :=
  mkService (m_targets s) v.

Definition set_targets (v : gmap nat TargetData) (s : TargetTrackingService)
  : TargetTrackingService :=
  mkService v (m_targetsMutex s).

(** [clearOldTargets(maxAge)], [maxAge] in seconds, with the clock
    reading [now] the function makes. *)
Definition clearOldTargets (maxAge : Q) (now : Q)
  : TargetTrackingService → Outcome (unit * TargetTrackingService) :=
  locked m_targetsMutex set_mutex
    (λ s, Returned
            (tt, set_targets
                   (filter (λ entry,
                              Qltb maxAge (now - lastUpdateTime entry.2)
                              = false)
                           (m_targets s)) s)).

(** [updateTargetInfo]. [lastCleanup] is the function's static variable:
    [None] until the first call initialises it. [clock k] is the [k]-th
    reading of the steady clock the call makes. *)
Definition updateTargetInfo (targetInfo : TRKMGR_SYSTEMTARGET_INFO)
    (clock : nat → Q) (lastCleanup : option Q)
  : TargetTrackingService → Outcome (option Q * TargetTrackingService) :=
  locked m_targetsMutex set_mutex
    (λ s,
       let data := mkTargetData targetInfo (clock 0) in
       let s :=
         set_targets (<[unTargetSystemID targetInfo := data]> (m_targets s))
           s in
       let '(lastCleanup, k) :=
         match lastCleanup with
         | Some t => (t, 1)
         | None => (clock 1, 2)
         end in
       let now := clock k in
       if Qltb 60 (now - lastCleanup) then
         match clearOldTargets 300 (clock (S k)) s with
         | Returned (_, s) => Returned (Some now, s)
         | LocksAgain => LocksAgain
         end
       else Returned (Some lastCleanup, s)).

Definition getTarget (systemTargetId : nat)
  : TargetTrackingService
    → Outcome (option TRKMGR_SYSTEMTARGET_INFO * TargetTrackingService) :=
  locked m_targetsMutex set_mutex
    (λ s, Returned (info <$> m_targets s !! systemTargetId, s)).

Definition getTargetCount
  : TargetTrackingService → Outcome (nat * TargetTrackingService) :=
  locked m_targetsMutex set_mutex (λ s, Returned (size (m_targets s), s)).

End Tracking.


(* ===================================================================== *)
(** ** Vocabulary of the statements *)
(* ===================================================================== *)

(** The world after the calling thread has slept [k] more slices. *)
Definition slept (env : nat → gset nat) (k : nat) (w : World) : World :=
  Nat.iter k (sleep_for_interval env) w.

(** The world with more entries in its log. *)
Definition add_log (evs : list Event) (w : World) : World :=
  mkWorld (cancelled w) (next_cell w) (now w) (log w ++ evs).

(** A poll made [t] slices from now finds the token cancelled. *)
Definition seen (env : nat → gset nat) (token : CancellationToken)
    (w : World) (t : nat) : bool :=
  isCancelled token (slept env t w).

(** Somebody else cancels the token while the thread sleeps its [t]-th
    slice from now. *)
Definition fires_during (env : nat → gset nat) (token : CancellationToken)
    (w : World) (t : nat) : Prop :=
  token ∈ env (now w + t).

(** The entries [setState] adds for a weapon that moves from [old] to
    [new]: the write, then one call per observer when the state differs. *)
Definition state_events (wp : Weapon.WeaponBase)
    (old new : EN_WPN_CTRL_STATE) : list Event :=
  EvState old new ::
  (if bool_decide (old ≠ new)
   then (λ o, EvStateChanged o (Weapon.m_tubeNumber wp) old new)
          <$> Weapon.m_observers wp
   else []).

Definition launch_events (wp : Weapon.WeaponBase) (launched : bool)
  : list Event :=
  (λ o, EvLaunchStatusChanged o (Weapon.m_tubeNumber wp) launched)
    <$> Weapon.m_observers wp.

(** The weapon after [setState newState] at clock [t]. *)
Definition moved (newState : EN_WPN_CTRL_STATE) (t : nat)
    (wp : Weapon.WeaponBase) : Weapon.WeaponBase :=
  Weapon.set_stateStartTime t (Weapon.set_currentState newState wp).

(** The writes to [m_currentState] a log records, as (from, to) pairs. *)
Definition transitions (l : list Event)
  : list (EN_WPN_CTRL_STATE * EN_WPN_CTRL_STATE) :=
  omap (λ e, match e with EvState old new => Some (old, new) | _ => None end) l.

(** (from, to) is a pair of the transition table. *)
Definition in_table (p : EN_WPN_CTRL_STATE * EN_WPN_CTRL_STATE) : Prop :=
  Weapon.isValidTransition p.1 p.2 = true.

(** The transitions the weapon makes on its own account. *)
Definition internal (p : EN_WPN_CTRL_STATE * EN_WPN_CTRL_STATE) : Prop :=
  p ∈ [ (WPN_CTRL_STATE_OFF, WPN_CTRL_STATE_POC);
        (WPN_CTRL_STATE_POC, WPN_CTRL_STATE_ON);
        (WPN_CTRL_STATE_POC, WPN_CTRL_STATE_OFF);
        (WPN_CTRL_STATE_ON, WPN_CTRL_STATE_RTL);
        (WPN_CTRL_STATE_RTL, WPN_CTRL_STATE_ON) ]
  ∨ p.2 = WPN_CTRL_STATE_POST_LAUNCH
  ∨ p.2 = WPN_CTRL_STATE_OFF.

(** The operations of a weapon that the outside can call. *)
Inductive WeaponOp : Type :=
| OpRequestStateChange (newState : EN_WPN_CTRL_STATE) (token : CancellationToken)
| OpUpdate
| OpSetLaunched (launched : bool)
| OpSetFireSolutionReady (ready : bool)
| OpReset.

Definition run_op (env : nat → gset nat) (op : WeaponOp)
  : Weapon.M unit :=
  match op with
  | OpRequestStateChange newState token =>
      bind (Weapon.requestStateChange env newState token) (λ _, ret tt)
  | OpUpdate => Weapon.update
  | OpSetLaunched launched => Weapon.setLaunched launched
  | OpSetFireSolutionReady ready => Weapon.setFireSolutionReady ready
  | OpReset => Weapon.reset
  end.

Definition run_ops (env : nat → gset nat) (ops : list WeaponOp)
  : Weapon.M unit :=
  for_each ops (run_op env).

(** Number of slices of a launch step or of the power-on delay. *)
Definition slices (duration : Q) : nat :=
  Z.to_nat (Weapon.total_intervals duration).

(** The instants, in slices from the start of the launch sequence, at
    which [processLaunch] looks at the token: at the start of each step
    and before each slice of the step. *)
Fixpoint poll_times (start : nat) (steps : list Weapon.LaunchStep)
  : list nat :=
  match steps with
  | [] => []
  | step :: rest =>
      start :: seq start (slices (Weapon.duration step))
        ++ poll_times (start + slices (Weapon.duration step)) rest
  end.

Definition total_slices (steps : list Weapon.LaunchStep) : nat :=
  sum_list (slices ∘ Weapon.duration <$> steps).

(** The two tokens [sleepWithCancellationCheck] looks at. *)
Definition polled (wp : Weapon.WeaponBase) (token : CancellationToken)
    (w : World) : bool :=
  isCancelled token w
  || isCancelled (Weapon.m_currentCancellationToken wp) w.

(** What one state-change request may write to [m_currentState]. *)
Definition request_step (p : EN_WPN_CTRL_STATE * EN_WPN_CTRL_STATE) : Prop :=
  in_table p ∨ p.2 = WPN_CTRL_STATE_ABORT
  ∨ p ∈ [ (WPN_CTRL_STATE_OFF, WPN_CTRL_STATE_POC);
          (WPN_CTRL_STATE_POC, WPN_CTRL_STATE_ON);
          (WPN_CTRL_STATE_POC, WPN_CTRL_STATE_OFF);
          (WPN_CTRL_STATE_LAUNCH, WPN_CTRL_STATE_POST_LAUNCH) ].

Definition allowed (p : EN_WPN_CTRL_STATE * EN_WPN_CTRL_STATE) : Prop :=
  in_table p ∨ p.2 = WPN_CTRL_STATE_ABORT ∨ internal p.

(** The state-change requests a log records: tube, target state, and
    whether the token that came with the request was already cancelled. *)
Definition requests (l : list Event)
  : list (nat * EN_WPN_CTRL_STATE * bool) :=
  omap (λ e, match e with
             | EvRequest tube target _ c => Some (tube, target, c)
             | _ => None
             end) l.

(** *** Missile managers over a history of calls *)

Inductive MissileOp : Type :=
| OpSetTargetPosition (targetPos : SGEODETIC_POSITION)
| OpSetSystemTarget (systemTargetId : nat)
| OpUpdateTargetInfo (target : TRKMGR_SYSTEMTARGET_INFO)
| OpUpdateWaypoints (waypoints : list ST_WEAPON_WAYPOINT)
| OpCalculateEngagementPlan
| OpInitialize (tubeNumber : nat) (weaponKind : EN_WPN_KIND)
| OpResetManager (clock : Q)
| OpSetAxisCenter (axisCenter : Q * Q)
| OpSetLaunchedManager (launched : bool)
| OpUpdateManager (clock : Q).

Definition missile_step
    (to_3D : SGEODETIC_POSITION → ST_3D_GEODETIC_POSITION)
    (m : Engagement.MissileEngagementManagerBase) (op : MissileOp)
  : Engagement.MissileEngagementManagerBase :=
  match op with
  | OpSetTargetPosition targetPos =>
      (Engagement.setTargetPosition to_3D targetPos m).2
  | OpSetSystemTarget systemTargetId =>
      (Engagement.setSystemTarget systemTargetId m).2
  | OpUpdateTargetInfo target => Engagement.updateTargetInfo to_3D target m
  | OpUpdateWaypoints waypoints =>
      (Engagement.updateWaypoints to_3D waypoints m).2
  | OpCalculateEngagementPlan =>
      (Engagement.missile_calculateEngagementPlan to_3D m).2
  | OpInitialize tubeNumber weaponKind =>
      Engagement.missile_with_base
        (λ b, (Engagement.base_initialize tubeNumber weaponKind b).2) m
  | OpResetManager clock =>
      Engagement.missile_with_base (Engagement.base_reset clock) m
  | OpSetAxisCenter axisCenter =>
      Engagement.missile_with_base (Engagement.base_setAxisCenter axisCenter) m
  | OpSetLaunchedManager launched =>
      Engagement.missile_with_base (Engagement.base_setLaunched launched) m
  | OpUpdateManager clock => Engagement.missile_update clock m
  end.

(** The manager after a history of calls, oldest first. *)
Definition missile_run
    (to_3D : SGEODETIC_POSITION → ST_3D_GEODETIC_POSITION)
    (history : list MissileOp) (m : Engagement.MissileEngagementManagerBase)
  : Engagement.MissileEngagementManagerBase :=
  foldl (missile_step to_3D) m history.

(** The two calls that designate a target. *)
Definition designates (op : MissileOp) : Prop :=
  match op with
  | OpSetTargetPosition _ | OpSetSystemTarget _ => True
  | _ => False
  end.

(** "A direct target position was set": the latest designation of the
    history is a position. *)
Definition direct_position_set (history : list MissileOp) : Prop :=
  ∃ before targetPos after,
    history = before ++ OpSetTargetPosition targetPos :: after
    ∧ Forall (λ op, ¬ designates op) after.

(** "A system target id was set and a track with that id has since been
    received": the latest designation is a system target id (0 is the
    value the code reserves for no system target), and one of the later
    calls delivers a track with that id. *)
Definition system_target_tracked (history : list MissileOp) : Prop :=
  ∃ before systemTargetId after,
    history = before ++ OpSetSystemTarget systemTargetId :: after
    ∧ systemTargetId ≠ 0
    ∧ Forall (λ op, ¬ designates op) after
    ∧ ∃ target, OpUpdateTargetInfo target ∈ after
                ∧ unTargetSystemID target = systemTargetId.

(** What a manager that is already in use adds to a history that
    designates nothing: its flag, or its system target once a matching
    track arrives. *)
Definition pending (m : Engagement.MissileEngagementManagerBase)
    (history : list MissileOp) : Prop :=
  Forall (λ op, ¬ designates op) history
  ∧ (Engagement.m_hasValidTarget m = true
     ∨ (Engagement.m_systemTargetId m ≠ 0
        ∧ ∃ target, OpUpdateTargetInfo target ∈ history
                    ∧ unTargetSystemID target = Engagement.m_systemTargetId m)).

(** *** Emergency stop *)

(** The state [emergencyStop] asks of a tube. *)
Definition emergency_target (tube : Tubes.LaunchTube) : EN_WPN_CTRL_STATE :=
  if bool_decide (Tubes.getWeaponState tube = WPN_CTRL_STATE_LAUNCH)
  then WPN_CTRL_STATE_ABORT else WPN_CTRL_STATE_OFF.

Definition emergency_request (tube : Tubes.LaunchTube)
  : nat * EN_WPN_CTRL_STATE * bool :=
  (Tubes.m_tubeNumber tube, emergency_target tube,
   bool_decide (emergency_target tube = WPN_CTRL_STATE_ABORT)).

(** The tubes [getAssignedTubes] returns, in its order. *)
Definition assigned_tubes (m : Tubes.LaunchTubeManager)
  : list Tubes.LaunchTube :=
  omap (Tubes.tube_at m) (Tubes.getAssignedTubes m).

(** *** Inputs of the examples *)

(** Nobody else touches a token. *)
Definition quiet : nat → gset nat := λ _, ∅.

(** Somebody cancels [token] while the thread sleeps slice [t]. *)
Definition fire_at (t : nat) (token : CancellationToken) : nat → gset nat :=
  λ t', if bool_decide (t' = t) then {[token]} else ∅.

Definition world0 : World := mkWorld ∅ 0 0 [].

(** An ALM weapon as the factory builds it, with the default delay of
    three seconds, initialised on tube 1 and observed by that tube. *)
Definition weapon_on_tube_1 : Weapon.Sys :=
  (bind (Weapon.initialize 1) (λ _, Weapon.addStateObserver 1)
     (Weapon.new_WeaponBase WPN_KIND_ALM 3 world0)).2.

(** The same weapon brought to RTL: switched on with a fresh token, fire
    solution ready, one tick. *)
Definition weapon_in_RTL (env : nat → gset nat) : Weapon.Sys :=
  (run_ops env [ OpRequestStateChange WPN_CTRL_STATE_ON
                   (newToken weapon_on_tube_1.2).1;
                 OpSetFireSolutionReady true;
                 OpUpdate ]
     (weapon_on_tube_1.1, (newToken weapon_on_tube_1.2).2)).2.

(** Plan 7 of the round-trip scenario: one waypoint. *)
Definition plan_7 : ST_M_MINE_PLAN_INFO :=
  mkMinePlan 3 7 (mkGeo3D 35 129 0) (mkGeo3D (351 # 10) (1291 # 10) 0) 1
    (mkGeo3D (3505 # 100) (12905 # 100) 0 :: replicate 7 zero_position).

(** The same plan with a waypoint count of nine. *)
Definition overfull_plan : ST_M_MINE_PLAN_INFO :=
  mkMinePlan 3 7 (mkGeo3D 35 129 0) (mkGeo3D (351 # 10) (1291 # 10) 0) 9
    (replicate 8 (mkGeo3D (3505 # 100) (12905 # 100) 0)).

(** A store with the default limits, nothing cached and no file. *)
Definition empty_store : PlanStore.Sys :=
  (PlanStore.mkService ∅ "data/mine_plans" 15 15 true,
   PlanStore.mkFileSystem ∅ ∅).

(** A tube holding an ALM weapon in [state] and its manager. *)
Definition tube_with (tubeNumber : nat) (state : EN_WPN_CTRL_STATE)
    (token : CancellationToken) : Tubes.LaunchTube :=
  Tubes.mkLaunchTube tubeNumber
    (Some (Weapon.mkWeaponBase WPN_KIND_ALM tubeNumber state false true
             [ Weapon.mkLaunchStep "ALM Power On Check" 1;
               Weapon.mkLaunchStep "ALM System Verification" 1;
               Weapon.mkLaunchStep "ALM Launch Sequence" 1 ]
             3 [tubeNumber] 0 token))
    (Some (Engagement.Missile
             (Engagement.new_MissileEngagementManager
                Engagement.ALMEngagementManager 0)))
    (Tubes.mkAssignmentInfo tubeNumber WPN_KIND_ALM 0 (SGeo.mkSGeo 0 0 0) 0 0)
    Engagement.new_EngagementPlanResult.

(** Six tubes; tube 1 is in the middle of a launch, tube 2 is ready to
    launch, the others are empty. *)
Definition two_assigned_tubes : Tubes.MgrSys :=
  (Tubes.mkManager
     ([ None;
        Some (tube_with 1 WPN_CTRL_STATE_LAUNCH 0);
        Some (tube_with 2 WPN_CTRL_STATE_RTL 1) ]
      ++ ((λ i, Some (Tubes.mkLaunchTube i None None
                        (Tubes.mkAssignmentInfo 0 WPN_KIND_NA 0
                           (SGeo.mkSGeo 0 0 0) 0 0)
                        Engagement.new_EngagementPlanResult))
            <$> [3; 4; 5; 6]))
     6 1 6 true,
   mkWorld ∅ 2 0 []).

(** *** Observers *)

(** The calls of [onStateChanged] a log records: observer, tube, old and
    new state. *)
Definition state_notifications (l : list Event)
  : list (nat * nat * EN_WPN_CTRL_STATE * EN_WPN_CTRL_STATE) :=
  omap (λ e, match e with
             | EvStateChanged observer tube old new =>
                 Some (observer, tube, old, new)
             | _ => None
             end) l.

(** What the observers of [wp] are owed for a list of writes to the
    state: one call each, in the order of registration, for every write
    that changes the state. *)
Definition owed_notifications (wp : Weapon.WeaponBase)
    (writes : list (EN_WPN_CTRL_STATE * EN_WPN_CTRL_STATE))
  : list (nat * nat * EN_WPN_CTRL_STATE * EN_WPN_CTRL_STATE) :=
  writes ≫= λ p,
    if bool_decide (p.1 ≠ p.2)
    then (λ o, (o, Weapon.m_tubeNumber wp, p.1, p.2)) <$> Weapon.m_observers wp
    else [].

(** The observers a log shows being called, for a state change or for a
    change of the launch status. *)
Definition called_observers (l : list Event) : list nat :=
  omap (λ e, match e with
             | EvStateChanged observer _ _ _ => Some observer
             | EvLaunchStatusChanged observer _ _ => Some observer
             | _ => None
             end) l.

(** What the member functions of a weapon add to the log: cancellations,
    the entries of [setState] and of [notifyLaunchStatusChanged], and,
    when [stores] is set, the bare write of [reset]. *)
Inductive emitted_by (stores : bool) (wp : Weapon.WeaponBase)
  : list Event → Prop :=
| emitted_nil : emitted_by stores wp []
| emitted_cancel cell evs :
    emitted_by stores wp evs → emitted_by stores wp (EvCancel cell :: evs)
| emitted_state old new evs :
    emitted_by stores wp evs →
    emitted_by stores wp (state_events wp old new ++ evs)
| emitted_launch launched evs :
    emitted_by stores wp evs →
    emitted_by stores wp (launch_events wp launched ++ evs)
| emitted_store old new evs :
    stores = true →
    emitted_by stores wp evs → emitted_by stores wp (EvState old new :: evs).

(** *** Mine managers over a history of calls *)

Inductive MineOp : Type :=
| OpSetDropPlan (listNum planNum : nat)
| OpUpdateDropPlanWaypoints (waypoints : list ST_WEAPON_WAYPOINT)
| OpCalculateMinePlan
| OpInitializeMine (tubeNumber : nat) (weaponKind : EN_WPN_KIND)
| OpResetMine (clock : Q)
| OpSetAxisCenterMine (axisCenter : Q * Q)
| OpSetLaunchedMine (launched : bool)
| OpUpdateMine (clock : Q).

Definition mine_step (m : Engagement.MineEngagementManagerBase) (op : MineOp)
  : Engagement.MineEngagementManagerBase :=
  match op with
  | OpSetDropPlan listNum planNum => (Engagement.setDropPlan listNum planNum m).2
  | OpUpdateDropPlanWaypoints waypoints =>
      (Engagement.updateDropPlanWaypoints waypoints m).2
  | OpCalculateMinePlan => (Engagement.mine_calculateEngagementPlan m).2
  | OpInitializeMine tubeNumber weaponKind =>
      Engagement.mine_with_base
        (λ b, (Engagement.base_initialize tubeNumber weaponKind b).2) m
  | OpResetMine clock =>
      Engagement.mine_with_base (Engagement.base_reset clock) m
  | OpSetAxisCenterMine axisCenter =>
      Engagement.mine_with_base (Engagement.base_setAxisCenter axisCenter) m
  | OpSetLaunchedMine launched =>
      Engagement.mine_with_base (Engagement.base_setLaunched launched) m
  | OpUpdateMine clock => Engagement.mine_update clock m
  end.

(** The manager after a history of calls, oldest first. *)
Definition mine_run (history : list MineOp)
    (m : Engagement.MineEngagementManagerBase)
  : Engagement.MineEngagementManagerBase :=
  foldl mine_step m history.

(** *** Positions *)

(** [x] lies between [a] and [b], whichever is the larger. *)
Definition between (a b x : Q) : Prop :=
  (a <= x <= b)%Q ∨ (b <= x <= a)%Q.

(** Two positions have equal coordinates (as numbers). *)
Definition same_position (p q : ST_3D_GEODETIC_POSITION) : Prop :=
  (dLatitude p == dLatitude q)%Q
  ∧ (dLongitude p == dLongitude q)%Q
  ∧ (fDepth p == fDepth q)%Q.

(** Every coordinate of [p] lies between those of [from] and [to]. *)
Definition within (from to p : ST_3D_GEODETIC_POSITION) : Prop :=
  between (dLatitude from) (dLatitude to) (dLatitude p)
  ∧ between (dLongitude from) (dLongitude to) (dLongitude p)
  ∧ between (fDepth from) (fDepth to) (fDepth p).

(** *** The plan store over a sequence of calls *)

(** A call of [initialize] comes with what [create_directories] does
    during that call. *)
Inductive StoreOp : Type :=
| OpInitializeStore (create_directories : string → option string)
    (planDataPath : string)
| OpLoadPlanList (planListNumber : nat)
| OpSavePlanList (planListNumber : nat) (plans : list ST_M_MINE_PLAN_INFO)
| OpCreateNewPlanList (planListNumber : nat)
| OpDeletePlanList (planListNumber : nat)
| OpUpdatePlan (planListNumber : nat) (plan : ST_M_MINE_PLAN_INFO)
| OpAddPlan (planListNumber : nat) (plan : ST_M_MINE_PLAN_INFO)
| OpRemovePlan (planListNumber planNumber : nat)
| OpUpdateFromEditedPlanList.

Definition store_op (show_double : Q → string) (op : StoreOp)
  : PlanStore.M Result :=
  match op with
  | OpInitializeStore create_directories planDataPath =>
      PlanStore.initialize show_double create_directories planDataPath
  | OpLoadPlanList planListNumber => PlanStore.loadPlanList planListNumber
  | OpSavePlanList planListNumber plans =>
      PlanStore.savePlanList show_double planListNumber plans
  | OpCreateNewPlanList planListNumber =>
      PlanStore.createNewPlanList show_double planListNumber
  | OpDeletePlanList planListNumber => PlanStore.deletePlanList planListNumber
  | OpUpdatePlan planListNumber plan =>
      PlanStore.updatePlan show_double planListNumber plan
  | OpAddPlan planListNumber plan =>
      PlanStore.addPlan show_double planListNumber plan
  | OpRemovePlan planListNumber planNumber =>
      PlanStore.removePlan show_double planListNumber planNumber
  | OpUpdateFromEditedPlanList => PlanStore.updateFromEditedPlanList show_double
  end.

Definition store_run (show_double : Q → string) (ops : list StoreOp)
  : PlanStore.M unit :=
  for_each ops (λ op, bind (store_op show_double op) (λ _, ret tt)).

(** [initialize] stores the path it is given, unless it is empty, before
    anything can fail. *)
Definition with_planDataPath (planDataPath : string)
    (s : PlanStore.MineDropPlanService) : PlanStore.MineDropPlanService :=
  if bool_decide (planDataPath ≠ EmptyString)
  then PlanStore.mkService (PlanStore.m_cachedPlans s) planDataPath
         (PlanStore.m_maxPlanLists s) (PlanStore.m_maxPlansPerList s)
         (PlanStore.m_initialized s)
  else s.

(** [create_directories] that creates every directory. *)
Definition creatable : string → option string := λ _, None.

(** [create_directories] that throws on every path. *)
Definition read_only_disk : string → option string :=
  λ _, Some "Permission denied".

(** Every list the cache holds has a valid list number, at most
    [m_maxPlansPerList] plans, and only plans that pass [validatePlan]. *)
Definition cache_within_limits (s : PlanStore.MineDropPlanService) : Prop :=
  ∀ planListNumber plans,
    PlanStore.m_cachedPlans s !! planListNumber = Some plans →
    PlanStore.isValidPlanListNumber s planListNumber = true
    ∧ length plans ≤ PlanStore.m_maxPlansPerList s
    ∧ Forall (λ plan, PlanStore.validatePlan plan = true) plans.

(** The plans of a list carry different plan numbers. *)
Definition distinct_numbers (plans : list ST_M_MINE_PLAN_INFO) : Prop :=
  NoDup (usDroppingPlanNumber <$> plans).

(** No list of the cache holds two plans of the same number. *)
Definition plan_numbers_distinct (s : PlanStore.MineDropPlanService) : Prop :=
  ∀ planListNumber plans,
    PlanStore.m_cachedPlans s !! planListNumber = Some plans →
    distinct_numbers plans.

(** The call does not save a list with a repeated plan number. *)
Definition saves_distinct (op : StoreOp) : Prop :=
  match op with
  | OpSavePlanList _ plans => distinct_numbers plans
  | _ => True
  end.


(** The manager is the mine's, not a missile's. *)
Definition is_mine_manager (mgr : Engagement.EngagementManager) : bool :=
  match mgr with
  | Engagement.Mine _ => true
  | Engagement.Missile _ => false
  end.

(** The manager can compute a plan: a missile's has a valid target, the
    mine's always can. *)
Definition plan_computable (mgr : Engagement.EngagementManager) : bool :=
  match mgr with
  | Engagement.Missile m => Engagement.m_hasValidTarget m
  | Engagement.Mine _ => true
  end.

(** The [uint16_t] counter of the loops over the tube numbers reaches
    [m_maxTubeNumber] and leaves the loop: at 65535 it would wrap to 0 and
    the loop would not end. *)
Definition tube_counter_fits (m : Tubes.LaunchTubeManager) : Prop :=
  (Z.of_nat (Tubes.m_maxTubeNumber m) < 65535)%Z.

(** The same for the [uint32_t] counter of the loops over the plan list
    numbers. *)
Definition list_counter_fits (s : PlanStore.MineDropPlanService) : Prop :=
  (Z.of_nat (PlanStore.m_maxPlanLists s) < 4294967295)%Z.

(** Where [emergencyStop] leaves a weapon that was in [state]: a launch
    is aborted; the others are switched off when the table lets them, and
    stay as they are when it does not. *)
Definition after_emergency_stop (state : EN_WPN_CTRL_STATE)
  : EN_WPN_CTRL_STATE :=
  if bool_decide (state = WPN_CTRL_STATE_LAUNCH) then WPN_CTRL_STATE_ABORT
  else if Weapon.isValidTransition state WPN_CTRL_STATE_OFF
       then WPN_CTRL_STATE_OFF
       else state.

(** [emergencyStop]'s request of a weapon in [state] is accepted. *)
Definition emergency_stop_accepted (state : EN_WPN_CTRL_STATE) : bool :=
  bool_decide (state = WPN_CTRL_STATE_LAUNCH)
  || Weapon.isValidTransition state WPN_CTRL_STATE_OFF.

(** The tube holds a missile that waits for the track: its manager was
    given the track's system target id. *)
Definition awaits (target : TRKMGR_SYSTEMTARGET_INFO)
    (tube : Tubes.LaunchTube) : Prop :=
  Tubes.hasWeapon tube = true
  ∧ ∃ missile,
      Tubes.m_engagementMgr tube = Some (Engagement.Missile missile)
      ∧ Engagement.m_systemTargetId missile ≠ 0
      ∧ unTargetSystemID target = Engagement.m_systemTargetId missile.

(** The tube as [clearAssignment] leaves it. *)
Definition cleared (tube : Tubes.LaunchTube) : Tubes.LaunchTube :=
  Tubes.mkLaunchTube (Tubes.m_tubeNumber tube) None None
    Tubes.new_AssignmentInfo (Tubes.m_lastEngagementResult tube).

(** *** Inputs of the examples, continued *)

(** A manager for six tubes, initialised. *)
Definition six_tubes : Tubes.LaunchTubeManager :=
  (TubeManager.initialize (TubeManager.new_LaunchTubeManager 6 0)).2.

(** An ALM for tube 2, aimed at a position. *)
Definition alm_for_tube_2 : AssignmentRequest.WeaponAssignmentRequest :=
  AssignmentRequest.mkRequest 2 WPN_KIND_ALM
    (Tubes.mkAssignmentInfo 2 WPN_KIND_ALM 0 (SGeo.mkSGeo 36 130 0) 0 0).

(** Tube 2 with an ALM that was just switched on: no fire solution yet,
    and a manager that was given a target position. *)
Definition tube_switched_on : Tubes.LaunchTube :=
  Tubes.mkLaunchTube 2
    (Some (Weapon.mkWeaponBase WPN_KIND_ALM 2 WPN_CTRL_STATE_ON false false
             [ Weapon.mkLaunchStep "ALM Power On Check" 1;
               Weapon.mkLaunchStep "ALM System Verification" 1;
               Weapon.mkLaunchStep "ALM Launch Sequence" 1 ]
             3 [2] 0 1))
    (Some (Engagement.Missile
             (Engagement.setTargetPosition (λ _, zero_position)
                (SGeo.mkSGeo 36 130 0)
                (Engagement.new_MissileEngagementManager
                   Engagement.ALMEngagementManager 0)).2))
    (Tubes.mkAssignmentInfo 2 WPN_KIND_ALM 0 (SGeo.mkSGeo 36 130 0) 0 0)
    Engagement.new_EngagementPlanResult.

(** Track 42. *)
Definition track_42 : TRKMGR_SYSTEMTARGET_INFO :=
  mkTrack 42 (mkGeo3D 37 127 0).

#[global] Arguments slept : simpl never.
#[global] Arguments state_events : simpl never.
#[global] Arguments launch_events : simpl never.
#[global] Arguments moved : simpl never.

(* ===================================================================== *)
(** ** The world, the log and the polling loops *)
(* ===================================================================== *)

Section WeaponFacts.

Context (env : nat → gset nat).

Lemma slept_S k w : slept env (S k) w = slept env k (sleep_for_interval env w).
Proof. unfold slept. by rewrite Nat.iter_succ_r. Qed.

Lemma log_slept k w : log (slept env k w) = log w.
Proof. induction k as [|k IH]; [done|]. unfold slept in *. simpl. exact IH. Qed.

Lemma now_slept k w : now (slept env k w) = now w + k.
Proof.
  induction k as [|k IH]; unfold slept in *; simpl; [lia|].
  rewrite IH. lia.
Qed.

Lemma slept_add_log evs k w :
  slept env k (add_log evs w) = add_log evs (slept env k w).
Proof.
  induction k as [|k IH]; [done|].
  unfold slept in *. simpl. rewrite IH. done.
Qed.

Lemma isCancelled_add_log token evs w :
  isCancelled token (add_log evs w) = isCancelled token w.
Proof. done. Qed.

Lemma seen_add_log token evs w t :
  seen env token (add_log evs w) t = seen env token w t.
Proof. unfold seen. by rewrite slept_add_log. Qed.

Lemma add_log_nil w : add_log [] w = w.
Proof. destruct w; unfold add_log; simpl. by rewrite app_nil_r. Qed.

Lemma add_log_app evs1 evs2 w :
  add_log evs2 (add_log evs1 w) = add_log (evs1 ++ evs2) w.
Proof. unfold add_log; simpl. by rewrite app_assoc. Qed.

Lemma for_each_emit (f : nat → Event) (obs : list nat) wp w :
  for_each obs (λ o, Weapon.effect (emit (f o))) (wp, w)
  = (tt, (wp, add_log (f <$> obs) w)).
Proof.
  revert w. induction obs as [|o obs IH]; intros w; simpl.
  - by rewrite add_log_nil.
  - unfold bind, Weapon.effect at 1. simpl. rewrite IH.
    unfold emit, add_log. simpl. by rewrite <- app_assoc.
Qed.

Lemma setState_eq newState wp w :
  Weapon.setState newState (wp, w)
  = (tt, (moved newState (now w) wp,
          add_log (state_events wp (Weapon.m_currentState wp) newState) w)).
Proof.
  unfold Weapon.setState, bind, Weapon.self, Weapon.modify, Weapon.effect,
    Weapon.world, when, Weapon.notifyStateChanged, state_events. simpl.
  case_bool_decide; simpl.
  - unfold bind, Weapon.self. simpl. rewrite for_each_emit.
    unfold emit, add_log, moved. simpl. by rewrite <- app_assoc.
  - unfold ret, emit, add_log, moved. simpl. done.
Qed.


Lemma slept_plus a b w : slept env (a + b) w = slept env b (slept env a w).
Proof.
  revert w. induction a as [|a IH]; intros w; [done|].
  replace (S a + b) with (S (a + b)) by lia.
  rewrite !slept_S. apply IH.
Qed.

Lemma sleep_loop_shape n token wp w :
  ∃ b k, k ≤ n
    ∧ Weapon.sleep_loop env n token (wp, w) = (b, (wp, slept env k w)).
Proof.
  revert w. induction n as [|n IH]; intros w; simpl.
  - exists true, 0. split; [lia|done].
  - unfold bind, Weapon.world, Weapon.self. simpl.
    destruct (isCancelled token w || _) eqn:E.
    + exists false, 0. split; [lia|done].
    + unfold Weapon.effect. simpl.
      destruct (IH (sleep_for_interval env w)) as (b & k & Hk & ->).
      exists b, (S k). split; [lia|]. by rewrite slept_S.
Qed.

Lemma sleep_loop_true n token wp w :
  (∀ i, i < n → polled wp token (slept env i w) = false) →
  Weapon.sleep_loop env n token (wp, w) = (true, (wp, slept env n w)).
Proof.
  revert w. induction n as [|n IH]; intros w H; simpl; [done|].
  unfold bind, Weapon.world, Weapon.self. simpl.
  pose proof (H 0 ltac:(lia)) as H0. unfold polled in H0.
  change (slept env 0 w) with w in H0. rewrite H0. unfold Weapon.effect. simpl.
  rewrite IH; [by rewrite slept_S|].
  intros i Hi. rewrite <- slept_S. apply H. lia.
Qed.

Lemma sleep_loop_false n token wp w :
  (∃ i, i < n ∧ polled wp token (slept env i w) = true) →
  ∃ k, k < n
    ∧ Weapon.sleep_loop env n token (wp, w) = (false, (wp, slept env k w)).
Proof.
  revert w. induction n as [|n IH]; intros w (i & Hi & H); [lia|]. simpl.
  unfold bind, Weapon.world, Weapon.self. simpl.
  destruct (isCancelled token w || _) eqn:E.
  - exists 0. split; [lia|done].
  - unfold Weapon.effect. simpl.
    destruct i as [|i].
    { unfold polled in H. change (slept env 0 w) with w in H. congruence. }
    destruct (IH (sleep_for_interval env w)) as (k & Hk & ->).
    { exists i. split; [lia|]. by rewrite <- slept_S. }
    exists (S k). split; [lia|]. by rewrite slept_S.
Qed.

Lemma polled_own wp token w :
  Weapon.m_currentCancellationToken wp = token →
  polled wp token w = isCancelled token w.
Proof. intros <-. unfold polled. apply orb_diag. Qed.

(** Either all of the first [n] polls miss, or one of them hits. *)
Lemma polls_dec (p : nat → bool) n :
  (∀ i, i < n → p i = false) ∨ (∃ i, i < n ∧ p i = true).
Proof.
  induction n as [|n [IH|(i & Hi & H)]].
  - left. intros; lia.
  - destruct (p n) eqn:E.
    + right. exists n. split; [lia|done].
    + left. intros i Hi. destruct (decide (i = n)) as [->|]; [done|].
      apply IH. lia.
  - right. exists i. split; [lia|done].
Qed.


Lemma slept_0 w : slept env 0 w = w.
Proof. done. Qed.

Lemma notifyLaunch_eq launched wp w :
  Weapon.notifyLaunchStatusChanged launched (wp, w)
  = (tt, (wp, add_log (launch_events wp launched) w)).
Proof.
  unfold Weapon.notifyLaunchStatusChanged, bind, Weapon.self. simpl.
  by rewrite for_each_emit.
Qed.

Lemma setLaunched_eq launched wp w :
  Weapon.setLaunched launched (wp, w)
  = (tt,
     if bool_decide (Weapon.m_launched wp ≠ launched) then
       if launched then
         (moved WPN_CTRL_STATE_POST_LAUNCH (now w)
            (Weapon.set_launched launched wp),
          add_log (launch_events wp launched
                   ++ state_events wp (Weapon.m_currentState wp)
                        WPN_CTRL_STATE_POST_LAUNCH) w)
       else (Weapon.set_launched launched wp,
             add_log (launch_events wp launched) w)
     else (Weapon.set_launched launched wp, w)).
Proof.
  unfold Weapon.setLaunched, bind, Weapon.self, Weapon.modify, when. simpl.
  case_bool_decide; [|done].
  unfold bind. rewrite notifyLaunch_eq. simpl.
  destruct launched; [|done].
  rewrite setState_eq. simpl. by rewrite add_log_app.
Qed.

Lemma elem_of_poll_times_shift a b steps t :
  t ∈ poll_times (a + b) steps ↔ ∃ t', t = a + t' ∧ t' ∈ poll_times b steps.
Proof.
  revert b t. induction steps as [|step rest IH]; intros b t; simpl.
  - split; [by intros ?%elem_of_nil | by intros (? & _ & ?%elem_of_nil)].
  - replace (a + b + slices (Weapon.duration step))
      with (a + (b + slices (Weapon.duration step))) by lia.
    rewrite elem_of_cons, elem_of_app, elem_of_seq, IH.
    setoid_rewrite elem_of_cons. setoid_rewrite elem_of_app.
    setoid_rewrite elem_of_seq.
    split.
    + intros [->|[H|(t' & -> & H)]].
      * exists b. split; [done|]. by left.
      * exists (t - a). split; [lia|]. right. left. lia.
      * exists t'. split; [done|]. by right; right.
    + intros (t' & -> & [->|[H|H]]).
      * by left.
      * right. left. lia.
      * right. right. by exists t'.
Qed.

Lemma elem_of_poll_times n steps t :
  t ∈ poll_times n steps ↔ ∃ t', t = n + t' ∧ t' ∈ poll_times 0 steps.
Proof.
  rewrite <- elem_of_poll_times_shift. by rewrite Nat.add_0_r.
Qed.

Lemma total_slices_cons step rest :
  total_slices (step :: rest)
  = slices (Weapon.duration step) + total_slices rest.
Proof. done. Qed.

Lemma launch_loop_true steps token wp w :
  (∀ t, t ∈ poll_times 0 steps → polled wp token (slept env t w) = false) →
  Weapon.launch_loop env steps token (wp, w)
  = (true, (wp, slept env (total_slices steps) w)).
Proof.
  revert w. induction steps as [|step rest IH]; intros w H; [done|].
  simpl. unfold bind, Weapon.world. simpl.
  assert (isCancelled token w = false) as ->.
  { specialize (H 0). unfold polled in H. rewrite slept_0 in H.
    apply orb_false_elim in H as [H _]; [done|]. simpl. by left. }
  unfold Weapon.sleepWithCancellationCheck.
  fold (slices (Weapon.duration step)).
  rewrite sleep_loop_true.
  2:{ intros i Hi. apply H. simpl. right. apply elem_of_app. left.
      apply elem_of_seq. lia. }
  simpl. rewrite IH.
  - by rewrite total_slices_cons, slept_plus.
  - intros t Ht. rewrite <- slept_plus. apply H. simpl. right.
    apply elem_of_app. right. apply elem_of_poll_times. eauto.
Qed.

Lemma launch_loop_false steps token wp w :
  (∃ t, t ∈ poll_times 0 steps ∧ polled wp token (slept env t w) = true) →
  Weapon.m_currentCancellationToken wp = token →
  ∃ k, k ≤ total_slices steps
    ∧ Weapon.launch_loop env steps token (wp, w)
      = (false,
         (moved WPN_CTRL_STATE_ABORT (now (slept env k w)) wp,
          add_log (state_events wp (Weapon.m_currentState wp)
                     WPN_CTRL_STATE_ABORT) (slept env k w))).
Proof.
  intros H Htok. revert w H.
  induction steps as [|step rest IH]; intros w (t & Ht & H).
  { by apply elem_of_nil in Ht. }
  simpl. unfold bind, Weapon.world. simpl.
  destruct (isCancelled token w) eqn:E0.
  { exists 0. split; [lia|]. by rewrite setState_eq. }
  unfold Weapon.sleepWithCancellationCheck.
  fold (slices (Weapon.duration step)).
  set (n := slices (Weapon.duration step)) in *.
  destruct (polls_dec (λ i, polled wp token (slept env i w)) n)
    as [Hall|Hex].
  - rewrite sleep_loop_true by done. simpl.
    destruct (IH (slept env n w)) as (k & Hk & ->).
    + simpl in Ht. apply elem_of_cons in Ht as [->|Ht].
      { rewrite polled_own, slept_0 in H by done. congruence. }
      apply elem_of_app in Ht as [Ht|Ht].
      { apply elem_of_seq in Ht. rewrite Hall in H by lia. done. }
      apply elem_of_poll_times in Ht as (t' & -> & Ht').
      exists t'. split; [done|]. by rewrite <- slept_plus.
    + exists (n + k). split.
      * rewrite total_slices_cons. fold n. lia.
      * by rewrite slept_plus.
  - destruct (sleep_loop_false n token wp w Hex) as (k & Hk & ->). simpl.
    exists k. split; [rewrite total_slices_cons; fold n; lia|].
    by rewrite setState_eq.
Qed.

Lemma launch_loop_shape steps token wp w :
  ∃ k, Weapon.launch_loop env steps token (wp, w)
       = (true, (wp, slept env k w))
     ∨ Weapon.launch_loop env steps token (wp, w)
       = (false,
          (moved WPN_CTRL_STATE_ABORT (now (slept env k w)) wp,
           add_log (state_events wp (Weapon.m_currentState wp)
                      WPN_CTRL_STATE_ABORT) (slept env k w))).
Proof.
  revert w. induction steps as [|step rest IH]; intros w.
  { exists 0. by left. }
  simpl. unfold bind, Weapon.world. simpl.
  destruct (isCancelled token w).
  { exists 0. right. by rewrite setState_eq. }
  unfold Weapon.sleepWithCancellationCheck.
  destruct (sleep_loop_shape (Z.to_nat (Weapon.total_intervals
                                           (Weapon.duration step)))
              token wp w) as (b & k & _ & ->).
  destruct b; simpl.
  - destruct (IH (slept env k w)) as (k' & [->| ->]);
      exists (k + k'); rewrite slept_plus; [by left | by right].
  - exists k. right. by rewrite setState_eq.
Qed.

End WeaponFacts.

(* ===================================================================== *)
(** ** State-change requests *)
(* ===================================================================== *)

Lemma isValidTransition_table from to :
  Weapon.isValidTransition from to = true
  ↔ (from, to) ∈ [ (WPN_CTRL_STATE_OFF, WPN_CTRL_STATE_ON);
                   (WPN_CTRL_STATE_ON, WPN_CTRL_STATE_OFF);
                   (WPN_CTRL_STATE_RTL, WPN_CTRL_STATE_LAUNCH);
                   (WPN_CTRL_STATE_RTL, WPN_CTRL_STATE_OFF);
                   (WPN_CTRL_STATE_LAUNCH, WPN_CTRL_STATE_ABORT);
                   (WPN_CTRL_STATE_ABORT, WPN_CTRL_STATE_OFF);
                   (WPN_CTRL_STATE_POST_LAUNCH, WPN_CTRL_STATE_OFF) ].
Proof.
  split.
  - destruct from, to; vm_compute; intros H; try discriminate H;
      repeat (first [ by apply list_elem_of_here | apply list_elem_of_further ]).
  - intros H. repeat (apply elem_of_cons in H as [H|H]; [by inversion H|]).
    by apply elem_of_nil in H.
Qed.

Lemma transitions_app l1 l2 :
  transitions (l1 ++ l2) = transitions l1 ++ transitions l2.
Proof. apply omap_app. Qed.

Lemma transitions_state_events wp old new :
  transitions (state_events wp old new) = [(old, new)].
Proof.
  unfold state_events, transitions. simpl. f_equal.
  case_bool_decide; [|done].
  induction (Weapon.m_observers wp) as [|o l IH]; [done|]. exact IH.
Qed.

Lemma transitions_launch_events wp b :
  transitions (launch_events wp b) = [].
Proof.
  unfold launch_events, transitions.
  induction (Weapon.m_observers wp) as [|o l IH]; [done|]. exact IH.
Qed.

Section Requests.
Context (env : nat → gset nat).

Lemma request_abort token wp w :
  Weapon.requestStateChange env WPN_CTRL_STATE_ABORT token (wp, w)
  = (success,
     (moved WPN_CTRL_STATE_ABORT (now w) wp,
      add_log (state_events wp (Weapon.m_currentState wp) WPN_CTRL_STATE_ABORT)
        (cancel (Weapon.m_currentCancellationToken wp)
           (cancel (Weapon.m_currentCancellationToken wp) w)))).
Proof.
  unfold Weapon.requestStateChange, Weapon.processAbort, bind, Weapon.self,
    Weapon.effect. simpl.
  by rewrite setState_eq.
Qed.

Lemma request_invalid newState token wp w :
  newState ≠ WPN_CTRL_STATE_ABORT →
  Weapon.isValidTransition (Weapon.m_currentState wp) newState = false →
  Weapon.requestStateChange env newState token (wp, w)
  = (failure ("Invalid transition from "
                +:+ StateToString (Weapon.m_currentState wp)
                +:+ " to " +:+ StateToString newState), (wp, w)).
Proof.
  intros Hne Hinv.
  unfold Weapon.requestStateChange, bind, Weapon.self. simpl.
  rewrite bool_decide_false by done. by rewrite Hinv.
Qed.


Lemma log_add_log evs w : log (add_log evs w) = log w ++ evs.
Proof. done. Qed.

Lemma now_add_log evs w : now (add_log evs w) = now w.
Proof. done. Qed.

Lemma processTurnOn_polls token wp w :
  Weapon.m_currentCancellationToken wp = token →
  ∃ (b : bool) k,
    Weapon.processTurnOn env token (wp, w)
    = (if b then success else failure "Power-on check cancelled",
       (moved (if b then WPN_CTRL_STATE_ON else WPN_CTRL_STATE_OFF)
          (now w + k) (moved WPN_CTRL_STATE_POC (now w) wp),
        add_log (state_events wp (Weapon.m_currentState wp) WPN_CTRL_STATE_POC
                 ++ state_events wp WPN_CTRL_STATE_POC
                      (if b then WPN_CTRL_STATE_ON else WPN_CTRL_STATE_OFF))
          (slept env k w)))
    ∧ (b = true → k = slices (Weapon.m_onDelay wp)
                  ∧ ∀ t, t < slices (Weapon.m_onDelay wp)
                         → seen env token w t = false)
    ∧ (b = false → ∃ t, t < slices (Weapon.m_onDelay wp)
                        ∧ seen env token w t = true).
Proof.
  intros Htok.
  unfold Weapon.processTurnOn, bind, Weapon.self. rewrite setState_eq. simpl.
  unfold Weapon.sleepWithCancellationCheck.
  fold (slices (Weapon.m_onDelay wp)).
  set (n := slices (Weapon.m_onDelay wp)).
  set (wp1 := moved WPN_CTRL_STATE_POC (now w) wp).
  set (w1 := add_log _ w).
  assert (∀ t, polled wp1 token (slept env t w1) = seen env token w t) as Hp.
  { intros t. rewrite polled_own by done. unfold w1.
    by rewrite slept_add_log. }
  destruct (polls_dec (λ i, polled wp1 token (slept env i w1)) n)
    as [Hall|Hex].
  - rewrite sleep_loop_true by done. exists true, n. simpl.
    rewrite setState_eq. unfold w1. simpl.
    rewrite slept_add_log, add_log_app, now_add_log, now_slept.
    split; [done|]. split; [|done]. intros _. split; [done|].
    intros t Ht. rewrite <- Hp. by apply Hall.
  - destruct (sleep_loop_false env n token wp1 w1 Hex) as (k & Hk & ->).
    exists false, k. simpl. rewrite setState_eq. unfold w1. simpl.
    rewrite slept_add_log, add_log_app, now_add_log, now_slept.
    split; [done|]. split; [done|]. intros _.
    destruct Hex as (t & Ht & H). exists t. by rewrite <- Hp.
Qed.


Lemma processLaunch_polls token wp w :
  Weapon.m_currentCancellationToken wp = token →
  let steps := Weapon.m_launchSteps wp in
  let wp1 := moved WPN_CTRL_STATE_LAUNCH (now w) wp in
  let entered :=
    state_events wp (Weapon.m_currentState wp) WPN_CTRL_STATE_LAUNCH in
  ((∃ t, t ∈ poll_times 0 steps ∧ seen env token w t = true)
   ∧ ∃ k, k ≤ total_slices steps
     ∧ Weapon.processLaunch env token (wp, w)
       = (failure "Launch sequence aborted",
          (moved WPN_CTRL_STATE_ABORT (now w + k) wp1,
           add_log (entered ++ state_events wp WPN_CTRL_STATE_LAUNCH
                                 WPN_CTRL_STATE_ABORT)
             (slept env k w))))
  ∨ ((∀ t, t ∈ poll_times 0 steps → seen env token w t = false)
     ∧ Weapon.processLaunch env token (wp, w)
       = (success,
          if Weapon.m_launched wp then
            (Weapon.set_launched true wp1,
             add_log entered (slept env (total_slices steps) w))
          else
            (moved WPN_CTRL_STATE_POST_LAUNCH
               (now w + total_slices steps) (Weapon.set_launched true wp1),
             add_log (entered ++ launch_events wp true
                      ++ state_events wp WPN_CTRL_STATE_LAUNCH
                           WPN_CTRL_STATE_POST_LAUNCH)
               (slept env (total_slices steps) w)))).
Proof.
  intros Htok steps wp1 entered.
  unfold Weapon.processLaunch, bind, Weapon.self. rewrite setState_eq. simpl.
  fold steps wp1 entered.
  set (w1 := add_log entered w).
  assert (∀ t, polled wp1 token (slept env t w1) = seen env token w t) as Hp.
  { intros t. rewrite polled_own by done. unfold w1.
    by rewrite slept_add_log. }
  destruct (Forall_Exists_dec
              (λ t, polled wp1 token (slept env t w1) = false)
              (λ t, polled wp1 token (slept env t w1) = true)
              (λ t, match polled wp1 token (slept env t w1) as b
                      return {b = false} + {b = true}
                    with true => right eq_refl | false => left eq_refl end)
              (poll_times 0 steps)) as [Hall|Hex].
  - right. rewrite Forall_forall in Hall. split.
    { intros t Ht. rewrite <- Hp. by apply Hall. }
    rewrite launch_loop_true by done. simpl.
    rewrite setLaunched_eq. unfold w1.
    rewrite slept_add_log, now_add_log, now_slept.
    destruct (Weapon.m_launched wp) eqn:E; simpl; rewrite E; simpl; [done|].
    by rewrite add_log_app.
  - left. rewrite Exists_exists in Hex. split.
    { destruct Hex as (t & Ht & H). exists t. by rewrite <- Hp. }
    destruct (launch_loop_false env steps token wp1 w1 Hex Htok)
      as (k & Hk & ->).
    exists k. split; [done|]. simpl. unfold w1.
    by rewrite slept_add_log, add_log_app, now_add_log, now_slept.
Qed.

End Requests.

Lemma requests_app l1 l2 : requests (l1 ++ l2) = requests l1 ++ requests l2.
Proof. apply omap_app. Qed.

Lemma requests_state_events wp old new :
  requests (state_events wp old new) = [].
Proof.
  unfold state_events, requests. cbn [omap list_omap].
  case_bool_decide; [|done].
  induction (Weapon.m_observers wp) as [|o l IH]; [done|]. exact IH.
Qed.

Lemma requests_launch_events wp b : requests (launch_events wp b) = [].
Proof.
  unfold launch_events, requests.
  induction (Weapon.m_observers wp) as [|o l IH]; [done|]. exact IH.
Qed.

Section RequestLog.
Context (env : nat → gset nat).

Lemma processTurnOff_eq wp w :
  Weapon.processTurnOff (wp, w)
  = (success,
     (moved WPN_CTRL_STATE_OFF (now w) wp,
      add_log (state_events wp (Weapon.m_currentState wp) WPN_CTRL_STATE_OFF)
        (cancel (Weapon.m_currentCancellationToken wp) w))).
Proof.
  unfold Weapon.processTurnOff, bind, Weapon.self, Weapon.effect. simpl.
  by rewrite setState_eq.
Qed.

Lemma request_valid newState token wp w :
  newState ≠ WPN_CTRL_STATE_ABORT →
  Weapon.isValidTransition (Weapon.m_currentState wp) newState = true →
  Weapon.requestStateChange env newState token (wp, w)
  = match newState with
    | WPN_CTRL_STATE_OFF => Weapon.processTurnOff
    | WPN_CTRL_STATE_ON => Weapon.processTurnOn env token
    | WPN_CTRL_STATE_LAUNCH => Weapon.processLaunch env token
    | _ => bind (Weapon.setState newState) (λ _, ret success)
    end (Weapon.set_currentCancellationToken token wp, w).
Proof.
  intros Hne Hv.
  unfold Weapon.requestStateChange, bind at 1, Weapon.self. simpl.
  rewrite bool_decide_false by done. rewrite Hv. simpl.
  unfold bind at 1, Weapon.modify. simpl. by destruct newState.
Qed.

Lemma request_step_table a b :
  Weapon.isValidTransition a b = true → request_step (a, b).
Proof. intros H. by left. Qed.

(** What a state-change request writes to [m_currentState]. *)
Lemma request_transitions newState token wp w :
  ∃ evs,
    log (Weapon.requestStateChange env newState token (wp, w)).2.2
    = log w ++ evs
    ∧ Forall request_step (transitions evs)
    ∧ requests evs = [].
Proof.
  assert (∀ evs, Forall request_step (transitions evs) → requests evs = [] →
            Forall request_step (transitions evs) ∧ requests evs = [])
    as both by done.
  destruct (decide (newState = WPN_CTRL_STATE_ABORT)) as [->|Hne].
  { rewrite request_abort. cbn [fst snd]. rewrite log_add_log.
    eexists ([_; _] ++ _). split.
    { unfold cancel, emit. cbn [log]. by rewrite <- !app_assoc. }
    apply both; [|by rewrite requests_app, requests_state_events].
    rewrite transitions_app, transitions_state_events. simpl.
    constructor; [|done]. right. by left. }
  destruct (Weapon.isValidTransition (Weapon.m_currentState wp) newState)
    eqn:Hv.
  2:{ rewrite request_invalid by done. exists []. simpl.
      split; [by rewrite app_nil_r | by split; [constructor|]]. }
  rewrite request_valid by done.
  set (wp1 := Weapon.set_currentCancellationToken token wp).
  pose proof Hv as Hin. apply isValidTransition_table in Hin.
  assert (Hcur : Weapon.m_currentState wp1 = Weapon.m_currentState wp) by done.
  destruct newState; try done.
  - (* OFF *)
    rewrite processTurnOff_eq. cbn [fst snd]. rewrite log_add_log.
    eexists ([_] ++ _). split.
    { unfold cancel, emit. cbn [log]. by rewrite <- !app_assoc. }
    apply both; [|by rewrite requests_app, requests_state_events].
    rewrite transitions_app, transitions_state_events. simpl.
    constructor; [|done]. by apply request_step_table.
  - exfalso. repeat (apply elem_of_cons in Hin as [Hin|Hin]; [by inversion Hin|]).
    by apply elem_of_nil in Hin.
  - (* ON *)
    assert (Weapon.m_currentState wp = WPN_CTRL_STATE_OFF) as Hoff.
    { repeat (apply elem_of_cons in Hin as [Hin|Hin];
              [by inversion Hin|]). by apply elem_of_nil in Hin. }
    destruct (processTurnOn_polls env token wp1 w eq_refl)
      as (b & k & -> & _). cbn [fst snd]. rewrite log_add_log, log_slept.
    eexists. split; [done|].
    apply both; [|by rewrite requests_app, !requests_state_events].
    rewrite transitions_app, !transitions_state_events, Hcur, Hoff.
    constructor; [right; right; by left|].
    constructor; [|done]. right. right.
    destruct b; [apply list_elem_of_further, list_elem_of_here
                |do 2 apply list_elem_of_further; apply list_elem_of_here].
  - exfalso. repeat (apply elem_of_cons in Hin as [Hin|Hin]; [by inversion Hin|]).
    by apply elem_of_nil in Hin.
  - (* LAUNCH *)
    destruct (processLaunch_polls env token wp1 w eq_refl)
      as [(_ & k & _ & ->)|(_ & ->)]; cbn [fst snd].
    + rewrite log_add_log, log_slept. eexists. split; [done|].
      apply both; [|by rewrite requests_app, !requests_state_events].
      rewrite transitions_app, !transitions_state_events, Hcur.
      constructor; [by apply request_step_table|].
      constructor; [|done]. right. by left.
    + destruct (Weapon.m_launched wp1); cbn [fst snd];
        rewrite log_add_log, log_slept; (eexists; split; [done|]);
        (apply both;
         [|by rewrite ?requests_app, ?requests_state_events,
             ?requests_launch_events]).
      * rewrite transitions_state_events, Hcur.
        constructor; [by apply request_step_table|done].
      * rewrite !transitions_app, !transitions_state_events,
          transitions_launch_events, Hcur. simpl.
        constructor; [by apply request_step_table|].
        constructor; [|done]. right. right.
        do 3 apply list_elem_of_further. apply list_elem_of_here.
  - exfalso. repeat (apply elem_of_cons in Hin as [Hin|Hin]; [by inversion Hin|]).
    by apply elem_of_nil in Hin.
Qed.

End RequestLog.

(* ===================================================================== *)
(** ** The control state machine *)
(* ===================================================================== *)

Section Claims.
Context (env : nat → gset nat).

(** C1. Whatever the current control state and whatever token the weapon
    holds for the operation in flight, a request for ABORT is accepted: the
    weapon's current-operation token is cancelled first (the log shows the
    two [cancel] calls before the write), then ABORT is written to the
    state and the request returns success. The table itself has ABORT as a
    successor of LAUNCH only. *)
Theorem abort_accepted_from_any_state wp w token :
  let mine := Weapon.m_currentCancellationToken wp in
  let out :=
    Weapon.requestStateChange env WPN_CTRL_STATE_ABORT token (wp, w) in
  out.1 = success
  ∧ Weapon.m_currentState out.2.1 = WPN_CTRL_STATE_ABORT
  ∧ isCancelled mine out.2.2 = true
  ∧ log out.2.2
    = log w ++ [EvCancel mine; EvCancel mine]
        ++ state_events wp (Weapon.m_currentState wp) WPN_CTRL_STATE_ABORT
  ∧ (Weapon.isValidTransition (Weapon.m_currentState wp) WPN_CTRL_STATE_ABORT
     = true ↔ Weapon.m_currentState wp = WPN_CTRL_STATE_LAUNCH).
Proof.
  intros mine out. unfold out. rewrite request_abort. cbn [fst snd].
  split; [done|]. split; [done|]. split.
  { unfold isCancelled, cancel, add_log, emit. cbn [cancelled].
    apply bool_decide_eq_true. set_solver. }
  split.
  { rewrite log_add_log. unfold cancel, emit. cbn [log].
    by rewrite <- !app_assoc. }
  rewrite isValidTransition_table. split.
  - intros H. repeat (apply elem_of_cons in H as [H|H]; [by inversion H|]).
    by apply elem_of_nil in H.
  - intros ->. do 4 apply list_elem_of_further. apply list_elem_of_here.
Qed.


(** C10. A request whose target is RTL, POC or POST_LAUNCH is rejected from
    every current state with the invalid-transition failure and changes
    nothing, because no row of the table has such a target. Among all the
    writes a request can make, the only ones that reach one of these
    states are OFF to POC (entering ON) and LAUNCH to POST_LAUNCH
    ([setLaunched] at the end of the launch sequence); RTL is never
    written by a request. *)
Theorem internal_targets_rejected wp w token target :
  target ∈ [WPN_CTRL_STATE_RTL; WPN_CTRL_STATE_POC;
            WPN_CTRL_STATE_POST_LAUNCH] →
  (∀ from, Weapon.isValidTransition from target = false)
  ∧ Weapon.requestStateChange env target token (wp, w)
    = (failure ("Invalid transition from "
                  +:+ StateToString (Weapon.m_currentState wp)
                  +:+ " to " +:+ StateToString target), (wp, w))
  ∧ (∀ newState token' wp' w' evs old,
       log (Weapon.requestStateChange env newState token' (wp', w')).2.2
       = log w' ++ evs →
       (old, target) ∈ transitions evs →
       (old, target) = (WPN_CTRL_STATE_OFF, WPN_CTRL_STATE_POC)
       ∨ (old, target) = (WPN_CTRL_STATE_LAUNCH, WPN_CTRL_STATE_POST_LAUNCH)).
Proof.
  intros Ht.
  assert (∀ from, Weapon.isValidTransition from target = false) as Hno.
  { intros from.
    repeat (apply elem_of_cons in Ht as [->|Ht]; [by destruct from|]).
    by apply elem_of_nil in Ht. }
  split; [done|]. split.
  { apply request_invalid; [|done].
    intros ->. repeat (apply elem_of_cons in Ht as [Ht|Ht]; [done|]).
    by apply elem_of_nil in Ht. }
  intros newState token' wp' w' evs old Hlog Hin.
  destruct (request_transitions env newState token' wp' w')
    as (evs' & Hlog' & Hall & _).
  rewrite Hlog in Hlog'. apply app_inv_head in Hlog' as <-.
  rewrite Forall_forall in Hall.
  destruct (Hall _ Hin) as [Htab|[Hab|Hint]].
  - unfold in_table in Htab. simpl in Htab. by rewrite Hno in Htab.
  - simpl in Hab. subst target.
    repeat (apply elem_of_cons in Ht as [Ht|Ht]; [done|]).
    by apply elem_of_nil in Ht.
  - repeat (apply elem_of_cons in Hint as [Hint|Hint];
            [inversion Hint; subst; first [by left | by right | exfalso]|]).
    + repeat (apply elem_of_cons in Ht as [Ht|Ht]; [done|]).
      by apply elem_of_nil in Ht.
    + repeat (apply elem_of_cons in Ht as [Ht|Ht]; [done|]).
      by apply elem_of_nil in Ht.
    + by apply elem_of_nil in Hint.
Qed.

(** The slice counts of some delays. The [float] nearest to 0.35 is just
    below it, but its product with 1000 rounds to 350, so the wait has the
    7 slices that the exact quotient of that [float] would not give; the
    product of the [float] nearest to 8.15 stays below 8150, so the wait
    has 162 slices and not 163. *)
Lemma total_intervals_examples :
  Weapon.total_intervals 3 = 60%Z
  ∧ Weapon.total_intervals 1 = 20%Z
  ∧ Weapon.total_intervals (35 # 100) = 7%Z
  ∧ Weapon.total_intervals (815 # 100) = 162%Z
  ∧ Weapon.total_intervals (49 # 1000) = 0%Z
  ∧ Weapon.total_intervals (- (5 # 2)) = (-50)%Z
  ∧ Float32.round (35 # 100) = 11744051 # 33554432
  ∧ Float32.mul (Float32.round (35 # 100)) 1000 = 350%Q
  ∧ Float32.round (815 # 100) = 4272947 # 524288
  ∧ Float32.mul (Float32.round (815 # 100)) 1000 = 16691199 # 2048.
Proof.
  repeat split; vm_compute; reflexivity.
Qed.


(** C3, as amended. For a weapon in RTL, a request for LAUNCH runs the
    steps in order, looking at the token at the start of each step and
    before each 50 ms slice of it. When one of these polls finds the token
    cancelled the weapon ends in ABORT, the request fails with "Launch
    sequence aborted" and [m_launched] is left as it was. When none does
    and the weapon had not been launched before, [m_launched] becomes
    true, the observers are told so, and the weapon ends in POST_LAUNCH
    after all the slices. *)
Theorem launch_sequence wp w token :
  Weapon.m_currentState wp = WPN_CTRL_STATE_RTL →
  let out :=
    Weapon.requestStateChange env WPN_CTRL_STATE_LAUNCH token (wp, w) in
  let polls := poll_times 0 (Weapon.m_launchSteps wp) in
  ((∃ t, t ∈ polls ∧ seen env token w t = true) →
     out.1 = failure "Launch sequence aborted"
     ∧ Weapon.m_currentState out.2.1 = WPN_CTRL_STATE_ABORT
     ∧ Weapon.m_launched out.2.1 = Weapon.m_launched wp)
  ∧ ((∀ t, t ∈ polls → seen env token w t = false) →
     Weapon.m_launched wp = false →
     out.1 = success
     ∧ Weapon.m_launched out.2.1 = true
     ∧ Weapon.m_currentState out.2.1 = WPN_CTRL_STATE_POST_LAUNCH
     ∧ now out.2.2 = now w + total_slices (Weapon.m_launchSteps wp)
     ∧ log out.2.2
       = log w
           ++ state_events wp WPN_CTRL_STATE_RTL WPN_CTRL_STATE_LAUNCH
           ++ launch_events wp true
           ++ state_events wp WPN_CTRL_STATE_LAUNCH
                WPN_CTRL_STATE_POST_LAUNCH).
Proof.
  intros Hrtl out polls. unfold out.
  rewrite request_valid; [|done|by rewrite Hrtl].
  set (wp1 := Weapon.set_currentCancellationToken token wp).
  change (Weapon.m_launchSteps wp) with (Weapon.m_launchSteps wp1) in *.
  destruct (processLaunch_polls env token wp1 w eq_refl)
    as [((t & Ht & H) & k & _ & ->)|(Hall & ->)]; cbn [fst snd].
  - split; [done|]. intros Hall. fold polls in Ht.
    rewrite Hall in H by done. done.
  - split.
    { intros (t & Ht & H). rewrite Hall in H by done. done. }
    intros _ Hl. change (Weapon.m_launched wp1) with (Weapon.m_launched wp).
    rewrite Hl. cbn [fst snd].
    rewrite log_add_log, log_slept, now_add_log, now_slept.
    change (Weapon.m_currentState wp1) with (Weapon.m_currentState wp).
    by rewrite Hrtl.
Qed.


Lemma allowed_of_request p : request_step p → allowed p.
Proof.
  intros [H|[H|H]]; [by left | by right; left |].
  right. right.
  repeat (apply elem_of_cons in H as [->|H];
          [first [ by left; repeat first [apply list_elem_of_here
                                         | apply list_elem_of_further]
                 | by right; left ]|]).
  by apply elem_of_nil in H.
Qed.

Lemma op_transitions op wp w :
  ∃ evs, log (run_op env op (wp, w)).2.2 = log w ++ evs
         ∧ Forall allowed (transitions evs).
Proof.
  destruct op as [newState token| |launched|ready|]; unfold run_op.
  - destruct (request_transitions env newState token wp w)
      as (evs & Hlog & Hall & _).
    exists evs. split.
    + unfold bind. by destruct (Weapon.requestStateChange _ _ _ _) as [? [? ?]].
    + eapply Forall_impl; [done|]. apply allowed_of_request.
  - assert (∃ evs, log w = log w ++ evs ∧ Forall allowed (transitions evs))
      as Hsame by (exists []; split; [by rewrite app_nil_r | constructor]).
    unfold Weapon.update, Weapon.checkInterlockConditions, bind, Weapon.self,
      when.
    cbn [fst snd].
    case_bool_decide as Hon; [|case_bool_decide as Hrtl];
      cbn [fst snd];
      destruct (Weapon.m_fireSolutionReady wp); cbn [negb]; try exact Hsame;
      rewrite setState_eq; cbn [fst snd]; rewrite log_add_log;
      (eexists; split; [done|]); rewrite transitions_state_events;
      (constructor; [|done]); right; right; left.
    + rewrite Hon.
      do 3 apply list_elem_of_further. apply list_elem_of_here.
    + rewrite Hrtl.
      do 4 apply list_elem_of_further. apply list_elem_of_here.
  - rewrite setLaunched_eq. cbn [fst snd].
    case_bool_decide; [destruct launched|]; cbn [fst snd];
      rewrite ?log_add_log.
    + eexists. split; [done|].
      rewrite transitions_app, transitions_launch_events,
        transitions_state_events.
      constructor; [|done]. right. right. right. by left.
    + eexists. split; [done|]. rewrite transitions_launch_events. constructor.
    + exists []. split; [by rewrite app_nil_r | constructor].
  - exists []. split; [by rewrite app_nil_r | constructor].
  - exists [EvState (Weapon.m_currentState wp) WPN_CTRL_STATE_OFF;
            EvCancel (Weapon.m_currentCancellationToken wp)].
    split.
    + unfold Weapon.reset, bind, Weapon.self, Weapon.modify, Weapon.effect,
        Weapon.world, cancel, emit. cbn. by rewrite <- app_assoc.
    + constructor; [|done]. right. right. right. by right.
Qed.

(** C2, as amended. Over every sequence of requestStateChange, update,
    setLaunched, setFireSolutionReady and reset, from any weapon, each
    value written to the control state makes a pair (from, to) that is in
    the transition table, or has to = ABORT, or is internal: OFF to POC,
    POC to ON, POC to OFF (entering ON), ON to RTL, RTL to ON (tick), any
    state to POST_LAUNCH ([setLaunched(true)]) or any state to OFF
    ([reset]). *)
Theorem committed_transitions_allowed ops wp w :
  ∃ evs, log (run_ops env ops (wp, w)).2.2 = log w ++ evs
         ∧ Forall (λ p, in_table p ∨ p.2 = WPN_CTRL_STATE_ABORT ∨ internal p)
                  (transitions evs).
Proof.
  revert wp w. induction ops as [|op ops IH]; intros wp w.
  - exists []. split; [by rewrite app_nil_r | constructor].
  - unfold run_ops. cbn [for_each]. unfold bind.
    destruct (op_transitions op wp w) as (evs1 & H1 & Hall1).
    destruct (run_op env op (wp, w)) as [[] [wp1 w1]]. cbn [fst snd] in H1.
    destruct (IH wp1 w1) as (evs2 & H2 & Hall2).
    exists (evs1 ++ evs2). split.
    + fold (run_ops env ops). rewrite H2, H1. by rewrite app_assoc.
    + rewrite transitions_app. by apply Forall_app.
Qed.

End Claims.

(** C2 fails as stated: switching a weapon on writes OFF to POC, which is
    not in the table and does not lead to ABORT. *)
Lemma power_on_commits_a_transition_outside_the_table :
  let token := next_cell weapon_on_tube_1.2 in
  let out :=
    run_ops quiet [OpRequestStateChange WPN_CTRL_STATE_ON token]
      (weapon_on_tube_1.1, (newToken weapon_on_tube_1.2).2) in
  (WPN_CTRL_STATE_OFF, WPN_CTRL_STATE_POC)
    ∈ transitions (drop (length (log weapon_on_tube_1.2)) (log out.2.2))
  ∧ ¬ in_table (WPN_CTRL_STATE_OFF, WPN_CTRL_STATE_POC)
  ∧ (WPN_CTRL_STATE_OFF, WPN_CTRL_STATE_POC).2 ≠ WPN_CTRL_STATE_ABORT.
Proof.
  split; [|split].
  - vm_compute. apply list_elem_of_here.
  - vm_compute. discriminate.
  - discriminate.
Qed.


(** C3 fails as stated: a token that fires while the thread sleeps the
    last slice of the last launch step is not seen; the request succeeds,
    [m_launched] is true and the weapon is in POST_LAUNCH. *)
Lemma launch_cancel_in_last_slice_is_missed :
  let env := fire_at 119 2 in
  let token := (newToken (weapon_in_RTL env).2).1 in
  let w := (newToken (weapon_in_RTL env).2).2 in
  let wp := (weapon_in_RTL env).1 in
  let out := Weapon.requestStateChange env WPN_CTRL_STATE_LAUNCH token (wp, w) in
  Weapon.m_currentState wp = WPN_CTRL_STATE_RTL
  ∧ Weapon.m_launched wp = false
  ∧ isCancelled token w = false
  ∧ 59 < total_slices (Weapon.m_launchSteps wp)
  ∧ fires_during env token w 59
  ∧ out.1 = success
  ∧ Weapon.m_launched out.2.1 = true
  ∧ Weapon.m_currentState out.2.1 = WPN_CTRL_STATE_POST_LAUNCH.
Proof.
  repeat split; vm_compute; reflexivity.
Qed.

(** C10 at the weapon on tube 1: RTL is refused from OFF. *)
Lemma internal_targets_rejected_witness :
  Weapon.requestStateChange quiet WPN_CTRL_STATE_RTL 7 weapon_on_tube_1
  = (failure "Invalid transition from OFF to RTL", weapon_on_tube_1).
Proof.
  exact (proj1 (proj2 (internal_targets_rejected quiet
                         weapon_on_tube_1.1 weapon_on_tube_1.2 7
                         WPN_CTRL_STATE_RTL (list_elem_of_here _ _)))).
Defined.

Lemma quiet_never_seen token w t :
  seen quiet token w t = isCancelled token w.
Proof.
  unfold seen. induction t as [|t IH]; [done|].
  rewrite <- IH. unfold slept. cbn [Nat.iter].
  unfold isCancelled, sleep_for_interval, quiet. cbn [cancelled].
  apply bool_decide_ext. set_solver.
Qed.


(** C3 at the weapon in RTL when nobody cancels: launched, the tube told,
    POST_LAUNCH after 60 more slices. *)
Lemma launch_sequence_witness :
  let s := weapon_in_RTL quiet in
  let out :=
    Weapon.requestStateChange quiet WPN_CTRL_STATE_LAUNCH 2
      (s.1, (newToken s.2).2) in
  out.1 = success
  ∧ Weapon.m_launched out.2.1 = true
  ∧ Weapon.m_currentState out.2.1 = WPN_CTRL_STATE_POST_LAUNCH
  ∧ now out.2.2 = 120
  ∧ drop 8 (log out.2.2)
    = [ EvState WPN_CTRL_STATE_RTL WPN_CTRL_STATE_LAUNCH;
        EvStateChanged 1 1 WPN_CTRL_STATE_RTL WPN_CTRL_STATE_LAUNCH;
        EvLaunchStatusChanged 1 1 true;
        EvState WPN_CTRL_STATE_LAUNCH WPN_CTRL_STATE_POST_LAUNCH;
        EvStateChanged 1 1 WPN_CTRL_STATE_LAUNCH WPN_CTRL_STATE_POST_LAUNCH ].
Proof.
  intros s out.
  assert (∀ t, t ∈ poll_times 0 (Weapon.m_launchSteps s.1) →
               seen quiet 2 (newToken s.2).2 t = false) as Hquiet.
  { intros t _. rewrite quiet_never_seen. vm_compute. reflexivity. }
  destruct (proj2 (launch_sequence quiet s.1 (newToken s.2).2 2 eq_refl)
              Hquiet eq_refl) as (H1 & H2 & H3 & H4 & H5).
  fold out in H1, H2, H3, H4, H5.
  refine (conj H1 (conj H2 (conj H3 (conj H4 _)))).
  rewrite H5. reflexivity.
Defined.

(** A weapon that has been launched once, turned off and brought back to
    RTL keeps [m_launched = true]; launching it again runs the whole
    sequence, reports success and leaves it in LAUNCH. *)
Example second_launch_stays_in_LAUNCH :
  let s1 := weapon_in_RTL quiet in
  let '(_, s2) :=
    run_ops quiet [ OpRequestStateChange WPN_CTRL_STATE_LAUNCH 2;
                    OpRequestStateChange WPN_CTRL_STATE_OFF 3;
                    OpRequestStateChange WPN_CTRL_STATE_ON 4;
                    OpUpdate ] s1 in
  let out := Weapon.requestStateChange quiet WPN_CTRL_STATE_LAUNCH 5 s2 in
  Weapon.m_currentState s2.1 = WPN_CTRL_STATE_RTL
  ∧ Weapon.m_launched s2.1 = true
  ∧ out.1 = success
  ∧ Weapon.m_currentState out.2.1 = WPN_CTRL_STATE_LAUNCH.
Proof. vm_compute. done. Qed.

(* ===================================================================== *)
(** ** Engagement managers *)
(* ===================================================================== *)

Section Missile.
Context (to_3D : SGEODETIC_POSITION → ST_3D_GEODETIC_POSITION).

Lemma calculate_flag m :
  Engagement.m_hasValidTarget
    (Engagement.missile_calculateEngagementPlan to_3D m).2
  = Engagement.m_hasValidTarget m
  ∧ Engagement.m_systemTargetId
      (Engagement.missile_calculateEngagementPlan to_3D m).2
    = Engagement.m_systemTargetId m.
Proof.
  unfold Engagement.missile_calculateEngagementPlan.
  destruct (Engagement.m_hasValidTarget m) eqn:E; simpl; rewrite ?E; done.
Qed.

Lemma missile_step_target m op :
  Engagement.m_hasValidTarget (missile_step to_3D m op)
  = match op with
    | OpSetTargetPosition _ => true
    | OpSetSystemTarget _ => false
    | OpUpdateTargetInfo target =>
        bool_decide (Engagement.m_systemTargetId m ≠ 0)
        && bool_decide (unTargetSystemID target = Engagement.m_systemTargetId m)
        || Engagement.m_hasValidTarget m
    | _ => Engagement.m_hasValidTarget m
    end
  ∧ Engagement.m_systemTargetId (missile_step to_3D m op)
    = match op with
      | OpSetTargetPosition _ => 0
      | OpSetSystemTarget systemTargetId => systemTargetId
      | _ => Engagement.m_systemTargetId m
      end.
Proof.
  destruct op; cbn [missile_step];
    unfold Engagement.setTargetPosition, Engagement.updateTargetInfo,
      Engagement.updateWaypoints;
    repeat match goal with
      | |- context [Engagement.missile_calculateEngagementPlan to_3D ?x] =>
          destruct (calculate_flag x) as [-> ->]
      | |- context [if ?b then _ else _] => destruct b eqn:?
      end; try done.
  all: cbn [snd]; by destruct (calculate_flag m) as [-> ->].
Qed.

(** A call that neither designates nor delivers a track. *)
Ltac pending_unchanged :=
  let Hno := fresh "Hno" in
  let H := fresh "H" in
  split;
  [ intros [Hno H]; right; right; split; [tauto|];
    destruct H as [?|(? & t & ? & ?)]; [by left|];
    right; split; [done|]; exists t; split; [by right|done]
  | intros [[[? ?] _]|[(? & ? & _)|[[_ Hno] H]]]; [done|done|];
    split; [done|];
    destruct H as [?|(? & t & [?|?] & ?)]; [by left|done|];
    right; split; [done|]; by exists t ].

(** How the contribution of the manager in use moves over one call. *)
Lemma pending_step m op history :
  pending (missile_step to_3D m op) history
  ↔ ((∃ targetPos, op = OpSetTargetPosition targetPos)
     ∧ Forall (λ op, ¬ designates op) history)
    ∨ (∃ systemTargetId,
         op = OpSetSystemTarget systemTargetId
         ∧ systemTargetId ≠ 0
         ∧ Forall (λ op, ¬ designates op) history
         ∧ ∃ target, OpUpdateTargetInfo target ∈ history
                     ∧ unTargetSystemID target = systemTargetId)
    ∨ pending m (op :: history).
Proof.
  unfold pending. rewrite Forall_cons.
  destruct (missile_step_target m op) as [-> ->].
  setoid_rewrite elem_of_cons.
  destruct op as [targetPos|id|target|waypoints| |tube kind|clock|axis|l|clock];
    cbn [designates].
  4-10: pending_unchanged.
  - split.
    + intros [Hno _]. left. eauto.
    + intros [[_ Hno]|[(? & ? & _)|[[Hd _] _]]]; [by split; [|left]|done|tauto].
  - split.
    + intros [Hno [?|(Hid & target & Hin & Htid)]]; [done|].
      right. left. exists id. eauto 10.
    + intros [[[? ?] _]|[(? & Heq & Hid & Hno & Htrack)|[[Hd _] _]]];
        [done| |tauto].
      injection Heq as <-. split; [done|]. right. by split.
  - rewrite orb_true_iff, andb_true_iff, !bool_decide_eq_true. split.
    + intros [Hno H]. right. right. split; [tauto|].
      destruct H as [[[Hid Heq]|Hf]|(Hid & t & Hin & Heq)].
      * right. split; [done|]. exists target. split; [by left|done].
      * by left.
      * right. split; [done|]. exists t. split; [by right|done].
    + intros [[[? ?] _]|[(? & ? & _)|[[_ Hno] H]]]; [done|done|].
      split; [done|].
      destruct H as [Hf|(Hid & t & [Heq|Hin] & Ht)].
      * left. by right.
      * injection Heq as ->. left. by left.
      * right. split; [done|]. by exists t.
Qed.

Lemma direct_position_set_cons op history :
  direct_position_set (op :: history)
  ↔ ((∃ targetPos, op = OpSetTargetPosition targetPos)
     ∧ Forall (λ op, ¬ designates op) history)
    ∨ direct_position_set history.
Proof.
  unfold direct_position_set. split.
  - intros ([|op' before] & targetPos & after & Heq & Hno).
    + injection Heq as -> ->. left. eauto.
    + injection Heq as -> ->. right. eauto.
  - intros [[[targetPos ->] Hno]|(before & targetPos & after & -> & Hno)].
    + by exists [], targetPos, history.
    + by exists (op :: before), targetPos, after.
Qed.

Lemma system_target_tracked_cons op history :
  system_target_tracked (op :: history)
  ↔ (∃ systemTargetId,
        op = OpSetSystemTarget systemTargetId
        ∧ systemTargetId ≠ 0
        ∧ Forall (λ op, ¬ designates op) history
        ∧ ∃ target, OpUpdateTargetInfo target ∈ history
                    ∧ unTargetSystemID target = systemTargetId)
    ∨ system_target_tracked history.
Proof.
  unfold system_target_tracked. split.
  - intros ([|op' before] & id & after & Heq & Hid & Hno & Htrack).
    + injection Heq as -> ->. left. eauto.
    + injection Heq as -> ->. right. eauto 10.
  - intros [(id & -> & Hid & Hno & Htrack)
           |(before & id & after & -> & Hid & Hno & Htrack)].
    + by exists [], id, history.
    + by exists (op :: before), id, after.
Qed.

Lemma missile_run_cons op history m :
  missile_run to_3D (op :: history) m
  = missile_run to_3D history (missile_step to_3D m op).
Proof. done. Qed.

(** The flag after a history, from a manager in any state. *)
Lemma missile_run_flag history m :
  Engagement.hasValidTarget (missile_run to_3D history m) = true
  ↔ direct_position_set history ∨ system_target_tracked history
    ∨ pending m history.
Proof.
  revert m. induction history as [|op history IH]; intros m.
  - unfold missile_run, pending, direct_position_set, system_target_tracked.
    cbn [foldl]. split.
    + intros H. right. right. split; [constructor|by left].
    + intros [(b & ? & ? & Heq & _)
             |[(b & ? & ? & Heq & _)|[_ [H|(_ & ? & H & _)]]]].
      * by destruct b.
      * by destruct b.
      * done.
      * by apply elem_of_nil in H.
  - rewrite missile_run_cons, IH, direct_position_set_cons,
      system_target_tracked_cons, pending_step.
    tauto.
Qed.


(** C6. A missile manager (of any of the three classes) that is asked for
    a plan while [hasValidTarget] is false marks its result invalid and
    returns the failure "No valid target set", changing nothing else. And
    for a manager as constructed, after any history of calls,
    [hasValidTarget] is true exactly when the latest designation is a
    direct position, or is a system target id for which a track with
    that id has arrived since. *)
Theorem missile_target_validity class clock history :
  let m :=
    missile_run to_3D history
      (Engagement.new_MissileEngagementManager class clock) in
  (Engagement.hasValidTarget m = true
   ↔ direct_position_set history ∨ system_target_tracked history)
  ∧ ∀ m' : Engagement.MissileEngagementManagerBase,
      Engagement.hasValidTarget m' = false →
      Engagement.missile_calculateEngagementPlan to_3D m'
      = (failure "No valid target set",
         Engagement.missile_with_base
           (Engagement.with_result (Engagement.set_isValid false)) m')
      ∧ Engagement.isValid
          (Engagement.m_engagementResult
             (Engagement.missile_base
                (Engagement.missile_calculateEngagementPlan to_3D m').2))
        = false.
Proof.
  intros m. split.
  - unfold m. rewrite missile_run_flag. unfold pending.
    cbn [Engagement.new_MissileEngagementManager
           Engagement.m_hasValidTarget Engagement.m_systemTargetId].
    split; [|tauto].
    intros [H|[H|[_ [H|[H _]]]]]; [by left | by right | done | done].
  - intros m' Hno. unfold Engagement.hasValidTarget in Hno.
    unfold Engagement.missile_calculateEngagementPlan. by rewrite Hno.
Qed.

(** C7. A waypoint list of more than eight entries is refused by a missile
    manager and by a mine manager with the too-many-waypoints failure, and
    the manager (its stored waypoints and its plan result among the rest)
    is left as it was. A list of exactly eight entries passes the check:
    it becomes the stored list and the plan is recomputed, which always
    succeeds for a mine and, for a missile, succeeds when it has a valid
    target and reports "No valid target set" when it has none. *)
Theorem waypoint_capacity waypoints
    (missile : Engagement.MissileEngagementManagerBase)
    (mine : Engagement.MineEngagementManagerBase) :
  (8 < length waypoints →
     Engagement.updateWaypoints to_3D waypoints missile
     = (failure "Too many waypoints for missile (max 8)", missile)
     ∧ Engagement.updateDropPlanWaypoints waypoints mine
       = (failure "Too many waypoints for mine (max 8)", mine))
  ∧ (length waypoints = 8 →
     let out := Engagement.updateWaypoints to_3D waypoints missile in
     let out' := Engagement.updateDropPlanWaypoints waypoints mine in
     Engagement.getWaypoints out.2 = waypoints
     ∧ out.1 = (if Engagement.hasValidTarget missile then success
                else failure "No valid target set")
     ∧ Engagement.m_waypoints (Engagement.mine_base out'.2) = waypoints
     ∧ usWaypointCnt (Engagement.m_dropPlan out'.2) = 8
     ∧ out'.1 = success).
Proof.
  unfold Engagement.updateWaypoints, Engagement.updateDropPlanWaypoints.
  split.
  - intros Hlen. by rewrite !bool_decide_true.
  - intros Hlen. rewrite !bool_decide_false by lia.
    unfold Engagement.missile_calculateEngagementPlan,
      Engagement.hasValidTarget.
    cbn [Engagement.m_hasValidTarget Engagement.missile_with_base].
    destruct (Engagement.m_hasValidTarget missile); cbn; rewrite ?Hlen; done.
Qed.

End Missile.

(** C6 on a history: system target 42 designated, then a track for 42. *)
Lemma missile_target_validity_witness :
  Engagement.hasValidTarget
    (missile_run (λ p, zero_position)
       [ OpSetSystemTarget 42;
         OpUpdateTargetInfo (mkTrack 42 (mkGeo3D 37 127 0)) ]
       (Engagement.new_MissileEngagementManager
          Engagement.ASMEngagementManager 0)) = true.
Proof.
  apply (missile_target_validity (λ p, zero_position)
           Engagement.ASMEngagementManager 0).
  right. exists [], 42, [OpUpdateTargetInfo (mkTrack 42 (mkGeo3D 37 127 0))].
  split; [reflexivity|]. split; [lia|]. split.
  - constructor; [simpl; tauto | constructor].
  - exists (mkTrack 42 (mkGeo3D 37 127 0)).
    split; [apply list_elem_of_here | reflexivity].
Defined.

(** C7 at nine waypoints, for an ALM manager and a mine manager as
    constructed. *)
Lemma waypoint_capacity_witness :
  let nine := replicate 9 zero_position in
  let missile :=
    Engagement.new_MissileEngagementManager Engagement.ALMEngagementManager 0 in
  let mine := Engagement.new_MineEngagementManager 0 in
  Engagement.updateWaypoints (λ p, zero_position) nine missile
  = (failure "Too many waypoints for missile (max 8)", missile)
  ∧ Engagement.updateDropPlanWaypoints nine mine
    = (failure "Too many waypoints for mine (max 8)", mine).
Proof.
  intros nine missile mine.
  apply (waypoint_capacity (λ p, zero_position) nine missile mine).
  vm_compute. lia.
Defined.

(* ===================================================================== *)
(** ** The mine drop-plan store *)
(* ===================================================================== *)

Lemma Qltb_lt x y : Qltb x y = true ↔ (x < y)%Q.
Proof.
  unfold Qltb. rewrite negb_true_iff, <- not_true_iff_false, Qle_bool_iff.
  split; [apply Qnot_le_lt | apply Qlt_not_le].
Qed.

Lemma Qltb_ge x y : Qltb x y = false ↔ (y <= x)%Q.
Proof. unfold Qltb. by rewrite negb_false_iff, Qle_bool_iff. Qed.

Lemma validatePosition_range position :
  PlanStore.validatePosition position = true
  ↔ (-90 <= dLatitude position <= 90)%Q
    ∧ (-180 <= dLongitude position <= 180)%Q
    ∧ (-1000 <= fDepth position <= 10000)%Q.
Proof.
  unfold PlanStore.validatePosition.
  repeat match goal with
    | |- context [Qltb ?a ?b] =>
        let E := fresh "E" in
        destruct (Qltb a b) eqn:E;
        [apply Qltb_lt in E | apply Qltb_ge in E]
    end; simpl; split; try done; try tauto;
    intros ([? ?] & [? ?] & [? ?]);
    repeat match goal with
      | H1 : (?a < ?b)%Q, H2 : (?b <= ?a)%Q |- _ =>
          exfalso; exact (Qlt_not_le _ _ H1 H2)
      end.
Qed.

Lemma waypoints_loop_checks k i plan :
  PlanStore.waypoints_loop k i plan = true
  ↔ ∀ j, i ≤ j < i + k → j < usWaypointCnt plan →
         PlanStore.validatePosition (slot (stWaypoint plan) j) = true.
Proof.
  revert i. induction k as [|k IH]; intros i; simpl.
  - split; [intros _ j; lia | done].
  - case_bool_decide as Hi.
    + destruct (PlanStore.validatePosition (slot (stWaypoint plan) i)) eqn:E;
        simpl.
      * rewrite IH. split.
        -- intros H j Hj Hc. destruct (decide (j = i)) as [->|]; [done|].
           apply H; [lia|done].
        -- intros H j Hj Hc. apply H; [lia|done].
      * split; [done|]. intros H. rewrite <- E. apply H; [lia|done].
    + split; [|done]. intros _ j Hj Hc. lia.
Qed.

(** What [validatePlan] accepts: a nonzero plan number, a launch and a drop
    position in range, and in-range waypoints in the first
    [min(usWaypointCnt, 8)] slots. The count itself is not looked at. *)
Lemma validatePlan_accepts plan :
  PlanStore.validatePlan plan = true
  ↔ usDroppingPlanNumber plan ≠ 0
    ∧ PlanStore.validatePosition (stLaunchPos plan) = true
    ∧ PlanStore.validatePosition (stDropPos plan) = true
    ∧ ∀ j, j < 8 → j < usWaypointCnt plan →
           PlanStore.validatePosition (slot (stWaypoint plan) j) = true.
Proof.
  unfold PlanStore.validatePlan. case_bool_decide as Hn.
  { split; [done|]. by intros [? _]. }
  destruct (PlanStore.validatePosition (stLaunchPos plan)); cbn [negb orb].
  2:{ split; [done|]. by intros (_ & ? & _). }
  destruct (PlanStore.validatePosition (stDropPos plan)); cbn [negb orb].
  2:{ split; [done|]. by intros (_ & _ & ? & _). }
  rewrite waypoints_loop_checks. split.
  - intros H. repeat split; try done. intros j Hj. apply H. lia.
  - intros (_ & _ & _ & H) j Hj. apply H. lia.
Qed.

(** C8. [validatePlan] accepts a plan whose waypoint count is nine: the
    count only bounds the loop over the slots and is never compared with
    eight. *)
Theorem validatePlan_accepts_nine_waypoints :
  usWaypointCnt overfull_plan = 9
  ∧ PlanStore.validatePlan overfull_plan = true.
Proof. split; reflexivity. Qed.

Section Store.
Context (show_double : Q → string).

Lemma savePlanList_success planListNumber plans s fs :
  (PlanStore.savePlanList show_double planListNumber plans (s, fs)).1
  = success →
  PlanStore.isValidPlanListNumber s planListNumber = true
  ∧ (PlanStore.getPlanListFilePath s planListNumber ∉ PlanStore.locked fs)
  ∧ (PlanStore.savePlanList show_double planListNumber plans (s, fs)).2
    = (PlanStore.set_cachedPlans
         (<[planListNumber := plans]> (PlanStore.m_cachedPlans s)) s,
       PlanStore.mkFileSystem
         (<[PlanStore.getPlanListFilePath s planListNumber
            := (PlanStore.json_text show_double planListNumber plans)]>
            (PlanStore.files fs))
         (PlanStore.locked fs)).
Proof.
  unfold PlanStore.savePlanList, bind, PlanStore.service,
    PlanStore.savePlanListToFile, PlanStore.modify,
    PlanStore.writeJsonToFile.
  cbn [fst snd].
  destruct (PlanStore.isValidPlanListNumber s planListNumber);
    cbn [negb]; [|done].
  case_bool_decide; [done|].
  destruct (forallb PlanStore.validatePlan plans); cbn [negb]; [|done].
  case_bool_decide as Hlock; cbn [fst snd isSuccess negb]; done.
Qed.

Lemma loadPlanList_existing planListNumber s fs text :
  PlanStore.isValidPlanListNumber s planListNumber = true →
  PlanStore.files fs !! PlanStore.getPlanListFilePath s planListNumber
  = Some text →
  PlanStore.getPlanListFilePath s planListNumber ∉ PlanStore.locked fs →
  PlanStore.loadPlanList planListNumber (s, fs)
  = (success,
     (PlanStore.set_cachedPlans
        (<[planListNumber := []]> (PlanStore.m_cachedPlans s)) s, fs)).
Proof.
  intros Hv Hfile Hlock.
  unfold PlanStore.loadPlanList, bind, PlanStore.service,
    PlanStore.loadPlanListFromFile, PlanStore.modify,
    PlanStore.readJsonFromFile.
  cbn [fst snd]. rewrite Hv. cbn [negb]. rewrite Hfile.
  by rewrite bool_decide_false.
Qed.

Lemma getPlanList_cached planListNumber plans cache s :
  PlanStore.isValidPlanListNumber s planListNumber = true →
  PlanStore.getPlanList
    (PlanStore.set_cachedPlans (<[planListNumber := plans]> cache) s)
    planListNumber = plans.
Proof.
  intros Hv. unfold PlanStore.getPlanList.
  change (PlanStore.isValidPlanListNumber
            (PlanStore.set_cachedPlans _ s) planListNumber)
    with (PlanStore.isValidPlanListNumber s planListNumber).
  rewrite Hv. cbn [negb PlanStore.m_cachedPlans PlanStore.set_cachedPlans].
  by rewrite lookup_insert_eq.
Qed.

(** After a save that succeeded the cache holds the plans; loading the
    list back succeeds and replaces them by the empty list. *)
Lemma save_then_load_forgets planListNumber plans s fs :
  (PlanStore.savePlanList show_double planListNumber plans (s, fs)).1
  = success →
  let saved :=
    (PlanStore.savePlanList show_double planListNumber plans (s, fs)).2 in
  let loaded := PlanStore.loadPlanList planListNumber saved in
  PlanStore.getPlanList saved.1 planListNumber = plans
  ∧ loaded.1 = success
  ∧ PlanStore.getPlanList loaded.2.1 planListNumber = [].
Proof.
  intros Hok saved loaded. unfold loaded, saved.
  destruct (savePlanList_success _ _ _ _ Hok) as (Hv & Hlock & ->).
  cbn [fst snd]. split; [by apply getPlanList_cached|].
  erewrite loadPlanList_existing.
  - cbn [fst snd]. split; [done|].
    apply getPlanList_cached. exact Hv.
  - done.
  - apply lookup_insert_eq.
  - done.
Qed.

End Store.

(** C5. Saving list 3 with plan 7 succeeds and caches the plan; loading
    list 3 back succeeds too, and the list it yields is empty, whatever
    the text the file holds: the reader does not parse it. *)
Theorem saved_plan_is_lost_on_load show_double :
  let saved := PlanStore.savePlanList show_double 3 [plan_7] empty_store in
  let loaded := PlanStore.loadPlanList 3 saved.2 in
  PlanStore.validatePlan plan_7 = true
  ∧ saved.1 = success
  ∧ PlanStore.getPlanList saved.2.1 3 = [plan_7]
  ∧ loaded.1 = success
  ∧ PlanStore.getPlanList loaded.2.1 3 = [].
Proof.
  intros saved loaded.
  assert (saved.1 = success) as Hok by (vm_compute; reflexivity).
  destruct (save_then_load_forgets show_double 3 [plan_7]
              empty_store.1 empty_store.2 Hok)
    as (H1 & H2 & H3).
  done.
Qed.

(* ===================================================================== *)
(** ** The launch-tube coordinator *)
(* ===================================================================== *)

Section Stop.
Context (env : nat → gset nat).

Lemma requests_cons_request tube target token c evs :
  requests (EvRequest tube target token c :: evs)
  = (tube, target, c) :: requests evs.
Proof. done. Qed.

Lemma tube_request_log newState token t w :
  ∃ evs,
    log (Tubes.requestWeaponStateChange env newState token (t, w)).2.2
    = log w ++ EvRequest (Tubes.m_tubeNumber t) newState token
                 (isCancelled token w) :: evs
    ∧ requests evs = [].
Proof.
  unfold Tubes.requestWeaponStateChange.
  destruct (Tubes.m_weapon t) as [weapon|].
  - unfold Tubes.on_weapon.
    set (w1 := emit _ w).
    destruct (request_transitions env newState token weapon w1)
      as (evs & Hlog & _ & Hreq).
    destruct (Weapon.requestStateChange env newState token (weapon, w1))
      as [r [weapon' w']].
    cbn [fst snd] in *. exists evs. split; [|done].
    rewrite Hlog. unfold w1, emit. cbn [log]. by rewrite <- app_assoc.
  - exists []. done.
Qed.

Lemma tube_at_insert m i j tube :
  j ≠ i →
  Tubes.tube_at
    (Tubes.set_launchTubes (<[i := Some tube]> (Tubes.m_launchTubes m)) m) j
  = Tubes.tube_at m j.
Proof.
  intros Hne. unfold Tubes.tube_at. cbn [Tubes.m_launchTubes Tubes.set_launchTubes].
  by rewrite list_lookup_insert_ne.
Qed.

Lemma emergencyStop_body_log i acc m w tube :
  Tubes.tube_at m i = Some tube →
  (∀ j, j ≠ i →
     Tubes.tube_at (Tubes.emergencyStop_body env i acc (m, w)).2.1 j
     = Tubes.tube_at m j)
  ∧ ∃ evs,
      log (Tubes.emergencyStop_body env i acc (m, w)).2.2 = log w ++ evs
      ∧ requests evs = [emergency_request tube].
Proof.
  intros Htube. unfold Tubes.emergencyStop_body. rewrite Htube.
  fold (emergency_target tube).
  set (target := emergency_target tube).
  unfold newToken.
  set (token := next_cell w).
  set (w1 := mkWorld _ _ _ _).
  set (w2 := if bool_decide (target = WPN_CTRL_STATE_ABORT)
             then cancel token w1 else w1).
  destruct (tube_request_log target token tube w2) as (evs & Hlog & Hreq).
  destruct (Tubes.requestWeaponStateChange env target token (tube, w2))
    as [result [tube' w3]].
  cbn [fst snd] in Hlog.
  assert (isCancelled token w2 = bool_decide (target = WPN_CTRL_STATE_ABORT))
    as Hflag.
  { unfold w2. case_bool_decide.
    - unfold isCancelled, cancel, emit. cbn [cancelled].
      apply bool_decide_eq_true. set_solver.
    - unfold isCancelled, w1. cbn [cancelled].
      apply bool_decide_eq_false. set_solver. }
  assert (∃ pre, log w2 = log w ++ pre ∧ requests pre = []) as (pre & Hpre & Hnone).
  { unfold w2. case_bool_decide.
    - exists [EvCancel token]. done.
    - exists []. split; [|done]. unfold w1. cbn [log]. by rewrite app_nil_r. }
  destruct result as [|message]; cbn [fst snd]; (split;
    [intros j Hj; by apply tube_at_insert|]);
    (exists (pre ++ EvRequest (Tubes.m_tubeNumber tube) target token
                     (isCancelled token w2) :: evs);
     split; [by rewrite Hlog, Hpre, <- app_assoc|];
     by rewrite requests_app, Hnone, requests_cons_request, Hreq, Hflag).
Qed.

Lemma emergencyStop_loop_log idxs acc m w :
  NoDup idxs →
  (∀ i, i ∈ idxs → is_Some (Tubes.tube_at m i)) →
  ∃ evs,
    log (Tubes.emergencyStop_loop env idxs acc (m, w)).2.2 = log w ++ evs
    ∧ requests evs = emergency_request <$> omap (Tubes.tube_at m) idxs.
Proof.
  revert acc m w. induction idxs as [|i idxs IH]; intros acc m w Hnd Hall.
  { exists []. split; [by rewrite app_nil_r | done]. }
  apply NoDup_cons in Hnd as [Hi Hnd].
  destruct (Hall i) as [tube Htube]; [by left|].
  cbn [Tubes.emergencyStop_loop].
  destruct (emergencyStop_body_log i acc m w tube Htube)
    as (Hother & evs1 & Hlog1 & Hreq1).
  destruct (Tubes.emergencyStop_body env i acc (m, w)) as [acc' [m' w']].
  cbn [fst snd] in *.
  assert (∀ j, j ∈ idxs → Tubes.tube_at m' j = Tubes.tube_at m j) as Hsame.
  { intros j Hj. apply Hother. intros ->. done. }
  destruct (IH acc' m' w' Hnd) as (evs2 & Hlog2 & Hreq2).
  { intros j Hj. rewrite Hsame by done. apply Hall. by right. }
  exists (evs1 ++ evs2). split.
  - by rewrite Hlog2, Hlog1, app_assoc.
  - rewrite requests_app, Hreq1, Hreq2. cbn [omap list_omap]. rewrite Htube.
    cbn [fmap list_fmap]. f_equal. f_equal.
    clear -Hsame. induction idxs as [|j idxs IH]; [done|].
    cbn [omap list_omap]. rewrite Hsame by (by left).
    rewrite IH; [done|]. intros k Hk. apply Hsame. by right.
Qed.

Lemma getAssignedTubes_NoDup m : NoDup (Tubes.getAssignedTubes m).
Proof. unfold Tubes.getAssignedTubes. apply NoDup_filter, NoDup_seq. Qed.

Lemma getAssignedTubes_assigned m i :
  i ∈ Tubes.getAssignedTubes m →
  ∃ tube, Tubes.tube_at m i = Some tube ∧ Tubes.hasWeapon tube = true.
Proof.
  unfold Tubes.getAssignedTubes, Tubes.assigned_at.
  rewrite list_elem_of_filter. intros [H _].
  destruct (Tubes.tube_at m i) as [tube|]; [|done].
  exists tube. split; [done|]. by apply Is_true_true.
Qed.

(** C9. [emergencyStop] makes exactly one state-change request of each
    assigned tube, in tube order and of no other tube: ABORT when the
    tube's weapon is in LAUNCH, OFF otherwise; the token that comes with
    the request is already cancelled when the request is made exactly
    when the target is ABORT. The assigned tubes are the tubes that hold
    a weapon. *)
Theorem emergency_stop_requests m w :
  let out := Tubes.emergencyStop env (m, w) in
  ∃ evs,
    log out.2.2 = log w ++ evs
    ∧ requests evs = emergency_request <$> assigned_tubes m
    ∧ Forall (λ tube, Tubes.hasWeapon tube = true) (assigned_tubes m)
    ∧ ∀ i tube,
        Tubes.m_minTubeNumber m ≤ i ≤ Tubes.m_maxTubeNumber m →
        Tubes.tube_at m i = Some tube →
        Tubes.hasWeapon tube = true →
        tube ∈ assigned_tubes m.
Proof.
  intros out. unfold out, Tubes.emergencyStop. cbn [fst].
  destruct (emergencyStop_loop_log (Tubes.getAssignedTubes m)
              (true, EmptyString) m w) as (evs & Hlog & Hreq).
  { apply getAssignedTubes_NoDup. }
  { intros i Hi. destruct (getAssignedTubes_assigned m i Hi) as (t & -> & _).
    eauto. }
  destruct (Tubes.emergencyStop_loop env _ _ _) as [[allSuccess errors] s'].
  exists evs. split; [by destruct allSuccess|]. split; [done|].
  unfold assigned_tubes. split.
  - apply Forall_forall. intros tube Ht.
    apply list_elem_of_omap in Ht as (i & Hi & Hti).
    destruct (getAssignedTubes_assigned m i Hi) as (t & Ht' & Hw).
    congruence.
  - intros i tube Hi Htube Hw. apply list_elem_of_omap.
    exists i. split; [|done].
    unfold Tubes.getAssignedTubes. apply list_elem_of_filter. split.
    + unfold Tubes.assigned_at. rewrite Htube. by apply Is_true_true.
    + apply elem_of_seq. lia.
Qed.

End Stop.

(** The emergency-stop scenario: tube 1 in LAUNCH gets ABORT with a token
    that is already cancelled, tube 2 in RTL gets OFF; both requests
    succeed and the tubes end in ABORT and OFF. *)
Example emergency_stop_two_tubes :
  let out := Tubes.emergencyStop quiet two_assigned_tubes in
  out.1 = success
  ∧ requests (log out.2.2)
    = [ (1, WPN_CTRL_STATE_ABORT, true); (2, WPN_CTRL_STATE_OFF, false) ]
  ∧ Tubes.getWeaponState <$> Tubes.tube_at out.2.1 1
    = Some WPN_CTRL_STATE_ABORT
  ∧ Tubes.getWeaponState <$> Tubes.tube_at out.2.1 2
    = Some WPN_CTRL_STATE_OFF.
Proof. vm_compute. done. Qed.

(* ===================================================================== *)
(** ** Further properties of the weapon *)
(* ===================================================================== *)

Section WeaponOperations.
Context (env : nat → gset nat).

(** X1. An accepted request for OFF leaves the weapon in OFF holding the
    caller's token, and that token is the one cell the request cancels:
    the request first takes the caller's token as the weapon's current
    token and [processTurnOff] then cancels the current token. The token of
    the operation before, like every other cell, is left as it was. *)
Theorem off_request_cancels_the_callers_token wp w token :
  Weapon.isValidTransition (Weapon.m_currentState wp) WPN_CTRL_STATE_OFF
  = true →
  let out := Weapon.requestStateChange env WPN_CTRL_STATE_OFF token (wp, w) in
  out.1 = success
  ∧ Weapon.m_currentState out.2.1 = WPN_CTRL_STATE_OFF
  ∧ Weapon.m_currentCancellationToken out.2.1 = token
  ∧ isCancelled token out.2.2 = true
  ∧ ∀ other, other ≠ token →
             isCancelled other out.2.2 = isCancelled other w.
Proof.
  intros Hv out. unfold out. rewrite request_valid by done.
  rewrite processTurnOff_eq. cbn [fst snd].
  split; [done|]. split; [done|]. split; [done|].
  rewrite isCancelled_add_log.
  unfold isCancelled, cancel, emit. cbn [cancelled].
  change (Weapon.m_currentCancellationToken
            (Weapon.set_currentCancellationToken token wp)) with token.
  split.
  - apply bool_decide_eq_true. set_solver.
  - intros other Hne. apply bool_decide_ext. set_solver.
Qed.

(** *** What observers are told *)

Lemma state_events_ext wp wp' old new :
  Weapon.m_observers wp' = Weapon.m_observers wp →
  Weapon.m_tubeNumber wp' = Weapon.m_tubeNumber wp →
  state_events wp' old new = state_events wp old new.
Proof. intros Ho Ht. unfold state_events. by rewrite Ho, Ht. Qed.

Lemma launch_events_ext wp wp' launched :
  Weapon.m_observers wp' = Weapon.m_observers wp →
  Weapon.m_tubeNumber wp' = Weapon.m_tubeNumber wp →
  launch_events wp' launched = launch_events wp launched.
Proof. intros Ho Ht. unfold launch_events. by rewrite Ho, Ht. Qed.

Lemma emitted_by_ext stores wp wp' evs :
  Weapon.m_observers wp' = Weapon.m_observers wp →
  Weapon.m_tubeNumber wp' = Weapon.m_tubeNumber wp →
  emitted_by stores wp' evs → emitted_by stores wp evs.
Proof.
  intros Ho Ht H. induction H as [|cell evs _ IH|old new evs _ IH
                                 |launched evs _ IH|old new evs Hs _ IH].
  - constructor.
  - by constructor.
  - rewrite (state_events_ext wp wp') by done. by constructor.
  - rewrite (launch_events_ext wp wp') by done. by constructor.
  - by constructor.
Qed.

Lemma emitted_by_app stores wp evs1 evs2 :
  emitted_by stores wp evs1 → emitted_by stores wp evs2 →
  emitted_by stores wp (evs1 ++ evs2).
Proof.
  intros H1 H2. induction H1 as [|cell evs _ IH|old new evs _ IH
                                 |launched evs _ IH|old new evs Hs _ IH].
  - done.
  - simpl. by constructor.
  - rewrite <- app_assoc. by constructor.
  - rewrite <- app_assoc. by constructor.
  - simpl. by constructor.
Qed.

Lemma emitted_by_state stores wp old new :
  emitted_by stores wp (state_events wp old new).
Proof.
  rewrite <- (app_nil_r (state_events _ _ _)). constructor. constructor.
Qed.

Lemma emitted_by_launch stores wp launched :
  emitted_by stores wp (launch_events wp launched).
Proof.
  rewrite <- (app_nil_r (launch_events _ _)). constructor. constructor.
Qed.

Lemma emitted_by_weaken wp evs :
  emitted_by false wp evs → emitted_by true wp evs.
Proof.
  induction 1; first [by constructor | done].
Qed.

(** What a state-change request adds to the log, and that it leaves the
    observers and the tube number alone. *)
Lemma request_emitted newState token wp w :
  let out := Weapon.requestStateChange env newState token (wp, w) in
  (∃ evs, log out.2.2 = log w ++ evs ∧ emitted_by false wp evs)
  ∧ Weapon.m_observers out.2.1 = Weapon.m_observers wp
  ∧ Weapon.m_tubeNumber out.2.1 = Weapon.m_tubeNumber wp.
Proof.
  intros out. unfold out. clear out.
  destruct (decide (newState = WPN_CTRL_STATE_ABORT)) as [->|Hne].
  { rewrite request_abort. cbn [fst snd]. rewrite log_add_log.
    split; [|done]. eexists ([_; _] ++ _). split.
    { unfold cancel, emit. cbn [log]. by rewrite <- !app_assoc. }
    simpl. do 2 constructor. apply emitted_by_state. }
  destruct (Weapon.isValidTransition (Weapon.m_currentState wp) newState)
    eqn:Hv.
  2:{ rewrite request_invalid by done. split; [|done]. exists [].
      split; [by rewrite app_nil_r | constructor]. }
  rewrite request_valid by done.
  set (wp1 := Weapon.set_currentCancellationToken token wp).
  assert (Ho : Weapon.m_observers wp1 = Weapon.m_observers wp) by done.
  assert (Ht : Weapon.m_tubeNumber wp1 = Weapon.m_tubeNumber wp) by done.
  assert (∀ (out : Result * Weapon.Sys),
            (∃ evs, log out.2.2 = log w ++ evs ∧ emitted_by false wp1 evs)
            ∧ Weapon.m_observers out.2.1 = Weapon.m_observers wp1
            ∧ Weapon.m_tubeNumber out.2.1 = Weapon.m_tubeNumber wp1 →
            (∃ evs, log out.2.2 = log w ++ evs ∧ emitted_by false wp evs)
            ∧ Weapon.m_observers out.2.1 = Weapon.m_observers wp
            ∧ Weapon.m_tubeNumber out.2.1 = Weapon.m_tubeNumber wp) as back.
  { intros o ((evs & Hl & He) & Ho' & Ht'). split; [|by rewrite Ho', Ht'].
    exists evs. split; [done|]. by apply (emitted_by_ext _ wp wp1). }
  pose proof Hv as Hin. apply isValidTransition_table in Hin.
  destruct newState; try done; apply back.
  - (* OFF *)
    rewrite processTurnOff_eq. cbn [fst snd]. rewrite log_add_log.
    split; [|done]. eexists ([_] ++ _). split.
    { unfold cancel, emit. cbn [log]. by rewrite <- !app_assoc. }
    simpl. constructor. apply emitted_by_state.
  - exfalso. repeat (apply elem_of_cons in Hin as [Hin|Hin]; [by inversion Hin|]).
    by apply elem_of_nil in Hin.
  - (* ON *)
    destruct (processTurnOn_polls env token wp1 w eq_refl)
      as (b & k & -> & _). cbn [fst snd]. rewrite log_add_log, log_slept.
    split; [|done]. eexists. split; [done|].
    apply emitted_by_app; apply emitted_by_state.
  - exfalso. repeat (apply elem_of_cons in Hin as [Hin|Hin]; [by inversion Hin|]).
    by apply elem_of_nil in Hin.
  - (* LAUNCH *)
    destruct (processLaunch_polls env token wp1 w eq_refl)
      as [(_ & k & _ & ->)|(_ & ->)]; cbn [fst snd].
    + rewrite log_add_log, log_slept. split; [|done].
      eexists. split; [done|]. apply emitted_by_app; apply emitted_by_state.
    + destruct (Weapon.m_launched wp1); cbn [fst snd];
        rewrite log_add_log, log_slept; (split; [|done]);
        (eexists; split; [done|]).
      * apply emitted_by_state.
      * apply emitted_by_app; [apply emitted_by_state|].
        apply emitted_by_app; [apply emitted_by_launch|apply emitted_by_state].
  - exfalso. repeat (apply elem_of_cons in Hin as [Hin|Hin]; [by inversion Hin|]).
    by apply elem_of_nil in Hin.
Qed.

Lemma op_emitted stores op wp w :
  (stores = false → op ≠ OpReset) →
  let out := run_op env op (wp, w) in
  (∃ evs, log out.2.2 = log w ++ evs ∧ emitted_by stores wp evs)
  ∧ Weapon.m_observers out.2.1 = Weapon.m_observers wp
  ∧ Weapon.m_tubeNumber out.2.1 = Weapon.m_tubeNumber wp.
Proof.
  intros Hstores out. unfold out. clear out.
  assert (∀ evs, emitted_by false wp evs → emitted_by stores wp evs) as up.
  { intros evs H. destruct stores; [by apply emitted_by_weaken|done]. }
  assert ((∃ evs, log w = log w ++ evs ∧ emitted_by stores wp evs)) as Hsame.
  { exists []. split; [by rewrite app_nil_r | constructor]. }
  destruct op as [newState token| |launched|ready|]; unfold run_op.
  - destruct (request_emitted newState token wp w) as ((evs & Hl & He) & Ho & Ht).
    unfold bind.
    destruct (Weapon.requestStateChange _ _ _ _) as [? [? ?]].
    split; [|done]. exists evs. split; [done|]. by apply up.
  - unfold Weapon.update, Weapon.checkInterlockConditions, bind, Weapon.self,
      when.
    cbn [fst snd].
    case_bool_decide as Hon; [|case_bool_decide as Hrtl];
      cbn [fst snd];
      destruct (Weapon.m_fireSolutionReady wp); cbn [negb];
      try (split; [exact Hsame|done]);
      rewrite setState_eq; cbn [fst snd]; rewrite log_add_log;
      (split; [|done]); (eexists; split; [done|]); apply emitted_by_state.
  - rewrite setLaunched_eq. cbn [fst snd].
    case_bool_decide; [destruct launched|]; cbn [fst snd];
      rewrite ?log_add_log; (split; [|done]); try exact Hsame;
      (eexists; split; [done|]).
    + apply emitted_by_app; [apply emitted_by_launch|apply emitted_by_state].
    + apply emitted_by_launch.
  - split; [exact Hsame|done].
  - destruct stores; [|by specialize (Hstores eq_refl)].
    split; [|done].
    exists [EvState (Weapon.m_currentState wp) WPN_CTRL_STATE_OFF;
            EvCancel (Weapon.m_currentCancellationToken wp)].
    split.
    + unfold Weapon.reset, bind, Weapon.self, Weapon.modify, Weapon.effect,
        Weapon.world, cancel, emit. cbn. by rewrite <- app_assoc.
    + constructor; [done|]. constructor. constructor.
Qed.

Lemma ops_emitted stores ops wp w :
  (stores = false → ∀ op, op ∈ ops → op ≠ OpReset) →
  ∃ evs, log (run_ops env ops (wp, w)).2.2 = log w ++ evs
         ∧ emitted_by stores wp evs.
Proof.
  revert wp w. induction ops as [|op ops IH]; intros wp w Hstores.
  - exists []. split; [by rewrite app_nil_r | constructor].
  - unfold run_ops. cbn [for_each]. unfold bind.
    destruct (op_emitted stores op wp w) as ((evs1 & H1 & He1) & Ho & Ht).
    { intros Hs. apply Hstores; [done|]. by left. }
    destruct (run_op env op (wp, w)) as [[] [wp1 w1]]. cbn [fst snd] in *.
    destruct (IH wp1 w1) as (evs2 & H2 & He2).
    { intros Hs op' Hin. apply Hstores; [done|]. by right. }
    exists (evs1 ++ evs2). split.
    + fold (run_ops env ops). rewrite H2, H1. by rewrite app_assoc.
    + apply emitted_by_app; [done|]. by apply (emitted_by_ext _ wp wp1).
Qed.

Lemma owed_notifications_app wp l1 l2 :
  owed_notifications wp (l1 ++ l2)
  = owed_notifications wp l1 ++ owed_notifications wp l2.
Proof. unfold owed_notifications. apply bind_app. Qed.

Lemma state_notifications_app l1 l2 :
  state_notifications (l1 ++ l2)
  = state_notifications l1 ++ state_notifications l2.
Proof. apply omap_app. Qed.

Lemma state_notifications_state_events wp old new :
  state_notifications (state_events wp old new)
  = owed_notifications wp [(old, new)].
Proof.
  unfold state_events, state_notifications, owed_notifications.
  cbn [omap list_omap mbind list_bind fst snd]. rewrite app_nil_r.
  case_bool_decide; [|done].
  induction (Weapon.m_observers wp) as [|o l IH]; [done|].
  cbn. by rewrite <- IH.
Qed.

Lemma state_notifications_launch_events wp launched :
  state_notifications (launch_events wp launched) = [].
Proof.
  unfold launch_events, state_notifications.
  induction (Weapon.m_observers wp) as [|o l IH]; [done|]. exact IH.
Qed.

Lemma emitted_notifications wp evs :
  emitted_by false wp evs →
  state_notifications evs = owed_notifications wp (transitions evs).
Proof.
  induction 1 as [|cell evs _ IH|old new evs _ IH
                 |launched evs _ IH|old new evs Hs _ IH].
  - done.
  - exact IH.
  - rewrite state_notifications_app, transitions_app,
      transitions_state_events, owed_notifications_app,
      state_notifications_state_events. by rewrite IH.
  - rewrite state_notifications_app, transitions_app,
      transitions_launch_events, state_notifications_launch_events.
    exact IH.
  - done.
Qed.

(** X2. Over every sequence of requests, ticks, [setLaunched] and
    [setFireSolutionReady], the calls of [onStateChanged] the log shows
    are exactly the ones owed for the writes to the state it shows: one
    call per registered observer, in order, for each write that changes
    the state, and none for a write of the state the weapon is already in.
    [reset] is the exception: it stores OFF and cancels the current token
    without calling anybody. *)
Theorem observers_are_told_of_every_change ops wp w :
  (∀ op, op ∈ ops → op ≠ OpReset) →
  (∃ evs, log (run_ops env ops (wp, w)).2.2 = log w ++ evs
          ∧ state_notifications evs
            = owed_notifications wp (transitions evs))
  ∧ ∀ wp' w',
      Weapon.m_currentState (Weapon.reset (wp', w')).2.1 = WPN_CTRL_STATE_OFF
      ∧ log (Weapon.reset (wp', w')).2.2
        = log w' ++ [ EvState (Weapon.m_currentState wp') WPN_CTRL_STATE_OFF;
                      EvCancel (Weapon.m_currentCancellationToken wp') ].
Proof.
  intros Hno. split.
  - destruct (ops_emitted false ops wp w) as (evs & Hl & He); [done|].
    exists evs. split; [done|]. by apply emitted_notifications.
  - intros wp' w'. split; [done|].
    unfold Weapon.reset, bind, Weapon.self, Weapon.modify, Weapon.effect,
      Weapon.world, cancel, emit. cbn. by rewrite <- app_assoc.
Qed.

Lemma called_observers_app l1 l2 :
  called_observers (l1 ++ l2) = called_observers l1 ++ called_observers l2.
Proof. apply omap_app. Qed.

Lemma called_observers_state_events wp old new o :
  o ∈ called_observers (state_events wp old new) → o ∈ Weapon.m_observers wp.
Proof.
  unfold state_events, called_observers. cbn [omap list_omap].
  case_bool_decide; [|by intros ?%elem_of_nil].
  induction (Weapon.m_observers wp) as [|o' l IH]; [done|].
  cbn. rewrite !elem_of_cons. intros [->|Hin]; [by left|right; by apply IH].
Qed.

Lemma called_observers_launch_events wp launched o :
  o ∈ called_observers (launch_events wp launched) →
  o ∈ Weapon.m_observers wp.
Proof.
  unfold launch_events, called_observers.
  induction (Weapon.m_observers wp) as [|o' l IH]; [done|].
  cbn. rewrite !elem_of_cons. intros [->|Hin]; [by left|right; by apply IH].
Qed.

Lemma emitted_observers stores wp evs o :
  emitted_by stores wp evs →
  o ∈ called_observers evs → o ∈ Weapon.m_observers wp.
Proof.
  induction 1 as [|cell evs _ IH|old new evs _ IH
                 |launched evs _ IH|old new evs Hs _ IH].
  - by intros ?%elem_of_nil.
  - exact IH.
  - rewrite called_observers_app, elem_of_app.
    intros [H|H]; [by eapply called_observers_state_events | by apply IH].
  - rewrite called_observers_app, elem_of_app.
    intros [H|H]; [by eapply called_observers_launch_events | by apply IH].
  - exact IH.
Qed.

(** X3. After [removeStateObserver(observer)], whatever is done with the
    weapon (requests, ticks, [setLaunched], [setFireSolutionReady],
    [reset]), the observer is called neither for a state change nor for a
    change of the launch status: the removal takes out every registration
    of it, and no operation registers anybody. *)
Theorem removed_observer_is_not_called ops wp w observer :
  let s := (Weapon.removeStateObserver observer (wp, w)).2 in
  ∃ evs, log (run_ops env ops s).2.2 = log w ++ evs
         ∧ observer ∉ called_observers evs.
Proof.
  intros s.
  destruct (ops_emitted true ops s.1 s.2) as (evs & Hl & He); [done|].
  exists evs. split.
  - exact Hl.
  - intros Hin. apply (emitted_observers _ _ _ _ He) in Hin.
    unfold s, Weapon.removeStateObserver, bind, Weapon.self, Weapon.modify
      in Hin.
    cbn in Hin. apply list_elem_of_filter in Hin as [Hne _]. done.
Qed.

End WeaponOperations.

(** The weapon in RTL is switched off with token 7: token 7 is cancelled. *)
Lemma off_request_cancels_the_callers_token_witness :
  let wp := (weapon_in_RTL quiet).1 in
  let out :=
    Weapon.requestStateChange quiet WPN_CTRL_STATE_OFF 7
      (wp, (weapon_in_RTL quiet).2) in
  out.1 = success ∧ isCancelled 7 out.2.2 = true.
Proof.
  intros wp out.
  destruct (off_request_cancels_the_callers_token quiet wp
              (weapon_in_RTL quiet).2 7 eq_refl) as (H1 & _ & _ & H4 & _).
  exact (conj H1 H4).
Defined.

(** The weapon on tube 1 is switched on and brought to RTL: tube 1, its
    only observer, is told OFF to POC, POC to ON and ON to RTL. *)
Lemma observers_are_told_of_every_change_witness :
  ∃ evs,
    log (run_ops quiet [ OpRequestStateChange WPN_CTRL_STATE_ON 1;
                         OpSetFireSolutionReady true;
                         OpUpdate ]
           (weapon_on_tube_1.1, (newToken weapon_on_tube_1.2).2)).2.2
    = log (newToken weapon_on_tube_1.2).2 ++ evs
    ∧ state_notifications evs
      = owed_notifications weapon_on_tube_1.1 (transitions evs).
Proof.
  apply (observers_are_told_of_every_change quiet
           [ OpRequestStateChange WPN_CTRL_STATE_ON 1;
             OpSetFireSolutionReady true;
             OpUpdate ]).
  intros op Hin.
  repeat (apply elem_of_cons in Hin as [->|Hin]; [discriminate|]).
  by apply elem_of_nil in Hin.
Defined.
(* ===================================================================== *)
(** ** Further properties of the engagement managers *)
(* ===================================================================== *)

Lemma std_min_le_1 x : (std_min x 1 <= 1)%Q.
Proof.
  unfold std_min. destruct (Qltb 1 x) eqn:E; [lra|].
  apply Qltb_ge in E. exact E.
Qed.

Lemma std_min_nonneg x : (0 <= x)%Q → (0 <= std_min x 1)%Q.
Proof. intros H. unfold std_min. destruct (Qltb 1 x); lra. Qed.

Lemma std_min_ge_1 x : (1 <= x)%Q → (std_min x 1 == 1)%Q.
Proof.
  intros H. unfold std_min. destruct (Qltb 1 x) eqn:E; [lra|].
  apply Qltb_ge in E. lra.
Qed.

Lemma lerp_between a b p :
  (0 <= p <= 1)%Q → between a b (a + (b - a) * p)%Q.
Proof.
  intros [H0 H1]. unfold between.
  destruct (Qlt_le_dec a b) as [Hab|Hab]; [left|right]; nra.
Qed.

Lemma lerp_within from to p :
  (0 <= p <= 1)%Q → within from to (Engagement.lerp from to p).
Proof.
  intros Hp. unfold within, Engagement.lerp. cbn [dLatitude dLongitude fDepth].
  repeat split; by apply lerp_between.
Qed.

(** X4. The position a missile manager reports [timeSinceLaunch] seconds into
    the flight, for a plan with a trajectory and a positive flight time:
    every coordinate lies between the first and the last point of the
    trajectory; from the flight time on it is the last point, and at time
    0 the first. *)
Theorem missile_position_stays_on_course b timeSinceLaunch :
  let r := Engagement.m_engagementResult b in
  let first := default zero_position (head (Engagement.trajectory r)) in
  let final := default zero_position (last (Engagement.trajectory r)) in
  let p := Engagement.missile_interpolatePosition b timeSinceLaunch in
  2 ≤ length (Engagement.trajectory r) →
  (0 < Engagement.totalTime_sec r)%Q →
  (0 <= timeSinceLaunch)%Q →
  within first final p
  ∧ ((Engagement.totalTime_sec r <= timeSinceLaunch)%Q →
     same_position p final)
  ∧ ((timeSinceLaunch == 0)%Q → same_position p first).
Proof.
  intros r first final p Hlen Htot Ht.
  unfold p, Engagement.missile_interpolatePosition. fold r.
  rewrite bool_decide_false by lia. fold first final.
  set (x := (timeSinceLaunch / Engagement.totalTime_sec r)%Q).
  assert (0 <= x)%Q as Hx.
  { apply Qle_shift_div_l; [done|]. lra. }
  split; [|split].
  - apply lerp_within. split; [by apply std_min_nonneg | apply std_min_le_1].
  - intros Hend.
    assert (std_min x 1 == 1)%Q as Hp.
    { apply std_min_ge_1. apply Qle_shift_div_l; [done|]. lra. }
    unfold same_position, Engagement.lerp.
    cbn [dLatitude dLongitude fDepth]. rewrite Hp. repeat split; ring.
  - intros H0.
    assert (x == 0)%Q as Hx0.
    { unfold x, Qdiv. rewrite H0. ring. }
    assert (std_min x 1 == 0)%Q as Hp.
    { unfold std_min. destruct (Qltb 1 x) eqn:E; [|done].
      apply Qltb_lt in E. lra. }
    unfold same_position, Engagement.lerp.
    cbn [dLatitude dLongitude fDepth]. rewrite Hp. repeat split; ring.
Qed.

Lemma quot_floor (x : Q) :
  (0 <= x)%Q → (Qnum x `quot` Z.pos (Qden x))%Z = Qfloor x.
Proof.
  intros H. destruct x as [n d]. cbn [Qnum Qden Qfloor].
  apply Z.quot_div_nonneg; [|lia].
  unfold Qle in H. cbn in H. lia.
Qed.

(** X5. The position a mine manager reports [timeSinceLaunch] seconds into
    the run, for a plan with a trajectory and a positive run time: from the
    run time on it is the last point of the trajectory; before, it is that
    point or lies on one leg of the trajectory, between the two ends of
    the leg. *)
Theorem mine_position_stays_on_route b timeSinceLaunch :
  let r := Engagement.m_engagementResult b in
  let route := Engagement.trajectory r in
  let p := Engagement.mine_interpolatePosition b timeSinceLaunch in
  2 ≤ length route →
  (0 < Engagement.totalTime_sec r)%Q →
  (0 <= timeSinceLaunch)%Q →
  ((Engagement.totalTime_sec r <= timeSinceLaunch)%Q →
   p = default zero_position (last route))
  ∧ (p = default zero_position (last route)
     ∨ ∃ i from to local,
         route !! i = Some from ∧ route !! S i = Some to
         ∧ (0 <= local < 1)%Q
         ∧ p = Engagement.lerp from to local
         ∧ within from to p).
Proof.
  intros r route p Hlen Htot Ht.
  unfold p, Engagement.mine_interpolatePosition. fold r. fold route.
  rewrite bool_decide_false by lia.
  set (x := (timeSinceLaunch / Engagement.totalTime_sec r)%Q).
  set (n := length route - 1).
  set (sp := (std_min x 1 * inject_Z (Z.of_nat n))%Q).
  assert (0 <= x)%Q as Hx.
  { apply Qle_shift_div_l; [done|]. lra. }
  assert (0 <= inject_Z (Z.of_nat n))%Q as Hn.
  { change 0%Q with (inject_Z 0). rewrite <- Zle_Qle. lia. }
  assert (0 <= sp)%Q as Hsp.
  { unfold sp. pose proof (std_min_nonneg x Hx). nra. }
  rewrite (quot_floor sp Hsp).
  assert (0 ≤ Qfloor sp)%Z as Hfl.
  { change 0%Z with (Qfloor 0). by apply Qfloor_resp_le. }
  split.
  - intros Hend.
    assert (std_min x 1 == 1)%Q as Hp.
    { apply std_min_ge_1. apply Qle_shift_div_l; [done|]. lra. }
    assert (sp == inject_Z (Z.of_nat n))%Q as Hsp1.
    { unfold sp. rewrite Hp. ring. }
    rewrite (Qfloor_comp _ _ Hsp1), Qfloor_Z, Nat2Z.id.
    by rewrite bool_decide_true.
  - case_bool_decide as Hidx; [by left|]. right.
    set (i := Z.to_nat (Qfloor sp)) in *.
    assert (S i < length route) as Hi by (unfold n in Hidx; lia).
    destruct (lookup_lt_is_Some_2 route i ltac:(lia)) as [from Hfrom].
    destruct (lookup_lt_is_Some_2 route (S i) Hi) as [to Hto].
    exists i, from, to, (sp - inject_Z (Z.of_nat i))%Q.
    rewrite Hfrom, Hto. cbn [default].
    assert (0 <= sp - inject_Z (Z.of_nat i) < 1)%Q as Hlocal.
    { unfold i. rewrite Z2Nat.id by done.
      pose proof (Qfloor_le sp). pose proof (Qlt_floor sp) as Hlt.
      rewrite inject_Z_plus in Hlt. change (inject_Z 1) with 1%Q in Hlt.
      split; lra. }
    split; [done|]. split; [done|]. split; [done|]. split; [done|].
    apply lerp_within. split; lra.
Qed.

(** *** Capacity *)

Lemma copy_waypoints_spec k i v a :
  i + k ≤ length a →
  Engagement.copy_waypoints k i v a
  = take i a ++ take k (drop i v)
      ++ drop (i + length (take k (drop i v))) a.
Proof.
  revert i a. induction k as [|k IH]; intros i a Hlen; cbn [Engagement.copy_waypoints].
  - rewrite take_0. cbn [app length]. by rewrite Nat.add_0_r, take_drop.
  - destruct (v !! i) as [wp|] eqn:E.
    + rewrite IH by (rewrite length_insert; lia).
      rewrite (drop_S v wp i E). cbn [take app length].
      rewrite take_S_r with (x := wp).
      2:{ apply list_lookup_insert_eq. lia. }
      rewrite take_insert_ge by lia.
      rewrite drop_insert_lt by lia.
      rewrite <- app_assoc. cbn [app].
      by rewrite Nat.add_succ_comm.
    + apply lookup_ge_None in E. rewrite drop_ge by done.
      rewrite take_nil. cbn [app length]. by rewrite Nat.add_0_r, take_drop.
Qed.

Lemma copy_into_spec bound v :
  length v ≤ bound →
  Engagement.copy_into bound v
  = v ++ replicate (bound - length v) zero_position.
Proof.
  intros Hlen. unfold Engagement.copy_into.
  rewrite copy_waypoints_spec by (rewrite length_replicate; lia).
  rewrite take_0, drop_0. cbn [app].
  rewrite take_ge by done. by rewrite drop_replicate.
Qed.

Lemma copy_into_take bound v :
  length v ≤ bound → take (length v) (Engagement.copy_into bound v) = v.
Proof.
  intros Hlen. rewrite copy_into_spec by done.
  by rewrite take_app_length.
Qed.

Lemma position_eta (l : list ST_3D_GEODETIC_POSITION) :
  (λ waypoint, mkGeo3D (dLatitude waypoint) (dLongitude waypoint)
                 (fDepth waypoint)) <$> l = l.
Proof.
  induction l as [|[] l IH]; [done|]. cbn. by rewrite IH.
Qed.

Section Capacity.
Context (to_3D : SGEODETIC_POSITION → ST_3D_GEODETIC_POSITION).

Lemma missile_calculate_capacity m :
  let m' := (Engagement.missile_calculateEngagementPlan to_3D m).2 in
  Engagement.m_waypoints (Engagement.missile_base m')
  = Engagement.m_waypoints (Engagement.missile_base m)
  ∧ Engagement.m_launchStartTime (Engagement.missile_base m')
    = Engagement.m_launchStartTime (Engagement.missile_base m)
  ∧ (length (Engagement.trajectory
               (Engagement.m_engagementResult (Engagement.missile_base m)))
     ≤ 2 →
     length (Engagement.trajectory
               (Engagement.m_engagementResult (Engagement.missile_base m')))
     ≤ 2).
Proof.
  unfold Engagement.missile_calculateEngagementPlan,
    Engagement.missile_calculateTrajectory, Engagement.hasValidTarget.
  destruct (Engagement.m_hasValidTarget m); cbn; auto.
Qed.

Lemma missile_step_capacity m op :
  length (Engagement.getWaypoints m) ≤ 8
  ∧ length (Engagement.trajectory
              (Engagement.m_engagementResult (Engagement.missile_base m)))
    ≤ 2 →
  length (Engagement.getWaypoints (missile_step to_3D m op)) ≤ 8
  ∧ length (Engagement.trajectory
              (Engagement.m_engagementResult
                 (Engagement.missile_base (missile_step to_3D m op))))
    ≤ 2.
Proof.
  intros [Hw Ht]. unfold Engagement.getWaypoints in *.
  destruct op; cbn [missile_step];
    unfold Engagement.setTargetPosition, Engagement.updateTargetInfo,
      Engagement.updateWaypoints, Engagement.setSystemTarget,
      Engagement.missile_update, Engagement.base_update;
    repeat match goal with
      | |- context [Engagement.missile_calculateEngagementPlan to_3D ?x] =>
          let Ha := fresh in let Hb := fresh in let Hc := fresh in
          destruct (missile_calculate_capacity x) as (Ha & Hb & Hc);
          cbn zeta in Ha, Hb, Hc;
          generalize dependent
            (Engagement.missile_calculateEngagementPlan to_3D x)
      | |- context [if ?b then _ else _] => destruct b eqn:?
      end; intros;
    cbn in *;
    repeat match goal with
      | H : _ = _ |- _ => rewrite H
      | H : bool_decide _ = false |- _ => apply bool_decide_eq_false in H
      end;
    try (split; [lia | auto]); auto.
  destruct (Engagement.m_launched _); cbn; auto.
Qed.

Lemma missile_run_capacity history m :
  length (Engagement.getWaypoints m) ≤ 8
  ∧ length (Engagement.trajectory
              (Engagement.m_engagementResult (Engagement.missile_base m)))
    ≤ 2 →
  let m' := missile_run to_3D history m in
  length (Engagement.getWaypoints m') ≤ 8
  ∧ length (Engagement.trajectory
              (Engagement.m_engagementResult (Engagement.missile_base m')))
    ≤ 2.
Proof.
  revert m. induction history as [|op history IH]; intros m H; [done|].
  cbn zeta. rewrite missile_run_cons. apply IH. by apply missile_step_capacity.
Qed.

(** X6. Whatever has been done with a missile manager since it was
    constructed, the result message it builds holds its vectors in full:
    the waypoint count is at most 8, the turning-point count at most 16 and
    the trajectory count at most 128, the bounds of the copying loops, and
    the first [count] slots of each array are the waypoints, the turning
    points (one per waypoint) and the trajectory of the plan. *)
Theorem missile_result_message_holds_everything class clock history :
  let m :=
    missile_run to_3D history
      (Engagement.new_MissileEngagementManager class clock) in
  let r := Engagement.getMissileEngagementResult m in
  let plan := Engagement.m_engagementResult (Engagement.missile_base m) in
  Engagement.MissileResult.unCntWaypoint r ≤ 8
  ∧ take (Engagement.MissileResult.unCntWaypoint r)
         (Engagement.MissileResult.stWaypoints r)
    = Engagement.getWaypoints m
  ∧ Engagement.MissileResult.unCntTurningpoints r ≤ 16
  ∧ take (Engagement.MissileResult.unCntTurningpoints r)
         (Engagement.MissileResult.stTurningpoints r)
    = Engagement.getWaypoints m
  ∧ Engagement.MissileResult.unCntTrajectory r ≤ 128
  ∧ take (Engagement.MissileResult.unCntTrajectory r)
         (Engagement.MissileResult.stTrajectories r)
    = Engagement.trajectory plan.
Proof.
  intros m r plan.
  destruct (missile_run_capacity history
              (Engagement.new_MissileEngagementManager class clock))
    as [Hw Ht].
  { cbn. lia. }
  fold m in Hw, Ht. fold plan in Ht. unfold Engagement.getWaypoints in *.
  unfold r, Engagement.getMissileEngagementResult,
    Engagement.calculateTurningPoints.
  cbn [Engagement.MissileResult.unCntWaypoint
         Engagement.MissileResult.stWaypoints
         Engagement.MissileResult.unCntTurningpoints
         Engagement.MissileResult.stTurningpoints
         Engagement.MissileResult.unCntTrajectory
         Engagement.MissileResult.stTrajectories].
  rewrite !position_eta. fold plan.
  split; [done|]. split; [by apply copy_into_take|].
  split; [lia|]. split; [apply copy_into_take; lia|].
  split; [lia|]. apply copy_into_take. lia.
Qed.

Lemma missile_step_launchStartTime m op :
  (∀ clock, op ≠ OpResetManager clock) →
  Engagement.m_launchStartTime
    (Engagement.missile_base (missile_step to_3D m op))
  = Engagement.m_launchStartTime (Engagement.missile_base m).
Proof.
  intros Hno.
  destruct op; cbn [missile_step];
    unfold Engagement.setTargetPosition, Engagement.updateTargetInfo,
      Engagement.updateWaypoints, Engagement.setSystemTarget,
      Engagement.missile_update, Engagement.base_update;
    repeat match goal with
      | |- context [Engagement.missile_calculateEngagementPlan to_3D ?x] =>
          let Ha := fresh in let Hb := fresh in let Hc := fresh in
          destruct (missile_calculate_capacity x) as (Ha & Hb & Hc);
          cbn zeta in Ha, Hb, Hc;
          generalize dependent
            (Engagement.missile_calculateEngagementPlan to_3D x)
      | |- context [if ?b then _ else _] => destruct b eqn:?
      end; intros;
    cbn in *;
    repeat match goal with
      | H : _ = _ |- _ => rewrite H
      end; auto.
  - by specialize (Hno clock).
  - by destruct (Engagement.m_launched _).
Qed.

(** X7. The time a launched missile has been flying is counted from the
    reading of the clock at which its manager was constructed: no call but
    [reset] sets [m_launchStartTime], [setLaunched(true)] included. So
    after any history of calls without a reset, [update] at clock reading
    [clock] writes, when the manager is launched, the position
    interpolated for [clock - constructed] seconds of flight. *)
Theorem flight_clock_starts_at_construction class constructed history clock :
  (∀ c, OpResetManager c ∉ history) →
  let m :=
    missile_run to_3D history
      (Engagement.new_MissileEngagementManager class constructed) in
  Engagement.m_launchStartTime (Engagement.missile_base m) = constructed
  ∧ (Engagement.m_launched (Engagement.missile_base m) = true →
     Engagement.currentPosition
       (Engagement.m_engagementResult
          (Engagement.missile_base (Engagement.missile_update clock m)))
     = Engagement.missile_interpolatePosition (Engagement.missile_base m)
         (clock - constructed)).
Proof.
  intros Hno m.
  assert (∀ m0, Engagement.m_launchStartTime
                  (Engagement.missile_base (missile_run to_3D history m0))
                = Engagement.m_launchStartTime (Engagement.missile_base m0))
    as Hkeep.
  { clear m. induction history as [|op history IH]; intros m0; [done|].
    rewrite missile_run_cons, IH.
    - apply missile_step_launchStartTime. intros c ->.
      apply (Hno c). by left.
    - intros c Hin. apply (Hno c). by right. }
  assert (Engagement.m_launchStartTime (Engagement.missile_base m)
          = constructed) as Hstart.
  { unfold m. by rewrite Hkeep. }
  split; [done|]. intros Hl.
  unfold Engagement.missile_update, Engagement.base_update.
  cbn [Engagement.missile_with_base Engagement.missile_base].
  rewrite Hl. cbn. by rewrite Hstart.
Qed.

End Capacity.

(** *** The mine manager *)

Lemma copy_waypoints_length k i v a :
  length (Engagement.copy_waypoints k i v a) = length a.
Proof.
  revert i a. induction k as [|k IH]; intros i a; [done|].
  cbn [Engagement.copy_waypoints]. destruct (v !! i); [|done].
  by rewrite IH, length_insert.
Qed.

#[local] Arguments Engagement.copy_waypoints : simpl never.

Lemma mine_step_capacity m op :
  length (Engagement.m_waypoints (Engagement.mine_base m)) ≤ 8
  ∧ length (Engagement.trajectory
              (Engagement.m_engagementResult (Engagement.mine_base m)))
    ≤ 10
  ∧ length (stWaypoint (Engagement.m_dropPlan m)) = 8 →
  length (Engagement.m_waypoints (Engagement.mine_base (mine_step m op))) ≤ 8
  ∧ length (Engagement.trajectory
              (Engagement.m_engagementResult
                 (Engagement.mine_base (mine_step m op))))
    ≤ 10
  ∧ length (stWaypoint (Engagement.m_dropPlan (mine_step m op))) = 8.
Proof.
  intros (Hw & Ht & Ha).
  destruct op; cbn [mine_step];
    unfold Engagement.updateDropPlanWaypoints,
      Engagement.mine_calculateEngagementPlan,
      Engagement.mine_calculateTrajectory, Engagement.setDropPlan,
      Engagement.mine_update, Engagement.base_update;
    repeat match goal with
      | |- context [if ?b then _ else _] => destruct b eqn:?
      end;
    cbn;
    rewrite ?length_app, ?length_fmap, ?copy_waypoints_length; cbn;
    repeat match goal with
      | H : bool_decide _ = false |- _ => apply bool_decide_eq_false in H
      end;
    try (repeat split; lia).
  destruct (Engagement.m_launched _); cbn; auto.
Qed.

Lemma mine_run_capacity history m :
  length (Engagement.m_waypoints (Engagement.mine_base m)) ≤ 8
  ∧ length (Engagement.trajectory
              (Engagement.m_engagementResult (Engagement.mine_base m)))
    ≤ 10
  ∧ length (stWaypoint (Engagement.m_dropPlan m)) = 8 →
  let m' := mine_run history m in
  length (Engagement.m_waypoints (Engagement.mine_base m')) ≤ 8
  ∧ length (Engagement.trajectory
              (Engagement.m_engagementResult (Engagement.mine_base m')))
    ≤ 10
  ∧ length (stWaypoint (Engagement.m_dropPlan m')) = 8.
Proof.
  revert m. induction history as [|op history IH]; intros m H; [done|].
  cbn zeta. unfold mine_run. cbn [foldl]. apply IH.
  by apply mine_step_capacity.
Qed.

(** X8. Whatever has been done with a mine manager since it was constructed,
    the result message it builds holds its vectors in full: the waypoint
    count is at most 8 and the trajectory count at most 10, well within
    the 128 slots, and the first [count] slots of each array are the
    waypoints and the trajectory of the plan. *)
Theorem mine_result_message_holds_everything clock history :
  let m := mine_run history (Engagement.new_MineEngagementManager clock) in
  let r := Engagement.getMineEngagementResult m in
  let plan := Engagement.m_engagementResult (Engagement.mine_base m) in
  Engagement.MineResult.unCntWaypoint r ≤ 8
  ∧ take (Engagement.MineResult.unCntWaypoint r)
         (Engagement.MineResult.stWaypoints r)
    = Engagement.m_waypoints (Engagement.mine_base m)
  ∧ Engagement.MineResult.unCntTrajectory r ≤ 10
  ∧ take (Engagement.MineResult.unCntTrajectory r)
         (Engagement.MineResult.stTrajectories r)
    = Engagement.trajectory plan.
Proof.
  intros m r plan.
  destruct (mine_run_capacity history
              (Engagement.new_MineEngagementManager clock))
    as (Hw & Ht & _).
  { cbn. lia. }
  fold m in Hw, Ht. fold plan in Ht.
  unfold r, Engagement.getMineEngagementResult.
  cbn [Engagement.MineResult.unCntWaypoint
         Engagement.MineResult.stWaypoints
         Engagement.MineResult.unCntTrajectory
         Engagement.MineResult.stTrajectories].
  fold plan.
  split; [done|]. split; [by apply copy_into_take|].
  split; [done|]. apply copy_into_take. lia.
Qed.

(** X9. For a mine manager in any state reached since its construction, a
    list of at most eight waypoints is taken over: the call succeeds, the
    drop plan read back carries the length of the list as its waypoint
    count and the list in its first slots, while the slots behind them
    keep what they held before; and the plan is valid, its trajectory
    running from the launch position through the waypoints to the target
    position of the result. *)
Theorem drop_plan_reflects_waypoints clock history waypoints :
  length waypoints ≤ 8 →
  let m := mine_run history (Engagement.new_MineEngagementManager clock) in
  let out := Engagement.updateDropPlanWaypoints waypoints m in
  let plan := (Engagement.getDropPlan out.2).2 in
  let result := Engagement.m_engagementResult (Engagement.mine_base out.2) in
  out.1 = success
  ∧ usWaypointCnt plan = length waypoints
  ∧ take (length waypoints) (stWaypoint plan) = waypoints
  ∧ drop (length waypoints) (stWaypoint plan)
    = drop (length waypoints) (stWaypoint (Engagement.m_dropPlan m))
  ∧ length (stWaypoint plan) = 8
  ∧ Engagement.isValid result = true
  ∧ Engagement.trajectory result
    = Engagement.m_launchPosition (Engagement.mine_base m)
        :: waypoints
        ++ [Engagement.targetPosition
              (Engagement.m_engagementResult (Engagement.mine_base m))].
Proof.
  intros Hlen m out plan result.
  destruct (mine_run_capacity history
              (Engagement.new_MineEngagementManager clock))
    as (_ & _ & Ha).
  { cbn. lia. }
  fold m in Ha.
  unfold result, plan, out, Engagement.getDropPlan,
    Engagement.updateDropPlanWaypoints.
  rewrite bool_decide_false by lia.
  unfold Engagement.mine_calculateEngagementPlan,
    Engagement.mine_calculateTrajectory.
  cbn. rewrite position_eta.
  rewrite copy_waypoints_spec by lia.
  rewrite take_0, drop_0, (take_ge waypoints) by done. cbn [app].
  split; [done|]. split; [done|].
  split; [by rewrite take_app_length|].
  split; [by rewrite drop_app_length|].
  split; [|done].
  rewrite length_app, length_drop. lia.
Qed.

(** An ALM manager with a target at (36, 130): 100 s into the flight the
    missile is at the target. *)
Lemma missile_position_stays_on_course_witness :
  let to_3D p :=
    mkGeo3D (SGeo.dLatitude p) (SGeo.dLongitude p) (- SGeo.fAltitude p) in
  let m :=
    (Engagement.setTargetPosition to_3D (SGeo.mkSGeo 36 130 0)
       (Engagement.new_MissileEngagementManager
          Engagement.ALMEngagementManager 0)).2 in
  same_position
    (Engagement.missile_interpolatePosition (Engagement.missile_base m) 100)
    (mkGeo3D 36 130 (-0)).
Proof.
  intros to_3D m.
  apply (missile_position_stays_on_course (Engagement.missile_base m) 100).
  - vm_compute. lia.
  - reflexivity.
  - vm_compute. discriminate.
  - vm_compute. discriminate.
Defined.

(** A mine manager with two waypoints: 75 s into a run of 300 s the mine
    is on a leg of its trajectory, or at its end. *)
Lemma mine_position_stays_on_route_witness :
  let m :=
    (Engagement.updateDropPlanWaypoints
       [mkGeo3D 35 129 10; mkGeo3D 36 130 20]
       (Engagement.new_MineEngagementManager 0)).2 in
  let route :=
    Engagement.trajectory
      (Engagement.m_engagementResult (Engagement.mine_base m)) in
  let p := Engagement.mine_interpolatePosition (Engagement.mine_base m) 75 in
  p = default zero_position (last route)
  ∨ ∃ i from to local,
      route !! i = Some from ∧ route !! S i = Some to
      ∧ (0 <= local < 1)%Q
      ∧ p = Engagement.lerp from to local
      ∧ within from to p.
Proof.
  intros m route p.
  apply (mine_position_stays_on_route (Engagement.mine_base m) 75).
  - vm_compute. lia.
  - reflexivity.
  - vm_compute. discriminate.
Defined.

(** An ASM manager constructed at clock reading 5, given a target and
    launched: its flight clock starts at 5. *)
Lemma flight_clock_starts_at_construction_witness :
  Engagement.m_launchStartTime
    (Engagement.missile_base
       (missile_run (λ p, zero_position)
          [ OpSetTargetPosition (SGeo.mkSGeo 36 130 0);
            OpSetLaunchedManager true ]
          (Engagement.new_MissileEngagementManager
             Engagement.ASMEngagementManager 5))) = 5%Q.
Proof.
  apply (flight_clock_starts_at_construction (λ p, zero_position)
           Engagement.ASMEngagementManager 5
           [ OpSetTargetPosition (SGeo.mkSGeo 36 130 0);
             OpSetLaunchedManager true ] 0).
  intros c Hin.
  repeat (apply elem_of_cons in Hin as [Hin|Hin]; [discriminate|]).
  by apply elem_of_nil in Hin.
Defined.

(** A mine manager that held three waypoints is given one: the count is
    1, slot 0 holds the new waypoint, and slots 1 and 2 keep the old
    ones. *)
Lemma drop_plan_reflects_waypoints_witness :
  let old := [mkGeo3D 35 129 10; mkGeo3D 36 130 20; mkGeo3D 37 131 30] in
  let out :=
    Engagement.updateDropPlanWaypoints [mkGeo3D 1 2 3]
      (mine_run [OpUpdateDropPlanWaypoints old]
         (Engagement.new_MineEngagementManager 0)) in
  usWaypointCnt (Engagement.getDropPlan out.2).2 = 1
  ∧ take 3 (stWaypoint (Engagement.getDropPlan out.2).2)
    = [mkGeo3D 1 2 3; mkGeo3D 36 130 20; mkGeo3D 37 131 30].
Proof.
  intros old out.
  destruct (drop_plan_reflects_waypoints 0 [OpUpdateDropPlanWaypoints old]
              [mkGeo3D 1 2 3]) as (_ & H2 & _).
  { simpl. lia. }
  split; [exact H2 | reflexivity].
Defined.
(* ===================================================================== *)
(** ** Further properties of the mine drop-plan store *)
(* ===================================================================== *)

Section StoreOperations.
Context (show_double : Q → string).

(** [savePlanList], case by case. *)
Lemma savePlanList_eq planListNumber plans s fs :
  PlanStore.savePlanList show_double planListNumber plans (s, fs)
  = if negb (PlanStore.isValidPlanListNumber s planListNumber) then
      (failure "Invalid plan list number", (s, fs))
    else if bool_decide (PlanStore.m_maxPlansPerList s < length plans) then
      (failure "Too many plans in list", (s, fs))
    else if negb (forallb PlanStore.validatePlan plans) then
      (failure "Invalid plan in list", (s, fs))
    else if bool_decide (PlanStore.getPlanListFilePath s planListNumber
                         ∈ PlanStore.locked fs) then
      (failure "Cannot open file for writing", (s, fs))
    else
      (success,
       (PlanStore.set_cachedPlans
          (<[planListNumber := plans]> (PlanStore.m_cachedPlans s)) s,
        PlanStore.mkFileSystem
          (<[PlanStore.getPlanListFilePath s planListNumber
             := PlanStore.json_text show_double planListNumber plans]>
             (PlanStore.files fs))
          (PlanStore.locked fs))).
Proof.
  unfold PlanStore.savePlanList, bind, PlanStore.service,
    PlanStore.savePlanListToFile, PlanStore.modify,
    PlanStore.writeJsonToFile.
  cbn [fst snd].
  destruct (PlanStore.isValidPlanListNumber s planListNumber);
    cbn [negb]; [|done].
  case_bool_decide; [done|].
  destruct (forallb PlanStore.validatePlan plans); cbn [negb]; [|done].
  case_bool_decide as Hlock; cbn [fst snd isSuccess negb]; done.
Qed.

Lemma loadPlanList_eq planListNumber s fs :
  PlanStore.loadPlanList planListNumber (s, fs)
  = if negb (PlanStore.isValidPlanListNumber s planListNumber) then
      (failure "Invalid plan list number", (s, fs))
    else
      match PlanStore.files fs
              !! PlanStore.getPlanListFilePath s planListNumber with
      | None => (failure "Failed to load plan list: File not found", (s, fs))
      | Some _ =>
          if bool_decide (PlanStore.getPlanListFilePath s planListNumber
                          ∈ PlanStore.locked fs) then
            (failure "Failed to load plan list: Cannot open file", (s, fs))
          else
            (success,
             (PlanStore.set_cachedPlans
                (<[planListNumber := []]> (PlanStore.m_cachedPlans s)) s, fs))
      end.
Proof.
  unfold PlanStore.loadPlanList, bind, PlanStore.service,
    PlanStore.loadPlanListFromFile, PlanStore.modify,
    PlanStore.readJsonFromFile.
  cbn [fst snd].
  destruct (PlanStore.isValidPlanListNumber s planListNumber);
    cbn [negb]; [|done].
  destruct (PlanStore.files fs !! _); [|done].
  by case_bool_decide.
Qed.

Lemma createNewPlanList_eq planListNumber s fs :
  PlanStore.createNewPlanList show_double planListNumber (s, fs)
  = PlanStore.savePlanList show_double planListNumber [] (s, fs).
Proof.
  unfold PlanStore.createNewPlanList, bind, PlanStore.service.
  cbn [fst snd].
  destruct (PlanStore.isValidPlanListNumber s planListNumber) eqn:Hv;
    cbn [negb]; [done|].
  rewrite savePlanList_eq. by rewrite Hv.
Qed.

Lemma deletePlanList_eq planListNumber s fs :
  PlanStore.deletePlanList planListNumber (s, fs)
  = if negb (PlanStore.isValidPlanListNumber s planListNumber) then
      (failure "Invalid plan list number", (s, fs))
    else
      (success,
       (PlanStore.set_cachedPlans
          (delete planListNumber (PlanStore.m_cachedPlans s)) s,
        PlanStore.mkFileSystem
          (delete (PlanStore.getPlanListFilePath s planListNumber)
                  (PlanStore.files fs))
          (PlanStore.locked fs))).
Proof.
  unfold PlanStore.deletePlanList, bind, PlanStore.service, PlanStore.modify.
  cbn [fst snd].
  by destruct (PlanStore.isValidPlanListNumber s planListNumber).
Qed.

Lemma save_fails_unchanged planListNumber plans s fs :
  isSuccess
    (PlanStore.savePlanList show_double planListNumber plans (s, fs)).1
  = false →
  (PlanStore.savePlanList show_double planListNumber plans (s, fs)).2
  = (s, fs).
Proof.
  rewrite savePlanList_eq.
  repeat match goal with
         | |- context [if ?b then _ else _] => destruct b
         end; done.
Qed.

(** X10. A call of the store that reports a failure has changed no file, and
    nothing of the service (its cache included) with one exception: a
    failed [initialize] has already stored the path it was given, when
    that path is not empty. For [loadPlanList], [savePlanList],
    [createNewPlanList], [deletePlanList], [updatePlan], [addPlan],
    [removePlan] and [updateFromEditedPlanList] every check, and the
    opening of the file, comes before the first write; [initialize] fails
    only when [create_directories] throws, before any list is loaded. *)
Theorem failed_call_changes_nothing op s fs :
  isSuccess (store_op show_double op (s, fs)).1 = false →
  (store_op show_double op (s, fs)).2
  = (match op with
     | OpInitializeStore _ planDataPath => with_planDataPath planDataPath s
     | _ => s
     end, fs).
Proof.
  destruct op as [mkdir path|n|n plans|n|n|n plan|n plan|n p|];
    cbn [store_op].
  - unfold PlanStore.initialize, bind, PlanStore.modify, PlanStore.service.
    cbn [fst snd]. fold (with_planDataPath path s).
    destruct (mkdir _) as [what|]; [done|].
    by destruct (for_each _ _ _) as [[] [? ?]].
  - rewrite loadPlanList_eq.
    repeat match goal with
           | |- context [if ?b then _ else _] => destruct b
           | |- context [match ?o with Some _ => _ | None => _ end] =>
               destruct o
           end; done.
  - apply save_fails_unchanged.
  - rewrite createNewPlanList_eq. apply save_fails_unchanged.
  - rewrite deletePlanList_eq. by destruct (negb _).
  - unfold PlanStore.updatePlan.
    destruct (PlanStore.validatePlan plan); cbn [negb]; [|done].
    unfold bind, PlanStore.service. cbn [fst snd].
    destruct (PlanStore.find_plan _ _) as [[i ?]|];
      apply save_fails_unchanged.
  - unfold PlanStore.addPlan.
    destruct (PlanStore.validatePlan plan); cbn [negb]; [|done].
    unfold bind, PlanStore.service. cbn [fst snd].
    case_bool_decide; [done|].
    destruct (existsb _ _); [done|]. apply save_fails_unchanged.
  - unfold PlanStore.removePlan, bind, PlanStore.service. cbn [fst snd].
    destruct (PlanStore.find_plan _ _) as [[i ?]|]; [|done].
    apply save_fails_unchanged.
  - apply save_fails_unchanged.
Qed.

(** *** What the cache holds *)

Lemma limits_insert planListNumber plans s :
  cache_within_limits s →
  PlanStore.isValidPlanListNumber s planListNumber = true →
  length plans ≤ PlanStore.m_maxPlansPerList s →
  Forall (λ plan, PlanStore.validatePlan plan = true) plans →
  cache_within_limits
    (PlanStore.set_cachedPlans
       (<[planListNumber := plans]> (PlanStore.m_cachedPlans s)) s).
Proof.
  intros Hs Hv Hlen Hval n l.
  cbn [PlanStore.m_cachedPlans PlanStore.set_cachedPlans].
  destruct (decide (n = planListNumber)) as [->|Hne].
  - rewrite lookup_insert_eq. intros [= <-]. done.
  - rewrite lookup_insert_ne by done. apply Hs.
Qed.

Lemma limits_delete planListNumber s :
  cache_within_limits s →
  cache_within_limits
    (PlanStore.set_cachedPlans
       (delete planListNumber (PlanStore.m_cachedPlans s)) s).
Proof.
  intros Hs n l. cbn [PlanStore.m_cachedPlans PlanStore.set_cachedPlans].
  intros Hl. apply lookup_delete_Some in Hl as [_ Hl]. by apply Hs.
Qed.

Lemma save_keeps_limits planListNumber plans s fs :
  cache_within_limits s →
  cache_within_limits
    (PlanStore.savePlanList show_double planListNumber plans (s, fs)).2.1.
Proof.
  intros Hs. rewrite savePlanList_eq.
  destruct (PlanStore.isValidPlanListNumber s planListNumber) eqn:Hv;
    cbn [negb]; [|done].
  case_bool_decide as Hlen; [done|].
  destruct (forallb PlanStore.validatePlan plans) eqn:Hval; cbn [negb]; [|done].
  case_bool_decide; [done|]. cbn [fst snd].
  apply limits_insert; [done|done|lia|].
  rewrite forallb_forall in Hval. apply Forall_forall.
  intros plan Hin. apply Hval. by apply list_elem_of_In.
Qed.

Lemma load_keeps_limits planListNumber s fs :
  cache_within_limits s →
  cache_within_limits (PlanStore.loadPlanList planListNumber (s, fs)).2.1.
Proof.
  intros Hs. rewrite loadPlanList_eq.
  destruct (PlanStore.isValidPlanListNumber s planListNumber) eqn:Hv;
    cbn [negb]; [|done].
  destruct (PlanStore.files fs !! _); [|done].
  case_bool_decide; [done|]. cbn [fst snd].
  apply limits_insert; [done|done|cbn; lia|constructor].
Qed.

(** A loop keeps what each turn of its body keeps. *)
Lemma for_each_keeps {S A : Type} (P : S → Prop) (xs : list A)
    (body : A → St S unit) s :
  (∀ x s, P s → P (body x s).2) → P s → P (for_each xs body s).2.
Proof.
  intros Hbody. revert s. induction xs as [|x xs IH]; intros s Hs; [done|].
  cbn [for_each]. unfold bind.
  specialize (Hbody x s Hs). destruct (body x s) as [[] s1].
  by apply IH.
Qed.

Lemma initialize_body_keeps (P : PlanStore.MineDropPlanService → Prop) i s fs :
  (∀ n s fs, P s → P (PlanStore.loadPlanList n (s, fs)).2.1) →
  (∀ n s fs,
     P s → P (PlanStore.savePlanList show_double n [] (s, fs)).2.1) →
  P s → P (PlanStore.initialize_body show_double i (s, fs)).2.1.
Proof.
  intros Hload Hsave Hs. unfold PlanStore.initialize_body, bind.
  specialize (Hload i s fs Hs).
  destruct (PlanStore.loadPlanList i (s, fs)) as [r [s1 fs1]].
  cbn [fst snd] in Hload.
  destruct (isSuccess r); cbn [negb]; [done|].
  rewrite createNewPlanList_eq.
  specialize (Hsave i s1 fs1 Hload).
  by destruct (PlanStore.savePlanList _ _ _ _) as [? [? ?]].
Qed.

Lemma initialize_keeps (P : PlanStore.MineDropPlanService → Prop)
    mkdir path s fs :
  (∀ s path' initialized,
     P s →
     P (PlanStore.mkService (PlanStore.m_cachedPlans s) path'
          (PlanStore.m_maxPlanLists s) (PlanStore.m_maxPlansPerList s)
          initialized)) →
  (∀ n s fs, P s → P (PlanStore.loadPlanList n (s, fs)).2.1) →
  (∀ n s fs,
     P s → P (PlanStore.savePlanList show_double n [] (s, fs)).2.1) →
  P s → P (PlanStore.initialize show_double mkdir path (s, fs)).2.1.
Proof.
  intros Hset Hload Hsave Hs.
  assert (P (with_planDataPath path s)) as Hs0.
  { unfold with_planDataPath. case_bool_decide; [by apply Hset|done]. }
  unfold PlanStore.initialize, bind at 1, PlanStore.modify. cbn [fst snd].
  fold (with_planDataPath path s).
  unfold bind at 1, PlanStore.service. cbn [fst snd].
  destruct (mkdir _) as [what|]; [done|].
  unfold bind at 1. cbn [fst snd]. unfold bind at 1.
  match goal with
  | |- context [for_each ?xs ?body ?s0] =>
      pose proof (for_each_keeps (λ st, P st.1) xs body s0) as Hloop
  end.
  cbn beta in Hloop.
  destruct (for_each _ _ _) as [[] [s1 fs1]].
  unfold bind, PlanStore.modify. cbn [fst snd]. apply Hset.
  apply Hloop.
  - intros i [s' fs'] Hs'. by apply initialize_body_keeps.
  - done.
Qed.

Lemma getPlanList_limits n s :
  cache_within_limits s →
  length (PlanStore.getPlanList s n) ≤ PlanStore.m_maxPlansPerList s
  ∧ Forall (λ plan, PlanStore.validatePlan plan = true)
           (PlanStore.getPlanList s n).
Proof.
  intros Hs. unfold PlanStore.getPlanList.
  destruct (negb _); [split; [cbn; lia|constructor]|].
  destruct (PlanStore.m_cachedPlans s !! n) as [plans|] eqn:E;
    [|split; [cbn; lia|constructor]].
  by destruct (Hs n plans E) as (_ & ? & ?).
Qed.

Lemma op_keeps_limits op s fs :
  cache_within_limits s →
  cache_within_limits (store_op show_double op (s, fs)).2.1.
Proof.
  intros Hs.
  destruct op as [mkdir path|n|n plans|n|n|n plan|n plan|n p|];
    cbn [store_op].
  - apply (initialize_keeps cache_within_limits); [done| |..|done].
    + intros; by apply load_keeps_limits.
    + intros; by apply save_keeps_limits.
  - by apply load_keeps_limits.
  - by apply save_keeps_limits.
  - rewrite createNewPlanList_eq. by apply save_keeps_limits.
  - rewrite deletePlanList_eq. destruct (negb _); [done|].
    by apply limits_delete.
  - unfold PlanStore.updatePlan.
    destruct (PlanStore.validatePlan plan); cbn [negb]; [|done].
    unfold bind, PlanStore.service. cbn [fst snd].
    destruct (PlanStore.find_plan _ _) as [[i ?]|];
      by apply save_keeps_limits.
  - unfold PlanStore.addPlan.
    destruct (PlanStore.validatePlan plan); cbn [negb]; [|done].
    unfold bind, PlanStore.service. cbn [fst snd].
    case_bool_decide; [done|].
    destruct (existsb _ _); [done|]. by apply save_keeps_limits.
  - unfold PlanStore.removePlan, bind, PlanStore.service. cbn [fst snd].
    destruct (PlanStore.find_plan _ _) as [[i ?]|]; [|done].
    by apply save_keeps_limits.
  - by apply save_keeps_limits.
Qed.

(** X11. Whatever is done with the store, every list its cache holds has a
    list number between 1 and [m_maxPlanLists], at most
    [m_maxPlansPerList] plans, and only plans that pass [validatePlan]:
    nothing reaches the cache but through [savePlanList]'s checks or as
    the empty list a load yields. The list limit is below the largest
    [uint32_t], so that the loop of [initialize] ends. *)
Theorem cached_lists_stay_within_limits ops s fs :
  list_counter_fits s →
  cache_within_limits s →
  cache_within_limits (store_run show_double ops (s, fs)).2.1.
Proof.
  intros _.
  revert s fs. induction ops as [|op ops IH]; intros s fs Hs; [done|].
  unfold store_run. cbn [for_each]. unfold bind at 1.
  pose proof (op_keeps_limits op s fs Hs) as H1.
  unfold bind at 1.
  destruct (store_op show_double op (s, fs)) as [r [s1 fs1]].
  cbn [fst snd ret] in *. by apply IH.
Qed.

(** *** Plan numbers *)

Lemma find_plan_find planNumber plans :
  List.find (λ plan, bool_decide (usDroppingPlanNumber plan = planNumber))
            plans
  = snd <$> PlanStore.find_plan planNumber plans.
Proof.
  unfold PlanStore.find_plan.
  induction plans as [|plan plans IH]; [done|].
  cbn [List.find list_find]. case_bool_decide as Heq.
  - by rewrite decide_True.
  - rewrite decide_False by done. rewrite IH.
    by destruct (list_find _ plans) as [[? ?]|].
Qed.

Lemma getPlan_find s planListNumber planNumber :
  PlanStore.getPlan s planListNumber planNumber
  = match PlanStore.find_plan planNumber
            (PlanStore.getPlanList s planListNumber) with
    | Some (_, plan) => inr plan
    | None => inl "Plan not found"
    end.
Proof.
  unfold PlanStore.getPlan. rewrite find_plan_find.
  by destruct (PlanStore.find_plan _ _) as [[? ?]|].
Qed.

Lemma existsb_find_plan planNumber plans :
  existsb (λ plan, bool_decide (usDroppingPlanNumber plan = planNumber)) plans
  = bool_decide (is_Some (PlanStore.find_plan planNumber plans)).
Proof.
  unfold PlanStore.find_plan.
  induction plans as [|plan plans IH]; [done|].
  cbn [existsb list_find].
  destruct (decide (usDroppingPlanNumber plan = planNumber)) as [Heq|Hne].
  - rewrite bool_decide_true by done. by cbn.
  - rewrite (bool_decide_false _ Hne). cbn [orb]. rewrite IH.
    apply bool_decide_ext. by rewrite fmap_is_Some.
Qed.

Lemma find_plan_None planNumber plans :
  PlanStore.find_plan planNumber plans = None
  ↔ planNumber ∉ usDroppingPlanNumber <$> plans.
Proof.
  unfold PlanStore.find_plan. rewrite list_find_None, Forall_forall.
  rewrite list_elem_of_fmap. split.
  - intros H (plan & -> & Hin). by apply (H plan).
  - intros H plan Hin Heq. apply H. by exists plan.
Qed.

Lemma distinct_insert_same (i : nat) plan plan'
    (plans : list ST_M_MINE_PLAN_INFO) :
  plans !! i = Some plan' →
  usDroppingPlanNumber plan' = usDroppingPlanNumber plan →
  usDroppingPlanNumber <$> <[i := plan]> plans = usDroppingPlanNumber <$> plans.
Proof.
  intros Hi Heq. rewrite list_fmap_insert, <- Heq.
  apply list_insert_id. by rewrite list_lookup_fmap, Hi.
Qed.

Lemma getPlanList_distinct n s :
  plan_numbers_distinct s → distinct_numbers (PlanStore.getPlanList s n).
Proof.
  intros Hs. unfold PlanStore.getPlanList.
  destruct (negb _); [constructor|].
  destruct (PlanStore.m_cachedPlans s !! n) as [plans|] eqn:E;
    [by apply (Hs n)|constructor].
Qed.

Lemma save_keeps_distinct planListNumber plans s fs :
  distinct_numbers plans →
  plan_numbers_distinct s →
  plan_numbers_distinct
    (PlanStore.savePlanList show_double planListNumber plans (s, fs)).2.1.
Proof.
  intros Hd Hs. rewrite savePlanList_eq.
  repeat match goal with
         | |- context [if ?b then _ else _] => destruct b; [done|]
         end.
  cbn [fst snd]. intros n l.
  cbn [PlanStore.m_cachedPlans PlanStore.set_cachedPlans].
  destruct (decide (n = planListNumber)) as [->|Hne].
  - rewrite lookup_insert_eq. by intros [= <-].
  - rewrite lookup_insert_ne by done. apply Hs.
Qed.

Lemma load_keeps_distinct planListNumber s fs :
  plan_numbers_distinct s →
  plan_numbers_distinct (PlanStore.loadPlanList planListNumber (s, fs)).2.1.
Proof.
  intros Hs. rewrite loadPlanList_eq.
  destruct (negb _); [done|].
  destruct (PlanStore.files fs !! _); [|done].
  case_bool_decide; [done|]. cbn [fst snd]. intros n l.
  cbn [PlanStore.m_cachedPlans PlanStore.set_cachedPlans].
  destruct (decide (n = planListNumber)) as [->|Hne].
  - rewrite lookup_insert_eq. intros [= <-]. constructor.
  - rewrite lookup_insert_ne by done. apply Hs.
Qed.

Lemma distinct_nil : distinct_numbers [].
Proof. constructor. Qed.

Lemma op_keeps_distinct op s fs :
  saves_distinct op →
  plan_numbers_distinct s →
  plan_numbers_distinct (store_op show_double op (s, fs)).2.1.
Proof.
  intros Hop Hs.
  destruct op as [mkdir path|n|n plans|n|n|n plan|n plan|n p|];
    cbn [store_op].
  - apply (initialize_keeps plan_numbers_distinct); [done| |..|done].
    + intros; by apply load_keeps_distinct.
    + intros; by apply save_keeps_distinct; [apply distinct_nil|].
  - by apply load_keeps_distinct.
  - by apply save_keeps_distinct.
  - rewrite createNewPlanList_eq.
    by apply save_keeps_distinct; [apply distinct_nil|].
  - rewrite deletePlanList_eq. destruct (negb _); [done|].
    cbn [fst snd]. intros n' l.
    cbn [PlanStore.m_cachedPlans PlanStore.set_cachedPlans].
    intros Hl. apply lookup_delete_Some in Hl as [_ Hl]. by apply (Hs n').
  - unfold PlanStore.updatePlan.
    destruct (PlanStore.validatePlan plan); cbn [negb]; [|done].
    unfold bind, PlanStore.service. cbn [fst snd].
    pose proof (getPlanList_distinct n s Hs) as Hd.
    destruct (PlanStore.find_plan _ _) as [[i plan']|] eqn:E;
      (apply save_keeps_distinct; [|done]); unfold distinct_numbers in *.
    + apply list_find_Some in E as (Hi & Heq & _).
      by rewrite (distinct_insert_same i plan plan').
    + apply find_plan_None in E.
      rewrite fmap_app. apply NoDup_app. split; [done|].
      split; [|apply NoDup_singleton].
      intros x Hin Hx. apply list_elem_of_singleton in Hx as ->. done.
  - unfold PlanStore.addPlan.
    destruct (PlanStore.validatePlan plan); cbn [negb]; [|done].
    unfold bind, PlanStore.service. cbn [fst snd].
    case_bool_decide; [done|].
    rewrite existsb_find_plan. case_bool_decide as E; [done|].
    apply save_keeps_distinct; [|done].
    pose proof (getPlanList_distinct n s Hs) as Hd.
    unfold distinct_numbers in *.
    rewrite <- eq_None_not_Some in E. apply find_plan_None in E.
    rewrite fmap_app. apply NoDup_app. split; [done|].
    split; [|apply NoDup_singleton].
    intros x Hin Hx. apply list_elem_of_singleton in Hx as ->. done.
  - unfold PlanStore.removePlan, bind, PlanStore.service. cbn [fst snd].
    destruct (PlanStore.find_plan _ _) as [[i ?]|]; [|done].
    apply save_keeps_distinct; [|done].
    pose proof (getPlanList_distinct n s Hs) as Hd.
    unfold distinct_numbers in *.
    rewrite list_fmap_delete.
    eapply sublist_NoDup; [done|apply sublist_delete].
  - by apply save_keeps_distinct; [apply distinct_nil|].
Qed.

(** X12. As long as no list with a repeated plan number is handed to
    [savePlanList] directly, no list of the cache ever holds two plans of
    the same number: [addPlan] refuses a number that is present,
    [updatePlan] replaces the plan that carries it, and [removePlan] only
    takes away. The list limit is below the largest [uint32_t], so that
    the loop of [initialize] ends. *)
Theorem plan_numbers_stay_distinct ops s fs :
  list_counter_fits s →
  Forall saves_distinct ops →
  plan_numbers_distinct s →
  plan_numbers_distinct (store_run show_double ops (s, fs)).2.1.
Proof.
  intros _.
  revert s fs. induction ops as [|op ops IH]; intros s fs Hops Hs; [done|].
  apply Forall_cons in Hops as [Hop Hops].
  unfold store_run. cbn [for_each]. unfold bind at 1.
  pose proof (op_keeps_distinct op s fs Hop Hs) as H1.
  unfold bind at 1.
  destruct (store_op show_double op (s, fs)) as [r [s1 fs1]].
  cbn [fst snd ret] in *. by apply IH.
Qed.


(** *** Adding, replacing and removing a plan *)

Lemma find_snoc {A : Type} (f : A → bool) l x :
  List.find f (l ++ [x])
  = match List.find f l with
    | Some y => Some y
    | None => if f x then Some x else None
    end.
Proof.
  induction l as [|y l IH]; cbn [app List.find]; [done|].
  by destruct (f y).
Qed.

Lemma find_insert {A : Type} (f : A → bool) (l : list A) (i : nat) x y :
  l !! i = Some x → f x = f y →
  List.find f (<[i := y]> l)
  = match List.find f l with
    | Some z =>
        if f y && bool_decide (List.find f (take i l) = None)
        then Some y else Some z
    | None => None
    end.
Proof.
  revert i. induction l as [|z l IH]; intros i Hi Hf; [done|].
  destruct i as [|i].
  - injection Hi as ->. cbn. rewrite <- Hf.
    destruct (f x); [done|]. by destruct (List.find f l).
  - cbn [lookup list_lookup] in Hi. cbn [insert list_insert take List.find].
    destruct (f z) eqn:Hz.
    + rewrite bool_decide_false by done. by rewrite andb_false_r.
    + by apply IH.
Qed.

Lemma find_delete {A : Type} (f : A → bool) (l : list A) (i : nat) x :
  l !! i = Some x → f x = false →
  List.find f (delete i l) = List.find f l.
Proof.
  revert i. induction l as [|z l IH]; intros i Hi Hf; [done|].
  destruct i as [|i].
  - injection Hi as ->. cbn. by rewrite Hf.
  - cbn [lookup list_lookup] in Hi. cbn [delete list_delete List.find].
    destruct (f z); [done|]. by apply IH.
Qed.

Lemma find_take_first planNumber plans i plan :
  PlanStore.find_plan planNumber plans = Some (i, plan) →
  List.find (λ plan, bool_decide (usDroppingPlanNumber plan = planNumber))
            (take i plans) = None.
Proof.
  intros (Hi & _ & Hfirst)%list_find_Some.
  destruct (List.find _ (take i plans)) as [x|] eqn:Ef; [|done].
  exfalso. apply find_some in Ef as [Hin Hx].
  apply bool_decide_eq_true in Hx.
  apply list_elem_of_In, list_elem_of_lookup in Hin as [j Hj].
  apply lookup_take_Some in Hj as [Hj Hlt]. by apply (Hfirst j x).
Qed.

Lemma getPlanList_other planListNumber plans other s :
  other ≠ planListNumber →
  PlanStore.getPlanList
    (PlanStore.set_cachedPlans
       (<[planListNumber := plans]> (PlanStore.m_cachedPlans s)) s) other
  = PlanStore.getPlanList s other.
Proof.
  intros Hne. unfold PlanStore.getPlanList.
  cbn [PlanStore.m_cachedPlans PlanStore.set_cachedPlans].
  change (PlanStore.isValidPlanListNumber (PlanStore.set_cachedPlans _ s))
    with (PlanStore.isValidPlanListNumber s).
  by rewrite lookup_insert_ne.
Qed.

(** What a save that succeeded leaves behind. *)
Lemma save_succeeds planListNumber plans s fs :
  (PlanStore.savePlanList show_double planListNumber plans (s, fs)).1
  = success →
  let out := PlanStore.savePlanList show_double planListNumber plans (s, fs) in
  PlanStore.getPlanList out.2.1 planListNumber = plans
  ∧ (∀ other, other ≠ planListNumber →
              PlanStore.getPlanList out.2.1 other
              = PlanStore.getPlanList s other)
  ∧ planListNumber
      ∈ PlanStore.getAvailablePlanListNumbers out.2.1 out.2.2.
Proof.
  intros Hok out. unfold out.
  destruct (savePlanList_success _ _ _ _ _ Hok) as (Hv & Hlock & ->).
  cbn [fst snd]. split; [by apply getPlanList_cached|].
  split; [intros; by apply getPlanList_other|].
  unfold PlanStore.getAvailablePlanListNumbers.
  apply list_elem_of_filter. split.
  - cbn [PlanStore.files].
    change (PlanStore.getPlanListFilePath (PlanStore.set_cachedPlans _ s))
      with (PlanStore.getPlanListFilePath s).
    rewrite lookup_insert_eq. eauto.
  - unfold PlanStore.isValidPlanListNumber in Hv.
    apply andb_true_iff in Hv as [H1 H2].
    apply bool_decide_eq_true in H1, H2.
    apply elem_of_seq. cbn. lia.
Qed.

(** X13. [addPlan] succeeds exactly when the plan passes [validatePlan], the
    list has room, no plan of the list carries the plan number, the list
    number is valid, the plans already in the list pass [validatePlan], and
    the file of the list can be opened. After a success the list is the old
    one with the plan at its end; [getPlan] finds the plan under its
    number and every other plan as before; the other lists are untouched
    and the list number is among the available ones. *)
Theorem addPlan_then_getPlan planListNumber plan s fs :
  let out := PlanStore.addPlan show_double planListNumber plan (s, fs) in
  let plans := PlanStore.getPlanList s planListNumber in
  (out.1 = success
   ↔ PlanStore.validatePlan plan = true
     ∧ length plans < PlanStore.m_maxPlansPerList s
     ∧ PlanStore.isValidPlanNumber s planListNumber
         (usDroppingPlanNumber plan) = false
     ∧ PlanStore.isValidPlanListNumber s planListNumber = true
     ∧ forallb PlanStore.validatePlan plans = true
     ∧ PlanStore.getPlanListFilePath s planListNumber ∉ PlanStore.locked fs)
  ∧ (out.1 = success →
     PlanStore.getPlanList out.2.1 planListNumber = plans ++ [plan]
     ∧ PlanStore.getPlan out.2.1 planListNumber (usDroppingPlanNumber plan)
       = inr plan
     ∧ (∀ planNumber,
          planNumber ≠ usDroppingPlanNumber plan →
          PlanStore.getPlan out.2.1 planListNumber planNumber
          = PlanStore.getPlan s planListNumber planNumber)
     ∧ (∀ other, other ≠ planListNumber →
                 PlanStore.getPlanList out.2.1 other
                 = PlanStore.getPlanList s other)
     ∧ planListNumber
         ∈ PlanStore.getAvailablePlanListNumbers out.2.1 out.2.2).
Proof.
  intros out plans. unfold out, PlanStore.addPlan, PlanStore.isValidPlanNumber.
  fold plans.
  destruct (PlanStore.validatePlan plan) eqn:Hplan; cbn [negb].
  2:{ split; [|done]. split; [done|]. by intros (? & _). }
  unfold bind, PlanStore.service. cbn [fst snd]. fold plans.
  case_bool_decide as Hfull.
  { split; [|done]. split; [done|]. intros (_ & ? & _). lia. }
  destruct (existsb _ plans) eqn:Hdup.
  { split; [|done]. split; [done|]. by intros (_ & _ & ? & _). }
  split.
  - rewrite savePlanList_eq.
    rewrite length_app, forallb_app. cbn [length forallb]. rewrite Hplan.
    rewrite andb_true_r.
    destruct (PlanStore.isValidPlanListNumber s planListNumber); cbn [negb].
    2:{ split; [done|]. by intros (_ & _ & _ & ? & _). }
    case_bool_decide as Hlen; [lia|].
    destruct (forallb PlanStore.validatePlan plans); cbn [negb].
    2:{ split; [done|]. by intros (_ & _ & _ & _ & ? & _). }
    case_bool_decide as Hlock.
    + split; [done|]. by intros (_ & _ & _ & _ & _ & ?).
    + split; [|done]. intros _. repeat split; [lia|done].
  - intros Hok.
    destruct (save_succeeds _ _ _ _ Hok) as (Hlist & Hother & Havail).
    split; [done|]. split; [|split; [|done]].
    + unfold PlanStore.getPlan. rewrite Hlist, find_snoc.
      fold plans. apply not_true_iff_false in Hdup.
      rewrite existsb_exists in Hdup.
      destruct (List.find _ plans) as [x|] eqn:E.
      * apply find_some in E as [Hin Hx]. exfalso. apply Hdup. eauto.
      * by rewrite bool_decide_true.
    + intros planNumber Hne. unfold PlanStore.getPlan.
      rewrite Hlist, find_snoc. fold plans.
      destruct (List.find _ plans); [done|].
      by rewrite bool_decide_false.
Qed.

(** X14. After an [updatePlan] that succeeded, [getPlan] finds the new plan
    under its number and every plan of another number as before; the list
    has the length it had when a plan of that number was present (the
    first such plan is replaced in place) and one more when none was; the
    other lists are untouched. *)
Theorem updatePlan_then_getPlan planListNumber plan s fs :
  let out := PlanStore.updatePlan show_double planListNumber plan (s, fs) in
  let plans := PlanStore.getPlanList s planListNumber in
  out.1 = success →
  PlanStore.getPlan out.2.1 planListNumber (usDroppingPlanNumber plan)
  = inr plan
  ∧ (∀ planNumber,
       planNumber ≠ usDroppingPlanNumber plan →
       PlanStore.getPlan out.2.1 planListNumber planNumber
       = PlanStore.getPlan s planListNumber planNumber)
  ∧ length (PlanStore.getPlanList out.2.1 planListNumber)
    = (if PlanStore.isValidPlanNumber s planListNumber
            (usDroppingPlanNumber plan)
       then length plans else S (length plans))
  ∧ (∀ other, other ≠ planListNumber →
              PlanStore.getPlanList out.2.1 other
              = PlanStore.getPlanList s other).
Proof.
  intros out plans. unfold out, PlanStore.updatePlan,
    PlanStore.isValidPlanNumber.
  destruct (PlanStore.validatePlan plan); cbn [negb]; [|done].
  unfold bind, PlanStore.service. cbn [fst snd]. fold plans.
  rewrite existsb_find_plan.
  destruct (PlanStore.find_plan _ plans) as [[i plan']|] eqn:E; intros Hok;
    destruct (save_succeeds _ _ _ _ Hok) as (Hlist & Hother & _).
  - rewrite bool_decide_true by eauto.
    pose proof (find_take_first _ _ _ _ E) as Hfirst.
    apply list_find_Some in E as (Hi & Heq & _).
    split; [|split; [|split; [|done]]].
    + unfold PlanStore.getPlan. rewrite Hlist.
      rewrite (find_insert _ plans i plan' plan Hi).
      2:{ apply bool_decide_ext. by rewrite Heq. }
      rewrite (bool_decide_true (usDroppingPlanNumber plan = _)) by done.
      rewrite Hfirst. cbn.
      destruct (List.find _ plans) as [x|] eqn:Ef; [done|].
      exfalso. eapply find_none in Ef; [|by eapply list_elem_of_In,
                                           list_elem_of_lookup_2].
      cbn in Ef. apply bool_decide_eq_false in Ef. done.
    + intros planNumber Hne. unfold PlanStore.getPlan. rewrite Hlist.
      rewrite (find_insert _ plans i plan' plan Hi).
      2:{ apply bool_decide_ext. by rewrite Heq. }
      rewrite (bool_decide_false (usDroppingPlanNumber plan = _)) by done.
      cbn. fold plans. by destruct (List.find _ plans).
    + by rewrite Hlist, length_insert.
  - rewrite bool_decide_false by (by intros [? ?]).
    apply find_plan_None in E.
    split; [|split; [|split; [|done]]].
    + unfold PlanStore.getPlan. rewrite Hlist, find_snoc. fold plans.
      destruct (List.find _ plans) as [x|] eqn:Ef.
      * apply find_some in Ef as [Hin Hx]. apply bool_decide_eq_true in Hx.
        exfalso. apply E. apply list_elem_of_fmap. exists x.
        split; [done|]. by apply list_elem_of_In.
      * by rewrite bool_decide_true.
    + intros planNumber Hne. unfold PlanStore.getPlan.
      rewrite Hlist, find_snoc. fold plans.
      destruct (List.find _ plans); [done|]. by rewrite bool_decide_false.
    + rewrite Hlist, length_app. cbn. lia.
Qed.

(** X15. For a list whose plans carry different numbers, after a [removePlan]
    that succeeded [getPlan] no longer finds a plan under the number, finds
    every plan of another number as before, and the list, which did hold a
    plan of the number, is shorter by one. *)
Theorem removePlan_then_getPlan planListNumber planNumber s fs :
  let out :=
    PlanStore.removePlan show_double planListNumber planNumber (s, fs) in
  let plans := PlanStore.getPlanList s planListNumber in
  distinct_numbers plans →
  out.1 = success →
  PlanStore.getPlan out.2.1 planListNumber planNumber = inl "Plan not found"
  ∧ (∀ other, other ≠ planNumber →
              PlanStore.getPlan out.2.1 planListNumber other
              = PlanStore.getPlan s planListNumber other)
  ∧ PlanStore.isValidPlanNumber s planListNumber planNumber = true
  ∧ S (length (PlanStore.getPlanList out.2.1 planListNumber)) = length plans.
Proof.
  intros out plans Hd. unfold out, PlanStore.removePlan,
    PlanStore.isValidPlanNumber.
  unfold bind, PlanStore.service. cbn [fst snd]. fold plans.
  rewrite existsb_find_plan.
  destruct (PlanStore.find_plan _ plans) as [[i plan']|] eqn:E; [|done].
  intros Hok. destruct (save_succeeds _ _ _ _ Hok) as (Hlist & _ & _).
  apply list_find_Some in E as (Hi & Heq & _).
  split; [|split; [|split]].
  - rewrite getPlan_find, Hlist.
    destruct (PlanStore.find_plan _ _) as [[j x]|] eqn:Ef; [|done].
    exfalso. apply list_find_Some in Ef as (Hj & Hx & _).
    unfold distinct_numbers in Hd.
    rewrite <- (take_drop_middle plans i plan' Hi) in Hd.
    rewrite fmap_app, fmap_cons in Hd.
    apply NoDup_app in Hd as (_ & Hd1 & Hd2).
    apply NoDup_cons in Hd2 as [Hd2 _].
    rewrite delete_take_drop in Hj.
    apply list_elem_of_lookup_2, elem_of_app in Hj as [Hj|Hj].
    + apply (Hd1 planNumber).
      * apply list_elem_of_fmap. by exists x.
      * rewrite Heq. by left.
    + apply Hd2. rewrite Heq, <- Hx. apply list_elem_of_fmap. by exists x.
  - intros other Hne. unfold PlanStore.getPlan. rewrite Hlist.
    fold plans. rewrite (find_delete _ plans i plan' Hi); [done|].
    apply bool_decide_eq_false. by rewrite Heq.
  - apply bool_decide_eq_true. eauto.
  - rewrite Hlist, length_delete by eauto.
    apply lookup_lt_Some in Hi. lia.
Qed.

(** *** Initialising the store and deleting a list *)

(** One turn of the loop of [initialize] keeps the path, the limits and
    the files that cannot be opened, loses no file, touches no list of
    the cache but its own, and leaves its own list empty, with its file
    in place, when the list number is valid and the file can be opened. *)
Lemma initialize_body_spec i s fs :
  let out := PlanStore.initialize_body show_double i (s, fs) in
  (PlanStore.m_planDataPath out.2.1 = PlanStore.m_planDataPath s
   ∧ PlanStore.m_maxPlanLists out.2.1 = PlanStore.m_maxPlanLists s
   ∧ PlanStore.locked out.2.2 = PlanStore.locked fs)
  ∧ (∀ path, is_Some (PlanStore.files fs !! path) →
             is_Some (PlanStore.files out.2.2 !! path))
  ∧ (∀ n, n ≠ i →
          PlanStore.m_cachedPlans out.2.1 !! n
          = PlanStore.m_cachedPlans s !! n)
  ∧ (PlanStore.isValidPlanListNumber s i = true →
     PlanStore.getPlanListFilePath s i ∉ PlanStore.locked fs →
     PlanStore.m_cachedPlans out.2.1 !! i = Some []
     ∧ is_Some (PlanStore.files out.2.2
                  !! PlanStore.getPlanListFilePath s i)).
Proof.
  unfold PlanStore.initialize_body, bind. rewrite loadPlanList_eq.
  destruct (PlanStore.isValidPlanListNumber s i) eqn:Hv; cbn [negb].
  2:{ cbn [isSuccess negb]. rewrite createNewPlanList_eq, savePlanList_eq, Hv.
      cbn. done. }
  destruct (PlanStore.files fs !! PlanStore.getPlanListFilePath s i)
    as [text|] eqn:Hfile.
  - case_bool_decide as Hlock; cbn [isSuccess negb].
    + rewrite createNewPlanList_eq, savePlanList_eq, Hv. cbn [negb].
      rewrite bool_decide_false by (cbn; lia). cbn [forallb negb].
      rewrite bool_decide_true by done. cbn. done.
    + cbn. split; [done|]. split; [done|]. split.
      * intros n Hne. by rewrite lookup_insert_ne.
      * intros _ _. rewrite lookup_insert_eq, Hfile. eauto.
  - cbn [isSuccess negb].
    rewrite createNewPlanList_eq, savePlanList_eq, Hv. cbn [negb].
    rewrite bool_decide_false by (cbn; lia). cbn [forallb negb].
    case_bool_decide as Hlock; cbn; [done|].
    split; [done|]. split; [|split].
    + intros path Hpath.
      destruct (decide (path = PlanStore.getPlanListFilePath s i)) as [->|Hne].
      * by rewrite Hfile in Hpath; destruct Hpath.
      * by rewrite lookup_insert_ne.
    + intros n Hne. by rewrite lookup_insert_ne.
    + intros _ _. rewrite !lookup_insert_eq. eauto.
Qed.

Lemma initialize_loop_spec xs n s fs :
  let out := for_each xs (PlanStore.initialize_body show_double) (s, fs) in
  (PlanStore.m_planDataPath out.2.1 = PlanStore.m_planDataPath s
   ∧ PlanStore.m_maxPlanLists out.2.1 = PlanStore.m_maxPlanLists s
   ∧ PlanStore.locked out.2.2 = PlanStore.locked fs)
  ∧ (PlanStore.isValidPlanListNumber s n = true →
     PlanStore.getPlanListFilePath s n ∉ PlanStore.locked fs →
     (n ∈ xs
      ∨ (PlanStore.m_cachedPlans s !! n = Some []
         ∧ is_Some (PlanStore.files fs
                      !! PlanStore.getPlanListFilePath s n))) →
     PlanStore.m_cachedPlans out.2.1 !! n = Some []
     ∧ is_Some (PlanStore.files out.2.2
                  !! PlanStore.getPlanListFilePath s n)).
Proof.
  revert s fs. induction xs as [|x xs IH]; intros s fs.
  - cbn. split; [done|]. intros _ _ [Hin|H]; [|done].
    by apply elem_of_nil in Hin.
  - cbn [for_each]. unfold bind.
    destruct (initialize_body_spec x s fs) as ((Hp & Hm & Hl) & Hfiles & Hcache & Hown).
    destruct (PlanStore.initialize_body show_double x (s, fs)) as [[] [s1 fs1]].
    cbn [fst snd] in *.
    destruct (IH s1 fs1) as ((Hp' & Hm' & Hl') & Hrest).
    split; [by rewrite Hp', Hm', Hl'|].
    intros Hv Hlock Hn.
    assert (PlanStore.getPlanListFilePath s1 n
            = PlanStore.getPlanListFilePath s n) as Hpath.
    { unfold PlanStore.getPlanListFilePath. by rewrite Hp. }
    assert (PlanStore.isValidPlanListNumber s1 = PlanStore.isValidPlanListNumber s)
      as Hvalid.
    { unfold PlanStore.isValidPlanListNumber. by rewrite Hm. }
    rewrite <- Hpath. apply Hrest.
    + by rewrite Hvalid.
    + by rewrite Hpath, Hl.
    + rewrite Hpath.
      destruct (decide (n = x)) as [->|Hne].
      * right. by apply Hown.
      * destruct Hn as [Hin|[Hc Hf]].
        -- left. apply elem_of_cons in Hin as [?|?]; done.
        -- right. split; [by rewrite Hcache|by apply Hfiles].
Qed.

Lemma initialize_eq mkdir planDataPath s fs :
  PlanStore.initialize show_double mkdir planDataPath (s, fs)
  = let s0 := if bool_decide (planDataPath ≠ EmptyString)
              then PlanStore.mkService (PlanStore.m_cachedPlans s)
                     planDataPath (PlanStore.m_maxPlanLists s)
                     (PlanStore.m_maxPlansPerList s)
                     (PlanStore.m_initialized s)
              else s in
    match mkdir (PlanStore.m_planDataPath s0) with
    | Some what =>
        (failure ("Failed to initialize MineDropPlanService: " +:+ what),
         (s0, fs))
    | None =>
        let out := for_each (seq 1 (PlanStore.m_maxPlanLists s))
                     (PlanStore.initialize_body show_double) (s0, fs) in
        (success,
         (PlanStore.mkService (PlanStore.m_cachedPlans out.2.1)
            (PlanStore.m_planDataPath out.2.1)
            (PlanStore.m_maxPlanLists out.2.1)
            (PlanStore.m_maxPlansPerList out.2.1) true, out.2.2))
    end.
Proof.
  unfold PlanStore.initialize, bind at 1, PlanStore.modify. cbn [fst snd].
  unfold bind at 1, PlanStore.service. cbn [fst snd]. cbn zeta.
  destruct (mkdir _) as [what|]; [done|].
  unfold bind, PlanStore.modify. cbn [fst snd].
  replace (PlanStore.m_maxPlanLists
             (if bool_decide (planDataPath ≠ EmptyString)
              then PlanStore.mkService (PlanStore.m_cachedPlans s)
                     planDataPath (PlanStore.m_maxPlanLists s)
                     (PlanStore.m_maxPlansPerList s)
                     (PlanStore.m_initialized s)
              else s))
    with (PlanStore.m_maxPlanLists s) by (by case_bool_decide).
  by destruct (for_each _ _ _) as [[] [? ?]].
Qed.

(** X16. [initialize] leaves the given path as the data path of the service,
    unless that path is empty, and then calls [create_directories] on
    the data path. When that throws, [initialize] reports "Failed to
    initialize MineDropPlanService: " followed by the exception's text,
    and the initialised mark, the cache and the files are as before. When
    it returns, [initialize] reports success and marks the service
    initialised; afterwards every list with a valid number whose file can
    be opened is empty in the cache, whatever the cache or the file held
    before, and its file exists: a file that is there is loaded, which
    yields no plan, and a file that is missing is created with no plan.
    The list limit is below the largest [uint32_t], so that the loop
    ends. *)
Theorem initialize_leaves_every_list_empty create_directories planDataPath
    s fs :
  list_counter_fits s →
  let out :=
    PlanStore.initialize show_double create_directories planDataPath
      (s, fs) in
  let path := if bool_decide (planDataPath ≠ EmptyString) then planDataPath
              else PlanStore.m_planDataPath s in
  PlanStore.m_planDataPath out.2.1 = path
  ∧ match create_directories path with
    | Some what =>
        out.1 = failure ("Failed to initialize MineDropPlanService: "
                         +:+ what)
        ∧ PlanStore.m_initialized out.2.1 = PlanStore.m_initialized s
        ∧ PlanStore.m_cachedPlans out.2.1 = PlanStore.m_cachedPlans s
        ∧ out.2.2 = fs
    | None =>
        out.1 = success
        ∧ PlanStore.m_initialized out.2.1 = true
        ∧ ∀ n, PlanStore.isValidPlanListNumber s n = true →
               PlanStore.getPlanListFilePath out.2.1 n
                 ∉ PlanStore.locked fs →
               PlanStore.getPlanList out.2.1 n = []
               ∧ PlanStore.getPlanCount out.2.1 n = 0
               ∧ n ∈ PlanStore.getAvailablePlanListNumbers out.2.1 out.2.2
    end.
Proof.
  intros _. rewrite initialize_eq.
  set (s0 := if bool_decide (planDataPath ≠ EmptyString)
             then PlanStore.mkService (PlanStore.m_cachedPlans s) planDataPath
                    (PlanStore.m_maxPlanLists s)
                    (PlanStore.m_maxPlansPerList s)
                    (PlanStore.m_initialized s)
             else s).
  assert (PlanStore.m_maxPlanLists s0 = PlanStore.m_maxPlanLists s) as Hmax.
  { unfold s0. by case_bool_decide. }
  assert (PlanStore.m_planDataPath s0
          = (if bool_decide (planDataPath ≠ EmptyString) then planDataPath
             else PlanStore.m_planDataPath s)) as Hpath0.
  { unfold s0. by case_bool_decide. }
  cbn zeta. rewrite Hpath0.
  destruct (create_directories _) as [what|].
  { cbn [fst snd]. split; [done|]. unfold s0.
    by case_bool_decide. }
  pose proof (λ n, initialize_loop_spec (seq 1 (PlanStore.m_maxPlanLists s))
                     n s0 fs) as Hloop.
  cbn zeta in *.
  destruct (for_each (seq 1 (PlanStore.m_maxPlanLists s))
              (PlanStore.initialize_body show_double) (s0, fs))
    as [[] [s1 fs1]]. cbn [fst snd] in *.
  cbn [PlanStore.m_initialized PlanStore.m_planDataPath].
  destruct (Hloop 0) as ((Hp & Hm & Hl) & _).
  split; [by rewrite Hp|]. split; [done|]. split; [done|].
  intros n Hv Hlock.
  assert (PlanStore.getPlanListFilePath
            (PlanStore.mkService (PlanStore.m_cachedPlans s1)
               (PlanStore.m_planDataPath s1) (PlanStore.m_maxPlanLists s1)
               (PlanStore.m_maxPlansPerList s1) true) n
          = PlanStore.getPlanListFilePath s0 n) as Hfp.
  { unfold PlanStore.getPlanListFilePath. cbn. by rewrite Hp. }
  rewrite Hfp in Hlock.
  assert (PlanStore.isValidPlanListNumber s0 n = true) as Hv0.
  { unfold PlanStore.isValidPlanListNumber in *. by rewrite Hmax. }
  assert (n ∈ seq 1 (PlanStore.m_maxPlanLists s)) as Hin.
  { unfold PlanStore.isValidPlanListNumber in Hv.
    apply andb_true_iff in Hv as [H1 H2].
    apply bool_decide_eq_true in H1, H2. apply elem_of_seq. lia. }
  destruct (Hloop n) as (_ & Hn).
  destruct (Hn Hv0 Hlock (or_introl Hin)) as [Hc Hf].
  assert (PlanStore.getPlanList
            (PlanStore.mkService (PlanStore.m_cachedPlans s1)
               (PlanStore.m_planDataPath s1) (PlanStore.m_maxPlanLists s1)
               (PlanStore.m_maxPlansPerList s1) true) n = []) as Hlist.
  { unfold PlanStore.getPlanList, PlanStore.isValidPlanListNumber in *.
    cbn. rewrite Hm, Hmax, Hv. cbn. by rewrite Hc. }
  split; [done|]. split; [unfold PlanStore.getPlanCount; by rewrite Hlist|].
  unfold PlanStore.getAvailablePlanListNumbers.
  apply list_elem_of_filter. split.
  - by rewrite Hfp.
  - cbn. by rewrite Hm, Hmax.
Qed.

Lemma string_length_app (s1 s2 : string) :
  String.length (s1 +:+ s2) = String.length s1 + String.length s2.
Proof.
  induction s1 as [|a s1 IH]; [done|].
  change (S (String.length (s1 +:+ s2))
          = S (String.length s1 + String.length s2)).
  by f_equal.
Qed.

Lemma string_app_inj_r (s1 s2 t : string) : s1 +:+ t = s2 +:+ t → s1 = s2.
Proof.
  revert s2. induction s1 as [|a s1 IH]; intros [|b s2] Heq.
  - done.
  - apply (f_equal String.length) in Heq.
    rewrite !string_length_app in Heq. cbn in Heq. lia.
  - apply (f_equal String.length) in Heq.
    rewrite !string_length_app in Heq. cbn in Heq. lia.
  - change (String a (s1 +:+ t) = String b (s2 +:+ t)) in Heq.
    injection Heq as -> Heq. f_equal. by apply IH.
Qed.

(** Two lists of one service have two files. *)
Lemma getPlanListFilePath_inj s n1 n2 :
  PlanStore.getPlanListFilePath s n1 = PlanStore.getPlanListFilePath s n2 →
  n1 = n2.
Proof.
  unfold PlanStore.getPlanListFilePath. intros Heq.
  apply String.app_inj, String.app_inj, string_app_inj_r in Heq.
  by apply pretty_nat_inj in Heq.
Qed.

(** X17. [deletePlanList] with a valid number succeeds whether the list
    exists or not (the removal of the file is taken not to throw).
    Afterwards
    the list is empty in the cache, its number is no longer available,
    loading it fails for want of a file, every other list of the cache is
    as before and the other numbers are available as before. The list
    limit is below the largest [uint32_t], so that the loop of
    [getAvailablePlanListNumbers] ends. *)
Theorem deleted_list_is_gone planListNumber s fs :
  list_counter_fits s →
  PlanStore.isValidPlanListNumber s planListNumber = true →
  let out := PlanStore.deletePlanList planListNumber (s, fs) in
  out.1 = success
  ∧ PlanStore.getPlanList out.2.1 planListNumber = []
  ∧ PlanStore.getAvailablePlanListNumbers out.2.1 out.2.2
    = filter (λ i, i ≠ planListNumber)
             (PlanStore.getAvailablePlanListNumbers s fs)
  ∧ (PlanStore.loadPlanList planListNumber out.2).1
    = failure "Failed to load plan list: File not found"
  ∧ ∀ other, other ≠ planListNumber →
             PlanStore.getPlanList out.2.1 other
             = PlanStore.getPlanList s other.
Proof.
  intros _ Hv. rewrite deletePlanList_eq, Hv. cbn [negb fst snd].
  split; [done|]. split; [|split; [|split]].
  - unfold PlanStore.getPlanList. cbn.
    destruct (negb _); [done|]. by rewrite lookup_delete_eq.
  - unfold PlanStore.getAvailablePlanListNumbers. cbn.
    rewrite list_filter_filter. apply list_filter_iff. intros i.
    change (PlanStore.getPlanListFilePath
              (PlanStore.set_cachedPlans
                 (delete planListNumber (PlanStore.m_cachedPlans s)) s) i)
      with (PlanStore.getPlanListFilePath s i).
    destruct (decide (i = planListNumber)) as [->|Hne].
    + rewrite lookup_delete_eq. split; [by intros []|by intros []].
    + rewrite lookup_delete_ne; [tauto|].
      intros Heq. by apply getPlanListFilePath_inj in Heq.
  - rewrite loadPlanList_eq.
    change (PlanStore.isValidPlanListNumber
              (PlanStore.set_cachedPlans
                 (delete planListNumber (PlanStore.m_cachedPlans s)) s)
              planListNumber)
      with (PlanStore.isValidPlanListNumber s planListNumber).
    rewrite Hv. cbn [negb].
    change (PlanStore.getPlanListFilePath
              (PlanStore.set_cachedPlans
                 (delete planListNumber (PlanStore.m_cachedPlans s)) s)
              planListNumber)
      with (PlanStore.getPlanListFilePath s planListNumber).
    cbn [PlanStore.files]. by rewrite lookup_delete_eq.
  - intros other Hne. unfold PlanStore.getPlanList. cbn.
    destruct (negb _); [done|]. by rewrite lookup_delete_ne.
Qed.

End StoreOperations.

(** Adding plan 7 to list 16 of a store with 15 lists fails and leaves
    the store as it was. [initialize] with the path "plans", where no
    directory can be created, fails and leaves the store as it was but
    for the path. *)
Lemma failed_call_changes_nothing_witness :
  (PlanStore.addPlan (λ _, "0") 16 plan_7 empty_store).2 = empty_store
  ∧ (PlanStore.initialize (λ _, "0") read_only_disk "plans" empty_store).2
    = (with_planDataPath "plans" empty_store.1, empty_store.2).
Proof.
  split.
  - apply (failed_call_changes_nothing (λ _, "0") (OpAddPlan 16 plan_7)
             empty_store.1 empty_store.2).
    reflexivity.
  - apply (failed_call_changes_nothing (λ _, "0")
             (OpInitializeStore read_only_disk "plans")
             empty_store.1 empty_store.2).
    reflexivity.
Defined.

(** From the empty store: after an initialisation and two additions, what
    the cache holds is within the limits. *)
Lemma cached_lists_stay_within_limits_witness :
  cache_within_limits
    (store_run (λ _, "0")
       [ OpInitializeStore creatable ""; OpAddPlan 3 plan_7;
         OpAddPlan 3 overfull_plan ]
       empty_store).2.1.
Proof.
  apply (cached_lists_stay_within_limits (λ _, "0")
           [ OpInitializeStore creatable ""; OpAddPlan 3 plan_7;
             OpAddPlan 3 overfull_plan ]
           empty_store.1 empty_store.2).
  - reflexivity.
  - intros n plans H. vm_compute in H. discriminate H.
Defined.

(** From the empty store: plan 7 is added twice and updated once; list 3
    still holds one plan of number 7. *)
Lemma plan_numbers_stay_distinct_witness :
  plan_numbers_distinct
    (store_run (λ _, "0")
       [ OpAddPlan 3 plan_7; OpAddPlan 3 plan_7; OpUpdatePlan 3 plan_7 ]
       empty_store).2.1.
Proof.
  apply (plan_numbers_stay_distinct (λ _, "0")
           [ OpAddPlan 3 plan_7; OpAddPlan 3 plan_7; OpUpdatePlan 3 plan_7 ]
           empty_store.1 empty_store.2).
  - reflexivity.
  - repeat constructor.
  - intros n plans H. vm_compute in H. discriminate H.
Defined.

(** Deleting list 1 of the empty store succeeds. *)
Lemma deleted_list_is_gone_witness :
  (PlanStore.deletePlanList 1 empty_store).1 = success.
Proof.
  apply (deleted_list_is_gone 1 empty_store.1 empty_store.2).
  - reflexivity.
  - reflexivity.
Defined.

(** After [initialize] of the empty store, list 3 is cached and empty.
    Where no directory can be created [initialize] of a new service
    fails, and the service is not marked initialised. *)
Lemma initialize_leaves_every_list_empty_witness :
  PlanStore.getPlanList
    (PlanStore.initialize (λ _, "0") creatable "" empty_store).2.1 3 = []
  ∧ (PlanStore.initialize (λ _, "0") read_only_disk ""
       (PlanStore.new_MineDropPlanService "" "data/mine_plans" 15 15,
        PlanStore.mkFileSystem ∅ ∅)).1
    = failure "Failed to initialize MineDropPlanService: Permission denied"
  ∧ PlanStore.m_initialized
      (PlanStore.initialize (λ _, "0") read_only_disk ""
         (PlanStore.new_MineDropPlanService "" "data/mine_plans" 15 15,
          PlanStore.mkFileSystem ∅ ∅)).2.1
    = false.
Proof.
  split.
  - destruct (initialize_leaves_every_list_empty (λ _, "0") creatable ""
                empty_store.1 empty_store.2) as (_ & _ & _ & H).
    + reflexivity.
    + destruct (H 3) as (Hlist & _).
      * reflexivity.
      * cbn. apply not_elem_of_empty.
      * exact Hlist.
  - destruct (initialize_leaves_every_list_empty (λ _, "0") read_only_disk
                ""
                (PlanStore.new_MineDropPlanService "" "data/mine_plans"
                   15 15)
                (PlanStore.mkFileSystem ∅ ∅)) as (_ & Hr & Hi & _).
    + reflexivity.
    + split; [exact Hr | exact Hi].
Defined.

(** Updating plan 7 in list 3 of the empty store adds it. *)
Lemma updatePlan_then_getPlan_witness :
  PlanStore.getPlan
    (PlanStore.updatePlan (λ _, "0") 3 plan_7 empty_store).2.1 3 7
  = inr plan_7.
Proof.
  apply (updatePlan_then_getPlan (λ _, "0") 3 plan_7
           empty_store.1 empty_store.2).
  vm_compute. reflexivity.
Defined.

(** Plan 7 is added to list 3 of the empty store and removed again. *)
Lemma removePlan_then_getPlan_witness :
  PlanStore.getPlan
    (PlanStore.removePlan (λ _, "0") 3 7
       (PlanStore.addPlan (λ _, "0") 3 plan_7 empty_store).2).2.1 3 7
  = inl "Plan not found".
Proof.
  apply (removePlan_then_getPlan (λ _, "0") 3 7
           (PlanStore.addPlan (λ _, "0") 3 plan_7 empty_store).2.1
           (PlanStore.addPlan (λ _, "0") 3 plan_7 empty_store).2.2).
  - vm_compute. apply NoDup_singleton.
  - vm_compute. reflexivity.
Defined.
(* ===================================================================== *)
(** ** The tube manager and its tubes *)
(* ===================================================================== *)

Lemma foldl_insert_seq (f : nat → option Tubes.LaunchTube)
    (l : list (option Tubes.LaunchTube)) a k j :
  foldl (λ tubes i, <[i := f i]> tubes) l (seq a k) !! j
  = if decide (a ≤ j < a + k ∧ j < length l) then Some (f j) else l !! j.
Proof.
  revert l a. induction k as [|k IH]; intros l a; cbn [seq foldl].
  - case_decide; [lia|done].
  - rewrite IH, length_insert.
    destruct (decide (j = a)) as [->|Hne].
    + case_decide as H1; case_decide as H2; try lia.
      * destruct (decide (a < length l)).
        -- by rewrite list_lookup_insert_eq.
        -- lia.
      * rewrite list_insert_ge; [done|lia].
    + rewrite list_lookup_insert_ne by done.
      case_decide as H1; case_decide as H2; try done; lia.
Qed.

Lemma omap_length_all {A B : Type} (f : A → option B) (l : list A) :
  (∀ x, x ∈ l → is_Some (f x)) → length (omap f l) = length l.
Proof.
  induction l as [|x l IH]; intros Hall; [done|].
  cbn. destruct (Hall x) as [y Hy]; [by left|]. rewrite Hy. cbn.
  f_equal. apply IH. intros z Hz. apply Hall. by right.
Qed.

Lemma isValidTubeNumber_spec m i :
  TubeManager.isValidTubeNumber m i = true
  ↔ Tubes.m_minTubeNumber m ≤ i ≤ Tubes.m_maxTubeNumber m.
Proof.
  unfold TubeManager.isValidTubeNumber.
  rewrite andb_true_iff, !bool_decide_eq_true. lia.
Qed.

Lemma elem_of_tube_numbers m i :
  i ∈ TubeManager.tube_numbers m ↔ TubeManager.isValidTubeNumber m i = true.
Proof.
  unfold TubeManager.tube_numbers.
  rewrite elem_of_seq, isValidTubeNumber_spec. lia.
Qed.

(** X18. A manager that was just constructed for [n] tubes (the constructor's
    argument, or the configured number when the argument is 0) holds,
    after [initialize], one empty tube per number from 1 to [n], each
    knowing its own number, and no tube for any other number: nothing is
    assigned, and there are [n] statuses. A second [initialize] changes
    nothing. [n] is below the largest [uint16_t], so that the loop over
    the tube numbers ends. *)
Theorem initialize_creates_the_empty_tubes maxTubes configured :
  tube_counter_fits (TubeManager.new_LaunchTubeManager maxTubes configured) →
  let n := if bool_decide (maxTubes = 0) then configured else maxTubes in
  let m :=
    (TubeManager.initialize
       (TubeManager.new_LaunchTubeManager maxTubes configured)).2 in
  Tubes.m_initialized m = true
  ∧ (∀ i, TubeManager.getValidatedTube m i
          = if bool_decide (1 ≤ i ≤ n) then Some (Tubes.new_LaunchTube i)
            else None)
  ∧ Tubes.getAssignedTubes m = []
  ∧ length (TubeManager.getAllTubeStatus m) = n
  ∧ TubeManager.initialize m = (success, m).
Proof.
  intros _ n m.
  assert (∀ i, Tubes.tube_at m i
               = if bool_decide (1 ≤ i ≤ n) then Some (Tubes.new_LaunchTube i)
                 else None) as Htube.
  { intros i. unfold Tubes.tube_at, m, TubeManager.initialize,
      TubeManager.new_LaunchTubeManager, TubeManager.tube_numbers,
      TubeManager.resize. cbn. fold n.
    rewrite (foldl_insert_seq (λ i, Some (Tubes.new_LaunchTube i))).
    rewrite take_nil, app_nil_l, length_replicate.
    case_decide as H1; case_bool_decide as H2; try lia; [done|].
    destruct (replicate _ _ !! i) as [x|] eqn:E; [|done].
    by apply lookup_replicate in E as [-> _]. }
  assert (∀ i, TubeManager.isValidTubeNumber m i = bool_decide (1 ≤ i ≤ n))
    as Hvalid.
  { intros i. pose proof (isValidTubeNumber_spec m i) as H.
    change (Tubes.m_minTubeNumber m) with 1 in H.
    change (Tubes.m_maxTubeNumber m) with n in H.
    destruct (TubeManager.isValidTubeNumber m i).
    - rewrite bool_decide_true; [done|]. by apply H.
    - rewrite bool_decide_false; [done|]. intros Hi. by apply H in Hi. }
  split; [done|]. split; [|split; [|split]].
  - intros i. unfold TubeManager.getValidatedTube.
    rewrite Hvalid, Htube. by case_bool_decide.
  - apply elem_of_nil_inv. intros i Hi.
    apply list_elem_of_filter in Hi as [Hi _].
    unfold Tubes.assigned_at in Hi. rewrite Htube in Hi.
    by case_bool_decide.
  - unfold TubeManager.getAllTubeStatus. rewrite omap_length_all.
    + unfold TubeManager.tube_numbers, m. cbn. rewrite length_seq.
      fold n. lia.
    + intros i Hi. apply elem_of_tube_numbers in Hi.
      rewrite Hvalid in Hi. apply bool_decide_eq_true in Hi.
      rewrite Htube, bool_decide_true by done. by eexists.
  - done.
Qed.

Section TubeOperations.

Context (env : nat → gset nat).
Context (to_3D : SGEODETIC_POSITION → ST_3D_GEODETIC_POSITION).

Lemma weapon_initialize_eq tubeNumber wp w :
  Weapon.initialize tubeNumber (wp, w)
  = (success,
     (Weapon.mkWeaponBase (Weapon.m_weaponKind wp) tubeNumber
        WPN_CTRL_STATE_OFF false false (Weapon.m_launchSteps wp)
        (Weapon.m_onDelay wp) (Weapon.m_observers wp) (now w)
        (Weapon.m_currentCancellationToken wp),
      cancel (Weapon.m_currentCancellationToken wp)
        (emit (EvState (Weapon.m_currentState wp) WPN_CTRL_STATE_OFF) w))).
Proof. by destruct wp. Qed.

Lemma weapon_reset_eq wp w :
  Weapon.reset (wp, w)
  = (tt,
     (Weapon.mkWeaponBase (Weapon.m_weaponKind wp) (Weapon.m_tubeNumber wp)
        WPN_CTRL_STATE_OFF false false (Weapon.m_launchSteps wp)
        (Weapon.m_onDelay wp) (Weapon.m_observers wp) (now w)
        (Weapon.m_currentCancellationToken wp),
      cancel (Weapon.m_currentCancellationToken wp)
        (emit (EvState (Weapon.m_currentState wp) WPN_CTRL_STATE_OFF) w))).
Proof. by destruct wp. Qed.

Lemma weapon_addStateObserver_eq observer wp w :
  Weapon.addStateObserver observer (wp, w)
  = (tt, (Weapon.set_observers (Weapon.m_observers wp ++ [observer]) wp, w)).
Proof. done. Qed.

(** What [on_weapon] leaves when the weapon added [evs] to the log. *)
Lemma on_weapon_eq {A : Type} (c : Weapon.M A) weapon a weapon' w' evs t w :
  c (weapon, w) = (a, (weapon', w')) →
  log w' = log w ++ evs →
  Tubes.on_weapon weapon c (t, w)
  = (a, (foldl (λ t e, Tubes.observe e t)
           (Tubes.set_weapon (Some weapon') t) evs, w')).
Proof.
  intros Hc Hlog. unfold Tubes.on_weapon. rewrite Hc, Hlog.
  by rewrite drop_app_length.
Qed.

Lemma tube_assignWeapon_eq weapon mgr info t w :
  Tubes.assignWeapon to_3D (Some weapon) (Some mgr) info (t, w)
  = if Tubes.hasWeapon t then
      (failure ("Tube " +:+ pretty (Tubes.m_tubeNumber t)
                  +:+ " already has assigned weapon"), (t, w))
    else if bool_decide (Tubes.tubeNumber info ≠ Tubes.m_tubeNumber t) then
      (failure "Assignment info tube number mismatch", (t, w))
    else
      let token := Weapon.m_currentCancellationToken weapon in
      let w1 :=
        cancel token
          (emit (EvState (Weapon.m_currentState weapon) WPN_CTRL_STATE_OFF)
             w) in
      let weapon1 :=
        Weapon.mkWeaponBase (Weapon.m_weaponKind weapon)
          (Tubes.m_tubeNumber t) WPN_CTRL_STATE_OFF false false
          (Weapon.m_launchSteps weapon) (Weapon.m_onDelay weapon)
          (Weapon.m_observers weapon ++ [Tubes.m_tubeNumber t]) (now w)
          token in
      let mgr1 :=
        (Engagement.initialize (Tubes.m_tubeNumber t) (Tubes.weaponKind info)
           mgr).2 in
      let t1 :=
        Tubes.mkLaunchTube (Tubes.m_tubeNumber t) (Some weapon1) (Some mgr1)
          info (Tubes.m_lastEngagementResult t) in
      let setup :=
        if bool_decide (Tubes.weaponKind info = WPN_KIND_M_MINE)
        then Tubes.setupMineSpecificAssignment t1
        else Tubes.setupMissileSpecificAssignment to_3D t1 in
      if negb (isSuccess setup.1) then
        (setup.1, (Tubes.clearAssignment (setup.2, w1)).2)
      else (success, (setup.2, w1)).
Proof.
  unfold Tubes.assignWeapon.
  destruct (Tubes.hasWeapon t); [done|].
  case_bool_decide; [done|].
  rewrite (on_weapon_eq _ _ _ _ _
             [ EvState (Weapon.m_currentState weapon) WPN_CTRL_STATE_OFF;
               EvCancel (Weapon.m_currentCancellationToken weapon) ]
             _ _ (weapon_initialize_eq _ _ _))
    by (by unfold cancel, emit; cbn; rewrite <- app_assoc).
  cbn [foldl Tubes.observe Tubes.set_weapon Tubes.m_tubeNumber
       Tubes.m_weapon Tubes.m_engagementMgr Tubes.m_assignmentInfo
       Tubes.m_lastEngagementResult].
  assert ((Engagement.initialize (Tubes.m_tubeNumber t)
             (Tubes.weaponKind info) mgr).1 = success) as Hinit.
  { by destruct mgr. }
  destruct (Engagement.initialize (Tubes.m_tubeNumber t)
              (Tubes.weaponKind info) mgr) as [r mgr1].
  cbn [fst snd] in *. subst r.
  unfold Tubes.set_weapon, Tubes.set_engagementMgr.
  cbn [Tubes.set_engagementMgr Tubes.m_tubeNumber
       Tubes.m_weapon Tubes.m_engagementMgr Tubes.m_assignmentInfo
       Tubes.m_lastEngagementResult].
  rewrite (on_weapon_eq _ _ _ _ _ [] _ _ (weapon_addStateObserver_eq _ _ _))
    by (by rewrite app_nil_r).
  unfold Tubes.set_weapon.
  cbn [foldl Tubes.set_weapon Tubes.m_tubeNumber
       Tubes.m_weapon Tubes.m_engagementMgr Tubes.m_assignmentInfo
       Tubes.m_lastEngagementResult Weapon.m_observers].
  cbn zeta.
  destruct (if bool_decide (Tubes.weaponKind info = WPN_KIND_M_MINE)
            then _ else _) as [setupResult t2].
  cbn [fst snd].
  destruct (negb (isSuccess setupResult)); [|done].
  by destruct (Tubes.clearAssignment _) as [[] ?].
Qed.

Lemma getValidatedTube_Some m i tube :
  TubeManager.getValidatedTube m i = Some tube →
  TubeManager.isValidTubeNumber m i = true ∧ Tubes.tube_at m i = Some tube.
Proof.
  unfold TubeManager.getValidatedTube.
  by destruct (TubeManager.isValidTubeNumber m i).
Qed.

(** What the factory hands to [assignWeapon]: nothing for a kind it does
    not know; otherwise a weapon of the kind, switched off, with a token
    of its own, and the manager that goes with the kind. *)
Lemma createWeaponAndManager_spec defaultLaunchDelay clock kind w :
  match TubeManager.createWeaponAndManager defaultLaunchDelay clock kind w with
  | (inl _, w') => Factory.isWeaponSupported kind = false ∧ w' = w
  | (inr (weapon, mgr), w') =>
      Factory.isWeaponSupported kind = true
      ∧ w' = (newToken w).2
      ∧ Weapon.m_weaponKind weapon = kind
      ∧ Weapon.m_observers weapon = []
      ∧ Weapon.m_currentCancellationToken weapon = next_cell w
      ∧ is_mine_manager mgr = bool_decide (kind = WPN_KIND_M_MINE)
  end.
Proof. by destruct kind. Qed.

Lemma setup_result info n weapon mgr last :
  let t1 := Tubes.mkLaunchTube n (Some weapon) (Some mgr) info last in
  let setup :=
    if bool_decide (Tubes.weaponKind info = WPN_KIND_M_MINE)
    then Tubes.setupMineSpecificAssignment t1
    else Tubes.setupMissileSpecificAssignment to_3D t1 in
  isSuccess setup.1
  = bool_decide (bool_decide (Tubes.weaponKind info = WPN_KIND_M_MINE)
                 = is_mine_manager mgr)
  ∧ ∃ mgr',
      setup.2 = Tubes.mkLaunchTube n (Some weapon) (Some mgr') info last
      ∧ Engagement.m_tubeNumber (Engagement.manager_base mgr')
        = Engagement.m_tubeNumber (Engagement.manager_base mgr)
      ∧ is_mine_manager mgr' = is_mine_manager mgr.
Proof.
  intros t1 setup. unfold setup, t1,
    Tubes.setupMineSpecificAssignment, Tubes.setupMissileSpecificAssignment.
  cbn [Tubes.m_engagementMgr Tubes.m_assignmentInfo].
  destruct (bool_decide (Tubes.weaponKind info = WPN_KIND_M_MINE)),
    mgr as [missile|mine]; cbn [is_mine_manager].
  - cbn. eauto.
  - destruct (_ && _); cbn; eauto.
  - destruct (bool_decide (0 < Tubes.systemTargetId info)); cbn; eauto.
  - cbn. eauto.
Qed.

Lemma initialize_is_mine n kind mgr :
  is_mine_manager (Engagement.initialize n kind mgr).2 = is_mine_manager mgr
  ∧ Engagement.m_tubeNumber
      (Engagement.manager_base (Engagement.initialize n kind mgr).2) = n.
Proof. by destruct mgr. Qed.

(** X19. [LaunchTubeManager::assignWeapon] succeeds exactly when the tube
    exists and is free, the factory knows the weapon kind (which is what
    [canAssignWeapon] answers), the assignment information names the
    tube's own number, and the assignment information and the request
    agree on whether the weapon is a mine. *)
Theorem assignWeapon_succeeds_iff defaultLaunchDelay clock request e m w :
  let i := AssignmentRequest.tubeNumber request in
  let kind := AssignmentRequest.weaponKind request in
  let info := AssignmentRequest.assignmentInfo request in
  (TubeManager.assignWeapon to_3D defaultLaunchDelay clock request e (m, w)).1
  = success
  ↔ ∃ tube,
      TubeManager.getValidatedTube m i = Some tube
      ∧ TubeManager.canAssignWeapon m i kind = true
      ∧ Tubes.tubeNumber info = Tubes.m_tubeNumber tube
      ∧ (Tubes.weaponKind info = WPN_KIND_M_MINE ↔ kind = WPN_KIND_M_MINE).
Proof.
  clear env.
  intros i kind info.
  unfold TubeManager.assignWeapon, TubeManager.canAssignWeapon.
  cbn [fst snd]. fold i kind info.
  destruct (TubeManager.getValidatedTube m i) as [tube|] eqn:Hgv.
  2:{ split; [done|]. by intros (tube & ? & _). }
  destruct (getValidatedTube_Some _ _ _ Hgv) as [_ Hat].
  destruct (Tubes.hasWeapon tube) eqn:Hhas.
  { split; [done|]. by intros (tube' & _ & ? & _). }
  assert ((∃ tube0, Some tube = Some tube0
             ∧ Factory.isWeaponSupported kind = true
             ∧ Tubes.tubeNumber info = Tubes.m_tubeNumber tube0
             ∧ (Tubes.weaponKind info = WPN_KIND_M_MINE
                ↔ kind = WPN_KIND_M_MINE))
          ↔ Factory.isWeaponSupported kind = true
            ∧ Tubes.tubeNumber info = Tubes.m_tubeNumber tube
            ∧ (Tubes.weaponKind info = WPN_KIND_M_MINE
               ↔ kind = WPN_KIND_M_MINE)) as ->.
  { split; [by intros (? & [= <-] & ?)|by exists tube]. }
  pose proof (createWeaponAndManager_spec defaultLaunchDelay clock kind w)
    as Hcreate.
  destruct (TubeManager.createWeaponAndManager defaultLaunchDelay clock kind w)
    as [[message|[weapon mgr]] w0].
  { destruct Hcreate as [-> _]. split; [done|by intros [? _]]. }
  destruct Hcreate as (-> & _ & _ & _ & _ & Hmgr).
  unfold TubeManager.on_tube. cbn [fst snd].
  rewrite Hat, tube_assignWeapon_eq, Hhas.
  destruct (decide (Tubes.tubeNumber info = Tubes.m_tubeNumber tube))
    as [Hnum|Hnum].
  2:{ rewrite (bool_decide_true _ Hnum). cbn.
      split; [done|by intros (_ & ? & _)]. }
  rewrite bool_decide_false by (by intros ?). cbn zeta.
  destruct (setup_result info (Tubes.m_tubeNumber tube)
              (Weapon.mkWeaponBase (Weapon.m_weaponKind weapon)
                 (Tubes.m_tubeNumber tube) WPN_CTRL_STATE_OFF false false
                 (Weapon.m_launchSteps weapon) (Weapon.m_onDelay weapon)
                 (Weapon.m_observers weapon ++ [Tubes.m_tubeNumber tube])
                 (now w0) (Weapon.m_currentCancellationToken weapon))
              (Engagement.initialize (Tubes.m_tubeNumber tube)
                 (Tubes.weaponKind info) mgr).2
              (Tubes.m_lastEngagementResult tube)) as [Hsetup _].
  cbn zeta in Hsetup.
  destruct (initialize_is_mine (Tubes.m_tubeNumber tube)
              (Tubes.weaponKind info) mgr) as [Hinit _].
  rewrite Hinit, Hmgr in Hsetup.
  destruct (if bool_decide (Tubes.weaponKind info = WPN_KIND_M_MINE)
            then _ else _) as [setupResult t2].
  cbn [fst snd] in *.
  assert (isSuccess setupResult = true
          ↔ (Tubes.weaponKind info = WPN_KIND_M_MINE
             ↔ kind = WPN_KIND_M_MINE)) as Hiff.
  { rewrite Hsetup, bool_decide_eq_true.
    destruct (decide (Tubes.weaponKind info = WPN_KIND_M_MINE)) as [H1|H1],
      (decide (kind = WPN_KIND_M_MINE)) as [H2|H2];
      rewrite ?(bool_decide_true _ H1), ?(bool_decide_false _ H1),
        ?(bool_decide_true _ H2), ?(bool_decide_false _ H2);
      split; try done; tauto. }
  destruct setupResult as [|message]; cbn [isSuccess negb] in *.
  - split; [intros _|done]. split; [done|]. split; [done|]. by apply Hiff.
  - destruct (Tubes.clearAssignment _) as [[] [t3 w3]]. cbn.
    split; [done|]. intros (_ & _ & H). by apply Hiff in H.
Qed.

Lemma tube_at_insert_eq m i old tube :
  Tubes.tube_at m i = Some old →
  Tubes.tube_at
    (Tubes.set_launchTubes (<[i := Some tube]> (Tubes.m_launchTubes m)) m) i
  = Some tube.
Proof.
  unfold Tubes.tube_at. cbn [Tubes.m_launchTubes Tubes.set_launchTubes].
  intros Hold. rewrite list_lookup_insert_eq; [done|].
  apply lookup_lt_is_Some. by destruct (Tubes.m_launchTubes m !! i).
Qed.

Lemma modify_tube_eq f m i tube :
  Tubes.tube_at m i = Some tube →
  Tubes.tube_at (TubeManager.modify_tube i f m) i = Some (f tube).
Proof.
  intros Hat. unfold TubeManager.modify_tube. rewrite Hat.
  by apply (tube_at_insert_eq _ _ tube).
Qed.

Lemma modify_tube_ne f m i j :
  j ≠ i →
  Tubes.tube_at (TubeManager.modify_tube i f m) j = Tubes.tube_at m j.
Proof.
  intros Hne. unfold TubeManager.modify_tube.
  destruct (Tubes.tube_at m i); [|done]. by apply tube_at_insert.
Qed.

Lemma modify_tube_valid f m i j :
  TubeManager.isValidTubeNumber (TubeManager.modify_tube i f m) j
  = TubeManager.isValidTubeNumber m j.
Proof.
  unfold TubeManager.modify_tube. by destruct (Tubes.tube_at m i).
Qed.

Lemma updateTargetInfo_keeps target mgr :
  Engagement.m_tubeNumber
    (Engagement.missile_base (Engagement.updateTargetInfo to_3D target mgr))
  = Engagement.m_tubeNumber (Engagement.missile_base mgr)
  ∧ Engagement.m_axisCenter
      (Engagement.missile_base (Engagement.updateTargetInfo to_3D target mgr))
    = Engagement.m_axisCenter (Engagement.missile_base mgr)
  ∧ Engagement.m_launched
      (Engagement.missile_base (Engagement.updateTargetInfo to_3D target mgr))
    = Engagement.m_launched (Engagement.missile_base mgr).
Proof.
  unfold Engagement.updateTargetInfo.
  destruct (_ && _); [|done]. by cbn.
Qed.

(** X20. After an [assignWeapon] of the manager that succeeded, the tube holds
    a weapon of the requested kind that is switched off, not launched,
    without a fire solution, that knows the tube's number and is observed
    by the tube and by nothing else; it holds the assignment information
    of the request and a manager that knows the tube's number and the
    manager's axis centre. The tube counts as assigned, and no other tube
    has changed. *)
Theorem assigned_weapon_is_off_and_observed
    defaultLaunchDelay clock request e m w :
  let i := AssignmentRequest.tubeNumber request in
  let out :=
    TubeManager.assignWeapon to_3D defaultLaunchDelay clock request e (m, w) in
  out.1 = success →
  (∃ tube weapon mgr,
     Tubes.tube_at out.2.1 i = Some tube
     ∧ Tubes.m_weapon tube = Some weapon
     ∧ Tubes.m_engagementMgr tube = Some mgr
     ∧ Tubes.m_tubeNumber tube = Tubes.tubeNumber
                                   (AssignmentRequest.assignmentInfo request)
     ∧ Tubes.m_assignmentInfo tube = AssignmentRequest.assignmentInfo request
     ∧ Weapon.m_weaponKind weapon = AssignmentRequest.weaponKind request
     ∧ Weapon.m_currentState weapon = WPN_CTRL_STATE_OFF
     ∧ Weapon.m_launched weapon = false
     ∧ Weapon.m_fireSolutionReady weapon = false
     ∧ Weapon.m_tubeNumber weapon = Tubes.m_tubeNumber tube
     ∧ Weapon.m_observers weapon = [Tubes.m_tubeNumber tube]
     ∧ Engagement.m_tubeNumber (Engagement.manager_base mgr)
       = Tubes.m_tubeNumber tube
     ∧ Engagement.m_axisCenter (Engagement.manager_base mgr)
       = TubeManager.m_axisCenter e)
  ∧ TubeManager.isAssigned out.2.1 i = true
  ∧ ∀ j, j ≠ i → Tubes.tube_at out.2.1 j = Tubes.tube_at m j.
Proof.
  intros i out. unfold out, TubeManager.assignWeapon.
  cbn [fst snd]. fold i.
  destruct (TubeManager.getValidatedTube m i) as [tube|] eqn:Hgv; [|done].
  destruct (getValidatedTube_Some _ _ _ Hgv) as [Hvalid Hat].
  destruct (Tubes.hasWeapon tube) eqn:Hhas; [done|].
  pose proof (createWeaponAndManager_spec defaultLaunchDelay clock
                (AssignmentRequest.weaponKind request) w) as Hcreate.
  destruct (TubeManager.createWeaponAndManager defaultLaunchDelay clock
              (AssignmentRequest.weaponKind request) w)
    as [[message|[weapon mgr]] w0]; [done|].
  destruct Hcreate as (_ & _ & Hkind & Hobs & _ & _).
  unfold TubeManager.on_tube. cbn [fst snd].
  rewrite Hat, tube_assignWeapon_eq, Hhas.
  destruct (decide (Tubes.tubeNumber (AssignmentRequest.assignmentInfo request)
                    = Tubes.m_tubeNumber tube)) as [Hnum|Hnum].
  2:{ rewrite (bool_decide_true _ Hnum). by cbn. }
  rewrite bool_decide_false by (by intros ?). cbn zeta.
  destruct (setup_result (AssignmentRequest.assignmentInfo request)
              (Tubes.m_tubeNumber tube)
              (Weapon.mkWeaponBase (Weapon.m_weaponKind weapon)
                 (Tubes.m_tubeNumber tube) WPN_CTRL_STATE_OFF false false
                 (Weapon.m_launchSteps weapon) (Weapon.m_onDelay weapon)
                 (Weapon.m_observers weapon ++ [Tubes.m_tubeNumber tube])
                 (now w0) (Weapon.m_currentCancellationToken weapon))
              (Engagement.initialize (Tubes.m_tubeNumber tube)
                 (Tubes.weaponKind (AssignmentRequest.assignmentInfo request))
                 mgr).2
              (Tubes.m_lastEngagementResult tube))
    as (_ & mgr2 & Hsetup & Hnumber & _).
  cbn zeta in Hsetup.
  destruct (initialize_is_mine (Tubes.m_tubeNumber tube)
              (Tubes.weaponKind (AssignmentRequest.assignmentInfo request))
              mgr) as [_ Hinit].
  rewrite Hinit in Hnumber.
  destruct (if bool_decide (Tubes.weaponKind
                              (AssignmentRequest.assignmentInfo request)
                            = WPN_KIND_M_MINE)
            then _ else _) as [setupResult t2].
  cbn [fst snd] in *. subst t2.
  destruct setupResult as [|message]; cbn [isSuccess negb].
  2:{ destruct (Tubes.clearAssignment _) as [[] [t3 w3]]. by cbn. }
  cbn [fst snd]. intros _.
  set (m1 := Tubes.set_launchTubes _ m).
  set (t2 := Tubes.mkLaunchTube _ _ (Some mgr2) _ _) in m1.
  assert (Tubes.tube_at m1 i = Some t2) as Hat1
    by (by apply (tube_at_insert_eq _ _ tube)).
  set (m2 := TubeManager.modify_tube i
               (Tubes.setAxisCenter (TubeManager.m_axisCenter e)) m1).
  assert (Tubes.tube_at m2 i
          = Some (Tubes.setAxisCenter (TubeManager.m_axisCenter e) t2))
    as Hat2 by (by apply modify_tube_eq).
  set (m3 := if bool_decide _ then _ else m2).
  assert (∀ j, j ≠ i → Tubes.tube_at m3 j = Tubes.tube_at m j) as Hother.
  { intros j Hne. transitivity (Tubes.tube_at m2 j).
    - unfold m3. destruct (bool_decide _); [|done].
      destruct (_ !! _); [|done]. by apply modify_tube_ne.
    - unfold m2. rewrite modify_tube_ne by done. by apply tube_at_insert. }
  assert (TubeManager.isValidTubeNumber m3 i = true) as Hvalid3.
  { unfold m3. destruct (bool_decide _); [destruct (_ !! _)|];
      unfold m2; by rewrite ?modify_tube_valid. }
  assert (∃ mgr3,
            Tubes.tube_at m3 i
            = Some (Tubes.mkLaunchTube (Tubes.m_tubeNumber tube)
                      (Tubes.m_weapon t2) (Some mgr3)
                      (AssignmentRequest.assignmentInfo request)
                      (Tubes.m_lastEngagementResult tube))
            ∧ Engagement.m_tubeNumber (Engagement.manager_base mgr3)
              = Tubes.m_tubeNumber tube
            ∧ Engagement.m_axisCenter (Engagement.manager_base mgr3)
              = TubeManager.m_axisCenter e) as (mgr3 & Hat3 & Hn3 & Hc3).
  { assert (∃ mgr3,
              Tubes.setAxisCenter (TubeManager.m_axisCenter e) t2
              = Tubes.mkLaunchTube (Tubes.m_tubeNumber tube)
                  (Tubes.m_weapon t2) (Some mgr3)
                  (AssignmentRequest.assignmentInfo request)
                  (Tubes.m_lastEngagementResult tube)
              ∧ Engagement.m_tubeNumber (Engagement.manager_base mgr3)
                = Tubes.m_tubeNumber tube
              ∧ Engagement.m_axisCenter (Engagement.manager_base mgr3)
                = TubeManager.m_axisCenter e) as (mgr3 & Heq & Hn3 & Hc3).
    { exists (Engagement.setAxisCenter (TubeManager.m_axisCenter e) mgr2).
      split; [done|]. by destruct mgr2. }
    rewrite Heq in Hat2.
    unfold m3. destruct (bool_decide _); [|by exists mgr3].
    destruct (_ !! _) as [target|]; [|by exists mgr3].
    rewrite (modify_tube_eq _ _ _ _ Hat2).
    unfold Tubes.updateTargetInfo. cbn [Tubes.m_engagementMgr].
    destruct mgr3 as [missile|mine]; [|by exists (Engagement.Mine mine)].
    exists (Engagement.Missile
              (Engagement.updateTargetInfo to_3D target missile)).
    split; [done|]. cbn [Engagement.manager_base] in *.
    destruct (updateTargetInfo_keeps target missile) as (-> & -> & _).
    done. }
  split; [|split; [|done]].
  - eexists _, _, mgr3. split; [exact Hat3|]. cbn.
    rewrite Hobs. by repeat split.
  - unfold TubeManager.isAssigned, TubeManager.getValidatedTube.
    by rewrite Hvalid3, Hat3.
Qed.

(** *** Unassigning *)

Lemma clearAssignment_eq t w :
  Tubes.clearAssignment (t, w)
  = (tt,
     (Tubes.mkLaunchTube (Tubes.m_tubeNumber t) None None
        Tubes.new_AssignmentInfo (Tubes.m_lastEngagementResult t),
      match Tubes.m_weapon t with
      | Some weapon =>
          cancel (Weapon.m_currentCancellationToken weapon)
            (emit (EvState (Weapon.m_currentState weapon) WPN_CTRL_STATE_OFF)
               w)
      | None => w
      end)).
Proof.
  unfold Tubes.clearAssignment. destruct (Tubes.m_weapon t) as [weapon|]; [|done].
  unfold bind. cbn [Weapon.removeStateObserver]. by destruct weapon.
Qed.

(** X21. [unassignWeapon] succeeds exactly on an assigned tube; otherwise it
    changes nothing. When it succeeds the tube is empty again, with the
    default assignment information but with the engagement result it last
    reported, and can be assigned any weapon the factory knows; the token
    of the weapon's last operation is cancelled, and no other tube has
    changed. *)
Theorem unassignWeapon_frees_the_tube tubeNumber m w :
  let out := TubeManager.unassignWeapon tubeNumber (m, w) in
  (out.1 = success ↔ TubeManager.isAssigned m tubeNumber = true)
  ∧ (out.1 ≠ success → out.2 = (m, w))
  ∧ (out.1 = success →
     ∃ tube weapon,
       Tubes.tube_at m tubeNumber = Some tube
       ∧ Tubes.m_weapon tube = Some weapon
       ∧ Tubes.tube_at out.2.1 tubeNumber
         = Some (Tubes.mkLaunchTube (Tubes.m_tubeNumber tube) None None
                   Tubes.new_AssignmentInfo
                   (Tubes.m_lastEngagementResult tube))
       ∧ TubeManager.isAssigned out.2.1 tubeNumber = false
       ∧ (∀ kind, TubeManager.canAssignWeapon out.2.1 tubeNumber kind
                  = Factory.isWeaponSupported kind)
       ∧ isCancelled (Weapon.m_currentCancellationToken weapon) out.2.2 = true
       ∧ ∀ j, j ≠ tubeNumber →
              Tubes.tube_at out.2.1 j = Tubes.tube_at m j).
Proof.
  clear env.
  intros out. unfold out, TubeManager.unassignWeapon, TubeManager.isAssigned.
  cbn [fst snd].
  destruct (TubeManager.getValidatedTube m tubeNumber) as [tube|] eqn:Hgv;
    [|done].
  destruct (getValidatedTube_Some _ _ _ Hgv) as [Hvalid Hat].
  destruct (Tubes.hasWeapon tube) eqn:Hhas; cbn [negb]; [|done].
  unfold TubeManager.on_tube. cbn [fst snd].
  rewrite Hat, clearAssignment_eq. cbn [fst snd].
  split; [done|]. split; [done|]. intros _.
  unfold Tubes.hasWeapon in Hhas. apply bool_decide_eq_true in Hhas.
  destruct Hhas as [weapon Hweapon]. rewrite Hweapon.
  exists tube, weapon. split; [done|]. split; [done|].
  set (empty := Tubes.mkLaunchTube _ None None _ _).
  assert (Tubes.tube_at
            (Tubes.set_launchTubes
               (<[tubeNumber := Some empty]> (Tubes.m_launchTubes m)) m)
            tubeNumber = Some empty) as Hat'
    by (by apply (tube_at_insert_eq _ _ tube)).
  split; [done|].
  unfold TubeManager.canAssignWeapon, TubeManager.getValidatedTube.
  change (TubeManager.isValidTubeNumber (Tubes.set_launchTubes _ m) tubeNumber)
    with (TubeManager.isValidTubeNumber m tubeNumber).
  rewrite Hvalid, Hat'. cbn [negb].
  split; [done|]. split; [done|]. split.
  - unfold isCancelled, cancel, emit. cbn [cancelled].
    apply bool_decide_eq_true. set_solver.
  - intros j Hne. by apply tube_at_insert.
Qed.

(** *** Requests through the tube *)

(** Observing touches the manager only. *)
Lemma observe_keeps e t :
  Tubes.m_weapon (Tubes.observe e t) = Tubes.m_weapon t
  ∧ Tubes.m_tubeNumber (Tubes.observe e t) = Tubes.m_tubeNumber t
  ∧ Tubes.m_assignmentInfo (Tubes.observe e t) = Tubes.m_assignmentInfo t
  ∧ Tubes.m_lastEngagementResult (Tubes.observe e t)
    = Tubes.m_lastEngagementResult t
  ∧ (is_Some (Tubes.m_engagementMgr t)
     → is_Some (Tubes.m_engagementMgr (Tubes.observe e t)))
  ∧ (∀ mgr, Tubes.m_engagementMgr t = Some mgr →
            Engagement.isLaunched mgr = true →
            Tubes.m_engagementMgr (Tubes.observe e t) = Some mgr).
Proof.
  destruct e as [| | |observer tube launched| |]; try done.
  unfold Tubes.observe, Tubes.onLaunchStatusChanged.
  repeat case_bool_decide; try done.
  destruct launched; [|done]. cbn.
  repeat split; try done.
  - intros [mgr ->]. by eexists.
  - intros mgr -> Hl. cbn. f_equal. unfold Engagement.isLaunched in Hl.
    destruct mgr as [[? [] ? ? ? ?]|[[] ? ? ?]]; cbn in *; by subst.
Qed.

Lemma foldl_observe_keeps evs t :
  Tubes.m_weapon (foldl (λ t e, Tubes.observe e t) t evs) = Tubes.m_weapon t
  ∧ Tubes.m_tubeNumber (foldl (λ t e, Tubes.observe e t) t evs)
    = Tubes.m_tubeNumber t
  ∧ Tubes.m_assignmentInfo (foldl (λ t e, Tubes.observe e t) t evs)
    = Tubes.m_assignmentInfo t
  ∧ Tubes.m_lastEngagementResult (foldl (λ t e, Tubes.observe e t) t evs)
    = Tubes.m_lastEngagementResult t.
Proof.
  revert t. induction evs as [|e evs IH]; intros t; [done|].
  cbn [foldl]. destruct (IH (Tubes.observe e t)) as (-> & -> & -> & ->).
  by destruct (observe_keeps e t) as (-> & -> & -> & -> & _).
Qed.

(** Events that call no [onLaunchStatusChanged] leave the tube alone. *)
Lemma foldl_observe_quiet evs t :
  (∀ observer tube launched,
     EvLaunchStatusChanged observer tube launched ∉ evs) →
  foldl (λ t e, Tubes.observe e t) t evs = t.
Proof.
  revert t. induction evs as [|e evs IH]; intros t Hq; [done|].
  cbn [foldl]. rewrite IH.
  - destruct e; try done. exfalso. eapply Hq. by left.
  - intros o n l Hin. eapply Hq. by right.
Qed.

Lemma set_weapon_same t weapon :
  Tubes.m_weapon t = Some weapon → Tubes.set_weapon (Some weapon) t = t.
Proof. destruct t. by intros [= ->]. Qed.

Lemma tube_request_refused newState token t w weapon :
  Tubes.m_weapon t = Some weapon →
  newState ≠ WPN_CTRL_STATE_ABORT →
  Weapon.isValidTransition (Weapon.m_currentState weapon) newState = false →
  ∃ message,
    Tubes.requestWeaponStateChange env newState token (t, w)
    = (failure message,
       (t, emit (EvRequest (Tubes.m_tubeNumber t) newState token
                   (isCancelled token w)) w)).
Proof.
  intros Hweapon Hne Hinv. unfold Tubes.requestWeaponStateChange.
  rewrite Hweapon. eexists.
  rewrite (on_weapon_eq _ _ _ _ _ [] _ _
             (request_invalid env _ _ _ _ Hne Hinv))
    by (by rewrite app_nil_r).
  cbn [foldl]. by rewrite set_weapon_same.
Qed.

Lemma tube_request_abort token t w weapon :
  Tubes.m_weapon t = Some weapon →
  ∃ t' w',
    Tubes.requestWeaponStateChange env WPN_CTRL_STATE_ABORT token (t, w)
    = (success, (t', w'))
    ∧ Tubes.getWeaponState t' = WPN_CTRL_STATE_ABORT
    ∧ Tubes.hasWeapon t' = true.
Proof.
  intros Hweapon. unfold Tubes.requestWeaponStateChange. rewrite Hweapon.
  unfold Tubes.on_weapon. rewrite request_abort.
  eexists _, _. split; [done|].
  unfold Tubes.getWeaponState, Tubes.hasWeapon.
  by destruct (foldl_observe_keeps
                 (drop (length (log (emit (EvRequest (Tubes.m_tubeNumber t)
                                            WPN_CTRL_STATE_ABORT token
                                            (isCancelled token w)) w)))
                    (log (add_log
                            (state_events weapon
                               (Weapon.m_currentState weapon)
                               WPN_CTRL_STATE_ABORT)
                            (cancel (Weapon.m_currentCancellationToken weapon)
                               (cancel
                                  (Weapon.m_currentCancellationToken weapon)
                                  (emit (EvRequest (Tubes.m_tubeNumber t)
                                           WPN_CTRL_STATE_ABORT token
                                           (isCancelled token w)) w))))))
                 (Tubes.set_weapon
                    (Some (moved WPN_CTRL_STATE_ABORT
                             (now (emit (EvRequest (Tubes.m_tubeNumber t)
                                           WPN_CTRL_STATE_ABORT token
                                           (isCancelled token w)) w))
                             weapon)) t)) as (-> & _).
Qed.

(** X22. When [canChangeState] answers no, a request of the manager for
    ABORT on an assigned tube is accepted all the same and leaves the
    weapon in ABORT; any other request is refused, changes no tube and
    cancels no token. *)
Theorem canChangeState_no_means_refused_except_abort request m w :
  let i := ControlRequest.tubeNumber request in
  let newState := ControlRequest.targetState request in
  let out := TubeManager.requestWeaponStateChange env request (m, w) in
  TubeManager.canChangeState m i newState = false →
  if bool_decide (newState = WPN_CTRL_STATE_ABORT)
     && TubeManager.isAssigned m i
  then out.1 = success
       ∧ TubeManager.isAssigned out.2.1 i = true
       ∧ Tubes.Status.weaponState (TubeManager.getTubeStatus out.2.1 i)
         = WPN_CTRL_STATE_ABORT
  else isSuccess out.1 = false
       ∧ (∀ j, Tubes.tube_at out.2.1 j = Tubes.tube_at m j)
       ∧ cancelled out.2.2 = cancelled w.
Proof.
  intros i newState out.
  unfold out, TubeManager.canChangeState, TubeManager.isAssigned,
    TubeManager.requestWeaponStateChange, TubeManager.getTubeStatus.
  cbn [fst snd]. fold i newState.
  destruct (TubeManager.getValidatedTube m i) as [tube|] eqn:Hgv.
  2:{ intros _. rewrite andb_false_r. by cbn. }
  destruct (getValidatedTube_Some _ _ _ Hgv) as [Hvalid Hat].
  unfold TubeManager.on_tube. cbn [fst snd]. rewrite Hat.
  unfold Tubes.hasWeapon.
  destruct (Tubes.m_weapon tube) as [weapon|] eqn:Hweapon.
  - intros Hinv.
    rewrite (bool_decide_true (is_Some (Some weapon))) by (by exists weapon).
    rewrite andb_true_r.
    case_bool_decide as Habort.
    + rewrite Habort.
      destruct (tube_request_abort (ControlRequest.cancellationToken request)
                  tube w weapon Hweapon) as (t' & w' & -> & Hstate & Hhas).
      cbn [fst snd default].
      unfold TubeManager.getValidatedTube.
      change (TubeManager.isValidTubeNumber (Tubes.set_launchTubes _ m) i)
        with (TubeManager.isValidTubeNumber m i).
      rewrite Hvalid, (tube_at_insert_eq _ _ tube) by done. cbn [negb].
      split; [done|]. split; [done|].
      unfold Tubes.getStatus. unfold Tubes.getWeaponState in Hstate.
      unfold Tubes.hasWeapon in Hhas.
      destruct (Tubes.m_weapon t'); [done|].
      by apply bool_decide_eq_true in Hhas as [? ?].
    + destruct (tube_request_refused newState
                  (ControlRequest.cancellationToken request)
                  tube w weapon Hweapon Habort Hinv) as (message & ->).
      cbn [fst snd default isSuccess]. split; [done|]. split; [|done].
      intros j. destruct (decide (j = i)) as [->|Hne].
      * by rewrite (tube_at_insert_eq _ _ tube).
      * by apply tube_at_insert.
  - intros _.
    rewrite (bool_decide_false (is_Some None)) by (by intros [? ?]).
    rewrite andb_false_r.
    unfold Tubes.requestWeaponStateChange. rewrite Hweapon.
    cbn [fst snd default isSuccess Tubes.no_weapon]. split; [done|].
    split; [|done].
    intros j. destruct (decide (j = i)) as [->|Hne].
    * by rewrite (tube_at_insert_eq _ _ tube).
    * by apply tube_at_insert.
Qed.

(** *** A launch through the tube *)

Lemma foldl_observe_stays evs t mgr :
  Tubes.m_engagementMgr t = Some mgr →
  Engagement.isLaunched mgr = true →
  Tubes.m_engagementMgr (foldl (λ t e, Tubes.observe e t) t evs) = Some mgr.
Proof.
  revert t. induction evs as [|e evs IH]; intros t Hmgr Hl; [done|].
  cbn [foldl]. apply IH; [|done].
  by apply (observe_keeps e t).
Qed.

Lemma foldl_observe_launch evs t :
  is_Some (Tubes.m_engagementMgr t) →
  EvLaunchStatusChanged (Tubes.m_tubeNumber t) (Tubes.m_tubeNumber t) true
    ∈ evs →
  ∃ mgr, Tubes.m_engagementMgr (foldl (λ t e, Tubes.observe e t) t evs)
         = Some mgr
         ∧ Engagement.isLaunched mgr = true.
Proof.
  revert t. induction evs as [|e evs IH]; intros t Hmgr Hin.
  - by apply elem_of_nil in Hin.
  - cbn [foldl]. apply elem_of_cons in Hin as [<-|Hin].
    + destruct Hmgr as [mgr Hmgr].
      exists (Engagement.setLaunched true mgr). split.
      * apply foldl_observe_stays; [|by destruct mgr].
        cbn [Tubes.observe]. rewrite bool_decide_true by done.
        unfold Tubes.onLaunchStatusChanged.
        rewrite bool_decide_false by (by intros ?). cbn. by rewrite Hmgr.
      * by destruct mgr.
    + destruct (observe_keeps e t) as (_ & Hn & _ & _ & Hsome & _).
      apply IH; [by apply Hsome|by rewrite Hn].
Qed.

(** X23. A LAUNCH request through the tube that succeeds, on a weapon that is
    ready to launch, was not launched before and is observed by its tube,
    leaves the weapon launched and in POST_LAUNCH and, through the tube's
    [onLaunchStatusChanged], the tube's engagement manager marked as
    launched. *)
Theorem launch_through_the_tube_reaches_the_manager token t w weapon :
  Tubes.m_weapon t = Some weapon →
  is_Some (Tubes.m_engagementMgr t) →
  Weapon.m_currentState weapon = WPN_CTRL_STATE_RTL →
  Weapon.m_launched weapon = false →
  Weapon.m_tubeNumber weapon = Tubes.m_tubeNumber t →
  Tubes.m_tubeNumber t ∈ Weapon.m_observers weapon →
  let out :=
    Tubes.requestWeaponStateChange env WPN_CTRL_STATE_LAUNCH token (t, w) in
  out.1 = success →
  Tubes.isLaunched out.2.1 = true
  ∧ Tubes.getWeaponState out.2.1 = WPN_CTRL_STATE_POST_LAUNCH
  ∧ ∃ mgr, Tubes.m_engagementMgr out.2.1 = Some mgr
           ∧ Engagement.isLaunched mgr = true.
Proof.
  intros Hweapon Hmgr Hstate Hlaunched Hnumber Hobs out. unfold out.
  unfold Tubes.requestWeaponStateChange. rewrite Hweapon.
  set (w1 := emit _ w).
  assert (Weapon.requestStateChange env WPN_CTRL_STATE_LAUNCH token
            (weapon, w1)
          = Weapon.processLaunch env token
              (Weapon.set_currentCancellationToken token weapon, w1))
    as Hrequest.
  { rewrite request_valid; [done|done|]. by rewrite Hstate. }
  destruct (processLaunch_polls env token
              (Weapon.set_currentCancellationToken token weapon) w1 eq_refl)
    as [(_ & k & _ & Hrun)|[_ Hrun]]; cbn zeta in Hrun.
  - unfold Tubes.on_weapon. rewrite Hrequest, Hrun. by cbn.
  - rewrite <- Hrequest in Hrun.
    change (Weapon.m_launched
              (Weapon.set_currentCancellationToken token weapon))
      with (Weapon.m_launched weapon) in Hrun.
    rewrite Hlaunched in Hrun.
    erewrite on_weapon_eq; [|exact Hrun|by rewrite log_add_log, log_slept].
    cbn [fst snd]. intros _.
    match goal with
    | |- context [foldl _ ?t0 ?evs0] =>
        destruct (foldl_observe_keeps evs0 t0) as (Hw & _);
        destruct (foldl_observe_launch evs0 t0) as (mgr & Hm & Hl)
    end.
    + by destruct t.
    + apply elem_of_app. right. apply elem_of_app. left.
      unfold launch_events. apply list_elem_of_fmap.
      exists (Tubes.m_tubeNumber t). split; [|done].
      cbn. by rewrite Hnumber.
    + unfold Tubes.isLaunched, Tubes.getWeaponState. rewrite Hw.
      split; [done|]. split; [done|]. by exists mgr.
Qed.

(** *** The fire solution *)

(** X24. [LaunchTube::calculateEngagementPlan] succeeds exactly when the
    manager can compute a plan. It leaves the plan valid exactly when it
    succeeds, but it only ever sets the weapon's fire-solution flag: the
    flag afterwards is the flag before or the success of the calculation,
    so that a plan that has become invalid does not withdraw it. The
    control state is not touched. *)
Theorem fire_solution_is_set_but_never_withdrawn t w weapon mgr :
  Tubes.m_weapon t = Some weapon →
  Tubes.m_engagementMgr t = Some mgr →
  let out := Tubes.calculateEngagementPlan to_3D (t, w) in
  isSuccess out.1 = plan_computable mgr
  ∧ Tubes.isEngagementPlanValid out.2.1 = isSuccess out.1
  ∧ ∃ weapon',
      Tubes.m_weapon out.2.1 = Some weapon'
      ∧ Weapon.m_fireSolutionReady weapon'
        = Weapon.m_fireSolutionReady weapon || isSuccess out.1
      ∧ Weapon.m_currentState weapon' = Weapon.m_currentState weapon
      ∧ Weapon.m_launched weapon' = Weapon.m_launched weapon.
Proof.
  intros Hweapon Hmgr out. unfold out, Tubes.calculateEngagementPlan.
  rewrite Hweapon, Hmgr.
  unfold Tubes.isEngagementPlanValid, Tubes.notifyEngagementPlanChange.
  destruct mgr as [missile|mine];
    cbn [Engagement.calculateEngagementPlan plan_computable].
  - unfold Engagement.missile_calculateEngagementPlan.
    destruct (Engagement.m_hasValidTarget missile) eqn:Hvalid; cbn [negb].
    + unfold Engagement.missile_calculateTrajectory,
        Engagement.hasValidTarget.
      rewrite Hvalid. cbn.
      destruct (_ || _); cbn; rewrite orb_true_r; eauto 10.
    + cbn. rewrite Hweapon, orb_false_r. eauto 10.
  - cbn. destruct (_ || _); cbn; rewrite orb_true_r; eauto 10.
Qed.

Lemma weapon_update_eq wp w :
  Weapon.update (wp, w)
  = (tt,
     if bool_decide (Weapon.m_currentState wp = WPN_CTRL_STATE_ON) then
       if Weapon.m_fireSolutionReady wp then
         (moved WPN_CTRL_STATE_RTL (now w) wp,
          add_log (state_events wp WPN_CTRL_STATE_ON WPN_CTRL_STATE_RTL) w)
       else (wp, w)
     else if bool_decide (Weapon.m_currentState wp = WPN_CTRL_STATE_RTL) then
       if Weapon.m_fireSolutionReady wp then (wp, w)
       else
         (moved WPN_CTRL_STATE_ON (now w) wp,
          add_log (state_events wp WPN_CTRL_STATE_RTL WPN_CTRL_STATE_ON) w)
     else (wp, w)).
Proof.
  unfold Weapon.update, bind, Weapon.self, Weapon.checkInterlockConditions.
  cbn [fst snd].
  case_bool_decide as Hon.
  - unfold Weapon.self, when. cbn [fst snd].
    destruct (Weapon.m_fireSolutionReady wp); [|done].
    by rewrite setState_eq, Hon.
  - case_bool_decide as Hrtl; [|done].
    unfold Weapon.self, when. cbn [fst snd].
    destruct (Weapon.m_fireSolutionReady wp); [done|]. cbn [negb].
    by rewrite setState_eq, Hrtl.
Qed.

Lemma state_events_quiet wp old new observer tube launched :
  EvLaunchStatusChanged observer tube launched ∉ state_events wp old new.
Proof.
  unfold state_events. intros Hin.
  apply elem_of_cons in Hin as [?|Hin]; [done|].
  case_bool_decide; [|by apply elem_of_nil in Hin].
  by apply list_elem_of_fmap in Hin as (? & ? & _).
Qed.

Lemma engagement_update_computable clock mgr :
  plan_computable (Engagement.update clock mgr) = plan_computable mgr.
Proof. by destruct mgr. Qed.

Lemma tube_calculate_computable t w weapon mgr :
  Tubes.m_weapon t = Some weapon →
  Tubes.m_engagementMgr t = Some mgr →
  plan_computable mgr = true →
  ∃ mgr' last w',
    Tubes.calculateEngagementPlan to_3D (t, w)
    = (success,
       (Tubes.mkLaunchTube (Tubes.m_tubeNumber t)
          (Some (Weapon.set_fireSolutionReady true weapon)) (Some mgr')
          (Tubes.m_assignmentInfo t) last, w'))
    ∧ plan_computable mgr' = true.
Proof.
  intros Hweapon Hmgr Hplan. unfold Tubes.calculateEngagementPlan.
  rewrite Hweapon, Hmgr. unfold Tubes.notifyEngagementPlanChange.
  destruct mgr as [missile|mine];
    cbn [Engagement.calculateEngagementPlan plan_computable] in *.
  - unfold Engagement.missile_calculateEngagementPlan.
    rewrite Hplan. cbn [negb].
    unfold Engagement.missile_calculateTrajectory, Engagement.hasValidTarget.
    rewrite Hplan. cbn.
    destruct (_ || _); cbn; eauto 10.
  - cbn. destruct (_ || _); cbn; eauto 10.
Qed.

(** One tick of a tube whose weapon is not launched and whose manager
    can compute a plan: the weapon takes its own step, with the flag it
    had, and only then is the flag set. *)
Lemma tube_update_step clock t w weapon mgr :
  Tubes.m_weapon t = Some weapon →
  Tubes.m_engagementMgr t = Some mgr →
  Weapon.m_launched weapon = false →
  plan_computable mgr = true →
  ∃ mgr',
    Tubes.m_weapon (Tubes.update to_3D clock (t, w)).2.1
    = Some (Weapon.set_fireSolutionReady true (Weapon.update (weapon, w)).2.1)
    ∧ Tubes.m_engagementMgr (Tubes.update to_3D clock (t, w)).2.1 = Some mgr'
    ∧ plan_computable mgr' = true.
Proof.
  intros Hweapon Hmgr Hlaunched Hplan. unfold Tubes.update.
  rewrite Hweapon.
  assert (∃ evs,
            log (Weapon.update (weapon, w)).2.2 = log w ++ evs
            ∧ (∀ observer tube launched,
                 EvLaunchStatusChanged observer tube launched ∉ evs)
            ∧ Weapon.m_launched (Weapon.update (weapon, w)).2.1 = false)
    as (evs & Hlog & Hquiet & Hl).
  { rewrite weapon_update_eq. cbn [snd].
    destruct (bool_decide (Weapon.m_currentState weapon = WPN_CTRL_STATE_ON)),
      (bool_decide (Weapon.m_currentState weapon = WPN_CTRL_STATE_RTL)),
      (Weapon.m_fireSolutionReady weapon);
      cbn [fst snd];
      first [ exists []; rewrite app_nil_r; split; [done|]; split; [|done];
              intros ? ? ? Hin; by apply elem_of_nil in Hin
            | eexists; split; [apply log_add_log|]; split; [|done];
              intros ? ? ?; apply state_events_quiet ]. }
  destruct (Weapon.update (weapon, w)) as [[] [weapon1 w1]] eqn:Hupdate.
  cbn [fst snd] in *.
  rewrite (on_weapon_eq _ _ _ _ _ evs _ _ Hupdate Hlog).
  rewrite foldl_observe_quiet by done.
  unfold Tubes.isLaunched.
  cbn [Tubes.set_engagementMgr Tubes.set_weapon Tubes.m_weapon
       Tubes.m_engagementMgr Tubes.m_tubeNumber Tubes.m_assignmentInfo
       Tubes.m_lastEngagementResult].
  rewrite Hl, Hmgr. cbn [negb fmap option_fmap option_map].
  destruct (tube_calculate_computable
              (Tubes.set_engagementMgr (Some (Engagement.update clock mgr))
                 (Tubes.set_weapon (Some weapon1) t))
              w1 weapon1 (Engagement.update clock mgr) eq_refl eq_refl)
    as (mgr' & last & w' & -> & Hplan').
  { by rewrite engagement_update_computable. }
  by exists mgr'.
Qed.

(** X25. A weapon that is switched on becomes ready to launch on the second
    tick of its tube, not the first: the tick first lets the weapon take
    its step, with the fire-solution flag it has, and computes the plan
    that sets the flag afterwards. The weapon is not launched, has no
    fire solution yet, and its manager can compute a plan. *)
Theorem weapon_is_ready_on_the_second_tick clock1 clock2 t w weapon mgr :
  Tubes.m_weapon t = Some weapon →
  Tubes.m_engagementMgr t = Some mgr →
  Weapon.m_currentState weapon = WPN_CTRL_STATE_ON →
  Weapon.m_launched weapon = false →
  Weapon.m_fireSolutionReady weapon = false →
  plan_computable mgr = true →
  let first := (Tubes.update to_3D clock1 (t, w)).2 in
  let second := (Tubes.update to_3D clock2 first).2 in
  Tubes.getWeaponState first.1 = WPN_CTRL_STATE_ON
  ∧ Tubes.getWeaponState second.1 = WPN_CTRL_STATE_RTL.
Proof.
  intros Hweapon Hmgr Hstate Hlaunched Hflag Hplan first second.
  destruct (tube_update_step clock1 t w weapon mgr Hweapon Hmgr Hlaunched
              Hplan) as (mgr1 & Hw1 & Hm1 & Hp1).
  fold first in Hw1, Hm1.
  rewrite weapon_update_eq, Hstate, Hflag in Hw1.
  rewrite bool_decide_true in Hw1 by done. cbn [fst snd] in Hw1.
  split.
  { unfold Tubes.getWeaponState. by rewrite Hw1. }
  destruct first as [t1 w1]. cbn [fst snd] in *.
  destruct (tube_update_step clock2 t1 w1 _ mgr1 Hw1 Hm1 Hlaunched Hp1)
    as (mgr2 & Hw2 & _).
  fold second in Hw2.
  rewrite weapon_update_eq in Hw2.
  cbn [Weapon.m_currentState Weapon.set_fireSolutionReady
       Weapon.m_fireSolutionReady] in Hw2.
  rewrite Hstate, bool_decide_true in Hw2 by done. cbn [fst snd] in Hw2.
  unfold Tubes.getWeaponState. by rewrite Hw2.
Qed.

(** *** Emergency stop *)

Lemma tube_request_off token t w weapon :
  Tubes.m_weapon t = Some weapon →
  Weapon.isValidTransition (Weapon.m_currentState weapon) WPN_CTRL_STATE_OFF
  = true →
  ∃ t' w',
    Tubes.requestWeaponStateChange env WPN_CTRL_STATE_OFF token (t, w)
    = (success, (t', w'))
    ∧ Tubes.getWeaponState t' = WPN_CTRL_STATE_OFF.
Proof.
  intros Hweapon Hvalid. unfold Tubes.requestWeaponStateChange.
  rewrite Hweapon. unfold Tubes.on_weapon.
  rewrite request_valid, processTurnOff_eq by done.
  eexists _, _. split; [done|].
  unfold Tubes.getWeaponState.
  match goal with
  | |- context [foldl _ ?t0 ?evs0] =>
      by destruct (foldl_observe_keeps evs0 t0) as (-> & _)
  end.
Qed.

Lemma emergencyStop_body_state i acc m w tube :
  Tubes.tube_at m i = Some tube →
  Tubes.hasWeapon tube = true →
  let out := Tubes.emergencyStop_body env i acc (m, w) in
  (∃ tube', Tubes.tube_at out.2.1 i = Some tube'
            ∧ Tubes.getWeaponState tube'
              = after_emergency_stop (Tubes.getWeaponState tube))
  ∧ out.1.1
    = acc.1 && emergency_stop_accepted (Tubes.getWeaponState tube).
Proof.
  intros Htube Hhas. cbn zeta.
  unfold Tubes.emergencyStop_body. rewrite Htube.
  unfold after_emergency_stop, emergency_stop_accepted.
  unfold Tubes.hasWeapon in Hhas. apply bool_decide_eq_true in Hhas.
  destruct Hhas as [weapon Hweapon].
  assert (Tubes.getWeaponState tube = Weapon.m_currentState weapon) as Hstate
    by (unfold Tubes.getWeaponState; by rewrite Hweapon).
  rewrite Hstate.
  destruct (newToken w) as [token w1].
  case_bool_decide as Hlaunch.
  - rewrite bool_decide_true by done.
    destruct (tube_request_abort token tube (cancel token w1) weapon Hweapon)
      as (t' & w' & -> & Hs' & _).
    cbn [fst snd]. rewrite (tube_at_insert_eq _ _ tube) by done.
    split; [by exists t'|]. by rewrite andb_true_r.
  - rewrite bool_decide_false by done. cbn [orb].
    destruct (Weapon.isValidTransition (Weapon.m_currentState weapon)
                WPN_CTRL_STATE_OFF) eqn:Hvalid.
    + destruct (tube_request_off token tube w1 weapon Hweapon Hvalid)
        as (t' & w' & -> & Hs').
      cbn [fst snd]. rewrite (tube_at_insert_eq _ _ tube) by done.
      split; [by exists t'|]. by rewrite andb_true_r.
    + destruct (tube_request_refused WPN_CTRL_STATE_OFF token tube w1 weapon
                  Hweapon) as (message & ->); [done|done|].
      cbn [fst snd]. rewrite (tube_at_insert_eq _ _ tube) by done.
      split; [by exists tube|]. by rewrite andb_false_r.
Qed.

Lemma emergencyStop_loop_state idxs acc m w :
  NoDup idxs →
  (∀ i, i ∈ idxs → ∃ tube, Tubes.tube_at m i = Some tube
                           ∧ Tubes.hasWeapon tube = true) →
  let out := Tubes.emergencyStop_loop env idxs acc (m, w) in
  (∀ i tube, i ∈ idxs → Tubes.tube_at m i = Some tube →
     ∃ tube', Tubes.tube_at out.2.1 i = Some tube'
              ∧ Tubes.getWeaponState tube'
                = after_emergency_stop (Tubes.getWeaponState tube))
  ∧ (∀ j, j ∉ idxs → Tubes.tube_at out.2.1 j = Tubes.tube_at m j)
  ∧ (out.1.1 = true
     ↔ acc.1 = true
       ∧ ∀ i tube, i ∈ idxs → Tubes.tube_at m i = Some tube →
           emergency_stop_accepted (Tubes.getWeaponState tube) = true).
Proof.
  revert acc m w. induction idxs as [|i idxs IH]; intros acc m w Hnd Hall.
  { cbn. split; [by intros ? ? Hin; apply elem_of_nil in Hin|].
    split; [done|]. split; [|by intros [? _]].
    intros Ha. split; [done|]. by intros ? ? Hin; apply elem_of_nil in Hin. }
  apply NoDup_cons in Hnd as [Hi Hnd].
  destruct (Hall i) as (tube & Htube & Hhas); [by left|].
  cbn [Tubes.emergencyStop_loop].
  destruct (emergencyStop_body_log env i acc m w tube Htube) as (Hother & _).
  destruct (emergencyStop_body_state i acc m w tube Htube Hhas)
    as ((tube1 & Htube1 & Hstate1) & Hacc).
  destruct (Tubes.emergencyStop_body env i acc (m, w)) as [acc' [m' w']].
  cbn [fst snd] in *.
  destruct (IH acc' m' w' Hnd) as (Hstates & Hrest & Hok).
  { intros j Hj. rewrite Hother by (by intros ->). apply Hall. by right. }
  cbn zeta in *. split; [|split].
  - intros j tubej Hj Hat. apply elem_of_cons in Hj as [->|Hj].
    + rewrite Hrest by done. rewrite Htube in Hat. injection Hat as <-.
      by exists tube1.
    + apply Hstates; [done|]. rewrite Hother; [done|by intros ->].
  - intros j Hj. rewrite Hrest.
    + apply Hother. intros ->. apply Hj. by left.
    + intros Hin. apply Hj. by right.
  - rewrite Hok, Hacc, andb_true_iff. split.
    + intros [[Ha Hb] Hc]. split; [done|].
      intros j tubej Hj Hat. apply elem_of_cons in Hj as [->|Hj].
      * rewrite Htube in Hat. by injection Hat as <-.
      * apply (Hc j); [done|]. rewrite Hother; [done|by intros ->].
    + intros [Ha Hb]. split; [split; [done|]|].
      * apply (Hb i); [by left|done].
      * intros j tubej Hj Hat. apply (Hb j); [by right|].
        rewrite <- Hother; [done|by intros ->].
Qed.

(** X26. [emergencyStop] leaves the weapon of every assigned tube aborted
    when it was in LAUNCH, switched off when the transition table lets it
    be switched off, and as it was otherwise; it touches no other tube.
    It reports success exactly when every request was accepted: a weapon
    that is already off, or in its power-on check, makes it report a
    failure. The tube numbers stay below the largest [uint16_t], so that
    the loop that collects the assigned tubes ends. *)
Theorem emergency_stop_outcome m w :
  tube_counter_fits m →
  let out := Tubes.emergencyStop env (m, w) in
  (∀ i tube, i ∈ Tubes.getAssignedTubes m → Tubes.tube_at m i = Some tube →
     ∃ tube', Tubes.tube_at out.2.1 i = Some tube'
              ∧ Tubes.getWeaponState tube'
                = after_emergency_stop (Tubes.getWeaponState tube))
  ∧ (∀ j, j ∉ Tubes.getAssignedTubes m →
          Tubes.tube_at out.2.1 j = Tubes.tube_at m j)
  ∧ (out.1 = success
     ↔ ∀ i tube, i ∈ Tubes.getAssignedTubes m →
                 Tubes.tube_at m i = Some tube →
                 Tubes.getWeaponState tube ≠ WPN_CTRL_STATE_OFF
                 ∧ Tubes.getWeaponState tube ≠ WPN_CTRL_STATE_POC).
Proof.
  intros _ out. unfold out, Tubes.emergencyStop. cbn [fst snd].
  destruct (emergencyStop_loop_state (Tubes.getAssignedTubes m)
              (true, EmptyString) m w (getAssignedTubes_NoDup m)
              (getAssignedTubes_assigned m)) as (Hstates & Hrest & Hok).
  cbn zeta in *.
  destruct (Tubes.emergencyStop_loop env (Tubes.getAssignedTubes m)
              (true, EmptyString) (m, w)) as [[allSuccess errors] s'].
  cbn [fst snd] in *.
  assert (∀ state,
            emergency_stop_accepted state = true
            ↔ state ≠ WPN_CTRL_STATE_OFF ∧ state ≠ WPN_CTRL_STATE_POC)
    as Haccepted.
  { intros state. by destruct state; vm_compute; split; try done;
      intros [? ?]. }
  assert (allSuccess = true
          ↔ ∀ i tube, i ∈ Tubes.getAssignedTubes m →
                      Tubes.tube_at m i = Some tube →
                      Tubes.getWeaponState tube ≠ WPN_CTRL_STATE_OFF
                      ∧ Tubes.getWeaponState tube ≠ WPN_CTRL_STATE_POC)
    as Hall.
  { rewrite Hok. split.
    - intros [_ H] i tube Hi Hat. apply Haccepted. by apply (H i).
    - intros H. split; [done|]. intros i tube Hi Hat.
      apply Haccepted. by apply (H i). }
  destruct allSuccess; cbn [fst snd].
  - split; [done|]. split; [done|]. split; [intros _|done]. by apply Hall.
  - split; [done|]. split; [done|]. split; [done|].
    intros H. by apply Hall in H.
Qed.

(** *** Loops over the tubes *)

Lemma foldl_modify_tube_NoDup f idxs m j :
  NoDup idxs →
  Tubes.tube_at (foldl (λ m i, TubeManager.modify_tube i f m) m idxs) j
  = if decide (j ∈ idxs) then f <$> Tubes.tube_at m j
    else Tubes.tube_at m j.
Proof.
  intros Hnd. revert m.
  induction Hnd as [|i idxs Hi Hnd IH]; intros m; cbn [foldl].
  { rewrite decide_False; [done|]. by intros Hin%elem_of_nil. }
  rewrite IH. destruct (decide (i = j)) as [->|Hne].
  - rewrite (decide_True (P := j ∈ j :: idxs)) by (by left).
    rewrite decide_False by done.
    destruct (Tubes.tube_at m j) as [tube|] eqn:Hat.
    + by rewrite (modify_tube_eq _ _ _ _ Hat).
    + unfold TubeManager.modify_tube. by rewrite Hat, Hat.
  - rewrite modify_tube_ne by done.
    destruct (decide (j ∈ idxs)) as [Hin|Hin].
    + rewrite decide_True; [done|by right].
    + rewrite decide_False; [done|].
      intros [?|?]%elem_of_cons; [by subst|done].
Qed.

Lemma foldl_modify_tube_valid f idxs m j :
  TubeManager.isValidTubeNumber
    (foldl (λ m i, TubeManager.modify_tube i f m) m idxs) j
  = TubeManager.isValidTubeNumber m j.
Proof.
  revert m. induction idxs as [|i idxs IH]; intros m; cbn [foldl]; [done|].
  by rewrite IH, modify_tube_valid.
Qed.

(** X27. [LaunchTubeManager::updateTargetInfo] remembers the track under its
    system target id and hands it to the assigned tubes. A tube that
    holds a missile waiting for this id has a valid target afterwards,
    the track's, with a plan computed and valid; every other tube is as
    it was. The tube numbers stay below the largest [uint16_t], so that
    the loop that collects the assigned tubes ends. *)
Theorem track_reaches_the_waiting_missiles target e m :
  tube_counter_fits m →
  let out := TubeManager.updateTargetInfo to_3D target e m in
  TubeManager.m_targetInfoMap out.1 !! unTargetSystemID target = Some target
  ∧ (∀ other, other ≠ unTargetSystemID target →
       TubeManager.m_targetInfoMap out.1 !! other
       = TubeManager.m_targetInfoMap e !! other)
  ∧ (∀ j tube,
       TubeManager.getValidatedTube m j = Some tube → awaits target tube →
       ∃ tube' missile,
         TubeManager.getValidatedTube out.2 j = Some tube'
         ∧ Tubes.m_weapon tube' = Tubes.m_weapon tube
         ∧ Tubes.m_engagementMgr tube' = Some (Engagement.Missile missile)
         ∧ Engagement.hasValidTarget missile = true
         ∧ Engagement.m_targetInfo missile = target
         ∧ Tubes.isEngagementPlanValid tube' = true)
  ∧ (∀ j tube,
       Tubes.tube_at m j = Some tube → ¬ awaits target tube →
       Tubes.tube_at out.2 j = Some tube).
Proof.
  intros _ out. unfold out, TubeManager.updateTargetInfo. cbn [fst snd].
  cbn [TubeManager.m_targetInfoMap].
  split; [by rewrite lookup_insert_eq|].
  split; [by intros other Hne; rewrite lookup_insert_ne|].
  split.
  - intros j tube Hgv (Hhas & missile & Hmgr & Hid & Heq).
    destruct (getValidatedTube_Some _ _ _ Hgv) as [Hvalid Hat].
    unfold TubeManager.getValidatedTube.
    rewrite foldl_modify_tube_valid, Hvalid. cbn [negb].
    rewrite foldl_modify_tube_NoDup by apply getAssignedTubes_NoDup.
    rewrite decide_True, Hat.
    2:{ unfold Tubes.getAssignedTubes. apply list_elem_of_filter. split.
        - unfold Tubes.assigned_at. rewrite Hat. by apply Is_true_true.
        - apply isValidTubeNumber_spec in Hvalid. apply elem_of_seq. lia. }
    cbn [fmap option_fmap option_map].
    unfold Tubes.updateTargetInfo. rewrite Hmgr.
    eexists _, _. split; [done|]. cbn.
    unfold Tubes.isEngagementPlanValid. cbn.
    unfold Tubes.hasWeapon in Hhas. apply bool_decide_eq_true in Hhas.
    destruct Hhas as [weapon ->].
    unfold Engagement.updateTargetInfo.
    rewrite bool_decide_true by done.
    rewrite bool_decide_true by done. cbn. done.
  - intros j tube Hat Hnot.
    rewrite foldl_modify_tube_NoDup by apply getAssignedTubes_NoDup.
    destruct (decide (j ∈ Tubes.getAssignedTubes m)) as [Hin|Hin]; [|done].
    rewrite Hat. cbn [fmap option_fmap option_map]. f_equal.
    destruct (getAssignedTubes_assigned _ _ Hin) as (tube0 & Hat0 & Hhas).
    rewrite Hat in Hat0. injection Hat0 as <-.
    unfold Tubes.updateTargetInfo.
    destruct (Tubes.m_engagementMgr tube) as [[missile|mine]|] eqn:Hmgr;
      [|done|done].
    unfold Engagement.updateTargetInfo.
    destruct (decide (Engagement.m_systemTargetId missile ≠ 0)) as [Hid|Hid].
    + destruct (decide (unTargetSystemID target
                        = Engagement.m_systemTargetId missile)) as [Heq|Hne].
      * exfalso. apply Hnot. split; [done|]. by exists missile.
      * rewrite (bool_decide_false _ Hne), andb_false_r.
        destruct tube. cbn in *. by rewrite Hmgr.
    + rewrite (bool_decide_false _ Hid). cbn [andb].
      destruct tube. cbn in *. by rewrite Hmgr.
Qed.

(** *** Shutdown *)

Lemma shutdown_body_spec i m w :
  let body := λ (s : Tubes.LaunchTubeManager * World) i,
    match Tubes.tube_at s.1 i with
    | Some tube =>
        if Tubes.hasWeapon tube
        then (TubeManager.on_tube i Tubes.clearAssignment s).2 else s
    | None => s
    end in
  let out := body (m, w) i in
  (∀ j, Tubes.tube_at out.1 j
        = if decide (j = i) then
            (λ tube, if Tubes.hasWeapon tube then cleared tube else tube)
              <$> Tubes.tube_at m j
          else Tubes.tube_at m j)
  ∧ cancelled w ⊆ cancelled out.2
  ∧ (∀ tube weapon, Tubes.tube_at m i = Some tube →
                    Tubes.m_weapon tube = Some weapon →
                    Weapon.m_currentCancellationToken weapon
                      ∈ cancelled out.2)
  ∧ Tubes.m_minTubeNumber out.1 = Tubes.m_minTubeNumber m
  ∧ Tubes.m_maxTubeNumber out.1 = Tubes.m_maxTubeNumber m.
Proof.
  clear env.
  cbn zeta. cbn [fst snd].
  destruct (Tubes.tube_at m i) as [tube|] eqn:Hat.
  2:{ split; [|done]. intros j. case_decide; [subst; by rewrite Hat|done]. }
  destruct (Tubes.hasWeapon tube) eqn:Hhas.
  - unfold TubeManager.on_tube. cbn [fst snd].
    rewrite Hat, clearAssignment_eq. cbn [fst snd].
    split; [|split; [|split; [|done]]].
    + intros j. case_decide as Hj.
      * subst j. rewrite (tube_at_insert_eq _ _ tube) by done.
        by rewrite Hat; cbn; rewrite Hhas.
      * by apply tube_at_insert.
    + destruct (Tubes.m_weapon tube); [|done].
      unfold cancel, emit. cbn [cancelled]. set_solver.
    + intros tube0 weapon [= <-] ->.
      unfold cancel, emit. cbn [cancelled]. set_solver.
  - split; [|split; [done|split; [|done]]].
    + intros j. case_decide; [|done].
      subst. rewrite Hat. cbn. by rewrite Hhas.
    + intros tube0 weapon [= <-] Hweapon.
      unfold Tubes.hasWeapon in Hhas. rewrite Hweapon in Hhas.
      apply bool_decide_eq_false in Hhas. destruct Hhas. by eexists.
Qed.

Lemma shutdown_loop_spec idxs m w :
  NoDup idxs →
  let body := λ (s : Tubes.LaunchTubeManager * World) i,
    match Tubes.tube_at s.1 i with
    | Some tube =>
        if Tubes.hasWeapon tube
        then (TubeManager.on_tube i Tubes.clearAssignment s).2 else s
    | None => s
    end in
  let out := foldl body (m, w) idxs in
  (∀ j, Tubes.tube_at out.1 j
        = if decide (j ∈ idxs) then
            (λ tube, if Tubes.hasWeapon tube then cleared tube else tube)
              <$> Tubes.tube_at m j
          else Tubes.tube_at m j)
  ∧ cancelled w ⊆ cancelled out.2
  ∧ (∀ i tube weapon, i ∈ idxs → Tubes.tube_at m i = Some tube →
                      Tubes.m_weapon tube = Some weapon →
                      Weapon.m_currentCancellationToken weapon
                        ∈ cancelled out.2)
  ∧ Tubes.m_minTubeNumber out.1 = Tubes.m_minTubeNumber m
  ∧ Tubes.m_maxTubeNumber out.1 = Tubes.m_maxTubeNumber m.
Proof.
  clear env.
  intros Hnd. revert m w.
  induction Hnd as [|i idxs Hi Hnd IH]; intros m w; cbn zeta; cbn [foldl].
  { cbn [fst snd]. split.
    - intros j. rewrite decide_False; [done|]. by intros Hin%elem_of_nil.
    - split; [done|]. split; [|done].
      by intros ? ? ? Hin%elem_of_nil. }
  destruct (shutdown_body_spec i m w) as (Hat1 & Hc1 & Htok1 & Hmin1 & Hmax1).
  cbn zeta in *.
  match goal with
  | |- context [foldl _ ?s1 idxs] => destruct s1 as [m1 w1] eqn:Hs1
  end.
  cbn [fst snd] in *.
  destruct (IH m1 w1) as (Hat & Hc & Htok & Hmin & Hmax). cbn zeta in *.
  split; [|split; [|split; [|split]]].
  - intros j. rewrite Hat, Hat1.
    destruct (decide (j = i)) as [->|Hne].
    + rewrite decide_False by done. rewrite decide_True; [done|by left].
    + destruct (decide (j ∈ idxs)) as [Hin|Hin].
      * rewrite decide_True; [done|by right].
      * rewrite decide_False; [done|].
        intros [?|?]%elem_of_cons; [by subst|done].
  - by etrans.
  - intros j tube weapon Hj Htube Hweapon.
    apply elem_of_cons in Hj as [->|Hj].
    + apply Hc. by apply (Htok1 tube).
    + apply (Htok j tube weapon); [done| |done].
      rewrite Hat1. rewrite decide_False; [done|by intros ->].
  - by rewrite Hmin.
  - by rewrite Hmax.
Qed.

(** X28. After [shutdown] no tube holds a weapon: every tube of the range
    that held one is as [clearAssignment] leaves it, empty but for the
    engagement result it last reported, and the token of the last
    operation of its weapon is cancelled; the other tubes are as they
    were, and the manager counts as not initialised. The tube numbers
    stay below the largest [uint16_t], so that the loop ends. *)
Theorem shutdown_unassigns_every_tube m w :
  tube_counter_fits m →
  let out := TubeManager.shutdown (m, w) in
  Tubes.m_initialized out.1 = false
  ∧ Tubes.getAssignedTubes out.1 = []
  ∧ (∀ i, TubeManager.isAssigned out.1 i = false)
  ∧ (∀ i tube, Tubes.tube_at m i = Some tube →
       Tubes.tube_at out.1 i
       = Some (if TubeManager.isAssigned m i then cleared tube else tube))
  ∧ (∀ i tube weapon,
       TubeManager.getValidatedTube m i = Some tube →
       Tubes.m_weapon tube = Some weapon →
       isCancelled (Weapon.m_currentCancellationToken weapon) out.2 = true).
Proof.
  clear env.
  intros _ out. unfold out, TubeManager.shutdown. cbn [fst snd].
  destruct (shutdown_loop_spec (TubeManager.tube_numbers m) m w)
    as (Hat & _ & Htok & Hmin & Hmax); [apply NoDup_seq|].
  cbn zeta in *.
  match type of Hmin with
  | Tubes.m_minTubeNumber (fst ?r) = _ =>
      match goal with
      | |- context [foldl ?f (m, w) ?l] => change (foldl f (m, w) l) with r
      end;
      destruct r as [m1 w1]
  end.
  cbn [fst snd] in *.
  set (m2 := Tubes.mkManager _ _ _ _ false).
  assert (∀ j, Tubes.tube_at m2 j = Tubes.tube_at m1 j) as Hsame by done.
  assert (∀ j, TubeManager.isValidTubeNumber m2 j
               = TubeManager.isValidTubeNumber m j) as Hvalid.
  { intros j. unfold TubeManager.isValidTubeNumber, m2. cbn.
    by rewrite Hmin, Hmax. }
  assert (∀ i, TubeManager.isAssigned m2 i = false) as Hnone.
  { intros i. unfold TubeManager.isAssigned, TubeManager.getValidatedTube.
    rewrite Hvalid.
    destruct (TubeManager.isValidTubeNumber m i) eqn:Hv; cbn [negb]; [|done].
    rewrite Hsame, Hat.
    rewrite decide_True by (by apply elem_of_tube_numbers).
    destruct (Tubes.tube_at m i) as [tube|]; [|done]. cbn.
    by destruct (Tubes.hasWeapon tube) eqn:Hhas. }
  split; [done|]. split; [|split; [done|split]].
  - apply elem_of_nil_inv. intros i Hi.
    apply list_elem_of_filter in Hi as [Hi Hrange].
    pose proof (Hnone i) as Hn.
    unfold TubeManager.isAssigned, TubeManager.getValidatedTube in Hn.
    assert (TubeManager.isValidTubeNumber m2 i = true) as Hv.
    { apply isValidTubeNumber_spec. apply elem_of_seq in Hrange. lia. }
    rewrite Hv in Hn. cbn [negb] in Hn.
    unfold Tubes.assigned_at in Hi.
    destruct (Tubes.tube_at m2 i); [|done]. by rewrite Hn in Hi.
  - intros i tube Htube. rewrite Hsame, Hat, Htube.
    unfold TubeManager.isAssigned, TubeManager.getValidatedTube.
    destruct (TubeManager.isValidTubeNumber m i) eqn:Hv; cbn [negb].
    + rewrite decide_True by (by apply elem_of_tube_numbers).
      by rewrite Htube.
    + rewrite decide_False; [done|].
      intros Hin%elem_of_tube_numbers. by rewrite Hin in Hv.
  - intros i tube weapon Hgv Hweapon.
    destruct (getValidatedTube_Some _ _ _ Hgv) as [Hv Htube].
    apply bool_decide_eq_true.
    apply (Htok i tube weapon); [by apply elem_of_tube_numbers|done|done].
Qed.

End TubeOperations.
(* ===================================================================== *)
(** ** The target tracking service *)
(* ===================================================================== *)

Lemma clearOldTargets_free maxAge now s :
  Tracking.m_targetsMutex s = false →
  Tracking.clearOldTargets maxAge now s
  = Tracking.Returned
      (tt,
       Tracking.mkService
         (filter (λ entry,
                    Qltb maxAge (now - Tracking.lastUpdateTime entry.2)
                    = false)
                 (Tracking.m_targets s)) false).
Proof.
  intros Hfree. unfold Tracking.clearOldTargets, Tracking.locked.
  by rewrite Hfree.
Qed.

(** X29. Called while nobody holds the lock, [clearOldTargets] returns and
    keeps exactly the tracks whose last update is no older than [maxAge]
    at the clock reading it makes; it adds none, so the count does not
    grow, and it leaves the lock free. *)
Theorem clearOldTargets_keeps_exactly_the_fresh maxAge now s :
  Tracking.m_targetsMutex s = false →
  ∃ s',
    Tracking.clearOldTargets maxAge now s = Tracking.Returned (tt, s')
    ∧ Tracking.m_targetsMutex s' = false
    ∧ (∀ id data,
         Tracking.m_targets s' !! id = Some data
         ↔ Tracking.m_targets s !! id = Some data
           ∧ (now - Tracking.lastUpdateTime data <= maxAge)%Q)
    ∧ size (Tracking.m_targets s') ≤ size (Tracking.m_targets s).
Proof.
  intros Hfree. eexists. split; [by apply clearOldTargets_free|].
  cbn [Tracking.m_targetsMutex Tracking.m_targets].
  split; [done|]. split.
  - intros id data. rewrite map_lookup_filter_Some. cbn [snd].
    by rewrite Qltb_ge.
  - apply map_subseteq_size, map_filter_subseteq.
Qed.

(** X30. [updateTargetInfo], called while nobody holds the lock, returns
    exactly when no cleanup is due, that is when the clock is at most one
    minute past the last cleanup (the first call takes the clock as the
    last cleanup). It then has stored the track under its id, stamped
    with the clock, left the other tracks alone and freed the lock, and
    [getTarget] finds the track. When a cleanup is due the call enters
    [clearOldTargets] with the lock held, which locks it a second time:
    the call does not return, and no cleanup is ever made from here. *)
Theorem updateTargetInfo_returns_unless_cleanup_is_due
    targetInfo clock lastCleanup s :
  Tracking.m_targetsMutex s = false →
  let last := default (clock 1) lastCleanup in
  let now := clock (match lastCleanup with Some _ => 1 | None => 2 end) in
  match Tracking.updateTargetInfo targetInfo clock lastCleanup s with
  | Tracking.LocksAgain => (60 < now - last)%Q
  | Tracking.Returned (lastCleanup', s') =>
      ¬ (60 < now - last)%Q
      ∧ lastCleanup' = Some last
      ∧ Tracking.m_targetsMutex s' = false
      ∧ Tracking.m_targets s'
        = <[unTargetSystemID targetInfo
            := Tracking.mkTargetData targetInfo (clock 0)]>
            (Tracking.m_targets s)
      ∧ Tracking.getTarget (unTargetSystemID targetInfo) s'
        = Tracking.Returned (Some targetInfo, s')
  end.
Proof.
  intros Hfree last now.
  unfold Tracking.updateTargetInfo, Tracking.locked. rewrite Hfree.
  unfold last, now.
  destruct lastCleanup as [t|]; cbn [default].
  all: destruct (Qltb 60 _) eqn:Hdue.
  all: try (cbn; by apply Qltb_lt in Hdue).
  all: cbn; split; [by intros H%Qltb_lt; rewrite H in Hdue|].
  all: split; [done|]; split; [done|]; split; [done|].
  all: unfold Tracking.getTarget, Tracking.locked; cbn.
  all: by rewrite lookup_insert_eq; destruct s.
Qed.

(** *** Examples *)

(** A manager for six tubes has nothing assigned after [initialize]. *)
Lemma initialize_creates_the_empty_tubes_witness :
  Tubes.getAssignedTubes six_tubes = [].
Proof.
  destruct (initialize_creates_the_empty_tubes 6 0) as (_ & _ & H & _).
  - reflexivity.
  - exact H.
Defined.

(** An ALM is assigned to tube 2 of six empty tubes. *)
Lemma assigned_weapon_is_off_and_observed_witness :
  TubeManager.isAssigned
    (TubeManager.assignWeapon (λ _, zero_position) 3 0 alm_for_tube_2
       TubeManager.new_Environment (six_tubes, world0)).2.1 2 = true.
Proof.
  destruct (assigned_weapon_is_off_and_observed (λ _, zero_position) 3 0
              alm_for_tube_2 TubeManager.new_Environment six_tubes world0)
    as (_ & H & _).
  - vm_compute. reflexivity.
  - exact H.
Defined.

(** Tube 2 is ready to launch: it cannot be switched on, and a request
    to switch it on is refused. *)
Lemma canChangeState_no_means_refused_except_abort_witness :
  isSuccess
    (TubeManager.requestWeaponStateChange quiet
       (ControlRequest.mkRequest 2 WPN_CTRL_STATE_ON 5)
       two_assigned_tubes).1 = false.
Proof.
  exact (proj1 (canChangeState_no_means_refused_except_abort quiet
                  (ControlRequest.mkRequest 2 WPN_CTRL_STATE_ON 5)
                  two_assigned_tubes.1 two_assigned_tubes.2 eq_refl)).
Defined.

(** Tube 2, ready to launch, is launched with nobody cancelling. *)
Lemma launch_through_the_tube_reaches_the_manager_witness :
  Tubes.isLaunched
    (Tubes.requestWeaponStateChange quiet WPN_CTRL_STATE_LAUNCH 5
       (tube_with 2 WPN_CTRL_STATE_RTL 1, mkWorld ∅ 6 0 [])).2.1 = true.
Proof.
  destruct (launch_through_the_tube_reaches_the_manager quiet 5
              (tube_with 2 WPN_CTRL_STATE_RTL 1) (mkWorld ∅ 6 0 [])
              (Weapon.mkWeaponBase WPN_KIND_ALM 2 WPN_CTRL_STATE_RTL false
                 true
                 [ Weapon.mkLaunchStep "ALM Power On Check" 1;
                   Weapon.mkLaunchStep "ALM System Verification" 1;
                   Weapon.mkLaunchStep "ALM Launch Sequence" 1 ]
                 3 [2] 0 1)) as (H & _).
  - reflexivity.
  - eexists. reflexivity.
  - reflexivity.
  - reflexivity.
  - reflexivity.
  - apply list_elem_of_here.
  - vm_compute. reflexivity.
  - exact H.
Defined.

(** The manager of tube 2 lost its target: the plan is not valid, and the
    weapon keeps its fire solution. *)
Lemma fire_solution_is_set_but_never_withdrawn_witness :
  let out :=
    Tubes.calculateEngagementPlan (λ _, zero_position)
      (tube_with 2 WPN_CTRL_STATE_RTL 1, world0) in
  isSuccess out.1 = false
  ∧ Tubes.isEngagementPlanValid out.2.1 = false
  ∧ Weapon.m_fireSolutionReady <$> Tubes.m_weapon out.2.1 = Some true.
Proof.
  destruct (fire_solution_is_set_but_never_withdrawn (λ _, zero_position)
              (tube_with 2 WPN_CTRL_STATE_RTL 1) world0
              (Weapon.mkWeaponBase WPN_KIND_ALM 2 WPN_CTRL_STATE_RTL false
                 true
                 [ Weapon.mkLaunchStep "ALM Power On Check" 1;
                   Weapon.mkLaunchStep "ALM System Verification" 1;
                   Weapon.mkLaunchStep "ALM Launch Sequence" 1 ]
                 3 [2] 0 1)
              (Engagement.Missile
                 (Engagement.new_MissileEngagementManager
                    Engagement.ALMEngagementManager 0)))
    as (H1 & H2 & weapon' & H3 & H4 & _).
  - reflexivity.
  - reflexivity.
  - cbn zeta. rewrite H2, H3, H1. cbn. rewrite H4, H1. done.
Defined.

(** Tube 2 was just switched on and has a target. *)
Lemma weapon_is_ready_on_the_second_tick_witness :
  Tubes.getWeaponState
    (Tubes.update (λ _, zero_position) 2
       (Tubes.update (λ _, zero_position) 1 (tube_switched_on, world0)).2).2.1
  = WPN_CTRL_STATE_RTL.
Proof.
  destruct (weapon_is_ready_on_the_second_tick (λ _, zero_position) 1 2
              tube_switched_on world0
              (Weapon.mkWeaponBase WPN_KIND_ALM 2 WPN_CTRL_STATE_ON false
                 false
                 [ Weapon.mkLaunchStep "ALM Power On Check" 1;
                   Weapon.mkLaunchStep "ALM System Verification" 1;
                   Weapon.mkLaunchStep "ALM Launch Sequence" 1 ]
                 3 [2] 0 1)
              (Engagement.Missile
                 (Engagement.setTargetPosition (λ _, zero_position)
                    (SGeo.mkSGeo 36 130 0)
                    (Engagement.new_MissileEngagementManager
                       Engagement.ALMEngagementManager 0)).2))
    as (_ & H).
  - reflexivity.
  - reflexivity.
  - reflexivity.
  - reflexivity.
  - reflexivity.
  - reflexivity.
  - exact H.
Defined.

(** Six tubes, of which tube 1 is launching and tube 2 is ready: tube 3
    is not touched. *)
Lemma emergency_stop_outcome_witness :
  Tubes.tube_at (Tubes.emergencyStop quiet two_assigned_tubes).2.1 3
  = Tubes.tube_at two_assigned_tubes.1 3.
Proof.
  destruct (emergency_stop_outcome quiet two_assigned_tubes.1
              two_assigned_tubes.2) as (_ & H & _).
  - reflexivity.
  - apply (H 3). vm_compute. intros Hin.
    repeat (apply elem_of_cons in Hin as [Hin|Hin]; [discriminate Hin|]).
    by apply elem_of_nil in Hin.
Defined.

(** Track 42 arrives at a manager of six tubes. *)
Lemma track_reaches_the_waiting_missiles_witness :
  TubeManager.m_targetInfoMap
    (TubeManager.updateTargetInfo (λ _, zero_position) track_42
       TubeManager.new_Environment two_assigned_tubes.1).1 !! 42
  = Some track_42.
Proof.
  destruct (track_reaches_the_waiting_missiles (λ _, zero_position) track_42
              TubeManager.new_Environment two_assigned_tubes.1)
    as (H & _).
  - reflexivity.
  - exact H.
Defined.

(** The same six tubes are shut down. *)
Lemma shutdown_unassigns_every_tube_witness :
  Tubes.getAssignedTubes (TubeManager.shutdown two_assigned_tubes).1 = [].
Proof.
  destruct (shutdown_unassigns_every_tube two_assigned_tubes.1
              two_assigned_tubes.2) as (_ & H & _).
  - reflexivity.
  - exact H.
Defined.

(** A track updated at second 10 is looked at at second 400 with a limit
    of five minutes. *)
Lemma clearOldTargets_keeps_exactly_the_fresh_witness :
  ∃ s',
    Tracking.clearOldTargets 300 400
      (Tracking.mkService
         {[ 42 := Tracking.mkTargetData track_42 10 ]} false)
    = Tracking.Returned (tt, s')
    ∧ Tracking.m_targetsMutex s' = false.
Proof.
  destruct (clearOldTargets_keeps_exactly_the_fresh 300 400
              (Tracking.mkService
                 {[ 42 := Tracking.mkTargetData track_42 10 ]} false))
    as (s' & H1 & H2 & _).
  - reflexivity.
  - exists s'. split; [exact H1|exact H2].
Defined.

(** The first track, with a clock that stands still. *)
Lemma updateTargetInfo_returns_unless_cleanup_is_due_witness :
  match Tracking.updateTargetInfo track_42 (λ _, 0%Q) None
          Tracking.new_TargetTrackingService with
  | Tracking.LocksAgain => False
  | Tracking.Returned (_, s') =>
      Tracking.getTarget 42 s' = Tracking.Returned (Some track_42, s')
  end.
Proof.
  pose proof (updateTargetInfo_returns_unless_cleanup_is_due track_42
                (λ _, 0%Q) None Tracking.new_TargetTrackingService eq_refl)
    as H.
  cbn zeta in H.
  destruct (Tracking.updateTargetInfo track_42 (λ _, 0%Q) None
              Tracking.new_TargetTrackingService) as [[l s']|].
  - exact (proj2 (proj2 (proj2 (proj2 H)))).
  - vm_compute in H. discriminate H.
Defined.
